(** * A YOLOv3 detector (model.py): shallow embedding and checked properties

    The numeric code of [model.py] is embedded with tensors as lists and
    float32 scalars idealised as real numbers ([R]); where the rounding of
    float32 decides what comes out (the overlap of boxes, [Float32]) a
    scalar is an IEEE 754 binary32 number, and where only the bit image of
    a float matters (the darknet weight files) it is its little-endian
    bytes.  Python exceptions are an explicit [outcome]. *)

From Stdlib Require Import String Ascii.
From Stdlib.Strings Require Import Byte.
From Stdlib Require Import Reals Lra Lia ZArith Bool Psatz List.
From Stdlib Require SpecFloat.
Import ListNotations.

Set Implicit Arguments.

(** ** Python exceptions as an error monad *)

Inductive exn : Set :=
| IndexError | KeyError | TypeError | ValueError
| AttributeError | RuntimeError | AssertionError.

Inductive outcome (A : Type) : Type :=
| Ok (a : A)
| Raise (e : exn).

Arguments Ok {A} a.
Arguments Raise {A} e.

Definition bind {A B : Type} (m : outcome A) (k : A -> outcome B) : outcome B :=
  match m with
  | Ok a => k a
  | Raise e => Raise e
  end.

Declare Scope py_scope.
Delimit Scope py_scope with py.
Notation "x <- m ;; k" := (bind m (fun x => k))
  (at level 61, m at next level, right associativity) : py_scope.
Notation "' p <- m ;; k" := (bind m (fun p => k))
  (at level 61, p pattern, m at next level, right associativity) : py_scope.

Definition is_ok {A : Type} (m : outcome A) : bool :=
  match m with Ok _ => true | Raise _ => false end.

(** ** Python lists *)

(** [l[k]]: a negative index counts from the end. *)
Definition py_index {A : Type} (l : list A) (k : Z) : outcome A :=
  let len := Z.of_nat (length l) in
  let k' := if (k <? 0)%Z then (k + len)%Z else k in
  if ((k' <? 0) || (len <=? k'))%Z then Raise IndexError
  else match nth_error l (Z.to_nat k') with
       | Some a => Ok a
       | None => Raise IndexError
       end.

(** [l[:k]] *)
Definition py_slice_to {A : Type} (l : list A) (k : Z) : list A :=
  if (k <? 0)%Z then firstn (Z.to_nat (Z.of_nat (length l) + k)) l
  else firstn (Z.to_nat k) l.

(** The list [l] with position [i] holding [v]. *)
Definition update {A : Type} (l : list A) (i : nat) (v : A) : list A :=
  firstn i l ++ v :: skipn (S i) l.

(** A flat list cut into rows of [n] elements (the last one may be short);
    [fuel] bounds the number of rows. *)
Fixpoint chunks {A : Type} (fuel : nat) (n : nat) (l : list A) : list (list A) :=
  match fuel with
  | O => []
  | S fuel' =>
      match l with
      | [] => []
      | _ => firstn n l :: chunks fuel' n (skipn n l)
      end
  end.

(** [torch.sigmoid] *)
Definition sigmoid (x : R) : R := (1 / (1 + exp (- x)))%R.

(** ** Box geometry: [bbox_iou] and [wh_iou] *)

(** The two functions read over the real numbers: every operation is
    exact, so what is proved here is proved of the formulas.  The same
    functions with the operations of float32, each one rounded, are in
    [Float32]. *)
Module BoxGeometry.
Local Open Scope R_scope.

(** A float32 division.  Torch never raises on a zero denominator: the
    quotient is then [nan] (0/0) or an infinity.  Signed zeros are not
    distinguished. *)
Inductive tfloat : Type :=
| Fin (r : R)
| PInf
| NInf
| NaN.

Definition tdiv (x y : R) : tfloat :=
  if Req_dec_T y 0 then
    (if Req_dec_T x 0 then NaN else if Rlt_dec 0 x then PInf else NInf)
  else Fin (x / y).

(** [q > t] on a quotient, as IEEE comparison does it: [nan > t] is false. *)
Definition tgt (q : tfloat) (t : R) : bool :=
  match q with
  | Fin r => if Rlt_dec t r then true else false
  | PInf => true
  | NInf => false
  | NaN => false
  end.

(** A division inside a longer expression: [None] records that the
    denominator was zero (the value torch goes on with is then an infinity
    or [nan], and is not followed further). *)
Definition fdiv (x y : R) : option R :=
  match tdiv x y with
  | Fin q => Some q
  | _ => None
  end.

Definition obind {A B : Type} (m : option A) (k : A -> option B) : option B :=
  match m with
  | Some a => k a
  | None => None
  end.

(** The literal [1e-16]. *)
Definition eps16 : R := / 10 ^ 16.

(** [t.clamp(0)]: lower bound only. *)
Definition clamp0 (x : R) : R := Rmax x 0.

(** One box, the four numbers [box[0] .. box[3]]. *)
Record box : Type := Box { b0 : R; b1 : R; b2 : R; b3 : R }.

(** Lines 874-881: the corners [(x1, y1, x2, y2)] of a box. *)
Definition corners (x1y1x2y2 : bool) (b : box) : R * R * R * R :=
  if x1y1x2y2 then (b0 b, b1 b, b2 b, b3 b)
  else (b0 b - b2 b / 2, b1 b - b3 b / 2, b0 b + b2 b / 2, b1 b + b3 b / 2).

(** [bbox_iou] for one pair of boxes; on tensors the same expression is
    evaluated column by column. *)
Definition bbox_iou (box1 box2 : box)
    (x1y1x2y2 g_iou d_iou c_iou : bool) : option R :=
  let '(b1_x1, b1_y1, b1_x2, b1_y2) := corners x1y1x2y2 box1 in
  let '(b2_x1, b2_y1, b2_x2, b2_y2) := corners x1y1x2y2 box2 in
  let inter := clamp0 (Rmin b1_x2 b2_x2 - Rmax b1_x1 b2_x1) *
               clamp0 (Rmin b1_y2 b2_y2 - Rmax b1_y1 b2_y1) in
  let w1 := b1_x2 - b1_x1 in
  let h1 := b1_y2 - b1_y1 in
  let w2 := b2_x2 - b2_x1 in
  let h2 := b2_y2 - b2_y1 in
  let union := (w1 * h1 + eps16) + w2 * h2 - inter in
  obind (fdiv inter union) (fun iou =>
  if g_iou || d_iou || c_iou then
    let cw := Rmax b1_x2 b2_x2 - Rmin b1_x1 b2_x1 in
    let ch := Rmax b1_y2 b2_y2 - Rmin b1_y1 b2_y1 in
    if g_iou then
      let c_area := cw * ch + eps16 in
      obind (fdiv (c_area - union) c_area) (fun q => Some (iou - q))
    else if d_iou || c_iou then
      let c2 := cw ^ 2 + ch ^ 2 + eps16 in
      let rho2 := ((b2_x1 + b2_x2) - (b1_x1 + b1_x2)) ^ 2 / 4 +
                  ((b2_y1 + b2_y2) - (b1_y1 + b1_y2)) ^ 2 / 4 in
      if d_iou then
        obind (fdiv rho2 c2) (fun q => Some (iou - q))
      else if c_iou then
        obind (fdiv w2 h2) (fun r2 =>
        obind (fdiv w1 h1) (fun r1 =>
        let v := (4 / PI ^ 2) * (atan r2 - atan r1) ^ 2 in
        obind (fdiv v (1 - iou + v)) (fun alpha =>
        obind (fdiv rho2 c2) (fun q =>
        Some (iou - (q + v * alpha))))))
      else Some iou
    else Some iou
  else Some iou).

(** [wh_iou]: the n x m matrix of width/height IoUs. *)
Definition wh_iou (wh1 wh2 : list (R * R)) : list (list tfloat) :=
  map (fun a : R * R =>
    map (fun b : R * R =>
      let inter := Rmin (fst a) (fst b) * Rmin (snd a) (snd b) in
      tdiv inter (fst a * snd a + fst b * snd b - inter)) wh2) wh1.

(** A box with non-negative extent in both axes. *)
Definition valid_box (x1y1x2y2 : bool) (b : box) : Prop :=
  let '(x1, y1, x2, y2) := corners x1y1x2y2 b in x1 <= x2 /\ y1 <= y2.

Definition area (x1y1x2y2 : bool) (b : box) : R :=
  let '(x1, y1, x2, y2) := corners x1y1x2y2 b in (x2 - x1) * (y2 - y1).

Definition all_finite (m : list (list tfloat)) : Prop :=
  Forall (Forall (fun q => exists r, q = Fin r)) m.

End BoxGeometry.

(** ** Box geometry in float32 *)

(** The tensors [bbox_iou] and [wh_iou] are called with are float32 (the
    default of torch), and every operation on them rounds.  Here the two
    functions are embedded on binary32 numbers, with the operations of the
    IEEE 754 specification of the standard library. *)
Module Float32.
Import SpecFloat.

(** A float32 is an IEEE 754 binary32 number: 24 bits of precision,
    exponents below 128.  A finite one is [S754_finite s m e], the number
    [(-1)^s * m * 2^e]. *)
Definition float32 : Type := spec_float.
Definition prec : Z := 24.
Definition emax : Z := 128.

(** The four operations, each rounded to the nearest float32, ties to
    even; none raises. *)

Definition fadd : float32 -> float32 -> float32 := SFadd prec emax.
Definition fsub : float32 -> float32 -> float32 := SFsub prec emax.
Definition fmul : float32 -> float32 -> float32 := SFmul prec emax.
Definition fdiv : float32 -> float32 -> float32 := SFdiv prec emax.

(** The float32 nearest to [m * 2^e]. *)
Definition of_scaled (m e : Z) : float32 := binary_normalize prec emax m e false.
Definition zero : float32 := S754_zero false.
Definition one : float32 := of_scaled 1 0.
Definition two : float32 := of_scaled 2 0.
Definition four : float32 := of_scaled 4 0.

(** The literal [1e-16] is the double [0x1.cd2b297d889bcp-54]; added to a
    float32 tensor it is rounded to float32 first. *)
Definition eps16 : float32 := of_scaled 8112963841460668 (-106).

(** [4 / math.pi ** 2] is the double [0x1.9f02f6222c720p-2]. *)
Definition four_over_pi2 : float32 := of_scaled 7300960718341920 (-54).

Definition is_nan (x : float32) : bool :=
  match x with S754_nan => true | _ => false end.

(** [torch.min(a, b)] and [torch.max(a, b)] of two tensors, element by
    element: [nan] if either is, else [b < a ? b : a] and [a < b ? b : a]. *)
Definition fmin (a b : float32) : float32 :=
  if is_nan a || is_nan b then S754_nan else if SFltb b a then b else a.
Definition fmax (a b : float32) : float32 :=
  if is_nan a || is_nan b then S754_nan else if SFltb a b then b else a.

(** [t.clamp(0)]: lower bound only, [nan] stays. *)
Definition clamp0 (x : float32) : float32 :=
  if is_nan x then x else if SFltb x zero then zero else x.

(** [t ** 2]: torch computes the square as [t * t]. *)
Definition sq (x : float32) : float32 := fmul x x.

(** One box, the four numbers [box[0] .. box[3]]. *)
Record box : Type := Box { b0 : float32; b1 : float32; b2 : float32; b3 : float32 }.

(** Lines 874-881: the corners [(x1, y1, x2, y2)] of a box. *)
Definition corners (x1y1x2y2 : bool) (b : box)
  : float32 * float32 * float32 * float32 :=
  if x1y1x2y2 then (b0 b, b1 b, b2 b, b3 b)
  else (fsub (b0 b) (fdiv (b2 b) two), fsub (b1 b) (fdiv (b3 b) two),
        fadd (b0 b) (fdiv (b2 b) two), fadd (b1 b) (fdiv (b3 b) two)).

Section Atan.
(** [torch.atan] on float32; its rounding is left open. *)
Variable atan : float32 -> float32.

(** [bbox_iou] for one pair of boxes of float32 coordinates; on tensors
    the same expression is evaluated column by column. *)
Definition bbox_iou (box1 box2 : box)
    (x1y1x2y2 g_iou d_iou c_iou : bool) : float32 :=
  let '(b1_x1, b1_y1, b1_x2, b1_y2) := corners x1y1x2y2 box1 in
  let '(b2_x1, b2_y1, b2_x2, b2_y2) := corners x1y1x2y2 box2 in
  let inter := fmul (clamp0 (fsub (fmin b1_x2 b2_x2) (fmax b1_x1 b2_x1)))
                    (clamp0 (fsub (fmin b1_y2 b2_y2) (fmax b1_y1 b2_y1))) in
  let w1 := fsub b1_x2 b1_x1 in
  let h1 := fsub b1_y2 b1_y1 in
  let w2 := fsub b2_x2 b2_x1 in
  let h2 := fsub b2_y2 b2_y1 in
  let union := fsub (fadd (fadd (fmul w1 h1) eps16) (fmul w2 h2)) inter in
  let iou := fdiv inter union in
  if g_iou || d_iou || c_iou then
    let cw := fsub (fmax b1_x2 b2_x2) (fmin b1_x1 b2_x1) in
    let ch := fsub (fmax b1_y2 b2_y2) (fmin b1_y1 b2_y1) in
    if g_iou then
      let c_area := fadd (fmul cw ch) eps16 in
      fsub iou (fdiv (fsub c_area union) c_area)
    else if d_iou || c_iou then
      let c2 := fadd (fadd (sq cw) (sq ch)) eps16 in
      let rho2 :=
        fadd (fdiv (sq (fsub (fadd b2_x1 b2_x2) (fadd b1_x1 b1_x2))) four)
             (fdiv (sq (fsub (fadd b2_y1 b2_y2) (fadd b1_y1 b1_y2))) four) in
      if d_iou then fsub iou (fdiv rho2 c2)
      else if c_iou then
        let v := fmul four_over_pi2
                   (sq (fsub (atan (fdiv w2 h2)) (atan (fdiv w1 h1)))) in
        let alpha := fdiv v (fadd (fsub one iou) v) in
        fsub iou (fadd (fdiv rho2 c2) (fmul v alpha))
      else iou
    else iou
  else iou.
End Atan.

(** [wh_iou]: the n x m matrix of width/height IoUs; [prod(2)] of a pair
    is the product of the two. *)
Definition wh_iou (wh1 wh2 : list (float32 * float32)) : list (list float32) :=
  map (fun a : float32 * float32 =>
    map (fun b : float32 * float32 =>
      let inter := fmul (fmin (fst a) (fst b)) (fmin (snd a) (snd b)) in
      fdiv inter (fsub (fadd (fmul (fst a) (snd a)) (fmul (fst b) (snd b))) inter))
      wh2) wh1.

(** The width, height and area of a box as [bbox_iou] computes them. *)
Definition width (x1y1x2y2 : bool) (b : box) : float32 :=
  let '(x1, _, x2, _) := corners x1y1x2y2 b in fsub x2 x1.
Definition height (x1y1x2y2 : bool) (b : box) : float32 :=
  let '(_, y1, _, y2) := corners x1y1x2y2 b in fsub y2 y1.
Definition area (x1y1x2y2 : bool) (b : box) : float32 :=
  fmul (width x1y1x2y2 b) (height x1y1x2y2 b).

(** A float32 of full precision, [m * 2^e] with [2^23 <= m < 2^24]. *)
Definition normal (m : positive) (e : Z) : Prop :=
  Zpos (digits2_pos m) = prec /\ (-149 <= e <= emax - prec)%Z.

End Float32.

(** ** Lists as tensors *)

(** [enumerate]: map with the position of each element. *)
Definition imap {A B : Type} (f : nat -> A -> B) (l : list A) : list B :=
  map (fun ix : nat * A => f (fst ix) (snd ix)) (combine (seq 0 (length l)) l).

(** ** The detection head: [_YOLOLayer] *)

Module YOLOLayer.
Local Open Scope R_scope.

(** A cell is the attribute vector [tx, ty, tw, th, obj, cls...]. *)
Definition cell : Type := list R.
(** (bs, channels, ny, nx), outermost axis first. *)
Definition tensor4 : Type := list (list (list (list R))).
(** (bs, na, ny, nx, no). *)
Definition tensor5 : Type := list (list (list (list cell))).

Definition get4 (p : tensor4) (b c y x : nat) : R :=
  nth x (nth y (nth c (nth b p []) []) []) 0.

(** [p.shape] of a rectangular tensor with at least one image. *)
Definition shape4 (p : tensor4) : nat * nat * nat * nat :=
  (length p, length (hd [] p), length (hd [] (hd [] p)),
   length (hd [] (hd [] (hd [] p)))).

Definition rectangular4 (p : tensor4) (bs ch ny nx : nat) : Prop :=
  length p = bs /\
  Forall (fun img => length img = ch /\
    Forall (fun pl => length pl = ny /\
      Forall (fun row => length row = nx) pl) img) p.

(** The fields of [_YOLOLayer] that [forward] reads or writes; [training] is
    the flag of [nn.Module].  The export mode ([onnx_export]) is off. *)
Record t : Type := Build {
  anchors : list (R * R);
  stride : R;
  num_classes : nat;
  nx : nat;
  ny : nat;
  grid : option (list (list (R * R)));
  training : bool
}.

Definition na (m : t) : nat := length (anchors m).
Definition num_classes_output (m : t) : nat := (num_classes m + 5)%nat.

(** [self.anchor_vec = self.anchors / self.stride], seen as (1, na, 1, 1, 2)
    by [anchor_wh]. *)
Definition anchor_vec (m : t) : list (R * R) :=
  map (fun a : R * R => (fst a / stride m, snd a / stride m)) (anchors m).

(** [torch.meshgrid] of [arange(ny)], [arange(nx)] stacked as (x, y). *)
Definition meshgrid (ny nx : nat) : list (list (R * R)) :=
  map (fun y => map (fun x => (INR x, INR y)) (seq 0 nx)) (seq 0 ny).

(** [create_grids]: the offsets are only built outside training. *)
Definition create_grids (m : t) (ng : nat * nat) : t :=
  {| anchors := anchors m; stride := stride m; num_classes := num_classes m;
     nx := fst ng; ny := snd ng;
     grid := if training m then grid m else Some (meshgrid (snd ng) (fst ng));
     training := training m |}.

(** [p.view(bs, na, no, ny, nx).permute(0, 1, 3, 4, 2).contiguous()]. *)
Definition view_permute (p : tensor4) (bs na no ny nx : nat) : tensor5 :=
  map (fun b =>
    map (fun a =>
      map (fun y =>
        map (fun x =>
          map (fun k => get4 p b (a * no + k) y x) (seq 0 no))
          (seq 0 nx))
        (seq 0 ny))
      (seq 0 na))
    (seq 0 bs).

(** An update of every cell that may look at the (anchor, row, col) of the
    cell: how an operand of shape (1, na, 1, 1, 2) or (1, 1, ny, nx, 2)
    broadcasts. *)
Definition tmap5 (f : nat -> nat -> nat -> cell -> cell) (t5 : tensor5) : tensor5 :=
  map (imap (fun a => imap (fun y => imap (fun x c => f a y x c)))) t5.

(** Broadcast of one axis of the grid against an axis of length [n]. *)
Definition bcast_ok (g n : nat) : bool := (g =? n)%nat || (g =? 1)%nat.
Definition bcast_ix (g i : nat) : nat := if (g =? 1)%nat then O else i.

Definition grid_at (g : list (list (R * R))) (y x : nat) : R * R :=
  let row := nth (bcast_ix (length g) y) g [] in
  nth (bcast_ix (length row) x) row (0, 0).

(** [io[..., :2] = torch.sigmoid(io[..., :2]) + self.grid] *)
Definition set_xy (g : list (list (R * R))) (io : tensor5) : tensor5 :=
  tmap5 (fun _ y x c =>
    match map sigmoid (firstn 2 c) with
    | [sx; sy] => [sx + fst (grid_at g y x); sy + snd (grid_at g y x)]
    | other => other
    end ++ skipn 2 c) io.

(** [io[..., 2:4] = torch.exp(io[..., 2:4]) * self.anchor_wh] *)
Definition set_wh (anchor_wh : list (R * R)) (io : tensor5) : tensor5 :=
  tmap5 (fun a _ _ c =>
    firstn 2 c ++
    match map exp (firstn 2 (skipn 2 c)) with
    | [ew; eh] => [ew * fst (nth a anchor_wh (0, 0)); eh * snd (nth a anchor_wh (0, 0))]
    | other => other
    end ++ skipn 4 c) io.

(** [io[..., :4] *= self.stride] *)
Definition scale_box (s : R) (io : tensor5) : tensor5 :=
  tmap5 (fun _ _ _ c => map (fun v => v * s) (firstn 4 c) ++ skipn 4 c) io.

(** [torch.sigmoid_(io[..., 4:])] *)
Definition sigmoid_tail (io : tensor5) : tensor5 :=
  tmap5 (fun _ _ _ c => firstn 4 c ++ map sigmoid (skipn 4 c)) io.

(** [io.view(bs, -1, no)]: the cells of one image in (anchor, row, col) order. *)
Definition view_rows (io : tensor5) : list (list cell) :=
  map (fun img => concat (map (fun pl => concat pl) img)) io.

Inductive output : Type :=
| Train (p : tensor5)
| Infer (io : list (list cell)) (p : tensor5).

(** [forward], lines 193-228 with [onnx_export] off.  Returns the layer too:
    [create_grids] updates it. *)
Definition forward (m : t) (p : tensor4) : outcome (output * t) :=
  let '(bs, ch, ny', nx') := shape4 p in
  let m := if ((nx m =? nx')%nat && (ny m =? ny')%nat)%bool then m
           else create_grids m (nx', ny') in
  if negb (ch =? na m * num_classes_output m)%nat then Raise RuntimeError
  else
    let p5 := view_permute p bs (na m) (num_classes_output m) (ny m) (nx m) in
    if training m then Ok (Train p5, m)
    else
      match grid m with
      | None => Raise TypeError
      | Some g =>
          if negb (bcast_ok (length g) (ny m) &&
                   forallb (fun row => bcast_ok (length row) (nx m)) g)
          then Raise RuntimeError
          else
            let io := p5 in
            let io := set_xy g io in
            let io := set_wh (anchor_vec m) io in
            let io := scale_box (stride m) io in
            let io := sigmoid_tail io in
            Ok (Infer (view_rows io) p5, m)
      end.

(** The state [forward] can decode in: either the grid is rebuilt, or the
    stored one is the one of the stored dimensions. *)
Definition grid_ready (m : t) (ny' nx' : nat) : Prop :=
  (nx m, ny m) <> (nx', ny') \/ grid m = Some (meshgrid ny' nx').

End YOLOLayer.

(** Reading one cell of a 5-D tensor, and its shape. *)
Definition get5 (t5 : YOLOLayer.tensor5) (b a y x : nat) : YOLOLayer.cell :=
  nth x (nth y (nth a (nth b t5 []) []) []) [].

Definition shaped5 (t5 : YOLOLayer.tensor5) (bs na ny nx : nat) : Prop :=
  length t5 = bs /\
  Forall (fun img => length img = na /\
    Forall (fun pl => length pl = ny /\
      Forall (fun row => length row = nx) pl) img) t5.

(** ** Target assignment: [build_targets] *)

Module Targets.
Import BoxGeometry.
Local Open Scope R_scope.

(** [.long()]: conversion of a float to an integer truncates toward zero. *)
Definition long (x : R) : Z :=
  if Rle_dec 0 x then Int_part x else (- Int_part (- x))%Z.

(** [torch.clamp(x, lo, hi)]. *)
Definition clamp (x lo hi : Z) : Z := Z.min (Z.max x lo) hi.

(** One row of [targets]: (image, class, x, y, w, h). *)
Record target : Type := Target {
  t_img : R; t_cls : R; t_x : R; t_y : R; t_w : R; t_h : R
}.

(** [p[i].shape] of a training output: (bs, na, ny, nx, no). *)
Record shape5 : Type := Shape5 {
  s_bs : nat; s_na : nat; s_ny : nat; s_nx : nat; s_no : nat
}.

(** What [build_targets] reads of the model: the [anchor_vec] of every yolo
    layer in order, the threshold [hyper_parameters_dict["iou_t"]] and
    [num_classes]. *)
Record model : Type := Model {
  yolo_anchor_vec : list (list (R * R));
  iou_t : R;
  num_classes : Z
}.

(** The four entries appended for one yolo layer. *)
Record assignment : Type := Assignment {
  a_indices : list (Z * nat * Z * Z);   (* image, anchor, gridy, gridx *)
  a_tbox : list (R * R * R * R);
  a_anch : list (R * R);
  a_tcls : list Z
}.

(** [targets * gain] with [gain = (1, 1, nx, ny, nx, ny)]. *)
Definition scale_target (sh : shape5) (t : target) : target :=
  {| t_img := t_img t * 1; t_cls := t_cls t * 1;
     t_x := t_x t * INR (s_nx sh); t_y := t_y t * INR (s_ny sh);
     t_w := t_w t * INR (s_nx sh); t_h := t_h t * INR (s_ny sh) |}.

(** [j = wh_iou(anchors, t[:, 4:6]) > iou_t; a, t = at[j], t.repeat(na, 1, 1)[j]]:
    the selected (anchor index, target) pairs, anchor by anchor. *)
Definition match_anchors (anchors : list (R * R)) (t : list target) (thr : R)
    : list (nat * target) :=
  let j := map (map (fun q => tgt q thr))
               (wh_iou anchors (map (fun r => (t_w r, t_h r)) t)) in
  concat (imap (fun a (row : list bool) =>
                  map (fun bt : bool * target => (a, snd bt))
                      (filter (fun bt : bool * target => fst bt) (combine row t)))
               j).

(** The body of the loop for one yolo layer, up to the assertion. *)
Definition assign_layer (anchors : list (R * R)) (sh : shape5)
    (targets : list target) (thr : R) : assignment :=
  let nt := length targets in
  let t := map (scale_target sh) targets in
  let at_ := if (nt =? 0)%nat then [] else match_anchors anchors t thr in
  let cell (r : target) : Z * Z :=
    (* [gij = (gxy - offsets).long()], then clamped in place by [clamp_] *)
    (clamp (long (t_x r - 0)) 0 (long (INR (s_nx sh)) - 1),
     clamp (long (t_y r - 0)) 0 (long (INR (s_ny sh)) - 1)) in
  {| a_indices := map (fun ar : nat * target =>
                    (long (t_img (snd ar)), fst ar,
                     snd (cell (snd ar)), fst (cell (snd ar)))) at_;
     a_tbox := map (fun ar : nat * target =>
                    (t_x (snd ar) - IZR (fst (cell (snd ar))),
                     t_y (snd ar) - IZR (snd (cell (snd ar))),
                     t_w (snd ar), t_h (snd ar))) at_;
     a_anch := map (fun ar : nat * target => nth (fst ar) anchors (0, 0)) at_;
     a_tcls := map (fun ar : nat * target => long (t_cls (snd ar))) at_ |}.

(** [if c.shape[0]: assert c.max() < model.num_classes]. *)
Definition assert_classes (c : list Z) (nc : Z) : outcome unit :=
  match c with
  | [] => Ok tt
  | c0 :: rest =>
      if (fold_left Z.max rest c0 <? nc)%Z then Ok tt else Raise AssertionError
  end.

(** The loop over [enumerate(model.yolo_layers)], from layer [i] on. *)
Fixpoint build_loop (p : list shape5) (targets : list target) (thr : R) (nc : Z)
    (i : nat) (layers : list (list (R * R))) : outcome (list assignment) :=
  match layers with
  | [] => Ok []
  | anchors :: rest =>
      match nth_error p i with
      | None => Raise IndexError
      | Some sh =>
          let a := assign_layer anchors sh targets thr in
          bind (assert_classes (a_tcls a) nc) (fun _ =>
          bind (build_loop p targets thr nc (S i) rest) (fun outs =>
          Ok (a :: outs)))
      end
  end.

(** [build_targets(p, targets, model)]: returns [tcls, tbox, indices, anch]. *)
Definition build_targets (p : list shape5) (targets : list target) (m : model)
    : outcome (list (list Z) * list (list (R * R * R * R)) *
               list (list (Z * nat * Z * Z)) * list (list (R * R))) :=
  bind (build_loop p targets (iou_t m) (num_classes m) 0 (yolo_anchor_vec m))
    (fun outs =>
       Ok (map a_tcls outs, map a_tbox outs, map a_indices outs, map a_anch outs)).

(** Some target matched to an anchor of layer [i] carries class [c]. *)
Definition matched_class (p : list shape5) (targets : list target) (m : model)
    (i : nat) (c : Z) : Prop :=
  exists anchors sh,
    nth_error (yolo_anchor_vec m) i = Some anchors /\
    nth_error p i = Some sh /\
    In c (a_tcls (assign_layer anchors sh targets (iou_t m))).

(** One anchor against one target: the pair is kept when the IoU of their
    shapes exceeds the threshold. *)
Definition single_match (a : R * R) (sh : shape5) (t : target) (thr : R) : bool :=
  let t' := scale_target sh t in
  let inter := Rmin (fst a) (t_w t') * Rmin (snd a) (t_h t') in
  tgt (tdiv inter (fst a * snd a + t_w t' * t_h t' - inter)) thr.

End Targets.

(** ** Weighted residual fusion: [_WeightedFeatureFusion] *)

Module WeightedFeatureFusion.
Local Open Scope R_scope.

Section Planes.
(** A tensor (bs, channels, h, w) is kept as the list of its channels; a
    [plane] is everything of one channel, with torch's elementwise sum and
    product by a scalar. *)
Variable plane : Type.
Variable padd : plane -> plane -> plane.
Variable pscale : R -> plane -> plane.

Definition tensor : Type := list plane.

(** Tensors are objects: [x[:, :na] = ...] writes into the object that [x]
    names, and [out] may hold the same object.  The store maps an object
    identity (a position) to its current value. *)
Definition heap : Type := list tensor.

(** An entry of [out]: a tensor, or the placeholder [[]] of a layer whose
    output is not routed. *)
Inductive pyobj : Type :=
| TensorRef (l : nat)
| EmptyList.

Record t : Type := Build {
  layers : list Z;      (* layer indices *)
  weight : bool;        (* apply weights boolean *)
  w : list R            (* the parameter [self.w], read when [weight] *)
}.

(** [self.n = len(layers) + 1] *)
Definition n (m : t) : nat := S (length (layers m)).

Definition deref (h : heap) (l : nat) : outcome tensor :=
  match nth_error h l with
  | Some v => Ok v
  | None => Raise RuntimeError
  end.

Definition getw (wv : list R) (i : nat) : outcome R :=
  match nth_error wv i with
  | Some v => Ok v
  | None => Raise IndexError
  end.

(** Elementwise sum of two tensors of the same channel count. *)
Definition tadd (x a : tensor) : tensor :=
  map (fun xa : plane * plane => padd (fst xa) (snd xa)) (combine x a).

(** [t * s] for a scalar [s]: a new tensor. *)
Definition tscale (s : R) (x : tensor) : tensor := map (pscale s) x.

(** The body of [for i in range(self.n - 1)], from source [i] on; [x] names
    the running tensor, [nx] is [x.shape[1]] read before the loop. *)
Fixpoint fuse_loop (weighted : bool) (wv : list R) (outputs : list pyobj)
    (nx : nat) (i : nat) (ls : list Z) (x : nat) (h : heap)
    : outcome (nat * heap) :=
  match ls with
  | [] => Ok (x, h)
  | l :: rest =>
      bind (py_index outputs l) (fun o =>
      bind (match o with
            | EmptyList => Raise (if weighted then TypeError else AttributeError)
            | TensorRef la =>
                if weighted then
                  bind (deref h la) (fun av =>
                  bind (getw wv (i + 1)) (fun wi =>
                  Ok (length h, h ++ [tscale wi av])))
                else Ok (la, h)
            end) (fun ah =>
      let '(a, h) := ah in
      bind (deref h a) (fun av =>
      bind (deref h x) (fun xv =>
      let na := length av in
      let '(x, h) :=
        if (nx =? na)%nat then (length h, h ++ [tadd xv av])
        else if (na <? nx)%nat then
          (x, update h x (tadd (firstn na xv) av ++ skipn na xv))
        else (length h, h ++ [tadd xv (firstn nx av)]) in
      fuse_loop weighted wv outputs nx (S i) rest x h))))
  end.

(** [forward(x, outputs)], lines 319-339. *)
Definition forward (m : t) (h : heap) (x : nat) (outputs : list pyobj)
    : outcome (nat * heap) :=
  let wv := map (fun wi => sigmoid wi * (2 / INR (n m))) (w m) in
  bind (deref h x) (fun xv =>
  bind (if weight m then
          bind (getw wv 0) (fun w0 => Ok (length h, h ++ [tscale w0 xv]))
        else Ok (x, h)) (fun xh =>
  let '(x, h) := xh in
  let nx := length xv in
  fuse_loop (weight m) wv outputs nx 0 (layers m) x h)).

(** *** The fusion as the specification words it *)

(** One source added into the running tensor: the same channel count is
    added elementwise, fewer channels go into the leading channels, more
    channels are truncated first. *)
Definition add_source (x a : tensor) : tensor :=
  if (length a =? length x)%nat then tadd x a
  else if (length a <? length x)%nat then
    tadd (firstn (length a) x) a ++ skipn (length a) x
  else tadd x (firstn (length x) a).

(** Source [i] of [cnt] (the running tensor is source 0) scaled by
    [sigmoid(w_i) * 2 / cnt] when weighting is on. *)
Definition weigh (weighted : bool) (ws : list R) (cnt i : nat) (v : tensor) : tensor :=
  if weighted then tscale (sigmoid (nth i ws 0) * (2 / INR cnt)) v else v.

Fixpoint add_sources (weighted : bool) (ws : list R) (cnt i : nat)
    (acc : tensor) (srcs : list tensor) : tensor :=
  match srcs with
  | [] => acc
  | s :: rest =>
      add_sources weighted ws cnt (S i)
        (add_source acc (weigh weighted ws cnt i s)) rest
  end.

Definition fusion_spec (weighted : bool) (ws : list R) (x : tensor)
    (srcs : list tensor) : tensor :=
  let cnt := S (length srcs) in
  add_sources weighted ws cnt 1 (weigh weighted ws cnt 0 x) srcs.

(** *** The fusion channel by channel, on planes alone *)

(** The factor of source [i] of [cnt]: [sigmoid(w_i) * 2 / cnt]. *)
Definition factor (ws : list R) (cnt i : nat) : R :=
  sigmoid (nth i ws 0) * (2 / INR cnt).

(** A plane of source [i] as it enters the sum. *)
Definition weighed_plane (weighted : bool) (ws : list R) (cnt i : nat)
    (c : plane) : plane :=
  if weighted then pscale (factor ws cnt i) c else c.

(** Channel [k] of the result, starting from the plane [acc] of the running
    tensor: each source, from source [i] on, adds its channel [k] if it has
    one.  A source with fewer channels leaves the channels it lacks as they
    are; of a source with more channels only those of the running tensor
    are ever asked for. *)
Fixpoint fused_channel (weighted : bool) (ws : list R) (cnt i k : nat)
    (acc : plane) (srcs : list tensor) : plane :=
  match srcs with
  | [] => acc
  | s :: rest =>
      fused_channel weighted ws cnt (S i) k
        (match nth_error s k with
         | Some c => padd acc (weighed_plane weighted ws cnt i c)
         | None => acc
         end) rest
  end.

(** Source [l] names the tensor [sv] of the store. *)
Definition resolves (h : heap) (outputs : list pyobj) (l : Z) (sv : tensor) : Prop :=
  exists loc, py_index outputs l = Ok (TensorRef loc) /\ nth_error h loc = Some sv.

End Planes.
End WeightedFeatureFusion.

(** ** Layer specifications and modules *)

Module Layers.
Local Open Scope Z_scope.

(** A key of a Python dict; [parse_model_config] only stores [str] keys. *)
Inductive pykey : Type :=
| KStr (s : string)
| KInt (z : Z).

(** What [parse_model_config] stores as a value: an int ([val.isnumeric()]),
    the string itself, a list of ints ([from], [layers], [mask], a [size]
    with a comma) or the (n, 2) array of [anchors]. *)
Inductive pyval : Type :=
| VInt (z : Z)
| VStr (s : string)
| VList (l : list Z)
| VArray (a : list (R * R)).

Definition dict : Type := list (pykey * pyval).

Definition key_eqb (a b : pykey) : bool :=
  match a, b with
  | KStr s, KStr t => String.eqb s t
  | KInt x, KInt y => (x =? y)
  | _, _ => false
  end.

(** [k in d] *)
Definition contains (d : dict) (k : pykey) : bool :=
  existsb (fun kv => key_eqb (fst kv) k) d.

(** [d[k]] *)
Definition getitem (d : dict) (k : pykey) : outcome pyval :=
  match find (fun kv => key_eqb (fst kv) k) d with
  | Some kv => Ok (snd kv)
  | None => Raise KeyError
  end.

(** [v == "s"] *)
Definition is_str (v : pyval) (s : string) : bool :=
  match v with
  | VStr t => String.eqb t s
  | _ => false
  end.

(** [v == z] for an int literal *)
Definition is_int (v : pyval) (z : Z) : bool :=
  match v with
  | VInt y => (y =? z)
  | _ => false
  end.

(** Truth value of [v]; an array of more than one element has none. *)
Definition truthy (v : pyval) : outcome bool :=
  match v with
  | VInt z => Ok (negb (z =? 0))
  | VStr s => Ok (negb (String.eqb s ""))
  | VList l => Ok (match l with [] => false | _ => true end)
  | VArray [] => Ok false
  | VArray _ => Raise ValueError
  end.

(** The stride handed to [nn.Conv2d]: [module["stride"]] or the pair
    [(module["stride_y"], module["stride_x"])]; the constructor keeps it
    without looking at it. *)
Inductive stride_t : Type :=
| StrideOne (v : pyval)
| StrideYX (y x : pyval).

Inductive activation : Type :=
| LeakyReLU      (* nn.LeakyReLU(0.1, inplace=True) *)
| Hardswish
| Mish.

(** [nn.Conv2d]; the weight of shape (out, in / groups, k, k) is kept flat.
    Dilation is never set in this program. *)
Record Conv2d (F : Type) : Type := MkConv2d {
  in_channels : Z;
  out_channels : Z;
  kernel_size : Z;
  stride : stride_t;
  padding : Z;
  groups : Z;
  weight : list F;
  bias : option (list F)
}.

(** [nn.BatchNorm2d] *)
Record BatchNorm2d (F : Type) : Type := MkBatchNorm2d {
  num_features : Z;
  eps : R;
  momentum : R;
  bn_weight : list F;
  bn_bias : list F;
  running_mean : list F;
  running_var : list F
}.

Inductive module (F : Type) : Type :=
| MConv2d (c : Conv2d F)
| MBatchNorm2d (b : BatchNorm2d F)
| MActivation (a : activation)
| MZeroPad2d
| MMaxPool2d (kernel : Z) (stride : pyval) (padding : Z)
| MUpsample (scale_factor : option R)
| MFeatureConcat (layers : list Z)
| MWeightedFeatureFusion (f : WeightedFeatureFusion.t)
| MYOLOLayer (y : YOLOLayer.t) (index : Z) (layers : list Z)
| MDropout (p : R)
| MSequential (ms : list (module F)).

Arguments MActivation {F} a.
Arguments MZeroPad2d {F}.
Arguments MMaxPool2d {F} kernel stride padding.
Arguments MUpsample {F} scale_factor.
Arguments MFeatureConcat {F} layers.
Arguments MWeightedFeatureFusion {F} f.
Arguments MYOLOLayer {F} y index layers.
Arguments MDropout {F} p.
Arguments MSequential {F} ms.

(** [module[i]] on a module: only an [nn.Sequential] is subscriptable. *)
Definition subscript {F : Type} (m : module F) (i : Z) : outcome (module F) :=
  match m with
  | MSequential ms => py_index ms i
  | _ => Raise TypeError
  end.

End Layers.

(** ** Graph construction: [_create_modules] *)

Module Builder.
Import Layers.
Local Open Scope string_scope.
Local Open Scope list_scope.
Local Open Scope Z_scope.

(** What construction takes from torch and Python: [float(s)] of a string
    ([None] when it raises) and the random initial values of a convolution
    (per layer and element count). *)
Record torch_env : Type := TorchEnv {
  float_of_str : string -> option R;
  conv_weight_init : nat -> nat -> list R;
  conv_bias_init : nat -> nat -> list R
}.

Definition geti (d : dict) (s : string) : outcome pyval := getitem d (KStr s).
Definition has (d : dict) (s : string) : bool := contains d (KStr s).

(** [p in s] for strings. *)
Fixpoint is_infix (p s : string) : bool :=
  (String.prefix p s ||
   match s with
   | EmptyString => false
   | String _ s' => is_infix p s'
   end)%bool.

(** [nn.Conv2d(in_channels, out_channels, kernel_size, stride, padding,
    groups, bias)]: the checks of the constructor, then the parameters. *)
Definition Conv2d_new (env : torch_env) (i : nat) (in_ch : Z) (out : pyval)
    (k : Z) (st : stride_t) (pad : Z) (g : pyval) (with_bias : bool)
    : outcome (Conv2d R) :=
  match g, out with
  | VInt g, VInt out =>
      if g <=? 0 then Raise ValueError
      else if negb (in_ch mod g =? 0) then Raise ValueError
      else if negb (out mod g =? 0) then Raise ValueError
      else if ((out <? 0) || (in_ch / g <? 0) || (k <? 0))%bool
      then Raise RuntimeError
      else
        Ok {| in_channels := in_ch; out_channels := out; kernel_size := k;
              stride := st; padding := pad; groups := g;
              weight := conv_weight_init env i
                          (Z.to_nat (out * (in_ch / g) * k * k));
              bias := if with_bias
                      then Some (conv_bias_init env i (Z.to_nat out))
                      else None |}
  | _, _ => Raise TypeError
  end.

(** [nn.BatchNorm2d(filters, momentum=0.03, eps=1E-4)] *)
Definition BatchNorm2d_new (nf : Z) : outcome (BatchNorm2d R) :=
  if nf <? 0 then Raise RuntimeError
  else Ok {| num_features := nf; eps := (/ 10 ^ 4)%R; momentum := (3 / 100)%R;
             bn_weight := repeat 1%R (Z.to_nat nf);
             bn_bias := repeat 0%R (Z.to_nat nf);
             running_mean := repeat 0%R (Z.to_nat nf);
             running_var := repeat 1%R (Z.to_nat nf) |}.

(** The state of the loop of [_create_modules]. *)
Record bstate : Type := BState {
  output_filters : list Z;
  routs : list Z;
  yolo_index : Z;
  filters : Z;
  log : list string
}.

(** Lines 466-468, what the smart bias initialisation computes from the
    bias [bias_] of the convolution before a yolo layer:
    [bias = bias_[:no * na].view(na, -1); bias[:, 4] += -4.5;
     bias[:, 5:] += math.log(0.6 / (nc - 0.99))], written through the view. *)
Definition smart_bias_row (nc : Z) (row : list R) : list R :=
  imap (fun k v =>
          if (k =? 4)%nat then (v + - (45 / 10))%R
          else if (5 <=? k)%nat then (v + ln (6 / 10 / (IZR nc - 99 / 100)))%R
          else v) row.

Definition smart_bias (na no nc : Z) (bias_ : list R) : list R :=
  let head := firstn (Z.to_nat (no * na)) bias_ in
  let rows := chunks (length head) (length head / Z.to_nat na)%nat head in
  concat (map (smart_bias_row nc) rows) ++ skipn (Z.to_nat (no * na)) bias_.

(** Lines 460-471, the [try] block.  [module_define[j]] is a block of the
    configuration (a dict): its class is not [Dropout], [module_define[j][0]]
    looks the key [0] up in it, and no value of a block has a [bias], so
    lines 466-469 are never reached. *)
Definition smart_bias_try (module_define : list dict) (md : dict)
    (layers : pyval) (yolo_index : Z) : outcome unit :=
  bind (if has md "from" then
          match layers with
          | VList ls => py_index ls yolo_index
          | _ => Raise TypeError
          end
        else Ok (-1)) (fun j =>
  bind (py_index module_define j) (fun d =>
  bind (getitem d (KInt 0)) (fun _ =>
  Raise AttributeError))).

(** [i + l if l < 0 else l] *)
Definition rout_index (i : nat) (l : Z) : Z :=
  if l <? 0 then Z.of_nat i + l else l.

(** One iteration of the loop, lines 373-481, on block [md] at index [i]:
    the module appended and the new state.  [onnx_export] is off. *)
Definition create_module (env : torch_env) (module_define : list dict)
    (model_config : string) (i : nat) (md : dict) (st : bstate)
    : outcome (module R * bstate) :=
  bind (geti md "type") (fun ty =>
  if is_str ty "convolutional" then
    bind (geti md "batch_normalize") (fun bnv =>
    bind (geti md "filters") (fun fv =>
    bind (geti md "size") (fun k =>
    bind (if has md "stride" then bind (geti md "stride") (fun s => Ok (StrideOne s))
          else bind (geti md "stride_y") (fun sy =>
               bind (geti md "stride_x") (fun sx => Ok (StrideYX sy sx)))) (fun stride =>
    bind (match k with
          | VInt kz =>
              bind (py_index (output_filters st) (-1)) (fun in_ch =>
              bind (geti md "pad") (fun padv =>
              bind (truthy padv) (fun pad =>
              bind (if has md "groups" then geti md "groups" else Ok (VInt 1)) (fun g =>
              bind (truthy bnv) (fun bn =>
              Conv2d_new env i in_ch fv kz stride (if pad then kz / 2 else 0) g
                         (negb bn))))))
          | _ =>
              (* [_MixConv2d]: its [nn.ModuleList] call unpacks the branches into
                 positional arguments, a TypeError *)
              Raise TypeError
          end) (fun conv =>
    bind (truthy bnv) (fun bn =>
    bind (if bn then bind (BatchNorm2d_new (out_channels conv))
                       (fun b => Ok [MBatchNorm2d b])
          else Ok []) (fun bnm =>
    bind (geti md "activation") (fun act =>
    let actm := if is_str act "leaky" then [MActivation LeakyReLU]
                else if is_str act "swish" then [MActivation Hardswish]
                else if is_str act "mish" then [MActivation Mish]
                else [] in
    Ok (MSequential (MConv2d conv :: bnm ++ actm),
        {| output_filters := output_filters st;
           routs := if bn then routs st else routs st ++ [Z.of_nat i];
           yolo_index := yolo_index st;
           filters := out_channels conv;
           log := log st |})))))))))
  else if is_str ty "BatchNorm2d" then
    bind (py_index (output_filters st) (-1)) (fun f =>
    bind (BatchNorm2d_new f) (fun b =>
    let b' := if ((i =? 0)%nat && (f =? 3))%bool then
                {| num_features := num_features b; eps := eps b;
                   momentum := momentum b; bn_weight := bn_weight b;
                   bn_bias := bn_bias b;
                   running_mean := [485 / 1000; 456 / 1000; 406 / 1000]%R;
                   running_var := [524 / 10000; 502 / 10000; 506 / 10000]%R |}
              else b in
    Ok (MBatchNorm2d b',
        {| output_filters := output_filters st; routs := routs st;
           yolo_index := yolo_index st; filters := f; log := log st |})))
  else if is_str ty "maxpool" then
    bind (geti md "size") (fun k =>
    bind (geti md "stride") (fun s =>
    match k with
    | VInt kz =>
        let maxpool := MMaxPool2d kz s ((kz - 1) / 2) in
        Ok (if ((kz =? 2) && is_int s 1)%bool
            then MSequential [MZeroPad2d; maxpool] else maxpool, st)
    | _ => Raise TypeError
    end))
  else if is_str ty "upsample" then
    bind (geti md "stride") (fun s =>
    bind (truthy s) (fun nonzero =>
    bind (if nonzero then
            match s with
            | VInt z => Ok (Some (IZR z))
            | VStr t => match float_of_str env t with
                        | Some r => Ok (Some r)
                        | None => Raise ValueError
                        end
            | _ => Raise TypeError
            end
          else Ok None) (fun sf =>
    Ok (MUpsample sf, st))))
  else if is_str ty "route" then
    bind (geti md "layers") (fun lv =>
    match lv with
    | VList layers =>
        bind ((fix sum (ls : list Z) : outcome Z :=
                 match ls with
                 | [] => Ok 0
                 | l :: ls' =>
                     bind (py_index (output_filters st)
                                    (if 0 <? l then l + 1 else l)) (fun f =>
                     bind (sum ls') (fun s => Ok (f + s)))
                 end) layers) (fun f =>
        Ok (MFeatureConcat layers,
            {| output_filters := output_filters st;
               routs := routs st ++ map (rout_index i) layers;
               yolo_index := yolo_index st; filters := f; log := log st |}))
    | _ => Raise TypeError
    end)
  else if is_str ty "shortcut" then
    bind (geti md "from") (fun lv =>
    bind (py_index (output_filters st) (-1)) (fun f =>
    match lv with
    | VList layers =>
        Ok (MWeightedFeatureFusion
              (WeightedFeatureFusion.Build layers (has md "weights_type")
                 (if has md "weights_type"
                  then repeat 0%R (S (length layers)) else [])),
            {| output_filters := output_filters st;
               routs := routs st ++ map (rout_index i) layers;
               yolo_index := yolo_index st; filters := f; log := log st |})
    | _ => Raise TypeError
    end))
  else if is_str ty "reorg3d" then
    Ok (MSequential [], st)
  else if is_str ty "yolo" then
    let yi := yolo_index st + 1 in
    let strides := if (is_infix "panet" model_config ||
                       is_infix "yolov4" model_config ||
                       is_infix "cd53" model_config)%bool
                   then [8; 16; 32] else [32; 16; 8] in
    bind (if has md "from" then geti md "from" else Ok (VList [])) (fun layers =>
    bind (geti md "anchors") (fun av =>
    bind (geti md "mask") (fun mv =>
    bind (match av, mv with
          | VArray arr, VList mask =>
              (fix pick (ms : list Z) : outcome (list (R * R)) :=
                 match ms with
                 | [] => Ok []
                 | m :: ms' =>
                     bind (py_index arr m) (fun a =>
                     bind (pick ms') (fun rest => Ok (a :: rest)))
                 end) mask
          | _, _ => Raise TypeError
          end) (fun anchors =>
    bind (geti md "classes") (fun cv =>
    bind (py_index strides yi) (fun stride =>
    match layers, cv with
    | VList ls, VInt nc =>
        if nc <? 0 then Raise TypeError
        else
          let yolo :=
            {| YOLOLayer.anchors := anchors; YOLOLayer.stride := IZR stride;
               YOLOLayer.num_classes := Z.to_nat nc;
               YOLOLayer.nx := 0; YOLOLayer.ny := 0;
               YOLOLayer.grid := None; YOLOLayer.training := true |} in
          let log' :=
            match smart_bias_try module_define md layers yi with
            | Ok _ => log st
            | Raise _ => log st ++ ["WARNING: smart bias initialization failure."]
            end in
          Ok (MYOLOLayer yolo yi ls,
              {| output_filters := output_filters st; routs := routs st;
                 yolo_index := yi; filters := filters st; log := log' |})
    | _, _ => Raise TypeError
    end))))))
  else if is_str ty "dropout" then
    bind (geti md "probability") (fun pv =>
    bind (match pv with
          | VInt z => Ok (IZR z)
          | VStr t => match float_of_str env t with
                      | Some r => Ok r
                      | None => Raise ValueError
                      end
          | _ => Raise TypeError
          end) (fun perc =>
    if Rlt_dec perc 0 then Raise ValueError
    else if Rlt_dec 1 perc then Raise ValueError
    else Ok (MDropout perc, st)))
  else
    match ty with
    | VStr t =>
        Ok (MSequential [],
            {| output_filters := output_filters st; routs := routs st;
               yolo_index := yolo_index st; filters := filters st;
               log := log st ++ [("Warning: Unrecognized Layer Type: " ++ t)%string] |})
    | _ => Raise TypeError
    end).

(** The loop [for i, module in enumerate(module_define)] from index [i] on;
    each pass appends the module and [filters]. *)
Fixpoint create_loop (env : torch_env) (module_define : list dict)
    (model_config : string) (i : nat) (rest : list dict) (st : bstate)
    : outcome (list (module R) * bstate) :=
  match rest with
  | [] => Ok ([], st)
  | md :: rest' =>
      bind (create_module env module_define model_config i md st) (fun ms =>
      let '(m, st1) := ms in
      let st2 := {| output_filters := output_filters st1 ++ [filters st1];
                    routs := routs st1; yolo_index := yolo_index st1;
                    filters := filters st1; log := log st1 |} in
      bind (create_loop env module_define model_config (S i) rest' st2) (fun r =>
      Ok (m :: fst r, snd r)))
  end.

(** [routs_binary[i] = True] *)
Definition set_true (rb : list bool) (i : Z) : outcome (list bool) :=
  let len := Z.of_nat (length rb) in
  let k := if i <? 0 then i + len else i in
  if ((k <? 0) || (len <=? k))%bool then Raise IndexError
  else Ok (update rb (Z.to_nat k) true).

Fixpoint set_routs (rb : list bool) (rs : list Z) : outcome (list bool) :=
  match rs with
  | [] => Ok rb
  | i :: rs' => bind (set_true rb i) (fun rb' => set_routs rb' rs')
  end.

(** [_create_modules(module_define, image_size, model_config, gray)] with
    [onnx_export] off: the module list, [routs_binary] and what was
    printed.  [module_define.pop(0)] drops the hyper-parameter block. *)
Definition _create_modules (env : torch_env) (module_define : list dict)
    (model_config : string) (gray : bool)
    : outcome (list (module R) * list bool * list string) :=
  match module_define with
  | [] => Raise IndexError
  | _ :: module_define =>
      let st0 := {| output_filters := if gray then [1] else [3];
                    routs := []; yolo_index := -1; filters := 3; log := [] |} in
      bind (create_loop env module_define model_config 0 module_define st0)
        (fun r =>
      let '(module_list, st) := r in
      (* [i] is the index of the last pass, 0 when there was none *)
      let i := (length module_define - 1)%nat in
      bind (set_routs (repeat false (i + 1)) (routs st)) (fun routs_binary =>
      Ok (module_list, routs_binary, log st)))
  end.

(** The sources a node reads, as positions in the module list. *)
Definition sources (i : nat) (m : module R) : list Z :=
  match m with
  | MFeatureConcat layers => map (rout_index i) layers
  | MWeightedFeatureFusion f =>
      map (rout_index i) (WeightedFeatureFusion.layers f)
  | _ => []
  end.

(** No node reads the output of a node at an equal or later index. *)
Definition no_forward_refs (ml : list (module R)) : Prop :=
  forall i m l, nth_error ml i = Some m -> In l (sources i m) ->
                (0 <= l < Z.of_nat i).

(** The field names [parse_model_config] accepts. *)
Definition supported : list string :=
  ["type"; "batch_normalize"; "filters"; "size"; "stride"; "pad"; "activation";
   "layers"; "groups"; "from"; "mask"; "anchors"; "classes"; "num"; "jitter";
   "ignore_thresh"; "truth_thresh"; "random"; "stride_x"; "stride_y";
   "weights_type"; "weights_normalization"; "scale_x_y"; "beta_nms";
   "nms_kind"; "iou_loss"; "iou_normalizer"; "cls_normalizer"; "iou_thresh";
   "probability"].

(** A block as [parse_model_config] builds it: string keys from the
    supported set, the array under [anchors] only, lists of ints under
    [from], [layers], [mask] (and [size]) only, ints non-negative. *)
Definition parsed_entry (kv : pykey * pyval) : Prop :=
  match kv with
  | (KStr k, VArray _) => k = "anchors"
  | (KStr k, VList _) => k = "from" \/ k = "layers" \/ k = "mask" \/ k = "size"
  | (KStr k, VInt z) =>
      0 <= z /\ k <> "anchors" /\ k <> "from" /\ k <> "layers" /\ k <> "mask"
  | (KStr k, VStr _) =>
      k <> "anchors" /\ k <> "from" /\ k <> "layers" /\ k <> "mask"
  | (KInt _, _) => False
  end.

Definition parsed_block (d : dict) : Prop :=
  Forall (fun kv => parsed_entry kv /\
                    exists k, fst kv = KStr k /\ In k supported) d.

End Builder.

(** ** Conv + batch-norm fusion: [_fuse_conv_and_bn], [Darknet.fuse] *)

Module Fuse.
Import Layers.
Local Open Scope R_scope.

Definition matrix : Type := list (list R).

(** [torch.diag(v)] *)
Definition diag (v : list R) : matrix :=
  imap (fun i x => imap (fun j (_ : R) => if (i =? j)%nat then x else 0) v) v.

Definition dot (u v : list R) : R :=
  fold_right Rplus 0 (map (fun p : R * R => fst p * snd p) (combine u v)).

Definition column (j : nat) (b : matrix) : list R := map (fun r => nth j r 0) b.

(** [torch.mm(a, b)] of an (n x m) and an (m x p) matrix given by rows. *)
Definition mm (a b : matrix) : outcome matrix :=
  if forallb (fun row => (length row =? length b)%nat) a then
    Ok (map (fun row =>
               map (fun j => dot row (column j b)) (seq 0 (length (hd [] b)))) a)
  else Raise RuntimeError.

(** [w.view(rows, -1)] of a flat tensor. *)
Definition view_rows (rows : Z) (w : list R) : outcome matrix :=
  if (rows <=? 0)%Z then Raise RuntimeError
  else if negb (length w mod Z.to_nat rows =? 0)%nat then Raise RuntimeError
  else
    let rowlen := (length w / Z.to_nat rows)%nat in
    Ok (map (fun o => firstn rowlen (skipn (o * rowlen) w))
            (seq 0 (Z.to_nat rows))).

(** [m.view(size)]: the same elements, when there are as many. *)
Definition view_flat (m : matrix) (numel : Z) : outcome (list R) :=
  if (Z.of_nat (length (concat m)) =? numel)%Z then Ok (concat m)
  else Raise RuntimeError.

(** Elementwise operations on the vectors of a batch-norm layer. *)
Definition vmap2 (f : R -> R -> R) (u v : list R) : list R :=
  map (fun p : R * R => f (fst p) (snd p)) (combine u v).

(** [_fuse_conv_and_bn(conv, bn)], lines 775-797.  The fused convolution is
    built from [in_channels], [out_channels], [kernel_size], [stride] and
    [padding] only: its [groups] is the default 1. *)
Definition _fuse_conv_and_bn (conv : Conv2d R) (bn : BatchNorm2d R)
    : outcome (Conv2d R) :=
  let cin := in_channels conv in
  let cout := out_channels conv in
  let k := kernel_size conv in
  (* the weight of the new layer has shape (out, in, k, k) *)
  let fused_numel := (cout * cin * k * k)%Z in
  bind (view_rows cout (weight conv)) (fun w_conv =>
  let w_bn := diag (vmap2 Rdiv (bn_weight bn)
                      (map (fun v => sqrt (eps bn + v)) (running_var bn))) in
  bind (mm w_bn w_conv) (fun w =>
  bind (view_flat w fused_numel) (fun fused_weight =>
  let b_conv := match bias conv with
                | Some b => b
                | None => repeat 0 (Z.to_nat cout)
                end in
  let b_bn := vmap2 Rminus (bn_bias bn)
                (vmap2 Rdiv (vmap2 Rmult (bn_weight bn) (running_mean bn))
                   (map (fun v => sqrt (v + eps bn)) (running_var bn))) in
  bind (mm w_bn (map (fun b => [b]) b_conv)) (fun wb =>
  if negb (length (concat wb) =? length b_bn)%nat then Raise RuntimeError
  else if negb (Z.of_nat (length b_bn) =? cout)%Z then Raise RuntimeError
  else
    Ok {| in_channels := cin; out_channels := cout; kernel_size := k;
          stride := stride conv; padding := padding conv; groups := 1;
          weight := fused_weight;
          bias := Some (vmap2 Rplus (concat wb) b_bn) |})))).

Definition is_batchnorm (m : module R) : bool :=
  match m with MBatchNorm2d _ => true | _ => false end.

(** Position of the first batch-norm layer of a sequence. *)
Fixpoint first_bn (i : nat) (a : list (module R)) : option (nat * BatchNorm2d R) :=
  match a with
  | [] => None
  | MBatchNorm2d b :: _ => Some (i, b)
  | _ :: a' => first_bn (S i) a'
  end.

(** The body of the loop of [Darknet.fuse] for one child [a]. *)
Definition fuse_child (a : module R) : outcome (module R) :=
  match a with
  | MSequential ms =>
      match first_bn 0 ms with
      | Some (i, b) =>
          bind (py_index ms (Z.of_nat i - 1)) (fun prev =>
          match prev with
          | MConv2d conv =>
              bind (_fuse_conv_and_bn conv b) (fun fused =>
              Ok (MSequential (MConv2d fused :: skipn (S i) ms)))
          | _ => Raise AttributeError
          end)
      | None => Ok a
      end
  | _ => Ok a
  end.

(** [Darknet.fuse]: the new [module_list]. *)
Fixpoint fuse (module_list : list (module R)) : outcome (list (module R)) :=
  match module_list with
  | [] => Ok []
  | a :: rest =>
      bind (fuse_child a) (fun a' =>
      bind (fuse rest) (fun rest' => Ok (a' :: rest')))
  end.

Section ConvSemantics.
(** What torch computes with a convolution: for an input, an output channel
    and an output position, the values under the kernel (the patch, given by
    the geometry of the layer, its groups included) are multiplied with the
    row of the weight of that channel. *)
Variable input : Type.
Variable position : Type.
Variable patch : Z -> Z -> stride_t -> Z -> Z -> input -> nat -> position -> list R.

Definition weight_row (c : Conv2d R) (o : nat) : list R :=
  let rowlen := Z.to_nat (in_channels c / groups c * kernel_size c * kernel_size c) in
  firstn rowlen (skipn (o * rowlen) (weight c)).

Definition conv_forward (c : Conv2d R) (x : input) (o : nat) (pos : position) : R :=
  dot (weight_row c o)
      (patch (in_channels c) (kernel_size c) (stride c) (padding c) (groups c)
             x o pos) +
  match bias c with
  | Some b => nth o b 0
  | None => 0
  end.

(** [nn.BatchNorm2d] in evaluation mode, on channel [o]. *)
Definition bn_forward (b : BatchNorm2d R) (o : nat) (y : R) : R :=
  (y - nth o (running_mean b) 0) / sqrt (nth o (running_var b) 0 + eps b) *
  nth o (bn_weight b) 0 + nth o (bn_bias b) 0.

End ConvSemantics.

(** A convolution and a batch-norm layer of matching sizes. *)
Definition well_shaped (c : Conv2d R) (b : BatchNorm2d R) : Prop :=
  (0 < out_channels c)%Z /\ (0 <= in_channels c)%Z /\ (0 <= kernel_size c)%Z /\
  (0 < groups c)%Z /\
  length (weight c) =
    (Z.to_nat (out_channels c) *
     Z.to_nat (in_channels c / groups c * kernel_size c * kernel_size c))%nat /\
  match bias c with
  | Some bv => length bv = Z.to_nat (out_channels c)
  | None => True
  end /\
  length (bn_weight b) = Z.to_nat (out_channels c) /\
  length (bn_bias b) = Z.to_nat (out_channels c) /\
  length (running_mean b) = Z.to_nat (out_channels c) /\
  length (running_var b) = Z.to_nat (out_channels c) /\
  Forall (fun v => 0 < v + eps b) (running_var b).

End Fuse.

(** ** Darknet weight files: [load_darknet_weights], [save_darknet_weights] *)

Module Weights.
Import Layers.
Local Open Scope string_scope.
Local Open Scope list_scope.

(** In a weight file a number is its little-endian memory image: 4 bytes
    for an int32 or a float32, 8 for an int64.  Loading and saving copy the
    images and never compute with them. *)
Definition scalar : Type := list byte.

(** [np.fromfile(f, dtype, count)]: up to [count] items of [size] bytes and
    what is left of the file; a short read uses the file up. *)
Fixpoint fromfile (size count : nat) (f : list byte) : list scalar * list byte :=
  match count with
  | O => ([], f)
  | S count' =>
      if (length f <? size)%nat then ([], [])
      else let '(items, rest) := fromfile size count' (skipn size f) in
           (firstn size f :: items, rest)
  end.

(** [np.fromfile(f, dtype)]: every complete item that is left. *)
Definition fromfile_all (size : nat) (f : list byte) : list scalar :=
  fst (fromfile size (length f) f).

(** [a.tofile(f)] *)
Definition tofile (a : list scalar) : list byte := concat a.

(** The model as the two functions see it; [module_define] has lost its
    first block ([_create_modules] popped it). *)
Record Darknet : Type := MkDarknet {
  module_define : list dict;
  module_list : list (module scalar);
  version : list scalar;      (* int32, 3 items *)
  seen : list scalar          (* int64, 1 item *)
}.

(** [Path(weights).name]: the last component of the path. *)
Fixpoint split_slash (s cur : string) : list string :=
  match s with
  | EmptyString => [cur]
  | String c s' =>
      if Ascii.eqb c "/"%char then cur :: split_slash s' ""
      else split_slash s' (cur ++ String c "")
  end.

Definition path_name (path : string) : string :=
  last (filter (fun p => negb (String.eqb p "" || String.eqb p "."))
               (split_slash path "")) "".

(** Lines 549-553: the cutoff [load_darknet_weights] goes on with. *)
Definition load_cutoff (weights : string) (cutoff : Z) : Z :=
  let file := path_name weights in
  if String.eqb file "darknet53.conv.74" then 75%Z
  else if String.eqb file "yolov3-tiny.conv.15" then 15%Z
  else cutoff.

Definition as_conv (m : module scalar) : outcome (Conv2d scalar) :=
  match m with
  | MConv2d c => Ok c
  | _ => Raise AttributeError
  end.

Definition as_bn (m : module scalar) : outcome (BatchNorm2d scalar) :=
  match m with
  | MBatchNorm2d b => Ok b
  | _ => Raise AttributeError
  end.

(** [torch.from_numpy(weights[ptr:ptr + n]).view_as(t)] for a tensor [t] of
    [n] elements: the slice must have [n] elements. *)
Definition take (weights : list scalar) (ptr n : nat) : outcome (list scalar) :=
  let s := firstn n (skipn ptr weights) in
  if (length s =? n)%nat then Ok s else Raise RuntimeError.

(** The body of the loop of [load_darknet_weights] for one layer: the
    layer with the values read, and the new [ptr]. *)
Definition load_layer (weights : list scalar) (ptr : nat) (md : dict)
    (m : module scalar) : outcome (module scalar * nat) :=
  bind (getitem md (KStr "type")) (fun ty =>
  if is_str ty "convolutional" then
    bind (subscript m 0) (fun m0 =>
    bind (getitem md (KStr "batch_normalize")) (fun bnv =>
    bind (truthy bnv) (fun has_bn =>
    bind (if has_bn then
            bind (subscript m 1) (fun m1 =>
            bind (as_bn m1) (fun bn =>
            let nb := length (bn_bias bn) in
            bind (take weights ptr nb) (fun b =>
            if negb (length (bn_weight bn) =? nb)%nat then Raise RuntimeError else
            bind (take weights (ptr + nb) nb) (fun w =>
            if negb (length (running_mean bn) =? nb)%nat then Raise RuntimeError else
            bind (take weights (ptr + nb + nb) nb) (fun rm =>
            if negb (length (running_var bn) =? nb)%nat then Raise RuntimeError else
            bind (take weights (ptr + nb + nb + nb) nb) (fun rv =>
            bind (as_conv m0) (fun conv =>
            Ok (conv,
                Some {| num_features := num_features bn; eps := eps bn;
                        momentum := momentum bn; bn_weight := w; bn_bias := b;
                        running_mean := rm; running_var := rv |},
                (ptr + nb + nb + nb + nb)%nat))))))))
          else
            bind (as_conv m0) (fun conv =>
            match bias conv with
            | None => Raise AttributeError
            | Some old =>
                let nb := length old in
                bind (take weights ptr nb) (fun b =>
                Ok ({| in_channels := in_channels conv;
                       out_channels := out_channels conv;
                       kernel_size := kernel_size conv; stride := stride conv;
                       padding := padding conv; groups := groups conv;
                       weight := weight conv; bias := Some b |},
                    None, (ptr + nb)%nat))
            end)) (fun r =>
    let '(conv, bn', ptr) := r in
    let nw := length (weight conv) in
    bind (take weights ptr nw) (fun w =>
    let conv' := {| in_channels := in_channels conv;
                    out_channels := out_channels conv;
                    kernel_size := kernel_size conv; stride := stride conv;
                    padding := padding conv; groups := groups conv;
                    weight := w; bias := bias conv |} in
    match m with
    | MSequential ms =>
        Ok (MSequential
              (MConv2d conv' ::
               match bn' with
               | Some b => MBatchNorm2d b :: skipn 2 ms
               | None => skipn 1 ms
               end), (ptr + nw)%nat)
    | _ => Raise TypeError
    end)))))
  else Ok (m, ptr)).

(** The loop over [zip(self.module_define[:cutoff], self.module_list[:cutoff])]. *)
Fixpoint load_loop (weights : list scalar) (ptr : nat) (mds : list dict)
    (ms : list (module scalar)) : outcome (list (module scalar) * nat) :=
  match mds, ms with
  | md :: mds', m :: ms' =>
      bind (load_layer weights ptr md m) (fun r =>
      bind (load_loop weights (snd r) mds' ms') (fun r' =>
      Ok (fst r :: fst r', snd r')))
  | _, _ => Ok ([], ptr)
  end.

(** [load_darknet_weights(self, weights, cutoff)] on the file [f] found at
    the path [weights]: the model afterwards. *)
Definition load_darknet_weights (self : Darknet) (weights : string)
    (f : list byte) (cutoff : Z) : outcome Darknet :=
  let cutoff := load_cutoff weights cutoff in
  let '(version', f1) := fromfile 4 3 f in
  let '(seen', f2) := fromfile 8 1 f1 in
  let w := fromfile_all 4 f2 in
  bind (load_loop w 0 (py_slice_to (module_define self) cutoff)
                      (py_slice_to (module_list self) cutoff)) (fun r =>
  Ok {| module_define := module_define self;
        module_list := fst r ++ skipn (length (fst r)) (module_list self);
        version := version'; seen := seen' |}).

(** The body of the loop of [save_darknet_weights]: what one layer writes. *)
Definition save_layer (md : dict) (m : module scalar) : outcome (list byte) :=
  bind (getitem md (KStr "type")) (fun ty =>
  if is_str ty "convolutional" then
    bind (subscript m 0) (fun m0 =>
    bind (getitem md (KStr "batch_normalize")) (fun bnv =>
    bind (truthy bnv) (fun has_bn =>
    bind (if has_bn then
            bind (subscript m 1) (fun m1 =>
            bind (as_bn m1) (fun bn =>
            Ok (tofile (bn_bias bn) ++ tofile (bn_weight bn) ++
                tofile (running_mean bn) ++ tofile (running_var bn))))
          else
            bind (as_conv m0) (fun conv =>
            match bias conv with
            | None => Raise AttributeError
            | Some b => Ok (tofile b)
            end)) (fun head =>
    bind (as_conv m0) (fun conv =>
    Ok (head ++ tofile (weight conv)))))))
  else Ok []).

Fixpoint save_loop (mds : list dict) (ms : list (module scalar))
    : outcome (list byte) :=
  match mds, ms with
  | md :: mds', m :: ms' =>
      bind (save_layer md m) (fun out =>
      bind (save_loop mds' ms') (fun out' => Ok (out ++ out')))
  | _, _ => Ok []
  end.

(** [save_darknet_weights(self, model_weights_path, cutoff)]: the bytes
    written to the file.  The path is only opened. *)
Definition save_darknet_weights (self : Darknet) (model_weights_path : string)
    (cutoff : Z) : outcome (list byte) :=
  bind (save_loop (py_slice_to (module_define self) cutoff)
                  (py_slice_to (module_list self) cutoff)) (fun payload =>
  Ok (tofile (version self) ++ tofile (seen self) ++ payload)).

(** *** The layout as the specification words it *)

(** The stream of one convolution node: with a normalization node its
    bias, scale, running mean and running variance in that order, then the
    convolution weights; without, the convolution bias then the weights. *)
Definition node_stream (md : dict) (m : module scalar) : option (list byte) :=
  match getitem md (KStr "type") with
  | Ok ty =>
      if is_str ty "convolutional" then
        match bind (getitem md (KStr "batch_normalize")) truthy, m with
        | Ok true, MSequential (MConv2d conv :: MBatchNorm2d bn :: _) =>
            Some (concat (bn_bias bn) ++ concat (bn_weight bn) ++
                  concat (running_mean bn) ++ concat (running_var bn) ++
                  concat (weight conv))
        | Ok false, MSequential (MConv2d conv :: _) =>
            match bias conv with
            | Some b => Some (concat b ++ concat (weight conv))
            | None => None
            end
        | _, _ => None
        end
      else Some []
  | Raise _ => None
  end.

Fixpoint nodes_stream (mds : list dict) (ms : list (module scalar))
    : option (list byte) :=
  match mds, ms with
  | md :: mds', m :: ms' =>
      match node_stream md m, nodes_stream mds' ms' with
      | Some a, Some b => Some (a ++ b)
      | _, _ => None
      end
  | _, _ => Some []
  end.

(** Header (major, minor, revision, images seen), then the nodes in graph
    order up to the cutoff. *)
Definition layout (self : Darknet) (cutoff : Z) : option (list byte) :=
  match nodes_stream (py_slice_to (module_define self) cutoff)
                     (py_slice_to (module_list self) cutoff) with
  | Some payload => Some (concat (version self) ++ concat (seen self) ++ payload)
  | None => None
  end.

(** *** The size of a file, counted on the model *)

(** The number of floats a convolution node has in a weight file: the four
    vectors of its normalization node and the convolution weights, or the
    convolution bias and the weights.  Any other node has none. *)
Definition node_floats (md : dict) (m : module scalar) : nat :=
  match getitem md (KStr "type") with
  | Ok ty =>
      if is_str ty "convolutional" then
        match bind (getitem md (KStr "batch_normalize")) truthy, m with
        | Ok true, MSequential (MConv2d conv :: MBatchNorm2d bn :: _) =>
            length (bn_bias bn) + length (bn_weight bn) +
            length (running_mean bn) + length (running_var bn) +
            length (weight conv)
        | Ok false, MSequential (MConv2d conv :: _) =>
            match bias conv with
            | Some b => length b + length (weight conv)
            | None => 0
            end
        | _, _ => 0
        end
      else 0
  | Raise _ => 0
  end.

Fixpoint nodes_floats (mds : list dict) (ms : list (module scalar)) : nat :=
  match mds, ms with
  | md :: mds', m :: ms' => node_floats md m + nodes_floats mds' ms'
  | _, _ => 0
  end.

(** The floats of the nodes before the cutoff. *)
Definition stored_floats (self : Darknet) (cutoff : Z) : nat :=
  nodes_floats (py_slice_to (module_define self) cutoff)
               (py_slice_to (module_list self) cutoff).

(** A header of three 4-byte integers and one 8-byte integer. *)
Definition header_ok (self : Darknet) : Prop :=
  length (version self) = 3%nat /\
  Forall (fun s => length s = 4%nat) (version self) /\
  length (seen self) = 1%nat /\
  Forall (fun s => length s = 8%nat) (seen self).

End Weights.

(** ** Further parts of [model.py] *)

(** [nn.Module.train(mode)] on a detection head: only the flag changes;
    [eval()] is [train(False)]. *)
Definition train_mode (m : YOLOLayer.t) (mode : bool) : YOLOLayer.t :=
  {| YOLOLayer.anchors := YOLOLayer.anchors m;
     YOLOLayer.stride := YOLOLayer.stride m;
     YOLOLayer.num_classes := YOLOLayer.num_classes m;
     YOLOLayer.nx := YOLOLayer.nx m; YOLOLayer.ny := YOLOLayer.ny m;
     YOLOLayer.grid := YOLOLayer.grid m; YOLOLayer.training := mode |}.

Definition eval_mode (m : YOLOLayer.t) : YOLOLayer.t := train_mode m false.

(** The inference branch of [_YOLOLayer.forward] on the permuted tensor:
    lines 223-227. *)
Definition decode (m : YOLOLayer.t) (g : list (list (R * R)))
    (p5 : YOLOLayer.tensor5) : YOLOLayer.tensor5 :=
  YOLOLayer.sigmoid_tail
    (YOLOLayer.scale_box (YOLOLayer.stride m)
       (YOLOLayer.set_wh (YOLOLayer.anchor_vec m) (YOLOLayer.set_xy g p5))).

(** One anchor against one (scaled) target of [build_targets]: the entry of
    [wh_iou(anchors, t[:, 4:6]) > iou_t] for the pair. *)
Definition shape_match (an : R * R) (t : Targets.target) (thr : R) : bool :=
  let inter := (Rmin (fst an) (Targets.t_w t) * Rmin (snd an) (Targets.t_h t))%R in
  BoxGeometry.tgt
    (BoxGeometry.tdiv inter
       (fst an * snd an + Targets.t_w t * Targets.t_h t - inter)%R) thr.

(** ** Graph construction: what a pass of the loop can leave *)

Module BuilderMore.
Import Layers Builder.
Local Open Scope string_scope.
Local Open Scope list_scope.
Local Open Scope Z_scope.

(** Lines 448-450: the strides of the detection heads, in the order the
    heads appear. *)
Definition yolo_strides (model_config : string) : list Z :=
  if (is_infix "panet" model_config || is_infix "yolov4" model_config ||
      is_infix "cd53" model_config)%bool
  then [8; 16; 32] else [32; 16; 8].

Definition smart_bias_warning : string :=
  "WARNING: smart bias initialization failure.".

Definition is_yolo {F : Type} (m : module F) : bool :=
  match m with MYOLOLayer _ _ _ => true | _ => false end.

(** [[i for i, m in enumerate(l, start) if p(m)]] *)
Fixpoint indices_from {A : Type} (p : A -> bool) (start : nat) (l : list A)
    : list nat :=
  match l with
  | [] => []
  | a :: l' =>
      if p a then start :: indices_from p (S start) l'
      else indices_from p (S start) l'
  end.

(** [_get_yolo_layers(model)], line 493. *)
Definition _get_yolo_layers {F : Type} (module_list : list (module F)) : list nat :=
  indices_from is_yolo 0 module_list.

(** At most an activation. *)
Definition act_only (ms : list (module R)) : Prop :=
  ms = [] \/ exists a, ms = [MActivation a].

(** A convolution block without batch normalisation: its convolution has a
    bias. *)
Definition biased_conv (m : module R) : bool :=
  match m with
  | MSequential (MConv2d c :: _) =>
      match bias c with Some _ => true | None => false end
  | _ => false
  end.

(** A node that is no convolution block, route, shortcut or detection
    head. *)
Definition plain_module (m : module R) : bool :=
  match m with
  | MBatchNorm2d _ | MMaxPool2d _ _ _ | MUpsample _ | MDropout _ => true
  | MSequential [] => true
  | MSequential [MZeroPad2d; MMaxPool2d _ _ _] => true
  | _ => false
  end.

(** Output [l] is read by node [i], or is the output of the unnormalised
    convolution [i] itself (what a detection head reads). *)
Definition needed (i : nat) (m : module R) (l : Z) : Prop :=
  In l (sources i m) \/ (l = Z.of_nat i /\ biased_conv m = true).

(** The outcomes of one pass of the loop on block [md] at index [i]. *)
Inductive built (env : torch_env) (model_config : string) (i : nat) (md : dict)
    (st : bstate) : module R -> bstate -> Prop :=
| built_conv_bn (conv : Conv2d R) (b : BatchNorm2d R) (actm : list (module R))
      (bnv : pyval) (st1 : bstate) :
    geti md "type" = Ok (VStr "convolutional") ->
    geti md "batch_normalize" = Ok bnv -> truthy bnv = Ok true ->
    bias conv = None -> num_features b = out_channels conv ->
    py_index (output_filters st) (-1) = Ok (in_channels conv) ->
    act_only actm ->
    output_filters st1 = output_filters st -> routs st1 = routs st ->
    yolo_index st1 = yolo_index st -> log st1 = log st ->
    filters st1 = out_channels conv ->
    built env model_config i md st
      (MSequential (MConv2d conv :: MBatchNorm2d b :: actm)) st1
| built_conv_bias (conv : Conv2d R) (actm : list (module R))
      (bnv : pyval) (st1 : bstate) :
    geti md "type" = Ok (VStr "convolutional") ->
    geti md "batch_normalize" = Ok bnv -> truthy bnv = Ok false ->
    bias conv = Some (conv_bias_init env i (Z.to_nat (out_channels conv))) ->
    py_index (output_filters st) (-1) = Ok (in_channels conv) ->
    act_only actm ->
    output_filters st1 = output_filters st ->
    routs st1 = routs st ++ [Z.of_nat i] ->
    yolo_index st1 = yolo_index st -> log st1 = log st ->
    filters st1 = out_channels conv ->
    built env model_config i md st (MSequential (MConv2d conv :: actm)) st1
| built_route (layers : list Z) (st1 : bstate) :
    geti md "type" = Ok (VStr "route") ->
    geti md "layers" = Ok (VList layers) ->
    output_filters st1 = output_filters st ->
    routs st1 = routs st ++ map (rout_index i) layers ->
    yolo_index st1 = yolo_index st -> log st1 = log st ->
    built env model_config i md st (MFeatureConcat layers) st1
| built_shortcut (f : WeightedFeatureFusion.t) (st1 : bstate) :
    geti md "type" = Ok (VStr "shortcut") ->
    geti md "from" = Ok (VList (WeightedFeatureFusion.layers f)) ->
    WeightedFeatureFusion.weight f = has md "weights_type" ->
    WeightedFeatureFusion.w f =
      (if has md "weights_type"
       then repeat 0%R (S (length (WeightedFeatureFusion.layers f))) else []) ->
    output_filters st1 = output_filters st ->
    routs st1 = routs st ++ map (rout_index i) (WeightedFeatureFusion.layers f) ->
    yolo_index st1 = yolo_index st -> log st1 = log st ->
    py_index (output_filters st) (-1) = Ok (filters st1) ->
    built env model_config i md st (MWeightedFeatureFusion f) st1
| built_yolo (y : YOLOLayer.t) (ls : list Z) (stride : Z) (st1 : bstate) :
    geti md "type" = Ok (VStr "yolo") ->
    py_index (yolo_strides model_config) (yolo_index st + 1) = Ok stride ->
    YOLOLayer.stride y = IZR stride ->
    YOLOLayer.training y = true -> YOLOLayer.grid y = None ->
    YOLOLayer.nx y = 0%nat -> YOLOLayer.ny y = 0%nat ->
    output_filters st1 = output_filters st -> routs st1 = routs st ->
    yolo_index st1 = yolo_index st + 1 ->
    log st1 = log st ++ [smart_bias_warning] ->
    filters st1 = filters st ->
    built env model_config i md st (MYOLOLayer y (yolo_index st + 1) ls) st1
| built_plain (m : module R) (ty : pyval) (st1 : bstate) :
    geti md "type" = Ok ty ->
    is_str ty "convolutional" = false -> is_str ty "route" = false ->
    is_str ty "shortcut" = false -> is_str ty "yolo" = false ->
    plain_module m = true ->
    output_filters st1 = output_filters st -> routs st1 = routs st ->
    yolo_index st1 = yolo_index st ->
    (log st1 = log st \/
     exists t, log st1 = log st ++ [("Warning: Unrecognized Layer Type: " ++ t)%string]) ->
    built env model_config i md st m st1.

(** The state the next pass of the loop starts from: line 481 appends
    [filters] to [output_filters]. *)
Definition next_state (st1 : bstate) : bstate :=
  {| output_filters := output_filters st1 ++ [filters st1];
     routs := routs st1; yolo_index := yolo_index st1;
     filters := filters st1; log := log st1 |}.

(** The outputs that node [i] asks to keep, and those of a whole list of
    nodes starting at index [i]. *)
Definition node_needed (i : nat) (m : module R) : list Z :=
  sources i m ++ (if biased_conv m then [Z.of_nat i] else []).

Fixpoint needed_from (i : nat) (ml : list (module R)) : list Z :=
  match ml with
  | [] => []
  | m :: ml' => node_needed i m ++ needed_from (S i) ml'
  end.

(** Position [j] of a list of length [len] is what the index [l] names. *)
Definition resolves (len : nat) (l : Z) (j : nat) : Prop :=
  (j < len)%nat /\ Z.of_nat j = (if l <? 0 then l + Z.of_nat len else l).

End BuilderMore.

(** ** Darknet weight files: models whose parameters are float32 *)

Module WeightsMore.
Import Layers Weights.
Local Open Scope list_scope.

(** Every item is the 4-byte image of a float32. *)
Definition f32 (v : list scalar) : Prop := Forall (fun s => length s = 4%nat) v.

(** The parameters of a convolution block that the weight files hold are
    float32 tensors, and the four vectors of its batch-norm layer have the
    same number of elements. *)
Definition layer_f32 (m : module scalar) : Prop :=
  match m with
  | MSequential (MConv2d c :: rest) =>
      f32 (weight c) /\
      match bias c with Some b => f32 b | None => True end /\
      match rest with
      | MBatchNorm2d b :: _ =>
          f32 (bn_bias b) /\ f32 (bn_weight b) /\
          f32 (running_mean b) /\ f32 (running_var b) /\
          length (bn_weight b) = length (bn_bias b) /\
          length (running_mean b) = length (bn_bias b) /\
          length (running_var b) = length (bn_bias b)
      | _ => True
      end
  | _ => True
  end.

(** A module with every parameter value replaced: the graph, the layer
    geometry and the tensor sizes stay.  With [fun _ => tt] what is left is
    what a model of real parameters and the same model seen as float32
    images have in common. *)
Definition conv_map {F G : Type} (f : F -> G) (c : Conv2d F) : Conv2d G :=
  {| in_channels := in_channels c; out_channels := out_channels c;
     kernel_size := kernel_size c; stride := stride c; padding := padding c;
     groups := groups c; weight := map f (weight c);
     bias := option_map (map f) (bias c) |}.

Definition bn_map {F G : Type} (f : F -> G) (b : BatchNorm2d F) : BatchNorm2d G :=
  {| num_features := num_features b; eps := eps b; momentum := momentum b;
     bn_weight := map f (bn_weight b); bn_bias := map f (bn_bias b);
     running_mean := map f (running_mean b);
     running_var := map f (running_var b) |}.

Fixpoint module_map {F G : Type} (f : F -> G) (m : module F) : module G :=
  match m with
  | MConv2d c => MConv2d (conv_map f c)
  | MBatchNorm2d b => MBatchNorm2d (bn_map f b)
  | MActivation a => MActivation a
  | MZeroPad2d => MZeroPad2d
  | MMaxPool2d k s p => MMaxPool2d k s p
  | MUpsample sf => MUpsample sf
  | MFeatureConcat ls => MFeatureConcat ls
  | MWeightedFeatureFusion w => MWeightedFeatureFusion w
  | MYOLOLayer y i ls => MYOLOLayer y i ls
  | MDropout p => MDropout p
  | MSequential ms => MSequential (map (module_map f) ms)
  end.

Definition skeleton {F : Type} (m : module F) : module unit :=
  module_map (fun _ : F => tt) m.

(** The tensors of a node that a weight file holds, in the order of the
    file: for a [convolutional] block with normalization the four vectors
    of the normalization layer and the convolution weights, without it the
    convolution bias and the weights. *)
Definition stored_tensors (md : dict) (m : module scalar) : list (list scalar) :=
  match getitem md (KStr "type") with
  | Ok ty =>
      if is_str ty "convolutional" then
        match bind (getitem md (KStr "batch_normalize")) truthy, m with
        | Ok true, MSequential (MConv2d conv :: MBatchNorm2d bn :: _) =>
            [bn_bias bn; bn_weight bn; running_mean bn; running_var bn;
             weight conv]
        | Ok false, MSequential (MConv2d conv :: _) =>
            match bias conv with
            | Some b => [b; weight conv]
            | None => []
            end
        | _, _ => []
        end
      else []
  | Raise _ => []
  end.

Fixpoint nodes_tensors (mds : list dict) (ms : list (module scalar))
    : list (list (list scalar)) :=
  match mds, ms with
  | md :: mds', m :: ms' => stored_tensors md m :: nodes_tensors mds' ms'
  | _, _ => []
  end.

End WeightsMore.

(** ** The configuration parser *)

(** [parse_model_config], from the text of the file on: what [f.read()]
    returned is the input.  A [str] is a [string] whose characters are the
    code points below 256; the predicates on characters follow Python's on
    that range. *)
Module ConfigParser.
Import Layers Builder.
Local Open Scope string_scope.
Local Open Scope list_scope.
Local Open Scope Z_scope.
Local Open Scope py_scope.

Definition between (lo hi : nat) (c : ascii) : bool :=
  (lo <=? nat_of_ascii c)%nat && (nat_of_ascii c <=? hi)%nat.

(** [c.isspace()] *)
Definition isspace (c : ascii) : bool :=
  between 9 13 c || between 28 32 c || between 133 133 c || between 160 160 c.

(** [c.isdecimal()] *)
Definition isdecimal (c : ascii) : bool := between 48 57 c.

(** [c.isnumeric()]: the digits, the superscripts 2, 3 and 1 and the
    fractions 1/4, 1/2 and 3/4. *)
Definition isnumeric_char (c : ascii) : bool :=
  isdecimal c || between 178 179 c || between 185 185 c || between 188 190 c.

(** The white space [int()] skips at both ends: of the characters below 128
    the C locale's only, so not the separators 28 to 31. *)
Definition int_space (c : ascii) : bool :=
  between 9 13 c || between 32 32 c || between 133 133 c || between 160 160 c.

Fixpoint all_chars (p : ascii -> bool) (s : string) : bool :=
  match s with
  | EmptyString => true
  | String c r => p c && all_chars p r
  end.

(** [c in s] for a single character *)
Fixpoint has_char (c : ascii) (s : string) : bool :=
  match s with
  | EmptyString => false
  | String d r => Ascii.eqb d c || has_char c r
  end.

(** [s.isnumeric()]: false on the empty string. *)
Definition isnumeric (s : string) : bool :=
  match s with
  | EmptyString => false
  | _ => all_chars isnumeric_char s
  end.

Fixpoint lstrip_with (sp : ascii -> bool) (s : string) : string :=
  match s with
  | EmptyString => EmptyString
  | String c r => if sp c then lstrip_with sp r else s
  end.

Fixpoint rstrip_with (sp : ascii -> bool) (s : string) : string :=
  match s with
  | EmptyString => EmptyString
  | String c r =>
      match rstrip_with sp r with
      | EmptyString => if sp c then EmptyString else String c EmptyString
      | r' => String c r'
      end
  end.

Definition lstrip : string -> string := lstrip_with isspace.
Definition rstrip : string -> string := rstrip_with isspace.
(** [s.strip()] *)
Definition strip (s : string) : string := lstrip (rstrip s).

(** [s.startswith(c)] for a single character *)
Definition startswith (s : string) (c : ascii) : bool :=
  match s with
  | EmptyString => false
  | String d _ => Ascii.eqb d c
  end.

(** The first piece of [s.split(sep)] and the pieces after it. *)
Fixpoint split_from (sep : ascii) (s : string) : string * list string :=
  match s with
  | EmptyString => (EmptyString, [])
  | String c r =>
      let (h, t) := split_from sep r in
      if Ascii.eqb c sep then (EmptyString, h :: t) else (String c h, t)
  end.

(** [s.split(sep)] for a single character: never an empty list. *)
Definition split (sep : ascii) (s : string) : list string :=
  let (h, t) := split_from sep s in h :: t.

Fixpoint drop_last (s : string) : string :=
  match s with
  | EmptyString => EmptyString
  | String c EmptyString => EmptyString
  | String c r => String c (drop_last r)
  end.

(** [line[1:-1]] *)
Definition inner (line : string) : string :=
  match line with
  | EmptyString => EmptyString
  | String _ r => drop_last r
  end.

Definition digit_value (c : ascii) : Z := Z.of_nat (nat_of_ascii c) - 48.

(** The digits after a digit: each one may be preceded by one underscore. *)
Fixpoint digits (acc : Z) (s : string) : outcome Z :=
  match s with
  | EmptyString => Ok acc
  | String c r =>
      if isdecimal c then digits (10 * acc + digit_value c) r
      else if Ascii.eqb c "_" then
        match r with
        | String d r' =>
            if isdecimal d then digits (10 * acc + digit_value d) r'
            else Raise ValueError
        | EmptyString => Raise ValueError
        end
      else Raise ValueError
  end.

Definition unsigned (s : string) : outcome Z :=
  match s with
  | EmptyString => Raise ValueError
  | String c r => if isdecimal c then digits (digit_value c) r else Raise ValueError
  end.

(** [int(s)] in base 10: white space at both ends, one sign, digits. *)
Definition py_int (s : string) : outcome Z :=
  match lstrip_with int_space (rstrip_with int_space s) with
  | String c r =>
      if Ascii.eqb c "+" then unsigned r
      else if Ascii.eqb c "-" then z <- unsigned r ;; Ok (- z)
      else unsigned (String c r)
  | EmptyString => Raise ValueError
  end.

(** [[f(x) for x in l]]: the first exception ends the comprehension. *)
Fixpoint map_outcome {A B : Type} (f : A -> outcome B) (l : list A)
  : outcome (list B) :=
  match l with
  | [] => Ok []
  | a :: r => b <- f a ;; bs <- map_outcome f r ;; Ok (b :: bs)
  end.

(** [np.array(l).reshape((-1, 2))]: ValueError on an odd number of
    elements. *)
Fixpoint reshape2 (l : list R) : outcome (list (R * R)) :=
  match l with
  | [] => Ok []
  | [_] => Raise ValueError
  | a :: b :: r => ps <- reshape2 r ;; Ok ((a, b) :: ps)
  end.

(** [d[k] = v]: a key that is present keeps its place. *)
Fixpoint setitem (d : dict) (k : pykey) (v : pyval) : dict :=
  match d with
  | [] => [(k, v)]
  | (k', v') :: r =>
      if key_eqb k' k then (k', v) :: r else (k', v') :: setitem r k v
  end.

(** [module_define[-1][k] = v], the value being computed already. *)
Definition set_last (module_define : list dict) (k : string) (v : pyval)
  : outcome (list dict) :=
  d <- py_index module_define (-1) ;;
  Ok (removelast module_define ++ [setitem d (KStr k) v]).

(** The block a line starting with a bracket opens. *)
Definition new_block (line : string) : dict :=
  let d := setitem [] (KStr "type") (VStr (rstrip (inner line))) in
  if String.eqb (rstrip (inner line)) "convolutional"
  then setitem d (KStr "batch_normalize") (VInt 0)
  else d.

Section Parse.
(** [float(x)]; its value is a binary float, left open here. *)
Variable py_float : string -> outcome R.

(** The value a line [key = val] stores.  For a string of digits
    [int(val) - float(val)] is 0, the int being rounded as the string is,
    so the int is what is stored (the OverflowError of a number beyond the
    range of a float is not modelled). *)
Definition parse_value (key val : string) : outcome pyval :=
  if String.eqb key "anchors" then
    fs <- map_outcome py_float (split "," val) ;;
    a <- reshape2 fs ;;
    Ok (VArray a)
  else if existsb (String.eqb key) ["from"; "layers"; "mask"]
          || (String.eqb key "size" && has_char "," val) then
    zs <- map_outcome py_int (split "," val) ;;
    Ok (VList zs)
  else
    if isnumeric (strip val) then
      z <- py_int (strip val) ;; Ok (VInt z)
    else Ok (VStr (strip val)).

(** One pass of the loop over the lines. *)
Definition parse_line (module_define : list dict) (line : string)
  : outcome (list dict) :=
  if startswith line "[" then Ok (module_define ++ [new_block line])
  else
    match split "=" line with
    | [key; val] =>
        v <- parse_value (rstrip key) val ;;
        set_last module_define (rstrip key) v
    | _ => Raise ValueError
    end.

Fixpoint parse_lines (module_define : list dict) (lines : list string)
  : outcome (list dict) :=
  match lines with
  | [] => Ok module_define
  | line :: rest =>
      md <- parse_line module_define line ;;
      parse_lines md rest
  end.

(** The lines the loop runs over: the empty ones and those starting with
    [#] removed, then each one stripped. *)
Definition kept_lines (text : string) : list string :=
  map (fun x => lstrip (rstrip x))
    (filter (fun x => negb (String.eqb x "") && negb (startswith x "#"))
       (split (ascii_of_nat 10) text)).

(** [k not in f] and then [f.append(k)], for the keys of one block. *)
Definition add_fields (f : list pykey) (x : dict) : list pykey :=
  fold_left
    (fun f kv => if existsb (key_eqb (fst kv)) f then f else f ++ [fst kv])
    x f.

(** [f]: the keys of all blocks but the first. *)
Definition fields (module_define : list dict) : list pykey :=
  fold_left add_fields (tl module_define) [].

Definition is_supported (k : pykey) : bool :=
  match k with
  | KStr s => existsb (String.eqb s) supported
  | KInt _ => false
  end.

(** Truth value of a key, as [any] takes it. *)
Definition key_truthy (k : pykey) : bool :=
  match k with
  | KStr s => negb (String.eqb s "")
  | KInt z => negb (z =? 0)
  end.

(** [u], the unsupported fields. *)
Definition unsupported (module_define : list dict) : list pykey :=
  filter (fun x => negb (is_supported x)) (fields module_define).

(** [assert not any(u)] *)
Definition check_supported (module_define : list dict) : outcome unit :=
  if existsb key_truthy (unsupported module_define)
  then Raise AssertionError
  else Ok tt.

Definition parse_model_config (text : string) : outcome (list dict) :=
  module_define <- parse_lines [] (kept_lines text) ;;
  _ <- check_supported module_define ;;
  Ok module_define.

End Parse.

(** What every block holds, whatever lines came: its type first, values
    of the kind their key asks for, no key twice. *)
Definition block_inv (d : dict) : Prop :=
  (exists v rest, d = (KStr "type", v) :: rest) /\
  Forall parsed_entry d /\ NoDup (map fst d).

(** A line the loop gets past: a block header, or one with exactly one
    equals sign. *)
Definition line_ok (line : string) : Prop :=
  startswith line "[" = true \/ exists key val, split "=" line = [key; val].

(** A key the check of the fields lets through. *)
Definition key_passes (k : pykey) : Prop :=
  match k with
  | KStr s => s = "" \/ In s supported
  | KInt z => z = 0
  end.

End ConfigParser.

(** ** Test-time augmentation: [_scale_image] *)

Module ScaleImage.
Import YOLOLayer Targets.
Local Open Scope R_scope.
Local Open Scope py_scope.

(** [math.ceil] *)
Definition ceil (x : R) : Z := (- Int_part (- x))%Z.

(** One axis of [F.pad] with nothing before and [n] items after: a
    negative [n] removes items at the end. *)
Definition pad_end {A : Type} (fill : A) (n : Z) (l : list A) : list A :=
  if (n <? 0)%Z then firstn (length l - Z.to_nat (- n)) l
  else l ++ repeat fill (Z.to_nat n).

(** [F.pad(image, [0, right, 0, bottom], value=value)] on (bs, c, y, x):
    columns after the last one, rows after the last one; RuntimeError when
    an axis would get a negative size. *)
Definition pad (image : tensor4) (right bottom : Z) (value : R)
  : outcome tensor4 :=
  let '(_, _, ny, nx) := shape4 image in
  if ((Z.of_nat nx + right <? 0) || (Z.of_nat ny + bottom <? 0))%Z
  then Raise RuntimeError
  else Ok (map (map (fun plane =>
             pad_end (repeat value (Z.to_nat (Z.of_nat nx + right))) bottom
               (map (pad_end value right) plane))) image).

Section Scale.
(** [F.interpolate(image, size=s, mode="bilinear", align_corners=False)];
    the values are torch's. *)
Variable interpolate : tensor4 -> Z * Z -> outcome tensor4.

(** What is used of it: a result has the batch size and the channels of
    the input and the size asked for, which is positive. *)
Definition interpolate_sized : Prop :=
  forall (img : tensor4) (bs ch ny nx : nat) (sh sw : Z) (img' : tensor4),
    rectangular4 img bs ch ny nx -> interpolate img (sh, sw) = Ok img' ->
    (0 < sh)%Z /\ (0 < sw)%Z /\
    rectangular4 img' bs ch (Z.to_nat sh) (Z.to_nat sw).

(** [s], the new size. *)
Definition new_size (h w : nat) (ratio : R) : Z * Z :=
  (long (INR h * ratio), long (INR w * ratio)).

(** [h, w] as the padding reads them. *)
Definition target_size (h w : nat) (ratio : R) (same_shape : bool) : Z * Z :=
  if same_shape then (Z.of_nat h, Z.of_nat w)
  else ((ceil (INR h * ratio / 64) * 64)%Z, (ceil (INR w * ratio / 64) * 64)%Z).

Definition _scale_image (image : tensor4) (ratio : R) (same_shape : bool)
  : outcome tensor4 :=
  let '(_, _, h, w) := shape4 image in
  let s := new_size h w ratio in
  image1 <- interpolate image s ;;
  let '(h1, w1) := target_size h w ratio same_shape in
  pad image1 (w1 - snd s) (h1 - fst s) (447 / 1000).

End Scale.

End ScaleImage.

(** ** Concrete inputs used by the examples *)

Module Examples.
Local Open Scope R_scope.

(** A head with one 32x32 anchor, stride 32 and two classes, in evaluation
    mode, before its first call. *)
Definition head2 : YOLOLayer.t :=
  {| YOLOLayer.anchors := [(32, 32)]; YOLOLayer.stride := 32;
     YOLOLayer.num_classes := 2; YOLOLayer.nx := 0; YOLOLayer.ny := 0;
     YOLOLayer.grid := None; YOLOLayer.training := false |}.

(** The same head after a training pass on a 1x1 grid, switched to
    evaluation: the dimensions are stored, the offsets were never built. *)
Definition head2_trained : YOLOLayer.t :=
  {| YOLOLayer.anchors := [(32, 32)]; YOLOLayer.stride := 32;
     YOLOLayer.num_classes := 2; YOLOLayer.nx := 1; YOLOLayer.ny := 1;
     YOLOLayer.grid := None; YOLOLayer.training := false |}.

(** One image, seven channels, a 1x1 grid, every logit zero. *)
Definition zeros_1x7x1x1 : YOLOLayer.tensor4 :=
  [[ [[0]]; [[0]]; [[0]]; [[0]]; [[0]]; [[0]]; [[0]] ]].

End Examples.

Module TargetExamples.
Import Targets.
Local Open Scope R_scope.

(** One training output of a 2x2 grid with one anchor and one class. *)
Definition p_2x2 : list shape5 := [Shape5 1 1 2 2 6].

(** A box of half the image, centred, labelled with class 5. *)
Definition target_cls5 : target := Target 0 5 (1 / 2) (1 / 2) (1 / 2) (1 / 2).

(** A one-class model whose only anchor is four cells wide and high. *)
Definition model_wide : model := Model [[(4, 4)]] (1 / 5) 1.

(** A one-class model whose only anchor is one cell wide and high. *)
Definition model_unit : model := Model [[(1, 1)]] (1 / 5) 1.

End TargetExamples.

Module FusionExamples.
Import WeightedFeatureFusion.
Local Open Scope R_scope.

(** Scalars as planes. *)
Definition heap3 : heap R := [[1; 2]; [10; 20; 30]; [100; 200]].
Definition out2 : list pyobj := [TensorRef 0; TensorRef 1].
Definition node01 : t := Build [0%Z; 1%Z] false [].
(** The same node with weighting on: three learnable scalars, all 0. *)
Definition node01_weighted : t := Build [0%Z; 1%Z] true [0; 0; 0].
(** A store whose first tensor has fewer and whose second has more channels
    than the third. *)
Definition heap_mixed : heap R := [[1]; [10; 20; 30]; [100; 200]].

(** A running tensor that is also stored as the previous output. *)
Definition heap_alias : heap R := [[1]; [10; 20]].
Definition out_alias : list pyobj := [TensorRef 0; TensorRef 1].
Definition node_alias : t := Build [(-2)%Z; (-1)%Z] false [].

End FusionExamples.

Module BuilderExamples.
Import Layers Builder.
Local Open Scope string_scope.
Local Open Scope list_scope.
Local Open Scope Z_scope.

(** No float strings, zero initial parameters. *)
Definition env0 : torch_env :=
  TorchEnv (fun _ => None) (fun _ n => repeat 0%R n) (fun _ n => repeat 0%R n).

Definition net_block : dict := [(KStr "type", VStr "net")].

(** A [convolutional] block with no [filters] line. *)
Definition cfg_missing_filters : list dict :=
  [net_block;
   [(KStr "type", VStr "convolutional"); (KStr "batch_normalize", VInt 0)]].

(** Two shortcuts, the first reading the output of the second. *)
Definition cfg_forward_shortcut : list dict :=
  [net_block;
   [(KStr "type", VStr "shortcut"); (KStr "from", VList [1])];
   [(KStr "type", VStr "shortcut"); (KStr "from", VList [-1])]].

(** A 1x1 convolution with six filters and a bias, then a yolo layer with
    one anchor and one class. *)
Definition cfg_conv_yolo : list dict :=
  [net_block;
   [(KStr "type", VStr "convolutional"); (KStr "batch_normalize", VInt 0);
    (KStr "filters", VInt 6); (KStr "size", VInt 1); (KStr "stride", VInt 1);
    (KStr "pad", VInt 1); (KStr "activation", VStr "linear")];
   [(KStr "type", VStr "yolo"); (KStr "mask", VList [0]);
    (KStr "anchors", VArray [(10, 13)%R]); (KStr "classes", VInt 1);
    (KStr "num", VInt 1)]].


(** A depthwise 1x1 convolution on the three input channels ([groups=3])
    with batch normalisation. *)
Definition cfg_grouped : list dict :=
  [net_block;
   [(KStr "type", VStr "convolutional"); (KStr "batch_normalize", VInt 1);
    (KStr "filters", VInt 3); (KStr "size", VInt 1); (KStr "stride", VInt 1);
    (KStr "pad", VInt 0); (KStr "groups", VInt 3);
    (KStr "activation", VStr "leaky")]].

(** The same block without [groups]. *)
Definition cfg_ungrouped : list dict :=
  [net_block;
   [(KStr "type", VStr "convolutional"); (KStr "batch_normalize", VInt 1);
    (KStr "filters", VInt 3); (KStr "size", VInt 1); (KStr "stride", VInt 1);
    (KStr "pad", VInt 0); (KStr "activation", VStr "leaky")]].

End BuilderExamples.

Module WeightExamples.
Import Layers Weights.
Local Open Scope string_scope.
Local Open Scope list_scope.

Definition f32_zero : scalar := [x00; x00; x00; x00].
Definition f32_one : scalar := [x00; x00; x80; x3f].
Definition f32_two : scalar := [x00; x00; x00; x40].

(** A 1x1 convolution of one channel with a bias. *)
Definition conv1 : Conv2d scalar :=
  {| in_channels := 1; out_channels := 1; kernel_size := 1;
     stride := StrideOne (VInt 1); padding := 0; groups := 1;
     weight := [f32_zero]; bias := Some [f32_zero] |}.

Definition conv_block : dict :=
  [(KStr "type", VStr "convolutional"); (KStr "batch_normalize", VInt 0);
   (KStr "filters", VInt 1); (KStr "size", VInt 1); (KStr "stride", VInt 1);
   (KStr "pad", VInt 0); (KStr "activation", VStr "linear")].

(** Two such layers, as [Darknet.__init__] leaves the model:
    version (0, 2, 5), no image seen. *)
Definition net2 : Darknet :=
  {| module_define := [conv_block; conv_block];
     module_list := [MSequential [MConv2d conv1]; MSequential [MConv2d conv1]];
     version := [[x00; x00; x00; x00]; [x02; x00; x00; x00]; [x05; x00; x00; x00]];
     seen := [[x00; x00; x00; x00; x00; x00; x00; x00]] |}.

Definition header20 : list byte :=
  [x00; x00; x00; x00; x02; x00; x00; x00; x05; x00; x00; x00;
   x20; x03; x00; x00; x00; x00; x00; x00].

(** A file with the parameters of both layers: bias 1, weight 2, twice. *)
Definition file36 : list byte :=
  header20 ++ f32_one ++ f32_two ++ f32_one ++ f32_two.

End WeightExamples.

Module Float32Examples.
Import SpecFloat Float32.

(** The box of centre (1, 1), width 2 and height 2. *)
Definition box_1122 : box := Box one one two two.

(** A box of corners (0, 0) and (1 + 2^-23, 1), and inside it the box of
    corners (0, 0) and (2^-12, 2^-12). *)
Definition box_outer : box :=
  Box zero zero (S754_finite false 8388609 (-23)) one.
Definition box_inner : box :=
  Box zero zero (of_scaled 1 (-12)) (of_scaled 1 (-12)).

(** The box of corners (1, 1) and (1, 1): a point. *)
Definition box_point : box := Box one one one one.

(** The square of corners (0, 0) and (2^-20, 2^-20). *)
Definition box_tiny : box :=
  Box zero zero (of_scaled 1 (-20)) (of_scaled 1 (-20)).

(** The box of corners (0, 0) and (2^64, 2^63). *)
Definition box_huge : box :=
  Box zero zero (of_scaled 1 64) (of_scaled 1 63).

(** [bbox_iou] calls [torch.atan] in its CIoU branch only; for the other
    branches any function can take its place, here the identity. *)
Definition atan_unused (x : float32) : float32 := x.

End Float32Examples.

(** ** Further concrete inputs *)

Module MoreExamples.
Local Open Scope R_scope.

(** The head of [Examples.head2] as its constructor leaves it: in training
    mode, before its first call. *)
Definition head2_training : YOLOLayer.t :=
  {| YOLOLayer.anchors := [(32, 32)]; YOLOLayer.stride := 32;
     YOLOLayer.num_classes := 2; YOLOLayer.nx := 0; YOLOLayer.ny := 0;
     YOLOLayer.grid := None; YOLOLayer.training := true |}.

(** One image, seven channels, a grid of one row and two columns. *)
Definition zeros_1x7x1x2 : YOLOLayer.tensor4 :=
  [[ [[0; 0]]; [[0; 0]]; [[0; 0]]; [[0; 0]]; [[0; 0]]; [[0; 0]]; [[0; 0]] ]].

(** The store of [FusionExamples.heap3] after the node [node01] ran on the
    tensor at position 2: two new tensors, the second one the result. *)
Definition heap3_fused : WeightedFeatureFusion.heap R :=
  FusionExamples.heap3 ++ [[100 + 1; 200 + 2]] ++ [[100 + 1 + 10; 200 + 2 + 20]].

(** An ungrouped 1x1 convolution of three channels without bias, a fresh
    batch-norm layer over its outputs, and the block holding both. *)
Definition conv3 : Layers.Conv2d R :=
  {| Layers.in_channels := 3; Layers.out_channels := 3; Layers.kernel_size := 1;
     Layers.stride := Layers.StrideOne (Layers.VInt 1); Layers.padding := 0;
     Layers.groups := 1;
     Layers.weight := [1; 0; 0; 0; 1; 0; 0; 0; 1]; Layers.bias := None |}.

Definition bn3 : Layers.BatchNorm2d R :=
  {| Layers.num_features := 3; Layers.eps := / 10 ^ 4; Layers.momentum := 3 / 100;
     Layers.bn_weight := [1; 1; 1]; Layers.bn_bias := [0; 0; 0];
     Layers.running_mean := [0; 0; 0]; Layers.running_var := [1; 1; 1] |}.

Definition block3 : Layers.module R :=
  Layers.MSequential
    [Layers.MConv2d conv3; Layers.MBatchNorm2d bn3;
     Layers.MActivation Layers.LeakyReLU].

End MoreExamples.

Module ParserExamples.
Import Layers ConfigParser.
Local Open Scope string_scope.
Local Open Scope list_scope.
Local Open Scope py_scope.

(** [float] on the strings [int] reads. *)
Definition float_of_int (s : string) : outcome R :=
  z <- py_int s ;; Ok (IZR z).

Definition newline : string := String (ascii_of_nat 10) EmptyString.

(** The text of a file with these lines. *)
Definition text_of (lines : list string) : string := String.concat newline lines.

(** A configuration of two blocks after the hyper-parameter block, with a
    comment and an empty line. *)
Definition conv_yolo_cfg : string :=
  text_of
    ["[net]"; "# one convolution, one detection head"; "";
     "[convolutional]"; "filters=6"; "size=1"; "stride=1"; "pad=1";
     "activation=linear"; "";
     "[yolo]"; "mask = 0"; "anchors = 10,13"; "classes=1"; "num=1"; ""].

End ParserExamples.

Module BuiltExamples.
Import Layers Builder Weights WeightsMore.
Local Open Scope string_scope.
Local Open Scope list_scope.

(** The nodes [_create_modules] builds for [BuilderExamples.cfg_conv_yolo]. *)
Definition built_conv_yolo : list (module R) :=
  match _create_modules BuilderExamples.env0 BuilderExamples.cfg_conv_yolo
          "yolov3.cfg" false with
  | Ok (ml, _, _) => ml
  | Raise _ => []
  end.

(** That model as the weight functions see it: every parameter is the
    float32 image of its initial value 0, the header is the one
    [Darknet.__init__] sets. *)
Definition net_conv_yolo : Darknet :=
  {| module_define := tl BuilderExamples.cfg_conv_yolo;
     module_list :=
       map (module_map (fun _ : R => WeightExamples.f32_zero)) built_conv_yolo;
     version := version WeightExamples.net2;
     seen := seen WeightExamples.net2 |}.

End BuiltExamples.

Module ScaleExamples.
Import YOLOLayer.
Local Open Scope R_scope.

(** A stand-in for the interpolation: a black image of the size asked
    for. *)
Definition interpolate_black (img : tensor4) (s : Z * Z) : outcome tensor4 :=
  if ((0 <? fst s) && (0 <? snd s))%Z
  then Ok (map (map (fun _ => repeat (repeat 0 (Z.to_nat (snd s)))
                                 (Z.to_nat (fst s)))) img)
  else Raise RuntimeError.

(** One image of one channel, two rows and two columns. *)
Definition ones_1x1x2x2 : tensor4 := [[ [[1; 1]; [1; 1]] ]].

End ScaleExamples.

Module RestoreExamples.
Import Layers Weights.
Local Open Scope string_scope.
Local Open Scope list_scope.

(** A 1x1 convolution of one channel whose weight is 2 and whose bias is 1. *)
Definition conv1_other : Conv2d scalar :=
  {| in_channels := 1; out_channels := 1; kernel_size := 1;
     stride := StrideOne (VInt 1); padding := 0; groups := 1;
     weight := [WeightExamples.f32_two]; bias := Some [WeightExamples.f32_one] |}.

(** The graph of [WeightExamples.net2] with other parameters, another
    version and another count of images seen. *)
Definition net2_other : Darknet :=
  {| module_define := module_define WeightExamples.net2;
     module_list := [MSequential [MConv2d conv1_other];
                     MSequential [MConv2d conv1_other]];
     version := [[x01; x00; x00; x00]; [x00; x00; x00; x00]; [x00; x00; x00; x00]];
     seen := [[x07; x00; x00; x00; x00; x00; x00; x00]] |}.

End RestoreExamples.

(** * Part II: properties *)

Lemma bind_ok_inv (A B : Type) (m : outcome A) (k : A -> outcome B) (b : B) :
  bind m k = Ok b -> exists a, m = Ok a /\ k a = Ok b.
Proof.
  destruct m as [a|e]; simpl; intros H.
  - exists a; split; [reflexivity | exact H].
  - discriminate H.
Qed.

(** ** Box geometry *)

Section BoxGeometryFacts.
Import BoxGeometry.
Local Open Scope R_scope.

Lemma eps16_pos : 0 < eps16.
Proof. unfold eps16. apply Rinv_0_lt_compat. lra. Qed.

Lemma fdiv_nonzero (x y : R) : y <> 0 -> fdiv x y = Some (x / y).
Proof.
  intros Hy. unfold fdiv, tdiv.
  destruct (Req_dec_T y 0) as [E|_]; [contradiction | reflexivity].
Qed.

Lemma fdiv_zero (x : R) : fdiv x 0 = None.
Proof.
  unfold fdiv, tdiv.
  destruct (Req_dec_T 0 0) as [_|N]; [| contradiction N; reflexivity].
  destruct (Req_dec_T x 0); [reflexivity|].
  destruct (Rlt_dec 0 x); reflexivity.
Qed.

Lemma overlap_1d (a1 a2 c1 c2 : R) :
  a1 <= a2 -> c1 <= c2 ->
  let i := clamp0 (Rmin a2 c2 - Rmax a1 c1) in
  let e := Rmax a2 c2 - Rmin a1 c1 in
  0 <= i /\ i <= a2 - a1 /\ i <= c2 - c1 /\
  a2 - a1 <= e /\ c2 - c1 <= e /\ (a2 - a1) + (c2 - c1) <= e + i.
Proof.
  intros Ha Hc. unfold clamp0, Rmax, Rmin.
  repeat match goal with
         | |- context [Rle_dec ?u ?v] => destruct (Rle_dec u v)
         end; simpl; repeat split; lra.
Qed.

Lemma overlap_bounds (x11 y11 x12 y12 x21 y21 x22 y22 : R) :
  x11 <= x12 -> y11 <= y12 -> x21 <= x22 -> y21 <= y22 ->
  let i := clamp0 (Rmin x12 x22 - Rmax x11 x21) *
           clamp0 (Rmin y12 y22 - Rmax y11 y21) in
  0 <= i /\ i <= (x12 - x11) * (y12 - y11) /\ i <= (x22 - x21) * (y22 - y21) /\
  (x12 - x11) * (y12 - y11) + (x22 - x21) * (y22 - y21) - i <=
  (Rmax x12 x22 - Rmin x11 x21) * (Rmax y12 y22 - Rmin y11 y21).
Proof.
  intros Hx1 Hy1 Hx2 Hy2.
  destruct (overlap_1d Hx1 Hx2) as (X0 & X1 & X2 & X3 & X4 & X5).
  destruct (overlap_1d Hy1 Hy2) as (Y0 & Y1 & Y2 & Y3 & Y4 & Y5).
  cbv zeta in *.
  set (ix := clamp0 (Rmin x12 x22 - Rmax x11 x21)) in *.
  set (iy := clamp0 (Rmin y12 y22 - Rmax y11 y21)) in *.
  set (ex := Rmax x12 x22 - Rmin x11 x21) in *.
  set (ey := Rmax y12 y22 - Rmin y11 y21) in *.
  set (w1 := x12 - x11) in *. set (h1 := y12 - y11) in *.
  set (w2 := x22 - x21) in *. set (h2 := y22 - y21) in *.
  assert (0 <= w1) by (unfold w1; lra). assert (0 <= h1) by (unfold h1; lra).
  assert (0 <= w2) by (unfold w2; lra). assert (0 <= h2) by (unfold h2; lra).
  repeat split; try nra.
Qed.

Lemma corners_valid (xy : bool) (b : box) :
  valid_box xy b ->
  exists x1 y1 x2 y2, corners xy b = (x1, y1, x2, y2) /\ x1 <= x2 /\ y1 <= y2.
Proof.
  unfold valid_box. destruct (corners xy b) as [[[x1 y1] x2] y2].
  intros [Hx Hy]. exists x1, y1, x2, y2. auto.
Qed.

(** C7 (as amended): on boxes of non-negative extent, zero-area ones
    included, the IoU, GIoU and DIoU branches of [bbox_iou] never meet a zero
    denominator: each of their data-dependent denominators carries the
    [1e-16] term.  The CIoU branch and [wh_iou] are left out. *)
Theorem bbox_iou_denominators_nonzero
    (box1 box2 : box) (x1y1x2y2 g_iou d_iou c_iou : bool) :
  valid_box x1y1x2y2 box1 -> valid_box x1y1x2y2 box2 ->
  g_iou || d_iou || negb c_iou = true ->
  exists r, bbox_iou box1 box2 x1y1x2y2 g_iou d_iou c_iou = Some r.
Proof.
  intros V1 V2 Hbranch.
  destruct (corners_valid _ _ V1) as (x11 & y11 & x12 & y12 & E1 & Hx1 & Hy1).
  destruct (corners_valid _ _ V2) as (x21 & y21 & x22 & y22 & E2 & Hx2 & Hy2).
  unfold bbox_iou. rewrite E1, E2.
  destruct (overlap_bounds Hx1 Hy1 Hx2 Hy2) as (I0 & I1 & I2 & I3).
  cbv zeta in I0, I1, I2, I3.
  pose proof eps16_pos as He.
  set (inter := clamp0 (Rmin x12 x22 - Rmax x11 x21) *
                clamp0 (Rmin y12 y22 - Rmax y11 y21)) in *.
  rewrite fdiv_nonzero by lra. simpl obind.
  destruct g_iou; simpl.
  - rewrite fdiv_nonzero; [simpl; eauto|].
    assert (0 <= (x12 - x11) * (y12 - y11)) by nra.
    assert (0 <= (x22 - x21) * (y22 - y21)) by nra. lra.
  - destruct d_iou; simpl.
    + rewrite fdiv_nonzero; [simpl; eauto|].
      pose proof (pow2_ge_0 (Rmax x12 x22 - Rmin x11 x21)).
      pose proof (pow2_ge_0 (Rmax y12 y22 - Rmin y11 y21)). lra.
    + destruct c_iou; simpl in *; [discriminate | eauto].
Qed.

Lemma bbox_iou_denominators_nonzero_witness :
  valid_box false (Box 0 0 0 0) /\ valid_box false (Box 1 1 0 0) /\
  true || false || negb false = true /\
  exists r, bbox_iou (Box 0 0 0 0) (Box 1 1 0 0) false true false false = Some r.
Proof.
  assert (V1 : valid_box false (Box 0 0 0 0)) by (unfold valid_box; simpl; lra).
  assert (V2 : valid_box false (Box 1 1 0 0)) by (unfold valid_box; simpl; lra).
  split; [exact V1 | split; [exact V2 | split; [reflexivity |]]].
  exact (@bbox_iou_denominators_nonzero (Box 0 0 0 0) (Box 1 1 0 0)
           false true false false V1 V2 eq_refl).
Defined.

Lemma tdiv_0_0 : tdiv 0 0 = NaN.
Proof.
  unfold tdiv. destruct (Req_dec_T 0 0) as [_|N]; [reflexivity|].
  contradiction N; reflexivity.
Qed.

(** C7 (as stated) fails: [wh_iou] divides by [area1 + area2 - inter] with
    nothing added, which is zero for two zero-area shapes, and the CIoU
    branch divides a width by a bare height. *)
Lemma iou_unguarded_division :
  wh_iou [(0, 0)] [(0, 0)] = [[NaN]] /\
  ~ all_finite (wh_iou [(0, 0)] [(0, 0)]) /\
  valid_box true (Box 0 0 0 0) /\
  bbox_iou (Box 0 0 0 0) (Box 0 0 0 0) true false false true = None.
Proof.
  assert (E : wh_iou [(0, 0)] [(0, 0)] = [[NaN]]).
  { unfold wh_iou; simpl.
    replace (Rmin 0 0 * Rmin 0 0) with 0
      by (unfold Rmin; destruct (Rle_dec 0 0); ring).
    replace (0 * 0 + 0 * 0 - 0) with 0 by ring.
    rewrite tdiv_0_0. reflexivity. }
  split; [exact E|]. split.
  - rewrite E. intros H. inversion H as [|? ? H1 _]; subst.
    inversion H1 as [|? ? [r Hr] _]; subst. discriminate Hr.
  - split; [unfold valid_box; simpl; lra|].
    unfold bbox_iou; simpl.
    assert (Z : clamp0 (Rmin 0 0 - Rmax 0 0) = 0).
    { unfold clamp0, Rmin, Rmax. destruct (Rle_dec 0 0); [|lra].
      destruct (Rle_dec (0 - 0) 0); lra. }
    rewrite Z. pose proof eps16_pos as He.
    rewrite fdiv_nonzero by lra. simpl.
    replace (0 - 0) with 0 by ring. rewrite fdiv_zero. reflexivity.
Qed.

(** In exact arithmetic GIoU is at most IoU: the enclosing area is never
    less than the union.  Rounding breaks this, see [giou_above_iou]. *)
Lemma giou_le_iou (x1y1x2y2 d_iou c_iou : bool) (box1 box2 : box) :
  valid_box x1y1x2y2 box1 -> valid_box x1y1x2y2 box2 ->
  exists g i,
      bbox_iou box1 box2 x1y1x2y2 true d_iou c_iou = Some g /\
      bbox_iou box1 box2 x1y1x2y2 false false false = Some i /\
      g <= i.
Proof.
  intros V1 V2.
  destruct (corners_valid _ _ V1) as (x11 & y11 & x12 & y12 & E1 & Hx1 & Hy1).
  destruct (corners_valid _ _ V2) as (x21 & y21 & x22 & y22 & E2 & Hx2 & Hy2).
  pose proof eps16_pos as He.
  unfold bbox_iou. rewrite E1, E2.
  destruct (overlap_bounds Hx1 Hy1 Hx2 Hy2) as (I0 & I1 & I2 & I3).
  cbv zeta in I0, I1, I2, I3.
  set (inter := clamp0 (Rmin x12 x22 - Rmax x11 x21) *
                clamp0 (Rmin y12 y22 - Rmax y11 y21)) in *.
  set (ca := (Rmax x12 x22 - Rmin x11 x21) * (Rmax y12 y22 - Rmin y11 y21)) in *.
  set (un := (x12 - x11) * (y12 - y11) + eps16 + (x22 - x21) * (y22 - y21) - inter).
  assert (0 <= (x12 - x11) * (y12 - y11)) by nra.
  assert (0 <= (x22 - x21) * (y22 - y21)) by nra.
  assert (Hun : 0 < un) by (unfold un; lra).
  assert (Hca : 0 < ca + eps16) by lra.
  rewrite fdiv_nonzero by lra. simpl.
  rewrite fdiv_nonzero by lra. simpl.
  eexists; eexists; split; [reflexivity | split; [reflexivity|]].
  assert (0 <= (ca + eps16 - un) / (ca + eps16)).
  { apply Rmult_le_pos; [unfold un; lra|].
    apply Rlt_le, Rinv_0_lt_compat; exact Hca. }
  lra.
Qed.

(** In exact arithmetic GIoU of a box with itself is
    [area / (area + 1e-16)], below 1. *)
Lemma giou_self (x1y1x2y2 d_iou c_iou : bool) (b : box) :
  valid_box x1y1x2y2 b ->
  bbox_iou b b x1y1x2y2 true d_iou c_iou =
    Some (area x1y1x2y2 b / (area x1y1x2y2 b + eps16)) /\
  area x1y1x2y2 b / (area x1y1x2y2 b + eps16) < 1.
Proof.
  intros V1.
  destruct (corners_valid _ _ V1) as (x11 & y11 & x12 & y12 & E1 & Hx1 & Hy1).
  pose proof eps16_pos as He.
  split.
  - unfold bbox_iou, area. rewrite E1.
    assert (Ix : clamp0 (Rmin x12 x12 - Rmax x11 x11) = x12 - x11).
    { unfold clamp0, Rmin, Rmax.
      destruct (Rle_dec x12 x12); [|lra]. destruct (Rle_dec x11 x11); [|lra].
      destruct (Rle_dec (x12 - x11) 0); lra. }
    assert (Iy : clamp0 (Rmin y12 y12 - Rmax y11 y11) = y12 - y11).
    { unfold clamp0, Rmin, Rmax.
      destruct (Rle_dec y12 y12); [|lra]. destruct (Rle_dec y11 y11); [|lra].
      destruct (Rle_dec (y12 - y11) 0); lra. }
    assert (Mx : Rmax x12 x12 - Rmin x11 x11 = x12 - x11).
    { unfold Rmin, Rmax.
      destruct (Rle_dec x12 x12); destruct (Rle_dec x11 x11); lra. }
    assert (My : Rmax y12 y12 - Rmin y11 y11 = y12 - y11).
    { unfold Rmin, Rmax.
      destruct (Rle_dec y12 y12); destruct (Rle_dec y11 y11); lra. }
    rewrite Ix, Iy, Mx, My.
    set (a := (x12 - x11) * (y12 - y11)).
    assert (0 <= a) by (unfold a; nra).
    rewrite fdiv_nonzero by lra. simpl.
    rewrite fdiv_nonzero by lra. simpl.
    f_equal. field. lra.
  - unfold area. rewrite E1.
    set (a := (x12 - x11) * (y12 - y11)).
    assert (0 <= a) by (unfold a; nra).
    apply (Rmult_lt_reg_r (a + eps16)); [lra|].
    unfold Rdiv. rewrite Rmult_assoc, Rinv_l by lra. lra.
Qed.

End BoxGeometryFacts.

(** ** Box geometry in float32 *)

Section Float32Facts.
Import SpecFloat Float32 Float32Examples.
Local Open Scope Z_scope.

Lemma digits2_bounds (p : positive) :
  2 ^ (Zpos (digits2_pos p) - 1) <= Zpos p < 2 ^ Zpos (digits2_pos p).
Proof.
  induction p as [p IH|p IH|]; cbn [digits2_pos].
  - rewrite Pos2Z.inj_succ.
    replace (Z.succ (Zpos (digits2_pos p)) - 1) with (Z.succ (Zpos (digits2_pos p) - 1)) by lia.
    rewrite !Z.pow_succ_r by lia. lia.
  - rewrite Pos2Z.inj_succ.
    replace (Z.succ (Zpos (digits2_pos p)) - 1) with (Z.succ (Zpos (digits2_pos p) - 1)) by lia.
    rewrite !Z.pow_succ_r by lia. lia.
  - simpl. lia.
Qed.

Lemma digits2_unique (p : positive) (d : Z) :
  2 ^ (d - 1) <= Zpos p < 2 ^ d -> Zpos (digits2_pos p) = d.
Proof.
  intros [Hlo Hhi]. pose proof (digits2_bounds p) as [Blo Bhi].
  assert (Hd : 0 < d).
  { destruct (Z.lt_ge_cases 0 d) as [H|H]; [exact H|].
    destruct (Z.eq_dec d 0) as [->|N]; [simpl in Hhi; lia|].
    rewrite Z.pow_neg_r in Hhi by lia. lia. }
  set (k := Zpos (digits2_pos p)) in *.
  assert (Hk : 0 < k) by (unfold k; lia).
  destruct (Z.lt_trichotomy k d) as [Hlt|[E|Hgt]]; [|exact E|].
  - assert (2 ^ k <= 2 ^ (d - 1)) by (apply Z.pow_le_mono_r; lia). lia.
  - assert (2 ^ d <= 2 ^ (k - 1)) by (apply Z.pow_le_mono_r; lia). lia.
Qed.

Lemma iter_pos_nat (A : Type) (f : A -> A) (p : positive) :
  forall x, iter_pos f p x = Nat.iter (Pos.to_nat p) f x.
Proof.
  induction p as [p IH|p IH|]; intros x; cbn [iter_pos].
  - rewrite !IH, Pos2Nat.inj_xI.
    replace (S (2 * Pos.to_nat p)) with (S (Pos.to_nat p + Pos.to_nat p)) by lia.
    rewrite Nat.iter_succ, Nat.iter_add, !Nat.iter_swap. reflexivity.
  - rewrite !IH, Pos2Nat.inj_xO.
    replace (2 * Pos.to_nat p)%nat with (Pos.to_nat p + Pos.to_nat p)%nat by lia.
    rewrite Nat.iter_add. reflexivity.
  - reflexivity.
Qed.

Lemma shr_1_nonneg (m : Z) (r s : bool) :
  0 <= m ->
  shr_1 {| shr_m := m; shr_r := r; shr_s := s |} =
  {| shr_m := m / 2; shr_r := Z.odd m; shr_s := r || s |}.
Proof.
  intros H. rewrite <- Z.div2_div.
  destruct m as [|[p|p|]|p]; try reflexivity. lia.
Qed.

(** [n + 1] right shifts of [m]: the bit shifted out last and whether a
    lower bit was set. *)
Lemma shr_iter (m : Z) (n : nat) :
  0 <= m ->
  Nat.iter (S n) shr_1 {| shr_m := m; shr_r := false; shr_s := false |} =
  {| shr_m := m / 2 ^ Z.of_nat (S n);
     shr_r := Z.odd (m / 2 ^ Z.of_nat n);
     shr_s := negb (m mod 2 ^ Z.of_nat n =? 0) |}.
Proof.
  intros Hm. induction n as [|n IH].
  - cbn [Nat.iter]. rewrite shr_1_nonneg by exact Hm.
    change (2 ^ Z.of_nat 1) with 2. change (2 ^ Z.of_nat 0) with 1.
    rewrite Z.div_1_r, Z.mod_1_r. reflexivity.
  - change (Nat.iter (S (S n)) shr_1 ?x) with (shr_1 (Nat.iter (S n) shr_1 x)).
    rewrite IH.
    assert (P : 0 < 2 ^ Z.of_nat n) by (apply Z.pow_pos_nonneg; lia).
    assert (P' : 0 < 2 ^ Z.of_nat (S n)) by (apply Z.pow_pos_nonneg; lia).
    rewrite shr_1_nonneg by (apply Z.div_pos; lia).
    f_equal.
    + rewrite Z.div_div by lia. f_equal.
      rewrite (Nat2Z.inj_succ (S n)), Z.pow_succ_r by lia. lia.
    + assert (E : 2 ^ Z.of_nat (S n) = 2 ^ Z.of_nat n * 2)
        by (rewrite Nat2Z.inj_succ, Z.pow_succ_r by lia; lia).
      rewrite E, Z.rem_mul_r by lia.
      pose proof (Z.mod_pos_bound m (2 ^ Z.of_nat n) P) as B.
      pose proof (Z.mod_pos_bound (m / 2 ^ Z.of_nat n) 2 ltac:(lia)) as B2.
      pose proof (Zmod_odd (m / 2 ^ Z.of_nat n)) as Ho.
      destruct (Z.odd (m / 2 ^ Z.of_nat n));
        destruct (Z.eqb_spec (m mod 2 ^ Z.of_nat n) 0) as [E0|N0];
        cbn [orb negb]; symmetry;
        match goal with
        | |- negb _ = true => apply negb_true_iff, Z.eqb_neq; rewrite Ho; nia
        | |- negb _ = false => apply negb_false_iff, Z.eqb_eq; rewrite Ho; nia
        end.
Qed.

Lemma iter_xO (m k : positive) : Zpos (Pos.iter xO m k) = Zpos m * 2 ^ Zpos k.
Proof.
  induction k as [|k IH] using Pos.peano_ind.
  - simpl. lia.
  - rewrite Pos.iter_succ, Pos2Z.inj_succ, Z.pow_succ_r by lia.
    rewrite Pos2Z.inj_xO, IH. lia.
Qed.

Lemma shl_align_ge (mx : positive) (ex ex' : Z) :
  ex <= ex' -> shl_align mx ex ex' = (mx, ex).
Proof.
  intros H. unfold shl_align. destruct (ex' - ex) eqn:E; try reflexivity. lia.
Qed.

Lemma shl_align_lt (mx : positive) (ex ex' : Z) :
  ex' < ex ->
  exists mz, shl_align mx ex ex' = (mz, ex') /\ Zpos mz = Zpos mx * 2 ^ (ex - ex').
Proof.
  intros H. unfold shl_align. destruct (ex' - ex) as [| |d] eqn:E; try lia.
  eexists. split; [reflexivity|]. rewrite iter_xO. f_equal. f_equal. lia.
Qed.

Lemma fexp_normal (e : Z) : -149 <= e -> fexp prec emax (24 + e) = e.
Proof. intros H. unfold fexp, emin, prec, emax. lia. Qed.

Lemma shr_fexp_exact (m : positive) (e : Z) (l : location) :
  fexp prec emax (Zpos (digits2_pos m) + e) <= e ->
  shr_fexp prec emax (Zpos m) e l = (shr_record_of_loc (Zpos m) l, e).
Proof.
  intros Hc. unfold shr_fexp, shr. cbn [Zdigits2].
  destruct (fexp prec emax (Zpos (digits2_pos m) + e) - e) eqn:E;
    try reflexivity. lia.
Qed.

(** The second half of [binary_round_aux] on a mantissa that has the
    exponent of its size. *)
Lemma round_finish (s : bool) (m : positive) (e : Z) :
  fexp prec emax (Zpos (digits2_pos m) + e) <= e -> e <= emax - prec ->
  (let '(mrs, e') := shr_fexp prec emax (Zpos m) e loc_Exact in
   match shr_m mrs with
   | Z0 => S754_zero s
   | Zpos m' => if e' <=? emax - prec then S754_finite s m' e'
                else S754_infinity s
   | Zneg _ => S754_nan
   end) = S754_finite s m e.
Proof.
  intros Hc He. rewrite shr_fexp_exact by exact Hc.
  cbn [shr_record_of_loc shr_m].
  destruct (Z.leb_spec e (emax - prec)); [reflexivity | lia].
Qed.

(** Rounding a mantissa that already has the exponent of its size. *)
Lemma binary_round_aux_exact (s : bool) (m : positive) (e : Z) :
  fexp prec emax (Zpos (digits2_pos m) + e) <= e -> e <= emax - prec ->
  binary_round_aux prec emax s (Zpos m) e loc_Exact = S754_finite s m e.
Proof.
  intros Hc He. unfold binary_round_aux.
  rewrite shr_fexp_exact by exact Hc.
  cbn [shr_record_of_loc shr_m loc_of_shr_record round_nearest_even].
  apply round_finish; assumption.
Qed.

(** Rounding a mantissa with [k] bits too many, the bits dropped being less
    than half a unit: the upper bits are the result. *)
Lemma binary_round_aux_down (s : bool) (p m : positive) (ex k low : Z) :
  0 < k -> Zpos p = Zpos m * 2 ^ k + low -> 0 <= low -> 2 * low < 2 ^ k ->
  fexp prec emax (Zpos (digits2_pos p) + ex) = ex + k ->
  fexp prec emax (Zpos (digits2_pos m) + (ex + k)) <= ex + k ->
  ex + k <= emax - prec ->
  binary_round_aux prec emax s (Zpos p) ex loc_Exact = S754_finite s m (ex + k).
Proof.
  intros Hk Hp Hl0 Hl Hf Hc He.
  unfold binary_round_aux.
  assert (S1 : shr_fexp prec emax (Zpos p) ex loc_Exact =
               ({| shr_m := Zpos m; shr_r := false;
                   shr_s := negb (low =? 0) |}, ex + k)).
  { unfold shr_fexp, shr. cbn [Zdigits2]. rewrite Hf.
    replace (ex + k - ex) with k by lia.
    destruct k as [|kp|kp]; try lia. f_equal.
    rewrite iter_pos_nat. cbn [shr_record_of_loc].
    destruct (Pos.to_nat kp) as [|n] eqn:En; [lia|].
    rewrite shr_iter by lia.
    assert (Ek : Z.of_nat (S n) = Zpos kp) by lia.
    rewrite Ek. rewrite Hp.
    assert (P : 0 < 2 ^ Z.of_nat n) by (apply Z.pow_pos_nonneg; lia).
    assert (E2 : 2 ^ Zpos kp = 2 ^ Z.of_nat n * 2).
    { rewrite <- Ek, Nat2Z.inj_succ, Z.pow_succ_r by lia. lia. }
    assert (L : low < 2 ^ Z.of_nat n) by lia.
    f_equal.
    - rewrite Z.div_add_l by lia. rewrite Z.div_small by lia. lia.
    - rewrite E2.
      replace (Zpos m * (2 ^ Z.of_nat n * 2) + low)
        with ((Zpos m * 2) * 2 ^ Z.of_nat n + low) by lia.
      rewrite Z.div_add_l by lia. rewrite Z.div_small by lia.
      rewrite Z.add_0_r, Z.odd_mul. simpl. apply andb_false_r.
    - rewrite E2.
      replace (Zpos m * (2 ^ Z.of_nat n * 2) + low)
        with (low + (Zpos m * 2) * 2 ^ Z.of_nat n) by lia.
      rewrite Z.mod_add by lia. rewrite Z.mod_small by lia. reflexivity. }
  rewrite S1. cbn [shr_m].
  assert (R : round_nearest_even (Zpos m)
                (loc_of_shr_record
                   {| shr_m := Zpos m; shr_r := false; shr_s := negb (low =? 0) |}) =
              Zpos m).
  { destruct (negb (low =? 0)); reflexivity. }
  rewrite R. apply round_finish; assumption.
Qed.

Lemma binary_round_exact (s : bool) (m : positive) (e : Z) :
  fexp prec emax (Zpos (digits2_pos m) + e) = e -> e <= emax - prec ->
  binary_round prec emax s m e = S754_finite s m e.
Proof.
  intros Hc He. unfold binary_round. rewrite Hc.
  rewrite shl_align_ge by lia. apply binary_round_aux_exact; lia.
Qed.

Lemma normal_fexp (m : positive) (e : Z) :
  normal m e -> fexp prec emax (Zpos (digits2_pos m) + e) = e.
Proof. intros [Hd He]. rewrite Hd. apply fexp_normal. lia. Qed.

Lemma normal_range (m : positive) (e : Z) :
  normal m e -> 2 ^ 23 <= Zpos m < 2 ^ 24.
Proof.
  intros [Hd _]. pose proof (digits2_bounds m) as B. rewrite Hd in B.
  exact B.
Qed.

(** Adding a positive number of less than half a unit in the last place
    changes nothing. *)
Lemma fadd_absorb (m my : positive) (e ey : Z) :
  normal m e -> ey < e -> 2 * Zpos my < 2 ^ (e - ey) ->
  fadd (S754_finite false m e) (S754_finite false my ey) = S754_finite false m e.
Proof.
  intros Hn Hlt Hsmall.
  pose proof (normal_range Hn) as Hr. pose proof (normal_fexp Hn) as Hfe.
  destruct Hn as [Hd He].
  unfold fadd, SFadd. rewrite Z.min_r by lia.
  destruct (@shl_align_lt m e ey Hlt) as (mz & -> & Hmz).
  rewrite shl_align_ge by lia. cbn [fst cond_Zopp Z.add binary_normalize].
  set (k := e - ey) in *.
  assert (Hk : 0 < k) by (unfold k; lia).
  assert (P : 0 < 2 ^ k) by (apply Z.pow_pos_nonneg; lia).
  assert (Hsum : Zpos (mz + my) = Zpos m * 2 ^ k + Zpos my) by lia.
  assert (Hdig : Zpos (digits2_pos (mz + my)) = 24 + k).
  { apply digits2_unique. rewrite Hsum.
    replace (24 + k - 1) with (23 + k) by lia.
    rewrite !Z.pow_add_r by lia. nia. }
  unfold binary_round. rewrite Hdig.
  replace (24 + k + ey) with (24 + e) by (unfold k; lia).
  rewrite fexp_normal by lia. rewrite shl_align_ge by lia.
  replace (S754_finite false m e) with (S754_finite false m (ey + k))
    by (f_equal; unfold k; lia).
  apply (@binary_round_aux_down false (mz + my) m ey k (Zpos my)); try lia.
  - rewrite Hdig. replace (24 + k + ey) with (24 + e) by (unfold k; lia).
    rewrite fexp_normal by lia. unfold k. lia.
  - replace (ey + k) with e by (unfold k; lia). rewrite Hfe. lia.
Qed.

(** Doubling a normal number. *)
Lemma fadd_double (m : positive) (e : Z) :
  normal m e -> e < emax - prec ->
  fadd (S754_finite false m e) (S754_finite false m e) =
    S754_finite false m (e + 1).
Proof.
  intros Hn Hlt. pose proof (normal_fexp Hn) as Hfe. destruct Hn as [Hd He].
  unfold fadd, SFadd. rewrite Z.min_id, shl_align_ge by lia.
  cbn [fst cond_Zopp Z.add binary_normalize]. rewrite Pos.add_diag.
  unfold binary_round. cbn [digits2_pos]. rewrite Pos2Z.inj_succ, Hd.
  replace (Z.succ prec + e) with (24 + (e + 1)) by (unfold prec; lia).
  rewrite fexp_normal by lia. rewrite shl_align_ge by lia.
  apply (@binary_round_aux_down false (m~0) m e 1 0); try lia.
  - cbn [digits2_pos]. rewrite Pos2Z.inj_succ, Hd.
    replace (Z.succ prec + e) with (24 + (e + 1)) by (unfold prec; lia).
    apply fexp_normal. lia.
  - rewrite Hd. change prec with 24. rewrite fexp_normal by lia. lia.
Qed.

(** Taking a normal number from its double. *)
Lemma fsub_double (m : positive) (e : Z) :
  normal m e ->
  fsub (S754_finite false m (e + 1)) (S754_finite false m e) =
    S754_finite false m e.
Proof.
  intros Hn. pose proof (normal_fexp Hn) as Hfe. destruct Hn as [Hd He].
  unfold fsub, SFsub. rewrite Z.min_r by lia.
  destruct (@shl_align_lt m (e + 1) e ltac:(lia)) as (mz & -> & Hmz).
  rewrite shl_align_ge by lia. cbn [fst cond_Zopp].
  replace (e + 1 - e) with 1 in Hmz by lia.
  replace (Zpos mz - Zpos m) with (Zpos m) by lia.
  cbn [binary_normalize]. apply binary_round_exact; [exact Hfe | lia].
Qed.

Lemma fsub_self (s : bool) (m : positive) (e : Z) :
  fsub (S754_finite s m e) (S754_finite s m e) = zero.
Proof.
  unfold fsub, SFsub. rewrite Z.min_id, shl_align_ge by lia.
  cbn [fst]. rewrite Z.sub_diag. reflexivity.
Qed.

Lemma fdiv_self (s : bool) (m : positive) (e : Z) :
  fdiv (S754_finite s m e) (S754_finite s m e) = one.
Proof.
  unfold fdiv, SFdiv, SFdiv_core_binary. cbn [Zdigits2].
  rewrite !Z.sub_diag.
  change (Z.min (fexp prec emax 0) 0) with (-24).
  change (0 - -24) with 24.
  cbv iota.
  assert (E : Z.div_eucl (Z.shiftl (Zpos m) 24) (Zpos m) = (2 ^ 24, 0)).
  { pose proof (Z.div_eucl_eq (Z.shiftl (Zpos m) 24) (Zpos m) ltac:(lia)) as Hq.
    pose proof (Z.mod_pos_bound (Z.shiftl (Zpos m) 24) (Zpos m) ltac:(lia)) as Hb.
    unfold Z.modulo in Hb.
    destruct (Z.div_eucl (Z.shiftl (Zpos m) 24) (Zpos m)) as [q r].
    rewrite Z.shiftl_mul_pow2 in Hq by lia.
    assert (q = 2 ^ 24) by nia. subst q. f_equal. lia. }
  rewrite E.
  assert (L : new_location (Zpos m) 0 = loc_Exact).
  { unfold new_location, new_location_even, new_location_odd.
    destruct (Z.even (Zpos m)); reflexivity. }
  rewrite L, xorb_nilpotent. reflexivity.
Qed.

Lemma fmin_same (x : float32) : fmin x x = x.
Proof. unfold fmin. destruct x; simpl; try reflexivity; destruct (SFltb _ _); reflexivity. Qed.

Lemma fmax_same (x : float32) : fmax x x = x.
Proof. unfold fmax. destruct x; simpl; try reflexivity; destruct (SFltb _ _); reflexivity. Qed.

Lemma clamp0_nonneg (x : float32) : SFleb zero x = true -> clamp0 x = x.
Proof. destruct x as [[]|[]| |[] m e]; simpl; intros H; try discriminate H; reflexivity. Qed.

Lemma eps16_value : eps16 = S754_finite false 15111573 (-77).
Proof. vm_compute. reflexivity. Qed.

(** An area of at least [2^-29] absorbs the [1e-16]. *)
Lemma fadd_eps16 (m : positive) (e : Z) :
  normal m e -> -52 <= e ->
  fadd (S754_finite false m e) eps16 = S754_finite false m e.
Proof.
  intros Hn He. rewrite eps16_value. apply fadd_absorb; [exact Hn | lia |].
  assert (2 ^ 25 <= 2 ^ (e - -77)) by (apply Z.pow_le_mono_r; lia).
  change (2 ^ 25) with 33554432 in *. lia.
Qed.

Section GIoU.
Variable atan : float32 -> float32.

(** C10 (as amended): in float32, for a box whose computed width and height
    are not negative, GIoU of the box with itself is exactly 1.0 when the
    computed area is a float32 of full precision from [2^-29] to below
    [2^127] (the [1e-16] is then lost in the rounding of the sum, and the
    double of the area is finite), and is 0.0 when the computed area is
    zero.  That GIoU is at most IoU is not part of the statement: in
    float32 it fails. *)
Theorem giou_self_float32 (b : box) (x1y1x2y2 d_iou c_iou : bool) :
  SFleb zero (width x1y1x2y2 b) = true ->
  SFleb zero (height x1y1x2y2 b) = true ->
  (forall m e, area x1y1x2y2 b = S754_finite false m e ->
     Zpos (digits2_pos m) = prec -> -52 <= e < emax - prec ->
     bbox_iou atan b b x1y1x2y2 true d_iou c_iou = one) /\
  (area x1y1x2y2 b = zero ->
   bbox_iou atan b b x1y1x2y2 true d_iou c_iou = zero).
Proof.
  unfold area, width, height, bbox_iou.
  destruct (corners x1y1x2y2 b) as [[[x1 y1] x2] y2].
  intros Hw Hh. rewrite !fmin_same, !fmax_same.
  rewrite (clamp0_nonneg _ Hw), (clamp0_nonneg _ Hh).
  cbn [orb].
  split.
  - intros m e Ha Hd He. rewrite Ha.
    assert (Hn : normal m e) by (split; [exact Hd | unfold emax, prec in *; lia]).
    rewrite (fadd_eps16 Hn) by lia.
    rewrite (fadd_double Hn) by lia.
    rewrite (fsub_double Hn), fdiv_self, fsub_self. reflexivity.
  - intros Ha. rewrite Ha. vm_compute. reflexivity.
Qed.
End GIoU.

Lemma giou_self_float32_witness :
  SFleb zero (width false box_1122) = true /\
  SFleb zero (height false box_1122) = true /\
  area false box_1122 = S754_finite false 8388608 (-21) /\
  Zpos (digits2_pos 8388608) = prec /\ -52 <= -21 < emax - prec /\
  bbox_iou atan_unused box_1122 box_1122 false true false false = one.
Proof.
  assert (Hw : SFleb zero (width false box_1122) = true)
    by (vm_compute; reflexivity).
  assert (Hh : SFleb zero (height false box_1122) = true)
    by (vm_compute; reflexivity).
  assert (Ha : area false box_1122 = S754_finite false 8388608 (-21))
    by (vm_compute; reflexivity).
  assert (Hd : Zpos (digits2_pos 8388608) = prec) by reflexivity.
  assert (He : -52 <= -21 < emax - prec) by (unfold emax, prec; lia).
  split; [exact Hw|]. split; [exact Hh|]. split; [exact Ha|].
  split; [exact Hd|]. split; [exact He|].
  exact (proj1 (@giou_self_float32 atan_unused box_1122 false false false Hw Hh)
           8388608%positive (-21) Ha Hd He).
Defined.

(** C10 (as stated) fails in float32.  For the box of corners (0, 0) and
    (1 + 2^-23, 1) and the box of corners (0, 0) and (2^-12, 2^-12) inside
    it, the union rounds up to [1 + 2^-22], above the enclosing area
    [1 + 2^-23]: IoU is about 5.96e-8 and GIoU about 1.79e-7, the greater
    of the two.  GIoU of a box with itself is 0.0 for a point, about
    0.99989 for a square of side [2^-20], and infinite for a box of area
    [2^127]. *)
Lemma giou_above_iou :
  bbox_iou atan_unused box_outer box_inner true false false false =
    S754_finite false 16777212 (-48) /\
  bbox_iou atan_unused box_outer box_inner true true false false =
    S754_finite false 12582910 (-46) /\
  SFltb (bbox_iou atan_unused box_outer box_inner true false false false)
        (bbox_iou atan_unused box_outer box_inner true true false false) = true /\
  bbox_iou atan_unused box_point box_point true true false false = zero /\
  bbox_iou atan_unused box_tiny box_tiny true true false false =
    S754_finite false 16775372 (-24) /\
  bbox_iou atan_unused box_huge box_huge true true false false =
    S754_infinity false /\
  one = S754_finite false 8388608 (-23).
Proof. repeat split; vm_compute; reflexivity. Qed.
End Float32Facts.

(** ** Lists as tensors: indexing lemmas *)

Section ListTensorFacts.
Variables A B : Type.

Lemma length_imap (f : nat -> A -> B) (l : list A) : length (imap f l) = length l.
Proof.
  unfold imap. rewrite length_map, length_combine, length_seq.
  apply Nat.min_id.
Qed.

Lemma nth_imap (f : nat -> A -> B) (l : list A) (i : nat) (d : B) (d' : A) :
  (i < length l)%nat -> nth i (imap f l) d = f i (nth i l d').
Proof.
  intros Hi. unfold imap.
  rewrite (nth_indep _ d (f O d')) by
    (rewrite length_map, length_combine, length_seq, Nat.min_id; exact Hi).
  change (f O d') with ((fun ix : nat * A => f (fst ix) (snd ix)) (O, d')).
  rewrite map_nth, combine_nth by (rewrite length_seq; reflexivity).
  simpl. rewrite seq_nth by exact Hi. reflexivity.
Qed.

Lemma nth_map_lt (f : A -> B) (l : list A) (i : nat) (d : B) (d' : A) :
  (i < length l)%nat -> nth i (map f l) d = f (nth i l d').
Proof.
  revert i. induction l as [|a l IH]; intros i Hi; simpl in *; [lia|].
  destruct i as [|i]; [reflexivity|]. apply IH. lia.
Qed.

Lemma length_concat_uniform (ls : list (list A)) (m : nat) :
  Forall (fun l => length l = m) ls -> length (concat ls) = (length ls * m)%nat.
Proof.
  induction 1 as [|l ls Hl _ IH]; simpl; [reflexivity|].
  rewrite length_app, IH, Hl. reflexivity.
Qed.

Lemma nth_concat_uniform (ls : list (list A)) (m i j : nat) (d : A) :
  Forall (fun l => length l = m) ls -> (j < m)%nat ->
  nth (i * m + j) (concat ls) d = nth j (nth i ls []) d.
Proof.
  intros H. revert i. induction H as [|l ls Hl _ IH]; intros i Hj.
  - simpl. destruct (i * m + j)%nat; destruct i; destruct j; reflexivity.
  - destruct i as [|i]; simpl.
    + rewrite app_nth1 by lia. reflexivity.
    + rewrite app_nth2 by lia.
      replace (m + i * m + j - length l)%nat with (i * m + j)%nat by lia.
      apply IH. exact Hj.
Qed.

Lemma Forall_nth_in (P : A -> Prop) (l : list A) (i : nat) (d : A) :
  Forall P l -> (i < length l)%nat -> P (nth i l d).
Proof.
  intros H Hi. rewrite Forall_forall in H. apply H. apply nth_In. exact Hi.
Qed.
End ListTensorFacts.

Lemma nth_map_seq (A : Type) (f : nat -> A) (n i : nat) (d : A) :
  (i < n)%nat -> nth i (map f (seq 0 n)) d = f i.
Proof.
  intros Hi. rewrite (nth_indep _ d (f O)) by (rewrite length_map, length_seq; exact Hi).
  rewrite map_nth, seq_nth by exact Hi. reflexivity.
Qed.

Lemma Forall_imap (A B : Type) (P : A -> Prop) (Q : B -> Prop)
    (f : nat -> A -> B) (l : list A) :
  (forall i a, P a -> Q (f i a)) -> Forall P l -> Forall Q (imap f l).
Proof.
  intros Hf Hl. unfold imap. apply Forall_forall. intros y Hy.
  apply in_map_iff in Hy. destruct Hy as ([i a] & <- & Hin).
  apply in_combine_r in Hin. simpl. apply Hf.
  rewrite Forall_forall in Hl. apply Hl. exact Hin.
Qed.

(** ** The detection head *)

Section YOLOFacts.
Import YOLOLayer.
Local Open Scope R_scope.

Lemma shaped5_view_permute (p : tensor4) (bs na no ny nx : nat) :
  shaped5 (view_permute p bs na no ny nx) bs na ny nx.
Proof.
  unfold shaped5, view_permute. split.
  - rewrite length_map, length_seq. reflexivity.
  - apply Forall_map, Forall_forall. intros b _. split.
    + rewrite length_map, length_seq. reflexivity.
    + apply Forall_map, Forall_forall. intros a _. split.
      * rewrite length_map, length_seq. reflexivity.
      * apply Forall_map, Forall_forall. intros y _.
        rewrite length_map, length_seq. reflexivity.
Qed.

Lemma get5_view_permute (p : tensor4) (bs na no ny nx b a y x : nat) :
  (b < bs)%nat -> (a < na)%nat -> (y < ny)%nat -> (x < nx)%nat ->
  get5 (view_permute p bs na no ny nx) b a y x =
  map (fun k => get4 p b (a * no + k) y x) (seq 0 no).
Proof.
  intros Hb Ha Hy Hx. unfold get5, view_permute.
  rewrite (nth_map_seq _ _ Hb), (nth_map_seq _ _ Ha),
          (nth_map_seq _ _ Hy), (nth_map_seq _ _ Hx).
  reflexivity.
Qed.

Lemma shaped5_tmap5 (f : nat -> nat -> nat -> cell -> cell) (t5 : tensor5)
    (bs na ny nx : nat) :
  shaped5 t5 bs na ny nx -> shaped5 (tmap5 f t5) bs na ny nx.
Proof.
  unfold shaped5, tmap5. intros [Hbs Hall]. split.
  - rewrite length_map. exact Hbs.
  - apply Forall_map. revert Hall. apply Forall_impl. intros img [Hna Himg]. split.
    + rewrite length_imap. exact Hna.
    + revert Himg. apply Forall_imap. intros a pl [Hny Hpl]. split.
      * rewrite length_imap. exact Hny.
      * revert Hpl. apply Forall_imap. intros y row Hrow.
        rewrite length_imap. exact Hrow.
Qed.

Lemma shaped5_at (t5 : tensor5) (bs na ny nx b a y : nat) :
  shaped5 t5 bs na ny nx -> (b < bs)%nat -> (a < na)%nat -> (y < ny)%nat ->
  length (nth b t5 []) = na /\
  length (nth a (nth b t5 []) []) = ny /\
  length (nth y (nth a (nth b t5 []) []) []) = nx.
Proof.
  intros [Hbs Hall] Hb Ha Hy.
  pose proof (@Forall_nth_in _ _ _ b [] Hall ltac:(lia)) as [Hna Himg].
  pose proof (@Forall_nth_in _ _ _ a [] Himg ltac:(lia)) as [Hny Hpl].
  pose proof (@Forall_nth_in _ _ _ y [] Hpl ltac:(lia)) as Hrow.
  auto.
Qed.

Lemma get5_tmap5 (f : nat -> nat -> nat -> cell -> cell) (t5 : tensor5)
    (bs na ny nx b a y x : nat) :
  shaped5 t5 bs na ny nx ->
  (b < bs)%nat -> (a < na)%nat -> (y < ny)%nat -> (x < nx)%nat ->
  get5 (tmap5 f t5) b a y x = f a y x (get5 t5 b a y x).
Proof.
  intros Hs Hb Ha Hy Hx.
  destruct (shaped5_at Hs Hb Ha Hy) as (Hna & Hny & Hnx).
  destruct Hs as [Hbs _].
  unfold get5, tmap5.
  rewrite (nth_indep _ [] (imap (fun a0 => imap (fun y0 => imap (fun x0 c => f a0 y0 x0 c))) []))
    by (rewrite length_map; lia).
  rewrite map_nth.
  rewrite (@nth_imap _ _ _ (nth b t5 []) a [] []) by lia. cbv beta.
  rewrite (@nth_imap _ _ _ (nth a (nth b t5 []) []) y [] []) by lia. cbv beta.
  rewrite (@nth_imap cell cell _ (nth y (nth a (nth b t5 []) []) []) x [] []) by lia.
  reflexivity.
Qed.

Lemma nth_view_rows (t5 : tensor5) (bs na ny nx b a y x : nat) :
  shaped5 t5 bs na ny nx ->
  (b < bs)%nat -> (a < na)%nat -> (y < ny)%nat -> (x < nx)%nat ->
  nth ((a * ny + y) * nx + x) (nth b (view_rows t5) []) [] = get5 t5 b a y x.
Proof.
  intros Hs Hb Ha Hy Hx. pose proof Hs as [Hbs Hall].
  unfold view_rows, get5.
  rewrite (nth_indep _ [] (concat (map (fun pl : list (list cell) => concat pl) [])))
    by (rewrite length_map; lia).
  rewrite (map_nth (fun img : list (list (list cell)) => concat (map (fun pl => concat pl) img))).
  pose proof (@Forall_nth_in _ _ _ b [] Hall ltac:(lia)) as [Hna Himg].
  set (img := nth b t5 []) in *.
  assert (Hflat : Forall (fun l : list cell => length l = (ny * nx)%nat)
                    (map (fun pl : list (list cell) => concat pl) img)).
  { apply Forall_map. revert Himg. apply Forall_impl. intros pl [Hny Hpl].
    rewrite (length_concat_uniform Hpl), Hny. reflexivity. }
  replace ((a * ny + y) * nx + x)%nat with (a * (ny * nx) + (y * nx + x))%nat by lia.
  rewrite (nth_concat_uniform _ _ Hflat) by nia.
  rewrite (nth_indep _ [] (concat (@nil (list cell)))) by (rewrite length_map; lia).
  rewrite (map_nth (fun pl : list (list cell) => concat pl)).
  pose proof (@Forall_nth_in _ _ _ a [] Himg ltac:(lia)) as [Hny Hpl].
  rewrite (nth_concat_uniform _ _ Hpl Hx). reflexivity.
Qed.
End YOLOFacts.

Section YOLODecode.
Import YOLOLayer.
Local Open Scope R_scope.

Lemma shape4_rectangular (p : tensor4) (bs ch ny nx : nat) :
  rectangular4 p bs ch ny nx -> (0 < bs)%nat -> (0 < ch)%nat -> (0 < ny)%nat ->
  shape4 p = (bs, ch, ny, nx).
Proof.
  intros [Hbs Hall] Pb Pc Py. unfold shape4.
  destruct p as [|img p]; [simpl in Hbs; lia|].
  inversion Hall as [|? ? [Hch Himg] _]; subst. simpl.
  destruct img as [|pl img]; [simpl in Pc; lia|].
  inversion Himg as [|? ? [Hny Hpl] _]; subst. simpl.
  destruct pl as [|row pl]; [simpl in Py; lia|].
  inversion Hpl as [|? ? Hrow _]; subst. simpl. reflexivity.
Qed.

Lemma grid_at_meshgrid (ny nx y x : nat) :
  (y < ny)%nat -> (x < nx)%nat -> grid_at (meshgrid ny nx) y x = (INR x, INR y).
Proof.
  intros Hy Hx. unfold grid_at, meshgrid.
  rewrite length_map, length_seq.
  assert (Ey : bcast_ix ny y = y).
  { unfold bcast_ix. destruct (Nat.eqb_spec ny 1); lia. }
  rewrite Ey, (nth_map_seq _ _ Hy), length_map, length_seq.
  assert (Ex : bcast_ix nx x = x).
  { unfold bcast_ix. destruct (Nat.eqb_spec nx 1); lia. }
  rewrite Ex, (nth_map_seq _ _ Hx). reflexivity.
Qed.

Lemma meshgrid_broadcasts (ny nx : nat) :
  bcast_ok (length (meshgrid ny nx)) ny &&
  forallb (fun row => bcast_ok (length row) nx) (meshgrid ny nx) = true.
Proof.
  unfold meshgrid, bcast_ok. rewrite length_map, length_seq, Nat.eqb_refl. simpl.
  apply forallb_forall. intros row Hrow. apply in_map_iff in Hrow.
  destruct Hrow as (y & <- & _). rewrite length_map, length_seq, Nat.eqb_refl.
  reflexivity.
Qed.

(** The layer [forward] goes on with once the grid step is done. *)
Lemma grid_step (m : t) (ny' nx' : nat) :
  training m = false -> grid_ready m ny' nx' ->
  let m1 := if ((nx m =? nx')%nat && (ny m =? ny')%nat)%bool then m
            else create_grids m (nx', ny') in
  nx m1 = nx' /\ ny m1 = ny' /\ grid m1 = Some (meshgrid ny' nx') /\
  anchors m1 = anchors m /\ stride m1 = stride m /\
  num_classes m1 = num_classes m /\ training m1 = false.
Proof.
  intros Ht Hr. cbv zeta.
  destruct (Nat.eqb_spec (nx m) nx') as [Ex|Nx]; simpl.
  - destruct (Nat.eqb_spec (ny m) ny') as [Ey|Ny]; simpl.
    + destruct Hr as [Hd|Hg]; [contradiction Hd; congruence|].
      repeat split; auto.
    + unfold create_grids; simpl. rewrite Ht. repeat split; auto.
  - unfold create_grids; simpl. rewrite Ht. repeat split; auto.
Qed.

Lemma sigmoid_0 : sigmoid 0 = 1 / 2.
Proof. unfold sigmoid. rewrite Ropp_0, exp_0. lra. Qed.

(** C1 (as amended): outside training and export, [forward] returns for each
    (anchor, row, col) the centre [(sigmoid(xy) + cell offset) * stride], the
    size [exp(wh) * (anchor / stride) * stride] and the plain sigmoid of the
    objectness and of every class logit; the class scores are not multiplied
    by the objectness. *)
Theorem forward_inference_decode (m : t) (p : tensor4)
    (bs ny' nx' b a y x : nat) (aw ah : R) :
  training m = false ->
  stride m <> 0 ->
  rectangular4 p bs (na m * num_classes_output m) ny' nx' ->
  grid_ready m ny' nx' ->
  (b < bs)%nat -> (a < na m)%nat -> (y < ny')%nat -> (x < nx')%nat ->
  nth a (anchors m) (0, 0) = (aw, ah) ->
  exists io m',
    forward m p =
      Ok (Infer io (view_permute p bs (na m) (num_classes_output m) ny' nx'), m') /\
    let raw k := get4 p b (a * num_classes_output m + k) y x in
    nth ((a * ny' + y) * nx' + x) (nth b io []) [] =
      [ (sigmoid (raw 0%nat) + INR x) * stride m;
        (sigmoid (raw 1%nat) + INR y) * stride m;
        exp (raw 2%nat) * (aw / stride m) * stride m;
        exp (raw 3%nat) * (ah / stride m) * stride m ] ++
      map (fun k => sigmoid (raw k)) (seq 4 (num_classes m + 1)).
Proof.
  intros Ht Hs Hrect Hready Hb Ha Hy Hx Hanchor.
  assert (Hch : (0 < na m * num_classes_output m)%nat)
    by (unfold num_classes_output; nia).
  unfold forward.
  rewrite (shape4_rectangular Hrect) by lia.
  destruct (grid_step Ht Hready) as (E1 & E2 & E3 & E4 & E5 & E6 & E7).
  cbv zeta in E1, E2, E3, E4, E5, E6, E7.
  set (m1 := if ((nx m =? nx')%nat && (ny m =? ny')%nat)%bool then m
             else create_grids m (nx', ny')) in *.
  assert (Ena : na m1 = na m) by (unfold na; rewrite E4; reflexivity).
  assert (Eno : num_classes_output m1 = num_classes_output m)
    by (unfold num_classes_output; rewrite E6; reflexivity).
  rewrite Ena, Eno, Nat.eqb_refl, E7, E3, E1, E2. simpl negb. cbv iota.
  rewrite meshgrid_broadcasts. simpl negb. cbv iota.
  eexists; eexists; split; [reflexivity|]. cbv zeta.
  set (no := num_classes_output m) in *.
  set (p5 := view_permute p bs (na m) no ny' nx').
  pose proof (shaped5_view_permute p bs (na m) no ny' nx') as S0. fold p5 in S0.
  pose proof (shaped5_tmap5 _ S0 : shaped5 (set_xy (meshgrid ny' nx') p5) _ _ _ _) as S1.
  pose proof (shaped5_tmap5 _ S1 :
                shaped5 (set_wh (anchor_vec m1) (set_xy (meshgrid ny' nx') p5)) _ _ _ _) as S2.
  pose proof (shaped5_tmap5 _ S2 :
                shaped5 (scale_box (stride m1)
                  (set_wh (anchor_vec m1) (set_xy (meshgrid ny' nx') p5))) _ _ _ _) as S3.
  pose proof (shaped5_tmap5 _ S3 :
                shaped5 (sigmoid_tail (scale_box (stride m1)
                  (set_wh (anchor_vec m1) (set_xy (meshgrid ny' nx') p5)))) _ _ _ _) as S4.
  rewrite (nth_view_rows S4 Hb Ha Hy Hx).
  pose proof (get5_tmap5 _ S3 Hb Ha Hy Hx :
    get5 (sigmoid_tail (scale_box (stride m1)
      (set_wh (anchor_vec m1) (set_xy (meshgrid ny' nx') p5)))) b a y x = _) as C4.
  pose proof (get5_tmap5 _ S2 Hb Ha Hy Hx :
    get5 (scale_box (stride m1)
      (set_wh (anchor_vec m1) (set_xy (meshgrid ny' nx') p5))) b a y x = _) as C3.
  pose proof (get5_tmap5 _ S1 Hb Ha Hy Hx :
    get5 (set_wh (anchor_vec m1) (set_xy (meshgrid ny' nx') p5)) b a y x = _) as C2.
  pose proof (get5_tmap5 _ S0 Hb Ha Hy Hx :
    get5 (set_xy (meshgrid ny' nx') p5) b a y x = _) as C1.
  rewrite C4, C3, C2, C1. clear C4 C3 C2 C1.
  unfold p5. rewrite (get5_view_permute _ _ Hb Ha Hy Hx).
  rewrite (grid_at_meshgrid Hy Hx).
  assert (Eanchor : nth a (anchor_vec m1) (0, 0) = (aw / stride m, ah / stride m)).
  { unfold anchor_vec. rewrite E4, E5.
    rewrite (@nth_map_lt _ _ _ _ _ _ (0, 0) Ha), Hanchor. reflexivity. }
  rewrite Eanchor, E5.
  unfold no, num_classes_output.
  replace (num_classes m + 5)%nat with (S (S (S (S (S (num_classes m)))))) by lia.
  replace (num_classes m + 1)%nat with (S (num_classes m)) by lia.
  simpl. rewrite map_map. reflexivity.
Qed.

Lemma forward_inference_decode_witness :
  training Examples.head2 = false /\
  stride Examples.head2 <> 0 /\
  rectangular4 Examples.zeros_1x7x1x1 1
    (na Examples.head2 * num_classes_output Examples.head2) 1 1 /\
  grid_ready Examples.head2 1 1 /\
  (0 < 1)%nat /\ (0 < na Examples.head2)%nat /\ (0 < 1)%nat /\ (0 < 1)%nat /\
  nth 0 (anchors Examples.head2) (0, 0) = (32, 32) /\
  exists io m',
    forward Examples.head2 Examples.zeros_1x7x1x1 =
      Ok (Infer io (view_permute Examples.zeros_1x7x1x1 1 (na Examples.head2)
                      (num_classes_output Examples.head2) 1 1), m') /\
    let raw k := get4 Examples.zeros_1x7x1x1 0
                   (0 * num_classes_output Examples.head2 + k) 0 0 in
    nth ((0 * 1 + 0) * 1 + 0) (nth 0 io []) [] =
      [ (sigmoid (raw 0%nat) + INR 0) * stride Examples.head2;
        (sigmoid (raw 1%nat) + INR 0) * stride Examples.head2;
        exp (raw 2%nat) * (32 / stride Examples.head2) * stride Examples.head2;
        exp (raw 3%nat) * (32 / stride Examples.head2) * stride Examples.head2 ] ++
      map (fun k => sigmoid (raw k)) (seq 4 (num_classes Examples.head2 + 1)).
Proof.
  assert (H1 : training Examples.head2 = false) by reflexivity.
  assert (H2 : stride Examples.head2 <> 0) by (simpl; lra).
  assert (H3 : rectangular4 Examples.zeros_1x7x1x1 1
                 (na Examples.head2 * num_classes_output Examples.head2) 1 1).
  { unfold rectangular4. split; [reflexivity|].
    repeat (constructor; [split; [reflexivity|repeat constructor]|]).
    constructor. }
  assert (H4 : grid_ready Examples.head2 1 1).
  { left. simpl. intros H; inversion H. }
  assert (H5 : (0 < 1)%nat) by lia.
  assert (H6 : (0 < na Examples.head2)%nat) by (unfold na, Examples.head2; simpl; lia).
  assert (H7 : nth 0 (anchors Examples.head2) (0, 0) = (32, 32)) by reflexivity.
  repeat (split; [assumption|]).
  exact (@forward_inference_decode Examples.head2 Examples.zeros_1x7x1x1
           1 1 1 0 0 0 0 32 32 H1 H2 H3 H4 H5 H6 H5 H5 H7).
Defined.

(** C1 (as stated) fails: with two classes and every logit zero, the class
    score returned is [sigmoid 0 = 1/2], not [sigmoid 0 * sigmoid 0 = 1/4]. *)
Lemma forward_class_score_not_scaled :
  (1 < num_classes Examples.head2)%nat /\
  exists row p5 m',
    forward Examples.head2 Examples.zeros_1x7x1x1 = Ok (Infer [[row]] p5, m') /\
    nth 4 row 0 = sigmoid 0 /\
    nth 5 row 0 = sigmoid 0 /\
    nth 5 row 0 <> sigmoid 0 * sigmoid 0.
Proof.
  split; [unfold Examples.head2; simpl; lia|].
  unfold forward, Examples.head2, Examples.zeros_1x7x1x1. simpl.
  eexists; eexists; eexists. split; [reflexivity|].
  unfold get4; simpl. split; [reflexivity|]. split; [reflexivity|].
  rewrite sigmoid_0. lra.
Qed.

(** [create_grids] stores the dimensions also in training, where it builds
    no offsets: a later evaluation pass at the same dimensions finds
    [self.grid] still [None]. *)
Example forward_without_grid :
  forward Examples.head2_trained Examples.zeros_1x7x1x1 = Raise TypeError.
Proof. reflexivity. Qed.
End YOLODecode.

(** ** Target assignment *)

Section TargetFacts.
Import BoxGeometry Targets.
Local Open Scope R_scope.

Lemma long_IZR (z : Z) : long (IZR z) = z.
Proof.
  unfold long. destruct (Rle_dec 0 (IZR z)) as [_|_].
  - symmetry. apply Int_part_spec. lra.
  - rewrite <- opp_IZR. rewrite <- (Int_part_spec (IZR (- z)) (- z)) by lra. lia.
Qed.

Lemma tdiv_nonzero (x y : R) : y <> 0 -> tdiv x y = Fin (x / y).
Proof.
  intros Hy. unfold tdiv. destruct (Req_dec_T y 0); [contradiction | reflexivity].
Qed.

Lemma fold_max_lt (l : list Z) (c0 nc : Z) :
  (fold_left Z.max l c0 < nc)%Z <-> (c0 < nc)%Z /\ Forall (fun c => (c < nc)%Z) l.
Proof.
  revert c0. induction l as [|c l IH]; intros c0; simpl.
  - split; [intros H; split; [exact H | constructor] | intros [H _]; exact H].
  - rewrite IH. split.
    + intros [Hm Hl]. split; [lia|]. constructor; [lia | exact Hl].
    + intros [H0 Hl]. inversion Hl; subst. split; [lia | assumption].
Qed.

Lemma assert_classes_ok (c : list Z) (nc : Z) :
  Forall (fun x => (x < nc)%Z) c -> assert_classes c nc = Ok tt.
Proof.
  intros H. destruct c as [|c0 rest]; simpl; [reflexivity|].
  inversion H; subst.
  destruct (Z.ltb_spec (fold_left Z.max rest c0) nc) as [_|Hge]; [reflexivity|].
  exfalso. apply (Z.lt_irrefl nc). eapply Z.le_lt_trans; [exact Hge|].
  apply fold_max_lt. split; assumption.
Qed.

Lemma assert_classes_fails (c : list Z) (nc x : Z) :
  In x c -> (nc <= x)%Z -> assert_classes c nc = Raise AssertionError.
Proof.
  intros Hin Hx. destruct c as [|c0 rest]; [contradiction|]. simpl.
  destruct (Z.ltb_spec (fold_left Z.max rest c0) nc) as [Hlt|_]; [|reflexivity].
  exfalso. apply fold_max_lt in Hlt. destruct Hlt as [H0 Hl].
  destruct Hin as [->|Hin]; [lia|].
  rewrite Forall_forall in Hl. specialize (Hl _ Hin). lia.
Qed.

(** The loop raises the assertion exactly when some layer from [i] on has a
    matched target whose class is out of range. *)
Lemma build_loop_classes (p : list shape5) (targets : list target) (thr : R)
    (nc : Z) (layers : list (list (R * R))) (i : nat) :
  (i + length layers <= length p)%nat ->
  ((exists k anchors sh c,
      nth_error layers k = Some anchors /\ nth_error p (i + k) = Some sh /\
      In c (a_tcls (assign_layer anchors sh targets thr)) /\ (nc <= c)%Z) ->
   build_loop p targets thr nc i layers = Raise AssertionError) /\
  ((forall k anchors sh c,
      nth_error layers k = Some anchors -> nth_error p (i + k) = Some sh ->
      In c (a_tcls (assign_layer anchors sh targets thr)) -> (c < nc)%Z) ->
   exists outs, build_loop p targets thr nc i layers = Ok outs /\
                length outs = length layers).
Proof.
  revert i. induction layers as [|anchors rest IH]; intros i Hlen.
  - split.
    + intros (k & a & sh & c & Hk & _). destruct k; discriminate Hk.
    + intros _. exists []. split; reflexivity.
  - simpl in Hlen.
    destruct (nth_error p i) as [sh|] eqn:Ep;
      [| apply nth_error_None in Ep; lia].
    destruct (IH (S i) ltac:(lia)) as [IHbad IHgood].
    cbn [build_loop]. rewrite Ep.
    set (a := assign_layer anchors sh targets thr).
    assert (Dec : Forall (fun x => (x < nc)%Z) (a_tcls a) \/
                  exists x, In x (a_tcls a) /\ (nc <= x)%Z).
    { induction (a_tcls a) as [|x l IHl]; [left; constructor|].
      destruct (Z.lt_ge_cases x nc) as [Hx|Hx].
      - destruct IHl as [Hl|(y & Hy & Hny)].
        + left. constructor; assumption.
        + right. exists y. split; [right; exact Hy | exact Hny].
      - right. exists x. split; [left; reflexivity | exact Hx]. }
    split.
    + intros (k & a' & sh' & c & Hk & Hp & Hin & Hc).
      destruct Dec as [Hall|(x & Hx & Hnx)];
        [| rewrite (assert_classes_fails _ Hx Hnx); reflexivity].
      rewrite (assert_classes_ok Hall). cbn [bind].
      destruct k as [|k].
      * simpl in Hk. injection Hk as <-. rewrite Nat.add_0_r, Ep in Hp.
        injection Hp as <-. rewrite Forall_forall in Hall.
        specialize (Hall _ Hin). lia.
      * rewrite IHbad; [reflexivity|].
        exists k, a', sh', c. simpl in Hk.
        replace (S i + k)%nat with (i + S k)%nat by lia. auto.
    + intros Hgood.
      assert (Hall : Forall (fun x => (x < nc)%Z) (a_tcls a)).
      { apply Forall_forall. intros x Hx.
        apply (Hgood O anchors sh x); [reflexivity | | exact Hx].
        rewrite Nat.add_0_r. exact Ep. }
      rewrite (assert_classes_ok Hall). cbn [bind].
      destruct IHgood as (outs & Eouts & Hlo).
      { intros k a' sh' c Hk Hp Hin. apply (Hgood (S k) a' sh' c); auto.
        replace (i + S k)%nat with (S i + k)%nat by lia. exact Hp. }
      rewrite Eouts. cbn [bind]. exists (a :: outs). split; [reflexivity|].
      simpl. rewrite Hlo. reflexivity.
Qed.

(** C6 (as amended): [build_targets] raises the assertion when the class of
    some target that an anchor of some yolo layer matched is out of range,
    and returns when every matched class is in range; the class of a target
    that no anchor matches is never looked at. *)
Theorem build_targets_class_check (p : list shape5) (targets : list target)
    (m : model) :
  (length (yolo_anchor_vec m) <= length p)%nat ->
  ((exists i c, matched_class p targets m i c /\ (num_classes m <= c)%Z) ->
   build_targets p targets m = Raise AssertionError) /\
  ((forall i c, matched_class p targets m i c -> (c < num_classes m)%Z) ->
   exists r, build_targets p targets m = Ok r).
Proof.
  intros Hlen.
  destruct (@build_loop_classes p targets (iou_t m) (num_classes m)
              (yolo_anchor_vec m) O ltac:(simpl; lia)) as [Hbad Hgood].
  unfold build_targets. split.
  - intros (i & c & (anchors & sh & Hi & Hp & Hin) & Hc).
    rewrite Hbad; [reflexivity|]. exists i, anchors, sh, c. auto.
  - intros Hall. destruct Hgood as (outs & E & _).
    + intros k anchors sh c Hk Hp Hin. apply (Hall k c).
      exists anchors, sh. auto.
    + rewrite E. simpl. eauto.
Qed.

Lemma assign_layer_single (a : R * R) (sh : shape5) (t : target) (thr : R) :
  a_tcls (assign_layer [a] sh [t] thr) =
    (if single_match a sh t thr then [long (t_cls (scale_target sh t))] else []) /\
  (single_match a sh t thr = false ->
   assign_layer [a] sh [t] thr = Assignment [] [] [] []).
Proof.
  unfold single_match, assign_layer, match_anchors, wh_iou, imap. simpl.
  destruct (tgt _ thr); simpl; split; try reflexivity; intros H; discriminate H.
Qed.

Lemma single_match_unit :
  single_match (1, 1) (Shape5 1 1 2 2 6) TargetExamples.target_cls5 (1 / 5) = true.
Proof.
  unfold single_match, TargetExamples.target_cls5. simpl t_w. simpl t_h.
  simpl fst. simpl snd.
  replace (1 / 2 * (1 + 1)) with 1 by lra.
  rewrite Rmin_left by lra.
  rewrite tdiv_nonzero by lra. unfold tgt.
  destruct (Rlt_dec (1 / 5) (1 * 1 / (1 * 1 + 1 * 1 - 1 * 1))) as [_|N];
    [reflexivity|].
  exfalso. apply N. replace (1 * 1 / (1 * 1 + 1 * 1 - 1 * 1)) with 1 by (field; lra).
  lra.
Qed.

Lemma single_match_wide :
  single_match (4, 4) (Shape5 1 1 2 2 6) TargetExamples.target_cls5 (1 / 5) = false.
Proof.
  unfold single_match, TargetExamples.target_cls5. simpl t_w. simpl t_h.
  simpl fst. simpl snd.
  replace (1 / 2 * (1 + 1)) with 1 by lra.
  rewrite Rmin_right by lra.
  rewrite tdiv_nonzero by lra. unfold tgt.
  destruct (Rlt_dec (1 / 5) (1 * 1 / (4 * 4 + 1 * 1 - 1 * 1))) as [L|_];
    [|reflexivity].
  exfalso. replace (1 * 1 / (4 * 4 + 1 * 1 - 1 * 1)) with (1 / 16) in L by (field; lra).
  lra.
Qed.

Lemma matched_class_unit :
  matched_class TargetExamples.p_2x2 [TargetExamples.target_cls5]
    TargetExamples.model_unit 0 5.
Proof.
  exists [(1, 1)], (Shape5 1 1 2 2 6).
  split; [reflexivity | split; [reflexivity|]].
  unfold TargetExamples.model_unit. simpl iou_t.
  destruct (assign_layer_single (1, 1) (Shape5 1 1 2 2 6)
              TargetExamples.target_cls5 (1 / 5)) as [E _].
  rewrite E, single_match_unit. left.
  unfold TargetExamples.target_cls5, scale_target. simpl t_cls.
  replace (5 * 1) with (IZR 5) by lra. apply long_IZR.
Qed.

Lemma build_targets_class_check_witness :
  (length (yolo_anchor_vec TargetExamples.model_unit) <=
   length TargetExamples.p_2x2)%nat /\
  (exists i c,
     matched_class TargetExamples.p_2x2 [TargetExamples.target_cls5]
       TargetExamples.model_unit i c /\
     (num_classes TargetExamples.model_unit <= c)%Z) /\
  build_targets TargetExamples.p_2x2 [TargetExamples.target_cls5]
    TargetExamples.model_unit = Raise AssertionError.
Proof.
  assert (H1 : (length (yolo_anchor_vec TargetExamples.model_unit) <=
                length TargetExamples.p_2x2)%nat) by (simpl; lia).
  assert (H2 : exists i c,
             matched_class TargetExamples.p_2x2 [TargetExamples.target_cls5]
               TargetExamples.model_unit i c /\
             (num_classes TargetExamples.model_unit <= c)%Z).
  { exists O, 5%Z. split; [exact matched_class_unit | simpl; lia]. }
  split; [exact H1 | split; [exact H2 |]].
  exact (proj1 (@build_targets_class_check TargetExamples.p_2x2
                  [TargetExamples.target_cls5] TargetExamples.model_unit H1) H2).
Defined.

(** C6 (as stated) fails: a target labelled with class 5 in a one-class model
    goes unnoticed when no anchor matches its shape; [build_targets] returns
    (with no assignment) instead of raising. *)
Lemma build_targets_misses_unmatched_class :
  (num_classes TargetExamples.model_wide <=
   long (t_cls TargetExamples.target_cls5))%Z /\
  build_targets TargetExamples.p_2x2 [TargetExamples.target_cls5]
    TargetExamples.model_wide = Ok ([[]], [[]], [[]], [[]]).
Proof.
  split.
  - unfold TargetExamples.target_cls5. simpl t_cls.
    rewrite (long_IZR 5). simpl. lia.
  - unfold build_targets, TargetExamples.model_wide, TargetExamples.p_2x2.
    cbn [yolo_anchor_vec iou_t num_classes build_loop nth_error].
    destruct (assign_layer_single (4, 4) (Shape5 1 1 2 2 6)
                TargetExamples.target_cls5 (1 / 5)) as [_ E].
    rewrite (E single_match_wide). reflexivity.
Qed.
End TargetFacts.

(** ** Python lists: the store *)

Section UpdateFacts.
Variable A : Type.

Lemma length_update (l : list A) (i : nat) (v : A) :
  (i < length l)%nat -> length (update l i v) = length l.
Proof.
  intros Hi. unfold update.
  rewrite length_app, length_firstn. cbn [length]. rewrite length_skipn. lia.
Qed.

Lemma nth_error_update_eq (l : list A) (i : nat) (v : A) :
  (i < length l)%nat -> nth_error (update l i v) i = Some v.
Proof.
  intros Hi. unfold update.
  rewrite nth_error_app2 by (rewrite length_firstn; lia).
  rewrite length_firstn. replace (i - Nat.min i (length l))%nat with O by lia.
  reflexivity.
Qed.

Lemma nth_error_update_neq (l : list A) (i j : nat) (v : A) :
  (i < length l)%nat -> j <> i -> nth_error (update l i v) j = nth_error l j.
Proof.
  intros Hi Hj. unfold update.
  destruct (Nat.lt_ge_cases j i) as [Hlt|Hge].
  - rewrite nth_error_app1 by (rewrite length_firstn; lia).
    rewrite nth_error_firstn.
    destruct (Nat.ltb_spec j i); [reflexivity | lia].
  - rewrite nth_error_app2 by (rewrite length_firstn; lia).
    rewrite length_firstn. replace (Nat.min i (length l)) with i by lia.
    destruct (j - i)%nat as [|k] eqn:E; [lia|]. cbn [nth_error].
    rewrite nth_error_skipn. f_equal. lia.
Qed.

Lemma nth_error_snoc_last (l : list A) (v : A) :
  nth_error (l ++ [v]) (length l) = Some v.
Proof.
  rewrite nth_error_app2 by lia. rewrite Nat.sub_diag. reflexivity.
Qed.

Lemma nth_error_snoc_old (l : list A) (v : A) (j : nat) :
  (j < length l)%nat -> nth_error (l ++ [v]) j = nth_error l j.
Proof. intros Hj. apply nth_error_app1. exact Hj. Qed.
End UpdateFacts.

(** ** Weighted residual fusion *)

Section FusionFacts.
Import WeightedFeatureFusion.
Local Open Scope R_scope.
Variable plane : Type.
Variable padd : plane -> plane -> plane.
Variable pscale : R -> plane -> plane.

Local Notation tensor := (tensor plane).
Local Notation heap := (heap plane).

Lemma length_tadd (x a : tensor) :
  length (tadd padd x a) = Nat.min (length x) (length a).
Proof. unfold tadd. rewrite length_map, length_combine. reflexivity. Qed.

Lemma length_tscale (s : R) (x : tensor) : length (tscale pscale s x) = length x.
Proof. unfold tscale. apply length_map. Qed.

Lemma deref_some (h : heap) (l : nat) (v : tensor) :
  nth_error h l = Some v -> deref h l = Ok v.
Proof. intros H. unfold deref. rewrite H. reflexivity. Qed.

(** One pass of the loop body on the values: what the three branches store
    for the running tensor is [add_source]. *)
Lemma add_source_length (x a : tensor) :
  length (add_source padd x a) = length x.
Proof.
  unfold add_source.
  destruct (Nat.eqb_spec (length a) (length x)) as [E|N].
  - rewrite length_tadd. lia.
  - destruct (Nat.ltb_spec (length a) (length x)) as [L|G].
    + rewrite length_app, length_tadd, length_firstn, length_skipn. lia.
    + rewrite length_tadd, length_firstn. lia.
Qed.

Lemma getw_scaled (ws : list R) (cnt i : nat) :
  (i < length ws)%nat ->
  getw (map (fun wi => sigmoid wi * (2 / INR cnt)) ws) i =
    Ok (sigmoid (nth i ws 0) * (2 / INR cnt)).
Proof.
  intros Hi. unfold getw.
  rewrite nth_error_map, (nth_error_nth' ws 0 Hi). reflexivity.
Qed.

(** The loop, from a state whose running tensor [x] holds [xv].  Every
    source still to come names a live object with the channel count listed
    in [srcs]; under the assumption [NA] it is an object below [B], other
    than [x], holding the very value listed in [srcs].  The result is the
    fold of [add_source] over the values read. *)
Lemma fuse_loop_spec (NA : Prop) (B : nat) (weighted : bool) (ws : list R)
    (cnt : nat) (outputs : list pyobj) (nx : nat) :
  forall (ls : list Z) (srcs : list tensor) (i : nat) (x : nat) (h : heap)
         (xv : tensor),
    nth_error h x = Some xv -> length xv = nx -> (B <= length h)%nat ->
    (weighted = true -> (i + length ls < length ws)%nat) ->
    Forall2 (fun l sv => exists loc v,
               py_index outputs l = Ok (TensorRef loc) /\
               (loc < B)%nat /\
               nth_error h loc = Some v /\ length v = length sv /\
               (NA -> loc <> x /\ v = sv))
            ls srcs ->
    exists y h' yv reads,
      fuse_loop padd pscale weighted
        (map (fun wi => sigmoid wi * (2 / INR cnt)) ws) outputs nx i ls x h
        = Ok (y, h') /\
      nth_error h' y = Some yv /\ length yv = nx /\
      Forall2 (fun sv r => length r = length sv) srcs reads /\
      yv = add_sources padd pscale weighted ws cnt (S i) xv reads /\
      (NA -> reads = srcs).
Proof.
  induction ls as [|l rest IH]; intros srcs i x h xv Hx Hnx HB Hw Hsrc.
  - destruct srcs as [|sv srcs']; [|inversion Hsrc].
    exists x, h, xv, []. simpl. repeat split; auto.
  - destruct srcs as [|sv srcs']; [inversion Hsrc|].
    apply Forall2_cons_iff in Hsrc.
    destruct Hsrc as [(loc & av0 & Hidx & Hloc & Eloc & Hlav0 & Hna) Hrest].
    cbn [fuse_loop]. rewrite Hidx. cbn [bind].
    assert (Hxlt : (x < length h)%nat)
      by (apply nth_error_Some; rewrite Hx; discriminate).
    (* the feature to add: its name, the store and its value *)
    assert (Hfeat : exists a h1 av,
      (if weighted then
         bind (deref h loc) (fun av =>
         bind (getw (map (fun wi => sigmoid wi * (2 / INR cnt)) ws) (i + 1))
           (fun wi => Ok (length h, h ++ [tscale pscale wi av])))
       else Ok (loc, h)) = Ok (a, h1) /\
      nth_error h1 a = Some av /\
      (length h <= length h1)%nat /\
      (forall j, (j < length h)%nat -> nth_error h1 j = nth_error h j) /\
      av = weigh pscale weighted ws cnt (S i) av0).
    { destruct weighted.
      - rewrite (deref_some _ _ Eloc). cbn [bind].
        rewrite getw_scaled by (specialize (Hw eq_refl); simpl in Hw; lia).
        cbn [bind]. eexists; eexists; eexists.
        split; [reflexivity|]. split; [apply nth_error_snoc_last|].
        split; [rewrite length_app; simpl; lia|].
        split; [intros j Hj; apply nth_error_snoc_old; exact Hj|].
        unfold weigh. replace (i + 1)%nat with (S i) by lia. reflexivity.
      - exists loc, h, av0. split; [reflexivity|]. split; [exact Eloc|].
        split; [lia|]. split; [reflexivity|]. reflexivity. }
    destruct Hfeat as (a & h1 & av & Efeat & Ea & Hlen1 & Hold1 & Eav).
    rewrite Efeat. cbn [bind].
    rewrite (deref_some _ _ Ea). cbn [bind].
    assert (Hx1 : nth_error h1 x = Some xv) by (rewrite Hold1; assumption).
    rewrite (deref_some _ _ Hx1). cbn [bind].
    (* the three branches *)
    assert (Hstep : exists x' h2,
      (if (nx =? length av)%nat then (length h1, h1 ++ [tadd padd xv av])
       else if (length av <? nx)%nat then
         (x, update h1 x (tadd padd (firstn (length av) xv) av ++
                          skipn (length av) xv))
       else (length h1, h1 ++ [tadd padd xv (firstn nx av)])) = (x', h2) /\
      nth_error h2 x' = Some (add_source padd xv av) /\
      (length h1 <= length h2)%nat /\
      (x' = x \/ (length h1 <= x')%nat) /\
      (forall j, (j < length h1)%nat -> j <> x -> nth_error h2 j = nth_error h1 j) /\
      (exists v, nth_error h2 x = Some v /\ length v = nx)).
    { unfold add_source. rewrite Hnx.
      destruct (Nat.eqb_spec nx (length av)) as [E|N].
      - rewrite <- E, Nat.eqb_refl.
        eexists; eexists. split; [reflexivity|].
        split; [apply nth_error_snoc_last|].
        split; [rewrite length_app; simpl; lia|].
        split; [right; lia|].
        split; [intros j Hj _; apply nth_error_snoc_old; exact Hj|].
        exists xv. split; [|exact Hnx].
        rewrite nth_error_snoc_old by lia. exact Hx1.
      - destruct (Nat.eqb_spec (length av) nx) as [E'|_]; [lia|].
        destruct (Nat.ltb_spec (length av) nx) as [L|G].
        + eexists; eexists. split; [reflexivity|].
          split; [apply nth_error_update_eq; lia|].
          split; [rewrite length_update by lia; lia|].
          split; [left; reflexivity|].
          split; [intros j Hj Hjx; apply nth_error_update_neq; [lia | exact Hjx]|].
          eexists. split; [apply nth_error_update_eq; lia|].
          rewrite length_app, length_tadd, length_firstn, length_skipn. lia.
        + eexists; eexists. split; [reflexivity|].
          split; [apply nth_error_snoc_last|].
          split; [rewrite length_app; simpl; lia|].
          split; [right; lia|].
          split; [intros j Hj _; apply nth_error_snoc_old; exact Hj|].
          exists xv. split; [|exact Hnx].
          rewrite nth_error_snoc_old by lia. exact Hx1. }
    destruct Hstep as (x' & h2 & Estep & Ex' & Hlen2 & Hx' & Hold2 & Hxkeep).
    rewrite Estep.
    destruct (IH srcs' (S i) x' h2 (add_source padd xv av))
      as (y & h' & yv & reads & Ey & Hy & Hly & Hlens & Hfold & Hsame).
    + exact Ex'.
    + rewrite add_source_length. exact Hnx.
    + lia.
    + intros Hwt. specialize (Hw Hwt). simpl in Hw. lia.
    + revert Hrest. apply Forall2_impl.
      intros l' sv' (loc' & v' & Hidx' & Hloc' & Hval' & Hlv' & Hna').
      destruct (Nat.eq_dec loc' x) as [->|Hne].
      * destruct Hxkeep as (v2 & Hv2 & Hlv2).
        exists x, v2. split; [exact Hidx'|]. split; [exact Hloc'|].
        split; [exact Hv2|]. split.
        -- rewrite Hx in Hval'. injection Hval' as <-. lia.
        -- intros HNA. destruct (Hna' HNA) as [Hc _]. contradiction Hc; reflexivity.
      * exists loc', v'. split; [exact Hidx'|]. split; [exact Hloc'|].
        split; [rewrite Hold2 by (try lia; exact Hne); rewrite Hold1 by lia; exact Hval'|].
        split; [exact Hlv'|].
        intros HNA. destruct (Hna' HNA) as [_ Hv]. split; [|exact Hv].
        destruct Hx' as [->|Hge]; [exact Hne | lia].
    + exists y, h', yv, (av0 :: reads). split; [exact Ey|]. split; [exact Hy|].
      split; [exact Hly|]. split; [constructor; [exact Hlav0 | exact Hlens]|].
      split.
      * rewrite Hfold. cbn [add_sources]. rewrite Eav. reflexivity.
      * intros HNA. rewrite (Hsame HNA). destruct (Hna HNA) as [_ ->]. reflexivity.
Qed.

Lemma Forall2_impl_in (X Y : Type) (P Q : X -> Y -> Prop) (l1 : list X) (l2 : list Y) :
  (forall a b, In a l1 -> P a b -> Q a b) -> Forall2 P l1 l2 -> Forall2 Q l1 l2.
Proof.
  intros HPQ H. induction H as [|a b l1 l2 Hab _ IH]; constructor.
  - apply HPQ; [left; reflexivity | exact Hab].
  - apply IH. intros a' b' Hin. apply HPQ. right. exact Hin.
Qed.

(** A node whose sources all name stored tensors returns; what it returns
    is the fold of the three branches over the values read, which have the
    sources' channel counts and are the stored outputs themselves when
    weighting is on or [x] is not itself one of the sources. *)
Lemma forward_fold (m : t) (h : heap) (x : nat) (outputs : list pyobj)
    (xv : tensor) (srcs : list tensor) :
  nth_error h x = Some xv ->
  Forall2 (resolves h outputs) (layers m) srcs ->
  (weight m = true -> length (w m) = n m) ->
  exists y h' yv reads,
    forward padd pscale m h x outputs = Ok (y, h') /\
    nth_error h' y = Some yv /\
    length yv = length xv /\
    Forall2 (fun sv r => length r = length sv) srcs reads /\
    yv = fusion_spec padd pscale (weight m) (w m) xv reads /\
    (weight m = true \/
     Forall (fun l => py_index outputs l <> Ok (TensorRef x)) (layers m) ->
     reads = srcs).
Proof.
  intros Hx Hsrc Hw.
  assert (Hxlt : (x < length h)%nat)
    by (apply nth_error_Some; rewrite Hx; discriminate).
  assert (Hcnt : length srcs = length (layers m))
    by (symmetry; eapply Forall2_length; exact Hsrc).
  unfold forward. rewrite (deref_some _ _ Hx). cbn [bind].
  destruct (weight m) eqn:Ew.
  - specialize (Hw eq_refl).
    rewrite getw_scaled by (rewrite Hw; unfold n; lia). cbn [bind].
    destruct (@fuse_loop_spec True (length h) true (w m) (n m) outputs (length xv)
                (layers m) srcs O (length h)
                (h ++ [tscale pscale (sigmoid (nth 0 (w m) 0) * (2 / INR (n m))) xv])
                (tscale pscale (sigmoid (nth 0 (w m) 0) * (2 / INR (n m))) xv))
      as (y & h' & yv & reads & Ey & Hy & Hly & Hlens & Hfold & Hsame).
    + apply nth_error_snoc_last.
    + apply length_tscale.
    + rewrite length_app. simpl. lia.
    + intros _. rewrite Hw. unfold n. lia.
    + revert Hsrc. apply Forall2_impl. intros l sv (loc & Hidx & Hval).
      assert (Hl : (loc < length h)%nat)
        by (apply nth_error_Some; rewrite Hval; discriminate).
      exists loc, sv. split; [exact Hidx|]. split; [exact Hl|].
      split; [rewrite nth_error_snoc_old by exact Hl; exact Hval|].
      split; [reflexivity|]. intros _. split; [lia | reflexivity].
    + exists y, h', yv, reads. split; [exact Ey|]. split; [exact Hy|].
      split; [exact Hly|]. split; [exact Hlens|]. split.
      * rewrite Hfold. unfold fusion_spec, weigh.
        assert (Er : S (length reads) = n m).
        { unfold n. f_equal. transitivity (length srcs); [|exact Hcnt].
          symmetry. eapply Forall2_length. exact Hlens. }
        rewrite <- Er. reflexivity.
      * intros _. apply Hsame. exact I.
  - destruct (@fuse_loop_spec
                (Forall (fun l => py_index outputs l <> Ok (TensorRef x)) (layers m))
                (length h) false (w m) (n m) outputs (length xv)
                (layers m) srcs O x h xv)
      as (y & h' & yv & reads & Ey & Hy & Hly & Hlens & Hfold & Hsame).
    + exact Hx.
    + reflexivity.
    + lia.
    + intros H; discriminate H.
    + revert Hsrc. apply Forall2_impl_in. intros l sv Hin (loc & Hidx & Hval).
      assert (Hl : (loc < length h)%nat)
        by (apply nth_error_Some; rewrite Hval; discriminate).
      exists loc, sv. split; [exact Hidx|]. split; [exact Hl|].
      split; [exact Hval|]. split; [reflexivity|].
      intros HNA. split; [|reflexivity].
      rewrite Forall_forall in HNA. specialize (HNA _ Hin).
      intros ->. apply HNA. exact Hidx.
    + exists y, h', yv, reads. split; [exact Ey|]. split; [exact Hy|].
      split; [exact Hly|]. split; [exact Hlens|]. split.
      * rewrite Hfold. unfold fusion_spec, weigh.
        assert (Er : S (length reads) = n m).
        { unfold n. f_equal. transitivity (length srcs); [|exact Hcnt].
          symmetry. eapply Forall2_length. exact Hlens. }
        rewrite <- Er. reflexivity.
      * intros [Hc|HNA]; [discriminate Hc | apply Hsame; exact HNA].
Qed.

(** *** Channel by channel *)

Lemma nth_error_tadd (x a : tensor) (k : nat) :
  nth_error (tadd padd x a) k =
  match nth_error x k, nth_error a k with
  | Some cx, Some ca => Some (padd cx ca)
  | _, _ => None
  end.
Proof.
  unfold tadd. revert a k. induction x as [|cx x IH]; intros a k.
  - simpl. destruct k; reflexivity.
  - destruct a as [|ca a]; simpl.
    + destruct k; simpl; [reflexivity|]. destruct (nth_error x k); reflexivity.
    + destruct k; simpl; [reflexivity | apply IH].
Qed.

Lemma nth_error_tscale (s : R) (x : tensor) (k : nat) :
  nth_error (tscale pscale s x) k = option_map (pscale s) (nth_error x k).
Proof. unfold tscale. apply nth_error_map. Qed.

Lemma nth_error_weigh (weighted : bool) (ws : list R) (cnt i : nat)
    (s : tensor) (k : nat) :
  nth_error (weigh pscale weighted ws cnt i s) k =
  option_map (weighed_plane pscale weighted ws cnt i) (nth_error s k).
Proof.
  unfold weigh, weighed_plane, factor. destruct weighted.
  - apply nth_error_tscale.
  - destruct (nth_error s k); reflexivity.
Qed.

(** What one source does to channel [k] of the running tensor. *)
Lemma nth_error_add_source (x a : tensor) (k : nat) (cx : plane) :
  nth_error x k = Some cx ->
  nth_error (add_source padd x a) k =
  Some (match nth_error a k with
        | Some ca => padd cx ca
        | None => cx
        end).
Proof.
  intros Hx.
  assert (Hk : (k < length x)%nat)
    by (apply nth_error_Some; rewrite Hx; discriminate).
  unfold add_source.
  destruct (Nat.eqb_spec (length a) (length x)) as [E|N].
  - rewrite nth_error_tadd, Hx.
    destruct (nth_error a k) as [ca|] eqn:Ea; [reflexivity|].
    apply nth_error_None in Ea. lia.
  - destruct (Nat.ltb_spec (length a) (length x)) as [L|G].
    + destruct (Nat.lt_ge_cases k (length a)) as [Hlt|Hge].
      * rewrite nth_error_app1
          by (rewrite length_tadd, length_firstn; lia).
        rewrite nth_error_tadd, nth_error_firstn.
        destruct (Nat.ltb_spec k (length a)); [|lia]. rewrite Hx.
        destruct (nth_error a k) as [ca|] eqn:Ea; [reflexivity|].
        apply nth_error_None in Ea. lia.
      * rewrite nth_error_app2
          by (rewrite length_tadd, length_firstn; lia).
        rewrite length_tadd, length_firstn.
        replace (Nat.min (Nat.min (length a) (length x)) (length a))
          with (length a) by lia.
        rewrite nth_error_skipn.
        replace (length a + (k - length a))%nat with k by lia.
        rewrite Hx. apply nth_error_None in Hge. rewrite Hge. reflexivity.
    + rewrite nth_error_tadd, Hx, nth_error_firstn.
      destruct (Nat.ltb_spec k (length x)); [|lia].
      destruct (nth_error a k) as [ca|] eqn:Ea; [reflexivity|].
      apply nth_error_None in Ea. lia.
Qed.

Lemma nth_error_add_sources (weighted : bool) (ws : list R) (cnt k : nat) :
  forall (srcs : list tensor) (i : nat) (acc : tensor) (c : plane),
    nth_error acc k = Some c ->
    nth_error (add_sources padd pscale weighted ws cnt i acc srcs) k =
    Some (fused_channel padd pscale weighted ws cnt i k c srcs).
Proof.
  induction srcs as [|s rest IH]; intros i acc c Hc; [exact Hc|].
  cbn [add_sources fused_channel]. apply IH.
  rewrite (@nth_error_add_source acc (weigh pscale weighted ws cnt i s) k c Hc),
    nth_error_weigh.
  destruct (nth_error s k); reflexivity.
Qed.

(** C8: a weighted-fusion node whose sources all name stored tensors
    returns a tensor with the channel count of the running tensor [x].
    Channel [k] of it is channel [k] of [x] plus, source after source,
    channel [k] of every source that has one: a source with as many
    channels is added elementwise, one with fewer only into its leading
    channels, and the channels a wider source has beyond those of [x] are
    dropped.  With weighting each of the [n] sources, [x] being source 0,
    is first scaled by [sigmoid(w_i) * 2 / n].  The values read have the
    sources' channel counts and are the stored outputs themselves when
    weighting is on or [x] is not itself one of the sources. *)
Theorem forward_fuses (m : t) (h : heap) (x : nat) (outputs : list pyobj)
    (xv : tensor) (srcs : list tensor) :
  nth_error h x = Some xv ->
  Forall2 (resolves h outputs) (layers m) srcs ->
  (weight m = true -> length (w m) = n m) ->
  exists y h' yv reads,
    forward padd pscale m h x outputs = Ok (y, h') /\
    nth_error h' y = Some yv /\
    length yv = length xv /\
    Forall2 (fun sv r => length r = length sv) srcs reads /\
    (forall k c, nth_error xv k = Some c ->
       nth_error yv k =
       Some (fused_channel padd pscale (weight m) (w m) (n m) 1 k
               (weighed_plane pscale (weight m) (w m) (n m) 0 c) reads)) /\
    (weight m = true \/
     Forall (fun l => py_index outputs l <> Ok (TensorRef x)) (layers m) ->
     reads = srcs).
Proof.
  intros Hx Hsrc Hw.
  destruct (@forward_fold m h x outputs xv srcs Hx Hsrc Hw)
    as (y & h' & yv & reads & Ey & Hy & Hly & Hlens & Hfold & Hsame).
  exists y, h', yv, reads.
  split; [exact Ey|]. split; [exact Hy|]. split; [exact Hly|].
  split; [exact Hlens|]. split; [|exact Hsame].
  intros k c Hc. rewrite Hfold. unfold fusion_spec. cbv zeta.
  assert (Er : S (length reads) = n m).
  { unfold n. f_equal. transitivity (length srcs).
    - symmetry. eapply Forall2_length. exact Hlens.
    - symmetry. eapply Forall2_length. exact Hsrc. }
  rewrite <- Er. apply nth_error_add_sources.
  rewrite nth_error_weigh, Hc. reflexivity.
Qed.
End FusionFacts.

Section FusionExamples.
Import WeightedFeatureFusion FusionExamples.
Local Open Scope R_scope.

Lemma forward_fuses_witness :
  nth_error heap_mixed 2 = Some [100; 200] /\
  Forall2 (resolves heap_mixed out2) (layers node01_weighted)
    [[1]; [10; 20; 30]] /\
  (weight node01_weighted = true ->
   length (w node01_weighted) = n node01_weighted) /\
  exists y h' yv reads,
    forward Rplus Rmult node01_weighted heap_mixed 2 out2 = Ok (y, h') /\
    nth_error h' y = Some yv /\
    length yv = length [100; 200] /\
    Forall2 (fun sv r : list R => length r = length sv)
      [[1]; [10; 20; 30]] reads /\
    (forall k c, nth_error [100; 200] k = Some c ->
       nth_error yv k =
       Some (fused_channel Rplus Rmult (weight node01_weighted)
               (w node01_weighted) (n node01_weighted) 1 k
               (weighed_plane Rmult (weight node01_weighted)
                  (w node01_weighted) (n node01_weighted) 0 c) reads)) /\
    (weight node01_weighted = true \/
     Forall (fun l => py_index out2 l <> Ok (TensorRef 2))
       (layers node01_weighted) ->
     reads = [[1]; [10; 20; 30]]).
Proof.
  assert (H1 : nth_error heap_mixed 2 = Some [100; 200]) by reflexivity.
  assert (H2 : Forall2 (resolves heap_mixed out2) (layers node01_weighted)
                 [[1]; [10; 20; 30]]).
  { repeat constructor.
    - exists 0%nat. split; reflexivity.
    - exists 1%nat. split; reflexivity. }
  assert (H3 : weight node01_weighted = true ->
               length (w node01_weighted) = n node01_weighted)
    by (intros _; reflexivity).
  split; [exact H1 | split; [exact H2 | split; [exact H3 |]]].
  exact (@forward_fuses R Rplus Rmult node01_weighted heap_mixed 2%nat out2 _ _
           H1 H2 H3).
Defined.

(** The weighted node on concrete numbers.  Every factor is
    [sigmoid 0 * (2 / 3)]; the source of one channel reaches channel 0
    only, the third channel of the wider source is dropped. *)
Example forward_weighted :
  let f := sigmoid 0 * (2 / INR 3) in
  exists y h',
    forward Rplus Rmult node01_weighted heap_mixed 2 out2 = Ok (y, h') /\
    nth_error h' y = Some [f * 100 + f * 1 + f * 10; f * 200 + f * 20].
Proof.
  unfold forward, node01_weighted, heap_mixed, out2. simpl.
  eexists; eexists. split; reflexivity.
Qed.

(** The scenario of a wider and an equal source: the wider one is cut to the
    channels of the running tensor. *)
Example forward_truncates :
  exists y h',
    forward Rplus Rmult node01 heap3 2 out2 = Ok (y, h') /\
    nth_error h' y = Some [100 + 1 + 10; 200 + 2 + 20].
Proof.
  unfold forward, node01, heap3, out2. simpl.
  eexists; eexists. split; reflexivity.
Qed.

(** When the running tensor is itself a later source, the in-place write of
    a narrower source is seen through that source: the second source read
    is [11; 20], not the stored [10; 20]. *)
Example forward_aliased_source :
  exists y h',
    forward Rplus Rmult node_alias heap_alias 1 out_alias = Ok (y, h') /\
    nth_error h' y = Some [10 + 1 + (10 + 1); 20 + 20] /\
    nth_error h' 1 = Some [10 + 1; 20].
Proof.
  unfold forward, node_alias, heap_alias, out_alias. simpl.
  eexists; eexists. split; [reflexivity|]. split; reflexivity.
Qed.
End FusionExamples.

(** ** Graph construction *)

Section BuilderFacts.
Import Layers Builder.
Local Open Scope Z_scope.

Lemma create_loop_length (env : torch_env) (mdl : list dict) (cfg : string) :
  forall (rest : list dict) (i : nat) (st : bstate) (ml : list (module R))
         (st' : bstate),
    create_loop env mdl cfg i rest st = Ok (ml, st') -> length ml = length rest.
Proof.
  induction rest as [|md rest IH]; intros i st ml st' H.
  - simpl in H. injection H as <- _. reflexivity.
  - cbn [create_loop] in H.
    apply bind_ok_inv in H. destruct H as ([m st1] & _ & H).
    apply bind_ok_inv in H. destruct H as ([ml' st2] & Hloop & H).
    injection H as <- _. simpl. f_equal. eapply IH. exact Hloop.
Qed.

Lemma set_true_length (rb rb' : list bool) (i : Z) :
  set_true rb i = Ok rb' -> length rb' = length rb.
Proof.
  unfold set_true. intros H.
  destruct ((_ <? 0) || (_ <=? _))%bool eqn:E; [discriminate H|].
  injection H as <-. apply length_update.
  apply Bool.orb_false_iff in E. destruct E as [E1 E2].
  apply Z.ltb_ge in E1. apply Z.leb_gt in E2. lia.
Qed.

Lemma set_routs_length (rs : list Z) :
  forall rb rb', set_routs rb rs = Ok rb' -> length rb' = length rb.
Proof.
  induction rs as [|i rs IH]; intros rb rb' H; simpl in H.
  - injection H as <-. reflexivity.
  - apply bind_ok_inv in H. destruct H as (rb1 & H1 & H2).
    rewrite (IH _ _ H2). eapply set_true_length. exact H1.
Qed.

(** The [try] block of the smart bias initialisation raises on every
    configuration. *)
Lemma smart_bias_try_raises (mdl : list dict) (md : dict) (layers : pyval) (yi : Z) :
  exists e, smart_bias_try mdl md layers yi = Raise e.
Proof.
  unfold smart_bias_try.
  destruct (if has md "from" then _ else _) as [j|e]; cbn [bind]; [|eauto].
  destruct (py_index mdl j) as [d|e]; cbn [bind]; [|eauto].
  destruct (getitem d (KInt 0)) as [v|e]; cbn [bind]; eauto.
Qed.

(** C9 (as amended): when construction returns on a list with at least one
    block after the header, the module list has one node per block after
    the header and the routing mask has the same length.  The blocks are
    taken as [parse_model_config] builds them, which is where the embedding
    follows torch and Python value by value. *)
Theorem create_modules_lengths (env : torch_env) (module_define : list dict)
    (model_config : string) (gray : bool)
    (module_list : list (module R)) (routs_binary : list bool)
    (printed : list string) :
  Forall parsed_block (tl module_define) ->
  tl module_define <> [] ->
  _create_modules env module_define model_config gray =
    Ok (module_list, routs_binary, printed) ->
  length module_list = length (tl module_define) /\
  length routs_binary = length module_list.
Proof.
  intros _ Hne H. unfold _create_modules in H.
  destruct module_define as [|hd mds]; [discriminate H|]. simpl in Hne |- *.
  apply bind_ok_inv in H. destruct H as ([ml st] & Hloop & H).
  apply bind_ok_inv in H. destruct H as (rb & Hrb & H).
  injection H as <- <- _.
  pose proof (create_loop_length _ _ _ _ _ _ Hloop) as Hl.
  apply set_routs_length in Hrb. rewrite repeat_length in Hrb.
  split; [exact Hl|]. rewrite Hrb, Hl.
  destruct mds; [contradiction Hne; reflexivity | simpl; lia].
Qed.

Ltac parsed_blocks :=
  repeat (apply Forall_cons || apply Forall_nil);
  try (split;
       [ simpl; repeat split; try lia; try discriminate; auto 6
       | eexists; split; [reflexivity | simpl; tauto] ]).

Lemma parsed_cfg_conv_yolo :
  Forall parsed_block (tl BuilderExamples.cfg_conv_yolo).
Proof. unfold BuilderExamples.cfg_conv_yolo, parsed_block. simpl tl. parsed_blocks. Qed.

Lemma parsed_cfg_missing_filters :
  Forall parsed_block (tl BuilderExamples.cfg_missing_filters).
Proof. unfold BuilderExamples.cfg_missing_filters, parsed_block. simpl tl. parsed_blocks. Qed.

Lemma parsed_cfg_forward_shortcut :
  Forall parsed_block (tl BuilderExamples.cfg_forward_shortcut).
Proof. unfold BuilderExamples.cfg_forward_shortcut, parsed_block. simpl tl. parsed_blocks. Qed.

Lemma eval_conv_yolo :
  exists conv yolo,
    _create_modules BuilderExamples.env0 BuilderExamples.cfg_conv_yolo
      "yolov3.cfg" false =
    Ok ([MSequential [MConv2d conv]; yolo], [true; false],
        ["WARNING: smart bias initialization failure."%string]) /\
    bias conv = Some (repeat 0%R 6).
Proof. eexists; eexists. split; reflexivity. Qed.

Lemma create_modules_lengths_witness :
  Forall parsed_block (tl BuilderExamples.cfg_conv_yolo) /\
  tl BuilderExamples.cfg_conv_yolo <> [] /\
  exists ml rb printed,
    _create_modules BuilderExamples.env0 BuilderExamples.cfg_conv_yolo
      "yolov3.cfg" false = Ok (ml, rb, printed) /\
    length ml = length (tl BuilderExamples.cfg_conv_yolo) /\
    length rb = length ml.
Proof.
  assert (H1 : tl BuilderExamples.cfg_conv_yolo <> []) by discriminate.
  split; [exact parsed_cfg_conv_yolo | split; [exact H1|]].
  destruct eval_conv_yolo as (conv & yolo & E & _).
  eexists; eexists; eexists. split; [exact E|].
  exact (@create_modules_lengths _ _ _ _ _ _ _ parsed_cfg_conv_yolo H1 E).
Defined.

(** C9 (as stated) fails: a block list within the supported fields need not
    build (a [convolutional] block without [filters] raises KeyError), and a
    list that builds may hold a forward reference (a shortcut from layer 1
    at node 0). *)
Lemma create_modules_fails_or_forward_refs :
  (Forall parsed_block (tl BuilderExamples.cfg_missing_filters) /\
   _create_modules BuilderExamples.env0 BuilderExamples.cfg_missing_filters
     "yolov3.cfg" false = Raise KeyError) /\
  (Forall parsed_block (tl BuilderExamples.cfg_forward_shortcut) /\
   exists ml rb printed,
     _create_modules BuilderExamples.env0 BuilderExamples.cfg_forward_shortcut
       "yolov3.cfg" false = Ok (ml, rb, printed) /\
     ~ no_forward_refs ml).
Proof.
  split.
  - split; [exact parsed_cfg_missing_filters | reflexivity].
  - split; [exact parsed_cfg_forward_shortcut|].
    eexists; eexists; eexists. split; [reflexivity|].
    intros H. specialize (H 0%nat _ 1 eq_refl). simpl in H.
    specialize (H (or_introl eq_refl)). lia.
Qed.

(** C4: on a configuration with a biased convolution of the expected shape
    before a yolo layer, construction leaves the bias as initialised and
    prints the warning; the bias is not the one the smart initialisation
    computes (-4.5 on the objectness entry). *)
Theorem create_modules_skips_smart_bias :
  exists conv yolo,
    _create_modules BuilderExamples.env0 BuilderExamples.cfg_conv_yolo
      "yolov3.cfg" false =
    Ok ([MSequential [MConv2d conv]; yolo], [true; false],
        ["WARNING: smart bias initialization failure."%string]) /\
    bias conv = Some (conv_bias_init BuilderExamples.env0 0 6) /\
    bias conv <> Some (smart_bias 1 6 1 (conv_bias_init BuilderExamples.env0 0 6)).
Proof.
  eexists; eexists. split; [reflexivity|]. split; [reflexivity|].
  simpl bias. unfold BuilderExamples.env0, conv_bias_init, smart_bias, smart_bias_row, imap.
  simpl. intros H. injection H as H4 H5.
  lra.
Qed.

Example eval_missing_filters :
  _create_modules BuilderExamples.env0 BuilderExamples.cfg_missing_filters
    "yolov3.cfg" false = Raise KeyError.
Proof. reflexivity. Qed.

Example eval_forward_shortcut :
  exists m0 m1,
  _create_modules BuilderExamples.env0 BuilderExamples.cfg_forward_shortcut
    "yolov3.cfg" false = Ok ([m0; m1], [true; true], []) /\
  sources 0 m0 = [1].
Proof. eexists; eexists. split; reflexivity. Qed.
End BuilderFacts.

(** ** Conv + batch-norm fusion *)

Section FuseFacts.
Import Layers Fuse.
Local Open Scope R_scope.

Lemma dot_nil_r (u : list R) : dot u [] = 0.
Proof. unfold dot. rewrite combine_nil. reflexivity. Qed.

Lemma dot_cons (a b : R) (u v : list R) : dot (a :: u) (b :: v) = a * b + dot u v.
Proof. reflexivity. Qed.

Lemma dot_scale (c : R) (u v : list R) : dot (map (fun x => c * x) u) v = c * dot u v.
Proof.
  revert v. induction u as [|a u IH]; intros v.
  - unfold dot; simpl. ring.
  - destruct v as [|b v]; [simpl; rewrite !dot_nil_r; ring|].
    simpl map. rewrite !dot_cons, IH. ring.
Qed.

(** The dot product with a row of [diag]: only position [o] counts. *)
Lemma dot_onehot (x : R) (o : nat) :
  forall (n s : nat) (u : list R),
    length u = n ->
    dot (map (fun j => if (o =? j)%nat then x else 0) (seq s n)) u =
    if ((s <=? o) && (o <? s + n))%nat then x * nth (o - s) u 0 else 0.
Proof.
  induction n as [|n IH]; intros s u Hu.
  - destruct u; [|discriminate Hu]. simpl.
    destruct (Nat.leb_spec s o); destruct (Nat.ltb_spec o (s + 0)); simpl;
      try reflexivity; lia.
  - destruct u as [|b u]; [discriminate Hu|]. injection Hu as Hu.
    cbn [seq map]. rewrite dot_cons, (IH (S s) u Hu).
    destruct (Nat.eqb_spec o s) as [->|Hne].
    + rewrite Nat.sub_diag.
      destruct (Nat.leb_spec (S s) s); [lia|]. simpl.
      destruct (Nat.leb_spec s s); [|lia].
      destruct (Nat.ltb_spec s (s + S n)); [|lia]. simpl. ring.
    + destruct (Nat.leb_spec (S s) o); destruct (Nat.leb_spec s o); try lia;
        destruct (Nat.ltb_spec o (S s + n)); destruct (Nat.ltb_spec o (s + S n));
        try lia; simpl; try ring.
      replace (o - s)%nat with (S (o - S s)) by lia. simpl. ring.
Qed.

Lemma imap_const (A B : Type) (f : nat -> B) (l : list A) :
  imap (fun j (_ : A) => f j) l = map f (seq 0 (length l)).
Proof.
  unfold imap.
  assert (G : forall (s : nat) (l : list A),
             map (fun ix : nat * A => f (fst ix)) (combine (seq s (length l)) l) =
             map f (seq s (length l))).
  { intros s l0. revert s. induction l0 as [|a l0 IH]; intros s; simpl;
      [reflexivity | rewrite IH; reflexivity]. }
  apply G.
Qed.

Lemma nth_diag (d : list R) (o : nat) :
  (o < length d)%nat ->
  nth o (diag d) [] =
  map (fun j => if (o =? j)%nat then nth o d 0 else 0) (seq 0 (length d)).
Proof.
  intros Ho. unfold diag.
  rewrite (@nth_imap _ _ _ d o [] 0 Ho). apply imap_const.
Qed.

Lemma length_diag (d : list R) : length (diag d) = length d.
Proof. unfold diag. apply length_imap. Qed.

Lemma diag_rows (d : list R) :
  Forall (fun row => length row = length d) (diag d).
Proof.
  unfold diag. apply (@Forall_imap _ _ (fun _ => True)); [|apply Forall_forall; auto].
  intros i a _. rewrite length_imap. reflexivity.
Qed.

Lemma nth_vmap2 (f : R -> R -> R) (d : R) :
  forall (u v : list R) (o : nat),
    (o < length u)%nat -> (o < length v)%nat ->
    nth o (vmap2 f u v) d = f (nth o u 0) (nth o v 0).
Proof.
  induction u as [|a u IH]; intros v o Hu Hv; [simpl in Hu; lia|].
  destruct v as [|b v]; [simpl in Hv; lia|].
  destruct o as [|o]; [reflexivity|].
  simpl in Hu, Hv. apply (IH v o); lia.
Qed.

Lemma length_vmap2 (f : R -> R -> R) (u v : list R) :
  length (vmap2 f u v) = Nat.min (length u) (length v).
Proof. unfold vmap2. rewrite length_map, length_combine. reflexivity. Qed.

(** Rows cut out of a flat list. *)
Lemma row_of_concat (rows : list (list R)) (K o : nat) :
  Forall (fun r => length r = K) rows -> (o < length rows)%nat ->
  firstn K (skipn (o * K) (concat rows)) = nth o rows [].
Proof.
  intros H. revert o. induction H as [|r rows Hr _ IH]; intros o Ho.
  - simpl in Ho. lia.
  - destruct o as [|o]; simpl.
    + rewrite firstn_app, Hr, Nat.sub_diag, firstn_O, app_nil_r.
      rewrite <- Hr. apply firstn_all.
    + rewrite skipn_app, Hr.
      replace (K + o * K - K)%nat with (o * K)%nat by lia.
      rewrite (skipn_all2 r) by lia. simpl. apply IH. simpl in Ho. lia.
Qed.

Lemma length_row (w : list R) (K n o : nat) :
  length w = (n * K)%nat -> (o < n)%nat ->
  length (firstn K (skipn (o * K) w)) = K.
Proof.
  intros Hw Ho. rewrite length_firstn, length_skipn, Hw. nia.
Qed.

(** [torch.mm(torch.diag(d), m)] scales row [o] of [m] by [d[o]]. *)
Lemma mm_diag (d : list R) (m : matrix) (p : nat) :
  length m = length d -> Forall (fun r => length r = p) m ->
  (0 < length d)%nat ->
  mm (diag d) m =
    Ok (map (fun o => map (fun x => nth o d 0 * x) (nth o m [])) (seq 0 (length d))).
Proof.
  intros Hm Hrows Hpos. unfold mm.
  assert (Hchk : forallb (fun row => (length row =? length m)%nat) (diag d) = true).
  { apply forallb_forall. intros row Hin.
    pose proof (diag_rows d) as Hd. rewrite Forall_forall in Hd.
    rewrite (Hd _ Hin), Hm. apply Nat.eqb_refl. }
  rewrite Hchk. f_equal.
  apply (nth_ext _ _ [] []).
  - rewrite !length_map, length_seq. apply length_diag.
  - intros o Ho. rewrite length_map, length_diag in Ho.
    rewrite (@nth_map_lt _ _ _ _ _ [] [] ) by (rewrite length_diag; exact Ho).
    rewrite (nth_map_seq _ _ Ho).
    rewrite (@nth_diag d o Ho).
    assert (Hp : length (hd [] m) = p).
    { destruct m as [|r m']; [simpl in Hm; lia|]. inversion Hrows; subst. reflexivity. }
    rewrite Hp.
    assert (Hro : length (nth o m []) = p)
      by (apply Forall_nth_in; [exact Hrows | lia]).
    apply (nth_ext _ _ 0 0).
    + rewrite !length_map, length_seq. symmetry. exact Hro.
    + intros j Hj. rewrite length_map, length_seq in Hj.
      rewrite (nth_map_seq _ _ Hj).
      rewrite (@nth_map_lt _ _ _ _ _ 0 0) by lia.
      rewrite dot_onehot by (unfold column; rewrite length_map; exact Hm).
      destruct (Nat.leb_spec 0 o); [|lia].
      destruct (Nat.ltb_spec o (0 + length d)); [|lia]. simpl.
      rewrite Nat.sub_0_r. unfold column.
      rewrite (@nth_map_lt _ _ _ _ _ 0 []) by lia. reflexivity.
Qed.

Lemma view_rows_exact (cout : Z) (w : list R) (K : nat) :
  (0 < cout)%Z -> length w = (Z.to_nat cout * K)%nat ->
  view_rows cout w =
    Ok (map (fun o => firstn K (skipn (o * K) w)) (seq 0 (Z.to_nat cout))).
Proof.
  intros Hc Hw. unfold view_rows.
  destruct (Z.leb_spec cout 0) as [|_]; [lia|].
  assert (Hn : Z.to_nat cout <> 0%nat) by lia.
  rewrite Hw, Nat.mul_comm, Nat.Div0.mod_mul, Nat.eqb_refl. simpl negb. cbv iota.
  rewrite Nat.div_mul by exact Hn. reflexivity.
Qed.

Section Equivalence.
Variable input : Type.
Variable position : Type.
Variable patch : Z -> Z -> stride_t -> Z -> Z -> input -> nat -> position -> list R.

(** For an ungrouped convolution, the layer [_fuse_conv_and_bn] returns
    computes what the convolution followed by the batch-norm layer (in
    evaluation mode) computes, on every input, channel and position. *)
Lemma fuse_conv_and_bn_equiv (c : Conv2d R) (b : BatchNorm2d R) :
  well_shaped c b -> groups c = 1%Z ->
  exists fused,
    _fuse_conv_and_bn c b = Ok fused /\
    forall (x : input) (o : nat) (pos : position),
      (o < Z.to_nat (out_channels c))%nat ->
      conv_forward patch fused x o pos =
      bn_forward b o (conv_forward patch c x o pos).
Proof.
  intros (Hout & Hin & Hk & Hg & Hw & Hb & Hgam & Hbet & Hmu & Hvar & Hpos) Hg1.
  set (n := Z.to_nat (out_channels c)) in *.
  set (K := Z.to_nat (in_channels c / groups c * kernel_size c * kernel_size c)) in *.
  set (d := vmap2 Rdiv (bn_weight b)
              (map (fun v => sqrt (eps b + v)) (running_var b))).
  assert (Hd : length d = n).
  { unfold d. rewrite length_vmap2, length_map, Hgam, Hvar. apply Nat.min_id. }
  assert (Hn : (0 < n)%nat) by (unfold n; lia).
  set (rows := map (fun o => firstn K (skipn (o * K) (weight c))) (seq 0 n)).
  assert (Hrows : Forall (fun r => length r = K) rows).
  { unfold rows. apply Forall_map, Forall_forall. intros o Ho.
    apply in_seq in Ho. apply (@length_row _ _ n _ Hw). lia. }
  assert (Hlrows : length rows = length d)
    by (unfold rows; rewrite length_map, length_seq, Hd; reflexivity).
  set (bc := match bias c with Some bv => bv | None => repeat 0 n end).
  assert (Hbc : length bc = n).
  { unfold bc. destruct (bias c); [exact Hb | apply repeat_length]. }
  assert (Hbrows : Forall (fun r : list R => length r = 1%nat) (map (fun v => [v]) bc)).
  { apply Forall_map, Forall_forall. intros; reflexivity. }
  set (bbn := vmap2 Rminus (bn_bias b)
                (vmap2 Rdiv (vmap2 Rmult (bn_weight b) (running_mean b))
                   (map (fun v => sqrt (v + eps b)) (running_var b)))).
  assert (Hbbn : length bbn = n).
  { unfold bbn. rewrite !length_vmap2, length_map, Hbet, Hgam, Hmu, Hvar. lia. }
  set (W := map (fun o => map (fun x => nth o d 0 * x) (nth o rows [])) (seq 0 (length d))).
  set (WB := map (fun o => map (fun x => nth o d 0 * x)
                             (nth o (map (fun v => [v]) bc) [])) (seq 0 (length d))).
  assert (HW : Forall (fun r => length r = K) W).
  { unfold W. apply Forall_map, Forall_forall. intros o Ho. apply in_seq in Ho.
    rewrite length_map. apply Forall_nth_in; [exact Hrows | lia]. }
  assert (HWB : Forall (fun r => length r = 1%nat) WB).
  { unfold WB. apply Forall_map, Forall_forall. intros o Ho. apply in_seq in Ho.
    rewrite length_map. apply Forall_nth_in; [exact Hbrows|].
    rewrite length_map. lia. }
  assert (HK : Z.of_nat (n * K) =
               (out_channels c * in_channels c * kernel_size c * kernel_size c)%Z).
  { unfold n, K. rewrite Hg1, Z.div_1_r. nia. }
  assert (Efused : _fuse_conv_and_bn c b =
            Ok {| in_channels := in_channels c; out_channels := out_channels c;
                  kernel_size := kernel_size c; stride := stride c;
                  padding := padding c; groups := 1;
                  weight := concat W; bias := Some (vmap2 Rplus (concat WB) bbn) |}).
  { unfold _fuse_conv_and_bn.
    rewrite (@view_rows_exact _ _ K Hout Hw). cbn [bind]. fold n. fold rows. fold d.
    rewrite (@mm_diag d rows K Hlrows Hrows) by lia. cbn [bind]. fold W.
    unfold view_flat. rewrite (length_concat_uniform HW).
    unfold W at 1. rewrite length_map, length_seq, Hd, HK, Z.eqb_refl. cbn [bind].
    fold bc.
    rewrite (@mm_diag d (map (fun v => [v]) bc) 1%nat)
      by (try exact Hbrows; rewrite ?length_map; lia).
    cbn [bind]. fold WB. fold bbn.
    rewrite (length_concat_uniform HWB).
    unfold WB at 1. rewrite length_map, length_seq, Hd, Hbbn, Nat.mul_1_r, Nat.eqb_refl.
    simpl negb. cbv iota.
    unfold n. rewrite Z2Nat.id by lia. rewrite Z.eqb_refl. reflexivity. }
  eexists. split; [exact Efused|].
  intros x o pos Ho. unfold conv_forward, bn_forward. cbn [in_channels kernel_size
    stride padding groups weight bias]. rewrite Hg1.
  assert (Erow : weight_row
            {| in_channels := in_channels c; out_channels := out_channels c;
               kernel_size := kernel_size c; stride := stride c;
               padding := padding c; groups := 1;
               weight := concat W; bias := Some (vmap2 Rplus (concat WB) bbn) |} o =
          map (fun v => nth o d 0 * v) (weight_row c o)).
  { unfold weight_row. cbn [in_channels kernel_size groups weight].
    rewrite Hg1. fold K.
    replace (Z.to_nat (in_channels c / 1 * kernel_size c * kernel_size c)) with K
      by (unfold K; rewrite Hg1; reflexivity).
    rewrite (@row_of_concat W K o HW) by (unfold W; rewrite length_map, length_seq; lia).
    unfold W. rewrite (nth_map_seq _ _ (n:=length d)) by lia.
    unfold rows. rewrite (nth_map_seq _ _ Ho). reflexivity. }
  rewrite Erow, dot_scale.
  set (P := patch (in_channels c) (kernel_size c) (stride c) (padding c) 1%Z x o pos).
  set (y := dot (weight_row c o) P).
  assert (Ebias : nth o (vmap2 Rplus (concat WB) bbn) 0 =
                  nth o d 0 * nth o bc 0 + nth o bbn 0).
  { rewrite nth_vmap2 by (rewrite ?(length_concat_uniform HWB); unfold WB;
                          rewrite ?length_map, ?length_seq; lia).
    f_equal.
    replace o with (o * 1 + 0)%nat at 1 by lia.
    rewrite (nth_concat_uniform _ _ HWB) by lia.
    unfold WB. rewrite (nth_map_seq _ _ (n:=length d)) by lia.
    rewrite (@nth_map_lt _ _ _ _ _ [] 0) by lia. reflexivity. }
  rewrite Ebias.
  assert (Hv : 0 < nth o (running_var b) 0 + eps b)
    by (apply Forall_nth_in; [exact Hpos | lia]).
  pose proof (sqrt_lt_R0 _ Hv) as Hs.
  assert (Ed : nth o d 0 = nth o (bn_weight b) 0 / sqrt (nth o (running_var b) 0 + eps b)).
  { unfold d. rewrite nth_vmap2 by (rewrite ?length_map; lia).
    rewrite (@nth_map_lt _ _ _ _ _ 0 0) by lia.
    rewrite (Rplus_comm (eps b)). reflexivity. }
  assert (Ebbn : nth o bbn 0 =
                 nth o (bn_bias b) 0 -
                 nth o (bn_weight b) 0 * nth o (running_mean b) 0 /
                 sqrt (nth o (running_var b) 0 + eps b)).
  { unfold bbn.
    rewrite nth_vmap2 by (rewrite ?length_vmap2, ?length_map; lia).
    rewrite nth_vmap2 by (rewrite ?length_vmap2, ?length_map; lia).
    rewrite nth_vmap2 by lia.
    rewrite (@nth_map_lt _ _ _ _ _ 0 0) by lia. reflexivity. }
  rewrite Ed, Ebbn.
  assert (Ebc : nth o bc 0 = match bias c with Some bv => nth o bv 0 | None => 0 end).
  { unfold bc. destruct (bias c); [reflexivity|].
    apply nth_repeat. }
  rewrite Ebc. field. lra.
Qed.
End Equivalence.

(** C2: [Darknet.fuse] on the graph of a configuration whose convolution has
    [groups=3] and batch normalisation.  The graph builds; the fused layer
    is created with the default [groups=1], its weight has shape (3, 3, 1, 1)
    and the product of shape (3, 1) cannot be viewed as that: RuntimeError
    instead of a fused convolution. *)
Theorem fuse_raises_on_grouped_conv :
  exists conv bn act,
    Builder._create_modules BuilderExamples.env0 BuilderExamples.cfg_grouped
      "yolov3.cfg" false =
    Ok ([MSequential [MConv2d conv; MBatchNorm2d bn; act]], [false], []) /\
    groups conv = 3%Z /\
    well_shaped conv bn /\
    _fuse_conv_and_bn conv bn = Raise RuntimeError /\
    fuse [MSequential [MConv2d conv; MBatchNorm2d bn; act]] = Raise RuntimeError.
Proof.
  eexists; eexists; eexists. split; [reflexivity|]. split; [reflexivity|].
  split.
  - unfold well_shaped. simpl.
    repeat split; try lia.
    repeat constructor; lra.
  - split; reflexivity.
Qed.

(** Without [groups] the same block is fused. *)
Example fuse_ungrouped_conv :
  exists conv bn act fused,
    Builder._create_modules BuilderExamples.env0 BuilderExamples.cfg_ungrouped
      "yolov3.cfg" false =
    Ok ([MSequential [MConv2d conv; MBatchNorm2d bn; act]], [false], []) /\
    fuse [MSequential [MConv2d conv; MBatchNorm2d bn; act]] =
    Ok [MSequential [MConv2d fused; act]].
Proof.
  do 4 eexists. split; reflexivity.
Qed.
End FuseFacts.

(** ** Darknet weight files *)

Section WeightFacts.
Import Layers Weights.
Local Open Scope string_scope.
Local Open Scope list_scope.

Lemma py_slice_to_firstn (A : Type) (l : list A) (k : Z) :
  exists n, py_slice_to l k = firstn n l /\
            forall l' : list A, length l' = length l -> py_slice_to l' k = firstn n l'.
Proof.
  unfold py_slice_to. destruct (k <? 0)%Z.
  - exists (Z.to_nat (Z.of_nat (length l) + k)). split; [reflexivity|].
    intros l' ->. reflexivity.
  - exists (Z.to_nat k). split; [reflexivity|]. intros; reflexivity.
Qed.

Lemma py_index_0 (A : Type) (a : A) (l : list A) : py_index (a :: l) 0 = Ok a.
Proof.
  unfold py_index. cbn [length Z.ltb]. simpl (0 ?= 0)%Z. cbv iota.
  destruct (Z.leb_spec (Z.of_nat (S (length l))) 0); [lia|]. reflexivity.
Qed.

Lemma py_index_1 (A : Type) (a b : A) (l : list A) : py_index (a :: b :: l) 1 = Ok b.
Proof.
  unfold py_index. cbn [length].
  destruct (Z.ltb_spec 1 0); [lia|].
  destruct (Z.ltb_spec 1 0); [lia|].
  destruct (Z.leb_spec (Z.of_nat (S (S (length l)))) 1); [lia|]. reflexivity.
Qed.

Lemma py_index_0_inv (A : Type) (l : list A) (a : A) :
  py_index l 0 = Ok a -> exists l', l = a :: l'.
Proof.
  destruct l as [|x l].
  - unfold py_index. simpl. intros E. discriminate E.
  - rewrite py_index_0. intros E. injection E as <-. eauto.
Qed.

Lemma py_index_1_inv (A : Type) (l : list A) (b : A) :
  py_index l 1 = Ok b -> exists a l', l = a :: b :: l'.
Proof.
  destruct l as [|x [|y l]].
  - unfold py_index. simpl. intros E. discriminate E.
  - unfold py_index. simpl. intros E. discriminate E.
  - rewrite py_index_1. intros E. injection E as <-. eauto.
Qed.

(** *** Files as items *)

Lemma firstn_plus (A : Type) (a b : nat) (l : list A) :
  firstn (a + b) l = firstn a l ++ firstn b (skipn a l).
Proof.
  revert l. induction a as [|a IH]; intros l; [reflexivity|].
  destruct l as [|x l]; simpl.
  - rewrite firstn_nil. reflexivity.
  - rewrite IH. reflexivity.
Qed.

Lemma fromfile_spec (size : nat) :
  forall (count : nat) (f : list byte) (items : list scalar) (rest : list byte),
    fromfile size count f = (items, rest) ->
    Forall (fun s => length s = size) items /\
    concat items = firstn (length items * size) f /\
    (length items <= count)%nat /\
    ((count * size <= length f)%nat ->
     length items = count /\ rest = skipn (count * size) f).
Proof.
  induction count as [|count IH]; intros f items rest H.
  - simpl in H. injection H as <- <-. simpl. repeat split; auto.
  - cbn [fromfile] in H.
    destruct (Nat.ltb_spec (length f) size) as [Hshort|Hlong].
    + injection H as <- <-. simpl. repeat split; auto; try lia.
      all: intros; nia.
    + destruct (fromfile size count (skipn size f)) as [items' rest'] eqn:E.
      injection H as <- <-.
      destruct (IH _ _ _ E) as (Hall & Hcat & Hle & Hfull).
      assert (Hfirst : length (firstn size f) = size)
        by (rewrite length_firstn; lia).
      split; [constructor; assumption|]. split.
      * cbn [concat length]. rewrite Hcat.
        replace (S (length items') * size)%nat with (size + length items' * size)%nat by lia.
        rewrite firstn_plus. reflexivity.
      * split; [simpl; lia|]. intros Hf.
        destruct Hfull as [Hc Hr]; [rewrite length_skipn; simpl in Hf; lia|].
        split; [simpl; lia|]. rewrite Hr, skipn_skipn. f_equal. simpl. lia.
Qed.

Lemma concat_firstn_uniform (A : Type) (items : list (list A)) (size k : nat) :
  Forall (fun s => length s = size) items ->
  concat (firstn k items) = firstn (k * size) (concat items).
Proof.
  intros H. revert k. induction H as [|s items Hs _ IH]; intros k.
  - rewrite !firstn_nil. reflexivity.
  - destruct k as [|k]; [reflexivity|]. cbn [firstn concat].
    rewrite IH, firstn_app, Hs.
    replace (S k * size - size)%nat with (k * size)%nat by lia.
    rewrite (firstn_all2 s) by (simpl; lia). reflexivity.
Qed.

(** The first [k] floats of the payload are the first [4 k] bytes of it. *)
Lemma fromfile_all_prefix (size : nat) (f : list byte) (k : nat) :
  (k <= length (fromfile_all size f))%nat ->
  concat (firstn k (fromfile_all size f)) = firstn (k * size) f.
Proof.
  intros Hk. unfold fromfile_all in *.
  destruct (fromfile size (length f) f) as [items rest] eqn:E. simpl in *.
  destruct (fromfile_spec _ _ _ E) as (Hall & Hcat & _ & _).
  rewrite (concat_firstn_uniform _ Hall), Hcat, firstn_firstn.
  f_equal. nia.
Qed.

(** *** One layer *)

Lemma take_inv (w : list scalar) (ptr n : nat) (s : list scalar) :
  take w ptr n = Ok s ->
  s = firstn n (skipn ptr w) /\ length s = n /\
  ((ptr <= length w)%nat -> (ptr + n <= length w)%nat).
Proof.
  unfold take. destruct (Nat.eqb_spec (length (firstn n (skipn ptr w))) n) as [E|N];
    intros H; [|discriminate H].
  injection H as <-. split; [reflexivity|]. split; [exact E|].
  rewrite length_firstn, length_skipn in E. lia.
Qed.

Lemma seg_plus (w : list scalar) (ptr a b : nat) :
  firstn (a + b) (skipn ptr w) =
  firstn a (skipn ptr w) ++ firstn b (skipn (ptr + a) w).
Proof.
  rewrite firstn_plus, skipn_skipn. do 3 f_equal. lia.
Qed.

Ltac binv H x Hx :=
  apply bind_ok_inv in H; destruct H as (x & Hx & H).

Lemma load_layer_save (w : list scalar) (ptr ptr' : nat) (md : dict)
    (m m' : module scalar) :
  load_layer w ptr md m = Ok (m', ptr') -> (ptr <= length w)%nat ->
  (ptr <= ptr')%nat /\ (ptr' <= length w)%nat /\
  save_layer md m' = Ok (concat (firstn (ptr' - ptr) (skipn ptr w))).
Proof.
  intros H Hptr. unfold load_layer in H. unfold save_layer.
  binv H ty Hty. rewrite Hty. cbn [bind].
  destruct (is_str ty "convolutional").
  2:{ injection H as <- <-. rewrite Nat.sub_diag. simpl. auto. }
  binv H m0 Hm0. binv H bnv Hbnv. binv H has_bn Hhas.
  rewrite Hbnv. cbn [bind]. rewrite Hhas. cbn [bind].
  binv H r Hr. destruct r as [[conv bn'] p1]. binv H wt Hwt.
  destruct m as [| | | | | | | | | |ms]; try discriminate H.
  injection H as <- <-.
  destruct (take_inv _ _ _ Hwt) as (Ewt & Lwt & Bwt).
  simpl in Hm0. apply py_index_0_inv in Hm0. destruct Hm0 as (ms0 & ->).
  destruct has_bn.
  - binv Hr m1 Hm1. binv Hr bn Hbn. binv Hr b Hb.
    destruct (Nat.eqb_spec (length (bn_weight bn)) (length (bn_bias bn))) as [E1|];
      [|discriminate Hr]. simpl negb in Hr. cbv iota in Hr.
    binv Hr g Hg.
    destruct (Nat.eqb_spec (length (running_mean bn)) (length (bn_bias bn))) as [E2|];
      [|discriminate Hr]. simpl negb in Hr. cbv iota in Hr.
    binv Hr rm Hrm.
    destruct (Nat.eqb_spec (length (running_var bn)) (length (bn_bias bn))) as [E3|];
      [|discriminate Hr]. simpl negb in Hr. cbv iota in Hr.
    binv Hr rv Hrv. binv Hr cv Hcv.
    injection Hr as <- <- <-.
    simpl in Hm1. apply py_index_1_inv in Hm1. destruct Hm1 as (a0 & ms1 & E0).
    injection E0 as <- ->.
    destruct m0 as [c0| | | | | | | | | |]; try discriminate Hcv.
    injection Hcv as ->.
    set (nb := length (bn_bias bn)) in *.
    destruct (take_inv _ _ _ Hb) as (Eb & Lb & Bb).
    destruct (take_inv _ _ _ Hg) as (Eg & Lg & Bg).
    destruct (take_inv _ _ _ Hrm) as (Erm & Lrm & Brm).
    destruct (take_inv _ _ _ Hrv) as (Erv & Lrv & Brv).
    split; [lia|]. split; [lia|].
    unfold subscript. rewrite py_index_0. cbn [bind].
    rewrite py_index_1. cbn [bind as_bn as_conv bn_bias bn_weight running_mean
                                  running_var weight].
    f_equal. unfold tofile.
    replace (ptr + nb + nb + nb + nb + length (weight cv) - ptr)%nat
      with (nb + (nb + (nb + (nb + length (weight cv)))))%nat by lia.
    rewrite (seg_plus w ptr nb), (seg_plus w (ptr + nb) nb),
            (seg_plus w (ptr + nb + nb) nb), (seg_plus w (ptr + nb + nb + nb) nb).
    rewrite !concat_app, <- Eb, <- Eg, <- Erm, <- Erv, <- Ewt.
    rewrite <- !app_assoc. reflexivity.
  - binv Hr cv Hcv.
    destruct m0 as [c0| | | | | | | | | |]; try discriminate Hcv.
    injection Hcv as ->.
    destruct (bias cv) as [old|] eqn:Eold; [|discriminate Hr].
    binv Hr b Hb. injection Hr as <- <- <-.
    destruct (take_inv _ _ _ Hb) as (Eb & Lb & Bb).
    split; [lia|]. split; [cbn [weight] in *; lia|].
    unfold subscript. rewrite py_index_0. cbn [bind as_conv bias weight].
    f_equal. unfold tofile. cbn [weight] in *.
    replace (ptr + length old + length (weight cv) - ptr)%nat
      with (length old + length (weight cv))%nat by lia.
    rewrite (seg_plus w ptr (length old)), concat_app, <- Eb, <- Ewt. reflexivity.
Qed.

(** *** The loops *)

Lemma load_loop_save (w : list scalar) :
  forall (mds : list dict) (ms : list (module scalar)) (ptr : nat)
         (loaded : list (module scalar)) (ptr' : nat),
    load_loop w ptr mds ms = Ok (loaded, ptr') -> (ptr <= length w)%nat ->
    (ptr <= ptr')%nat /\ (ptr' <= length w)%nat /\
    length loaded = Nat.min (length mds) (length ms) /\
    save_loop mds loaded = Ok (concat (firstn (ptr' - ptr) (skipn ptr w))).
Proof.
  induction mds as [|md mds IH]; intros ms ptr loaded ptr' H Hptr.
  - simpl in H. injection H as <- <-. rewrite Nat.sub_diag. simpl. auto.
  - destruct ms as [|m ms].
    + simpl in H. injection H as <- <-. rewrite Nat.sub_diag. simpl. auto.
    + cbn [load_loop] in H. binv H r Hr. destruct r as [m1 p1].
      binv H r' Hr'. destruct r' as [rest p2]. injection H as <- <-.
      cbn [fst snd] in *.
      destruct (@load_layer_save w ptr p1 md m m1 Hr Hptr) as (L1 & L2 & S1).
      destruct (IH _ _ _ _ Hr' L2) as (L3 & L4 & Hlen & S2).
      split; [lia|]. split; [exact L4|]. split; [simpl; rewrite Hlen; reflexivity|].
      cbn [save_loop]. rewrite S1. cbn [bind]. rewrite S2. cbn [bind].
      f_equal. rewrite <- concat_app. f_equal.
      replace (p2 - ptr)%nat with ((p1 - ptr) + (p2 - p1))%nat by lia.
      rewrite seg_plus. replace (ptr + (p1 - ptr))%nat with p1 by lia.
      reflexivity.
Qed.

Lemma save_loop_app (mds : list dict) :
  forall l1 l2 : list (module scalar),
    (length mds <= length l1)%nat -> save_loop mds (l1 ++ l2) = save_loop mds l1.
Proof.
  induction mds as [|md mds IH]; intros l1 l2 Hl; [reflexivity|].
  destruct l1 as [|m l1]; [simpl in Hl; lia|].
  cbn [save_loop app]. rewrite IH by (simpl in Hl; lia). reflexivity.
Qed.

(** What [save_darknet_weights] writes is the layout. *)
Lemma save_layer_stream (md : dict) (m : module scalar) (out : list byte) :
  save_layer md m = Ok out -> node_stream md m = Some out.
Proof.
  unfold save_layer, node_stream. intros H.
  binv H ty Hty. rewrite Hty.
  destruct (is_str ty "convolutional"); [|injection H as <-; reflexivity].
  binv H m0 Hm0. binv H bnv Hbnv. binv H has_bn Hhas.
  rewrite Hbnv. cbn [bind]. rewrite Hhas.
  binv H hdr Hhead. binv H conv Hconv. injection H as <-.
  destruct m as [| | | | | | | | | |ms]; try discriminate Hm0.
  simpl in Hm0. apply py_index_0_inv in Hm0. destruct Hm0 as (ms0 & ->).
  destruct m0 as [c0| | | | | | | | | |]; try discriminate Hconv.
  injection Hconv as ->.
  destruct has_bn.
  - binv Hhead m1 Hm1. binv Hhead bn Hbn. injection Hhead as <-.
    simpl in Hm1. apply py_index_1_inv in Hm1. destruct Hm1 as (a0 & ms1 & E0).
    injection E0 as <- ->.
    destruct m1 as [|b1| | | | | | | | |]; try discriminate Hbn.
    injection Hbn as ->. unfold tofile. rewrite <- !app_assoc. reflexivity.
  - binv Hhead cv Hcv. injection Hcv as <-.
    destruct (bias conv) as [b|]; [|discriminate Hhead].
    injection Hhead as <-. reflexivity.
Qed.

Lemma save_loop_stream (mds : list dict) :
  forall (ms : list (module scalar)) (out : list byte),
    save_loop mds ms = Ok out -> nodes_stream mds ms = Some out.
Proof.
  induction mds as [|md mds IH]; intros ms out H.
  - simpl in H. injection H as <-. reflexivity.
  - destruct ms as [|m ms]; [simpl in H; injection H as <-; reflexivity|].
    cbn [save_loop] in H. binv H a Ha. binv H b Hb. injection H as <-.
    cbn [nodes_stream]. rewrite (@save_layer_stream _ _ _ Ha), (IH _ _ Hb).
    reflexivity.
Qed.

Lemma save_layout (self : Darknet) (path : string) (cutoff : Z) (out : list byte) :
  save_darknet_weights self path cutoff = Ok out -> layout self cutoff = Some out.
Proof.
  unfold save_darknet_weights, layout. intros H. binv H payload Hp.
  injection H as <-. rewrite (@save_loop_stream _ _ _ Hp). reflexivity.
Qed.

(** *** Load, then save *)

(** Saving what was loaded, with the cutoff the load went on with, writes
    the part of the file that the load consumed: a prefix of it. *)
Lemma load_then_save (self self' : Darknet) (weights path : string)
    (f : list byte) (cutoff : Z) :
  (20 <= length f)%nat ->
  load_darknet_weights self weights f cutoff = Ok self' ->
  header_ok self' /\
  exists out,
    save_darknet_weights self' path (load_cutoff weights cutoff) = Ok out /\
    out = firstn (length out) f.
Proof.
  intros Hf H. unfold load_darknet_weights in H.
  destruct (fromfile 4 3 f) as [ver f1] eqn:Ever.
  destruct (fromfile 8 1 f1) as [sn f2] eqn:Esn.
  destruct (fromfile_spec _ _ _ Ever) as (Vall & Vcat & _ & Vfull).
  destruct Vfull as [Vlen Vrest]; [simpl; lia|].
  destruct (fromfile_spec _ _ _ Esn) as (Sall & Scat & _ & Sfull).
  destruct Sfull as [Slen Srest]; [rewrite Vrest, length_skipn; simpl; lia|].
  rewrite Vlen in Vcat. rewrite Slen in Scat.
  set (c := load_cutoff weights cutoff) in *.
  set (w := fromfile_all 4 f2) in *.
  binv H r Hr. destruct r as [loaded ptr']. injection H as <-.
  split; [unfold header_ok; simpl; auto|].
  destruct (@load_loop_save w _ _ _ _ _ Hr (Nat.le_0_l _)) as (_ & Hp & Hlen & Hsave).
  rewrite Nat.sub_0_r, skipn_O in Hsave.
  unfold save_darknet_weights. cbn [module_define module_list version seen fst].
  destruct (py_slice_to_firstn (module_list self) c) as (n & En & Eother).
  rewrite En in Hlen, Hr.
  set (mds := py_slice_to (module_define self) c) in *.
  assert (Hk : (length loaded <= length (module_list self))%nat).
  { rewrite Hlen, length_firstn. lia. }
  rewrite (Eother (loaded ++ skipn (length loaded) (module_list self)))
    by (rewrite length_app, length_skipn; lia).
  assert (Eload : save_loop mds
            (firstn n (loaded ++ skipn (length loaded) (module_list self))) =
          save_loop mds loaded).
  { rewrite firstn_app.
    rewrite (firstn_all2 loaded) by (rewrite Hlen, length_firstn; lia).
    destruct (Nat.le_gt_cases (length mds) (length loaded)) as [Hle|Hgt].
    - apply save_loop_app. exact Hle.
    - rewrite length_firstn in Hlen.
      assert (Hcase : length loaded = n \/ length loaded = length (module_list self)) by lia.
      destruct Hcase as [E|E].
      + rewrite E, Nat.sub_diag, firstn_O, app_nil_r. reflexivity.
      + rewrite E, skipn_all, firstn_nil, app_nil_r. reflexivity. }
  rewrite Eload, Hsave. cbn [bind]. eexists. split; [reflexivity|].
  assert (Ew : concat (firstn ptr' w) = firstn (ptr' * 4) f2)
    by (apply fromfile_all_prefix; exact Hp).
  assert (Hw4 : (length w * 4 <= length f2)%nat).
  { unfold w, fromfile_all.
    destruct (fromfile 4 (length f2) f2) as [items rest] eqn:E. simpl.
    destruct (fromfile_spec _ _ _ E) as (Hall & Hcat & _ & _).
    apply (f_equal (@length byte)) in Hcat.
    rewrite (length_concat_uniform Hall), length_firstn in Hcat.
    unfold scalar in *. lia. }
  rewrite Ew. unfold tofile. rewrite Vcat, Scat, Srest, Vrest.
  rewrite skipn_skipn. simpl (8 + 3 * 4)%nat. simpl (1 * 8)%nat. simpl (3 * 4)%nat.
  assert (Hf2 : f2 = skipn 20 f)
    by (rewrite Srest, Vrest, skipn_skipn; reflexivity).
  rewrite Hf2 in Hw4. rewrite length_skipn in Hw4.
  rewrite !length_app, !length_firstn, !length_skipn.
  replace (Nat.min 12 (length f)) with 12%nat by lia.
  replace (Nat.min 8 (length f - 12)) with 8%nat by lia.
  replace (Nat.min (ptr' * 4) (length f - (8 + 12))) with (ptr' * 4)%nat by lia.
  rewrite (firstn_plus 12 (8 + ptr' * 4) f). f_equal.
  rewrite (firstn_plus 8 (ptr' * 4) (skipn 12 f)). f_equal.
  rewrite skipn_skipn. reflexivity.
Qed.

(** *** How much of the file a load reads *)

Lemma load_layer_floats (w : list scalar) (ptr ptr' : nat) (md : dict)
    (m m' : module scalar) :
  load_layer w ptr md m = Ok (m', ptr') -> ptr' = (ptr + node_floats md m')%nat.
Proof.
  intros H. unfold load_layer in H. unfold node_floats.
  binv H ty Hty. rewrite Hty.
  destruct (is_str ty "convolutional").
  2:{ injection H as <- <-. lia. }
  binv H m0 Hm0. binv H bnv Hbnv. binv H has_bn Hhas.
  rewrite Hbnv. cbn [bind]. rewrite Hhas.
  binv H r Hr. destruct r as [[conv bn'] p1]. binv H wt Hwt.
  destruct m as [| | | | | | | | | |ms]; try discriminate H.
  injection H as <- <-.
  destruct (take_inv _ _ _ Hwt) as (_ & Lwt & _).
  simpl in Hm0. apply py_index_0_inv in Hm0. destruct Hm0 as (ms0 & ->).
  destruct has_bn.
  - binv Hr m1 Hm1. binv Hr bn Hbn. binv Hr b Hb.
    destruct (Nat.eqb_spec (length (bn_weight bn)) (length (bn_bias bn))) as [E1|];
      [|discriminate Hr]. simpl negb in Hr. cbv iota in Hr.
    binv Hr g Hg.
    destruct (Nat.eqb_spec (length (running_mean bn)) (length (bn_bias bn))) as [E2|];
      [|discriminate Hr]. simpl negb in Hr. cbv iota in Hr.
    binv Hr rm Hrm.
    destruct (Nat.eqb_spec (length (running_var bn)) (length (bn_bias bn))) as [E3|];
      [|discriminate Hr]. simpl negb in Hr. cbv iota in Hr.
    binv Hr rv Hrv. binv Hr cv Hcv.
    injection Hr as <- <- <-.
    destruct (take_inv _ _ _ Hb) as (_ & Lb & _).
    destruct (take_inv _ _ _ Hg) as (_ & Lg & _).
    destruct (take_inv _ _ _ Hrm) as (_ & Lrm & _).
    destruct (take_inv _ _ _ Hrv) as (_ & Lrv & _).
    cbn [bn_bias bn_weight running_mean running_var weight]. lia.
  - binv Hr cv Hcv.
    destruct (bias cv) as [old|] eqn:Eold; [|discriminate Hr].
    binv Hr b Hb. injection Hr as <- <- <-.
    destruct (take_inv _ _ _ Hb) as (_ & Lb & _).
    cbn [bias weight] in *. lia.
Qed.

Lemma load_loop_floats (w : list scalar) :
  forall (mds : list dict) (ms : list (module scalar)) (ptr : nat)
         (loaded : list (module scalar)) (ptr' : nat),
    load_loop w ptr mds ms = Ok (loaded, ptr') ->
    ptr' = (ptr + nodes_floats mds loaded)%nat.
Proof.
  induction mds as [|md mds IH]; intros ms ptr loaded ptr' H.
  - simpl in H. injection H as <- <-. simpl. lia.
  - destruct ms as [|m ms].
    + simpl in H. injection H as <- <-. simpl. lia.
    + cbn [load_loop] in H. binv H r Hr. destruct r as [m1 p1].
      binv H r' Hr'. destruct r' as [rest p2]. injection H as <- <-.
      cbn [fst snd] in *.
      pose proof (load_layer_floats _ _ _ _ Hr) as E1.
      pose proof (IH _ _ _ _ Hr') as E2.
      cbn [nodes_floats]. lia.
Qed.

Lemma nodes_floats_app (mds : list dict) :
  forall l1 l2 : list (module scalar),
    (length mds <= length l1)%nat ->
    nodes_floats mds (l1 ++ l2) = nodes_floats mds l1.
Proof.
  induction mds as [|md mds IH]; intros l1 l2 Hl; [reflexivity|].
  destruct l1 as [|m l1]; [simpl in Hl; lia|].
  cbn [nodes_floats app]. rewrite IH by (simpl in Hl; lia). reflexivity.
Qed.

(** Saving what was loaded writes the header and as many floats as the
    loaded nodes before the cutoff hold: the first bytes of the file. *)
Lemma load_then_save_size (self self' : Darknet) (weights path : string)
    (f : list byte) (cutoff : Z) :
  (20 <= length f)%nat ->
  load_darknet_weights self weights f cutoff = Ok self' ->
  let k := stored_floats self' (load_cutoff weights cutoff) in
  (20 + 4 * k <= length f)%nat /\
  save_darknet_weights self' path (load_cutoff weights cutoff) =
    Ok (firstn (20 + 4 * k) f).
Proof.
  intros Hf H. cbv zeta. unfold load_darknet_weights in H.
  destruct (fromfile 4 3 f) as [ver f1] eqn:Ever.
  destruct (fromfile 8 1 f1) as [sn f2] eqn:Esn.
  destruct (fromfile_spec _ _ _ Ever) as (Vall & Vcat & _ & Vfull).
  destruct Vfull as [Vlen Vrest]; [simpl; lia|].
  destruct (fromfile_spec _ _ _ Esn) as (Sall & Scat & _ & Sfull).
  destruct Sfull as [Slen Srest]; [rewrite Vrest, length_skipn; simpl; lia|].
  rewrite Vlen in Vcat. rewrite Slen in Scat.
  set (c := load_cutoff weights cutoff) in *.
  set (w := fromfile_all 4 f2) in *.
  binv H r Hr. destruct r as [loaded ptr']. injection H as E. subst self'.
  destruct (@load_loop_save w _ _ _ _ _ Hr (Nat.le_0_l _)) as (_ & Hp & Hlen & Hsave).
  pose proof (load_loop_floats _ _ _ _ Hr) as Hptr. rewrite Nat.add_0_l in Hptr.
  rewrite Nat.sub_0_r, skipn_O in Hsave.
  unfold save_darknet_weights, stored_floats.
  cbn [module_define module_list version seen fst] in *.
  destruct (py_slice_to_firstn (module_list self) c) as (n & En & Eother).
  rewrite En in Hlen, Hr.
  set (mds := py_slice_to (module_define self) c) in *.
  assert (Hk : (length loaded <= length (module_list self))%nat).
  { rewrite Hlen, length_firstn. lia. }
  assert (Eslice : py_slice_to (loaded ++ skipn (length loaded) (module_list self)) c =
                   firstn n (loaded ++ skipn (length loaded) (module_list self))).
  { apply Eother. rewrite length_app, length_skipn. lia. }
  rewrite Eslice.
  assert (Ecase : firstn n (loaded ++ skipn (length loaded) (module_list self)) =
                  loaded \/
                  exists l2, firstn n (loaded ++ skipn (length loaded) (module_list self)) =
                             loaded ++ l2 /\ (length mds <= length loaded)%nat).
  { rewrite firstn_app.
    rewrite (firstn_all2 loaded) by (rewrite Hlen, length_firstn; lia).
    destruct (Nat.le_gt_cases (length mds) (length loaded)) as [Hle|Hgt].
    - right. eexists. split; [reflexivity | exact Hle].
    - left. rewrite length_firstn in Hlen.
      assert (Hcase : length loaded = n \/ length loaded = length (module_list self)) by lia.
      destruct Hcase as [E|E].
      + rewrite E, Nat.sub_diag, firstn_O, app_nil_r. reflexivity.
      + rewrite E, skipn_all, firstn_nil, app_nil_r. reflexivity. }
  assert (Ek : nodes_floats mds
             (firstn n (loaded ++ skipn (length loaded) (module_list self))) = ptr').
  { destruct Ecase as [->|(l2 & -> & Hle)].
    - symmetry. exact Hptr.
    - rewrite nodes_floats_app by exact Hle. symmetry. exact Hptr. }
  assert (Eload : save_loop mds
            (firstn n (loaded ++ skipn (length loaded) (module_list self))) =
          save_loop mds loaded).
  { destruct Ecase as [->|(l2 & -> & Hle)]; [reflexivity|].
    apply save_loop_app. exact Hle. }
  rewrite Eload, Hsave. cbn [bind]. rewrite Ek.
  assert (Ew : concat (firstn ptr' w) = firstn (ptr' * 4) f2)
    by (apply fromfile_all_prefix; exact Hp).
  assert (Hw4 : (length w * 4 <= length f2)%nat).
  { unfold w, fromfile_all.
    destruct (fromfile 4 (length f2) f2) as [items rest] eqn:E. simpl.
    destruct (fromfile_spec _ _ _ E) as (Hall & Hcat & _ & _).
    apply (f_equal (@length byte)) in Hcat.
    rewrite (length_concat_uniform Hall), length_firstn in Hcat.
    unfold scalar in *. lia. }
  assert (Hf2 : f2 = skipn 20 f)
    by (rewrite Srest, Vrest, skipn_skipn; reflexivity).
  rewrite Hf2 in Hw4. rewrite length_skipn in Hw4.
  split; [lia|]. f_equal.
  rewrite Ew. unfold tofile. rewrite Vcat, Scat, Srest, Vrest.
  rewrite skipn_skipn. simpl (8 + 3 * 4)%nat. simpl (1 * 8)%nat. simpl (3 * 4)%nat.
  replace (20 + 4 * ptr')%nat with (12 + (8 + ptr' * 4))%nat by lia.
  rewrite (firstn_plus 12 (8 + ptr' * 4) f). f_equal.
  rewrite (firstn_plus 8 (ptr' * 4) (skipn 12 f)). f_equal.
  rewrite skipn_skipn. reflexivity.
Qed.

(** C3 (as amended): after [load_darknet_weights] on a file with a complete
    header, [save_darknet_weights] with the cutoff the load went on with
    (the one passed, unless the file name forces 75 or 15) writes exactly
    the part of the file the load consumed: the 20 bytes of the header
    and 4 bytes for every float of the convolution nodes before that
    cutoff, which are the first bytes of the file, and the whole file when
    it holds nothing more. *)
Theorem load_save_roundtrip (self self' : Darknet) (weights path : string)
    (f : list byte) (cutoff : Z) :
  (20 <= length f)%nat ->
  load_darknet_weights self weights f cutoff = Ok self' ->
  exists out,
    save_darknet_weights self' path (load_cutoff weights cutoff) = Ok out /\
    length out =
      (20 + 4 * stored_floats self' (load_cutoff weights cutoff))%nat /\
    out = firstn (length out) f /\
    (length out = length f -> out = f).
Proof.
  intros Hf H.
  destruct (@load_then_save_size self self' weights path f cutoff Hf H)
    as (Hle & Hsave).
  set (k := stored_floats self' (load_cutoff weights cutoff)) in *.
  assert (Hlen : length (firstn (20 + 4 * k) f) = (20 + 4 * k)%nat)
    by (rewrite length_firstn; lia).
  exists (firstn (20 + 4 * k) f). split; [exact Hsave|].
  split; [exact Hlen|]. split; [rewrite Hlen; reflexivity|].
  intros E. rewrite Hlen in E. rewrite E. apply firstn_all.
Qed.

Lemma load_file36 :
  exists self',
    load_darknet_weights WeightExamples.net2 "yolov3.weights"
      WeightExamples.file36 2 = Ok self'.
Proof. eexists. vm_compute. reflexivity. Qed.

Lemma load_save_roundtrip_witness :
  (20 <= length WeightExamples.file36)%nat /\
  exists self',
    load_darknet_weights WeightExamples.net2 "yolov3.weights"
      WeightExamples.file36 2 = Ok self' /\
    exists out,
      save_darknet_weights self' "copy.weights"
        (load_cutoff "yolov3.weights" 2) = Ok out /\
      length out =
        (20 + 4 * stored_floats self' (load_cutoff "yolov3.weights" 2))%nat /\
      out = firstn (length out) WeightExamples.file36 /\
      (length out = length WeightExamples.file36 -> out = WeightExamples.file36).
Proof.
  assert (H1 : (20 <= length WeightExamples.file36)%nat) by (simpl; lia).
  split; [exact H1|].
  destruct load_file36 as (self' & H2).
  exists self'. split; [exact H2|].
  exact (@load_save_roundtrip WeightExamples.net2 self' "yolov3.weights"
           "copy.weights" WeightExamples.file36 2%Z H1 H2).
Defined.

(** On the file of 36 bytes both layers are loaded, four floats in all, and
    saving writes the 36 bytes back. *)
Example load_save_file36 :
  exists self',
    load_darknet_weights WeightExamples.net2 "yolov3.weights"
      WeightExamples.file36 2 = Ok self' /\
    stored_floats self' (load_cutoff "yolov3.weights" 2) = 4%nat /\
    save_darknet_weights self' "copy.weights" (load_cutoff "yolov3.weights" 2) =
      Ok WeightExamples.file36.
Proof.
  eexists. split; [vm_compute; reflexivity|].
  split; vm_compute; reflexivity.
Qed.

(** C3 (as stated) fails: a file named [yolov3-tiny.conv.15] holding exactly
    the parameters of a two-layer graph is loaded with the cutoff forced to
    15 (both layers), and saved with the same cutoff argument -1 (all but
    the last layer): 28 of its 36 bytes come back. *)
Lemma roundtrip_loses_forced_cutoff :
  exists self' out conv2,
    load_darknet_weights WeightExamples.net2 "backup/yolov3-tiny.conv.15"
      WeightExamples.file36 (-1) = Ok self' /\
    (* the second layer was loaded too *)
    nth_error (module_list self') 1 = Some (MSequential [MConv2d conv2]) /\
    bias conv2 = Some [WeightExamples.f32_one] /\
    weight conv2 = [WeightExamples.f32_two] /\
    save_darknet_weights self' "backup/yolov3-tiny.conv.15" (-1) = Ok out /\
    length out = 28%nat /\
    out <> WeightExamples.file36.
Proof.
  eexists; eexists; eexists. split; [vm_compute; reflexivity|].
  split; [reflexivity|]. split; [reflexivity|]. split; [reflexivity|].
  split; [vm_compute; reflexivity|]. split; [reflexivity|].
  intros H. apply (f_equal (@length byte)) in H. vm_compute in H. discriminate H.
Qed.

(** C5 (as amended): [save_darknet_weights] writes the layout (header of
    three 4-byte integers and one 8-byte integer, then per convolution node
    before the cutoff it is given: normalization bias, scale, running mean,
    running variance and the convolution weights, or the convolution bias
    and the weights); [load_darknet_weights] reads a file by the same
    layout, with the cutoff forced by the two file names: the model it
    leaves, laid out, is the part of the file it read. *)
Theorem darknet_layout (self : Darknet) :
  (forall (path : string) (cutoff : Z) (out : list byte),
      save_darknet_weights self path cutoff = Ok out ->
      layout self cutoff = Some out) /\
  (forall (weights : string) (f : list byte) (cutoff : Z) (self' : Darknet),
      (20 <= length f)%nat ->
      load_darknet_weights self weights f cutoff = Ok self' ->
      header_ok self' /\
      exists stream,
        layout self' (load_cutoff weights cutoff) = Some stream /\
        stream = firstn (length stream) f).
Proof.
  split.
  - intros path cutoff out H. exact (save_layout _ _ _ H).
  - intros weights f cutoff self' Hf H.
    destruct (@load_then_save self self' weights "" f cutoff Hf H)
      as (Hhdr & out & Hsave & Hprefix).
    split; [exact Hhdr|]. exists out. split; [|exact Hprefix].
    exact (save_layout _ _ _ Hsave).
Qed.

Lemma darknet_layout_witness :
  (20 <= length WeightExamples.file36)%nat /\
  exists self',
    load_darknet_weights WeightExamples.net2 "yolov3.weights"
      WeightExamples.file36 2 = Ok self' /\
    header_ok self' /\
    exists stream,
      layout self' (load_cutoff "yolov3.weights" 2) = Some stream /\
      stream = firstn (length stream) WeightExamples.file36.
Proof.
  assert (H1 : (20 <= length WeightExamples.file36)%nat) by (simpl; lia).
  split; [exact H1|].
  destruct load_file36 as (self' & H2).
  exists self'. split; [exact H2|].
  exact (proj2 (darknet_layout WeightExamples.net2) "yolov3.weights"
           WeightExamples.file36 2%Z self' H1 H2).
Defined.

(** C5 (as stated) fails for saving: [save_darknet_weights] never looks at
    the file name.  Under the name [yolov3-tiny.conv.15] with cutoff 0 it
    writes the header alone, while the layout up to the forced cutoff 15
    holds both layers. *)
Lemma save_ignores_file_name :
  exists out stream,
    save_darknet_weights WeightExamples.net2 "yolov3-tiny.conv.15" 0 = Ok out /\
    layout WeightExamples.net2 (load_cutoff "yolov3-tiny.conv.15" 0) = Some stream /\
    length out = 20%nat /\ length stream = 36%nat /\ out <> stream.
Proof.
  eexists; eexists. split; [vm_compute; reflexivity|].
  split; [vm_compute; reflexivity|]. split; [reflexivity|]. split; [reflexivity|].
  intros H. apply (f_equal (@length byte)) in H. simpl in H. discriminate H.
Qed.
End WeightFacts.

(** ** Box geometry: symmetry *)

Section BoxRangeFacts.
Import BoxGeometry.
Local Open Scope R_scope.

Lemma nth_wh_iou (wh1 wh2 : list (R * R)) (i j : nat) :
  (i < length wh1)%nat -> (j < length wh2)%nat ->
  nth j (nth i (wh_iou wh1 wh2) []) NaN =
  let a := nth i wh1 (0, 0) in
  let b := nth j wh2 (0, 0) in
  let inter := Rmin (fst a) (fst b) * Rmin (snd a) (snd b) in
  tdiv inter (fst a * snd a + fst b * snd b - inter).
Proof.
  intros Hi Hj. unfold wh_iou.
  rewrite (@nth_map_lt _ _ _ wh1 i [] (0, 0) Hi).
  rewrite (@nth_map_lt _ _ _ wh2 j NaN (0, 0) Hj). reflexivity.
Qed.

Lemma nth_wh_iou_outside (wh1 wh2 : list (R * R)) (i j : nat) :
  (length wh1 <= i)%nat \/ (length wh2 <= j)%nat ->
  nth j (nth i (wh_iou wh1 wh2) []) NaN = NaN.
Proof.
  intros H. unfold wh_iou.
  destruct (Nat.lt_ge_cases i (length wh1)) as [Hi|Hi].
  - destruct H as [H|H]; [lia|].
    rewrite (@nth_map_lt _ _ _ wh1 i [] (0, 0) Hi).
    apply nth_overflow. rewrite length_map. exact H.
  - rewrite (nth_overflow _ _ (n := i)) by (rewrite length_map; exact Hi).
    destruct j; reflexivity.
Qed.

(** X1: [wh_iou] is symmetric: the matrix for (wh2, wh1) is the transpose of
    the matrix for (wh1, wh2), entry by entry, undefined quotients
    included. *)
Theorem wh_iou_transpose (wh1 wh2 : list (R * R)) (i j : nat) :
  nth j (nth i (wh_iou wh1 wh2) []) NaN = nth i (nth j (wh_iou wh2 wh1) []) NaN.
Proof.
  destruct (Nat.lt_ge_cases i (length wh1)) as [Hi|Hi];
    [destruct (Nat.lt_ge_cases j (length wh2)) as [Hj|Hj]|].
  - rewrite (nth_wh_iou _ _ Hi Hj), (nth_wh_iou _ _ Hj Hi). cbv zeta.
    rewrite (Rmin_comm (fst (nth j wh2 (0, 0)))),
            (Rmin_comm (snd (nth j wh2 (0, 0)))).
    rewrite (Rplus_comm (fst (nth j wh2 (0, 0)) * snd (nth j wh2 (0, 0)))).
    reflexivity.
  - rewrite !nth_wh_iou_outside by auto. reflexivity.
  - rewrite !nth_wh_iou_outside by auto. reflexivity.
Qed.
End BoxRangeFacts.

(** ** Shapes in float32 *)

Section Float32ShapeFacts.
Import SpecFloat Float32.
Local Open Scope Z_scope.

(** X2: in float32, the entry of [wh_iou] for two equal shapes is exactly
    1.0 when the product of width and height is a positive float32 of full
    precision below [2^127], and is [nan] when the product is zero, as it
    is for a zero side and for sides so small that the product underflows.
    So not every entry for shapes of positive sides is a ratio in (0, 1]. *)
Theorem wh_iou_equal_shapes (wh1 wh2 : list (float32 * float32)) (i j : nat)
    (w h : float32) :
  nth_error wh1 i = Some (w, h) -> nth_error wh2 j = Some (w, h) ->
  exists row q,
    nth_error (wh_iou wh1 wh2) i = Some row /\ nth_error row j = Some q /\
    (forall m e, fmul w h = S754_finite false m e ->
       Zpos (digits2_pos m) = prec -> -149 <= e < emax - prec -> q = one) /\
    (forall s, fmul w h = S754_zero s -> q = S754_nan).
Proof.
  intros H1 H2. unfold wh_iou.
  eexists. eexists. split; [|split].
  - rewrite nth_error_map, H1. reflexivity.
  - rewrite nth_error_map, H2. reflexivity.
  - cbn [fst snd]. rewrite !fmin_same. split.
    + intros m e Ha Hd He. rewrite Ha.
      assert (Hn : normal m e) by (split; [exact Hd | unfold emax, prec in *; lia]).
      rewrite (fadd_double Hn) by lia.
      rewrite (fsub_double Hn). apply fdiv_self.
    + intros s Ha. rewrite Ha. destruct s; reflexivity.
Qed.

Lemma wh_iou_equal_shapes_witness :
  nth_error [(two, two)] 0 = Some (two, two) /\
  nth_error [(one, one); (two, two)] 1 = Some (two, two) /\
  exists row q,
    nth_error (wh_iou [(two, two)] [(one, one); (two, two)]) 0 = Some row /\
    nth_error row 1 = Some q /\
    (forall m e, fmul two two = S754_finite false m e ->
       Zpos (digits2_pos m) = prec -> -149 <= e < emax - prec -> q = one) /\
    (forall s, fmul two two = S754_zero s -> q = S754_nan).
Proof.
  split; [reflexivity|]. split; [reflexivity|].
  exact (@wh_iou_equal_shapes [(two, two)] [(one, one); (two, two)] 0%nat 1%nat
           two two eq_refl eq_refl).
Defined.

(** A shape of sides [2^-100] against itself: the areas underflow to zero
    and the quotient is 0/0.  Against the unit shape a side of [2^-75]
    gives exactly zero. *)
Example wh_iou_underflow :
  wh_iou [(of_scaled 1 (-100), of_scaled 1 (-100))]
         [(of_scaled 1 (-100), of_scaled 1 (-100)); (one, one)] =
    [[S754_nan; zero]] /\
  wh_iou [(of_scaled 1 (-75), of_scaled 1 (-75))] [(one, one)] = [[zero]].
Proof. split; vm_compute; reflexivity. Qed.
End Float32ShapeFacts.

(** ** The detection head: shapes, ranges and the cached grid *)

Section YOLOMoreFacts.
Import YOLOLayer.
Local Open Scope R_scope.



(** What [forward] returns outside training, and the layer it leaves. *)
Lemma forward_inference_eq (m : t) (p : tensor4) (bs ny' nx' : nat) :
  training m = false ->
  rectangular4 p bs (na m * num_classes_output m) ny' nx' ->
  (0 < bs)%nat -> (0 < na m)%nat -> (0 < ny')%nat ->
  grid_ready m ny' nx' ->
  let p5 := view_permute p bs (na m) (num_classes_output m) ny' nx' in
  forward m p =
    Ok (Infer (view_rows (decode m (meshgrid ny' nx') p5)) p5,
        Build (anchors m) (stride m) (num_classes m) nx' ny'
              (Some (meshgrid ny' nx')) false).
Proof.
  intros Ht Hrect Pb Pa Py Hready. cbv zeta.
  assert (Hch : (0 < na m * num_classes_output m)%nat)
    by (unfold num_classes_output; nia).
  unfold forward. rewrite (shape4_rectangular Hrect) by lia.
  assert (E : (if ((nx m =? nx')%nat && (ny m =? ny')%nat)%bool then m
               else create_grids m (nx', ny')) =
              Build (anchors m) (stride m) (num_classes m) nx' ny'
                    (Some (meshgrid ny' nx')) false).
  { destruct (Nat.eqb_spec (nx m) nx') as [Ex|Nx]; simpl.
    - destruct (Nat.eqb_spec (ny m) ny') as [Ey|Ny]; simpl.
      + destruct Hready as [Hd|Hg]; [contradiction Hd; congruence|].
        destruct m; simpl in *; subst; reflexivity.
      + unfold create_grids; simpl. rewrite Ht. reflexivity.
    - unfold create_grids; simpl. rewrite Ht. reflexivity. }
  rewrite E. unfold na, num_classes_output. cbn [anchors num_classes nx ny grid training stride].
  fold (na m). fold (num_classes_output m).
  rewrite Nat.eqb_refl. simpl negb. cbv iota.
  rewrite meshgrid_broadcasts. simpl negb. cbv iota.
  reflexivity.
Qed.

(** One decoded cell. *)
Lemma decoded_cell (m : t) (p : tensor4) (bs ny' nx' b a y x : nat) :
  (b < bs)%nat -> (a < na m)%nat -> (y < ny')%nat -> (x < nx')%nat ->
  let no := num_classes_output m in
  let raw k := get4 p b (a * no + k) y x in
  get5 (decode m (meshgrid ny' nx') (view_permute p bs (na m) no ny' nx')) b a y x =
    [ (sigmoid (raw 0%nat) + INR x) * stride m;
      (sigmoid (raw 1%nat) + INR y) * stride m;
      exp (raw 2%nat) * fst (nth a (anchor_vec m) (0, 0)) * stride m;
      exp (raw 3%nat) * snd (nth a (anchor_vec m) (0, 0)) * stride m ] ++
    map (fun k => sigmoid (raw k)) (seq 4 (num_classes m + 1)).
Proof.
  intros Hb Ha Hy Hx. cbv zeta.
  set (no := num_classes_output m).
  set (p5 := view_permute p bs (na m) no ny' nx').
  pose proof (shaped5_view_permute p bs (na m) no ny' nx') as S0. fold p5 in S0.
  pose proof (shaped5_tmap5 _ S0 : shaped5 (set_xy (meshgrid ny' nx') p5) _ _ _ _) as S1.
  pose proof (shaped5_tmap5 _ S1 :
                shaped5 (set_wh (anchor_vec m) (set_xy (meshgrid ny' nx') p5)) _ _ _ _) as S2.
  pose proof (shaped5_tmap5 _ S2 :
                shaped5 (scale_box (stride m)
                  (set_wh (anchor_vec m) (set_xy (meshgrid ny' nx') p5))) _ _ _ _) as S3.
  unfold decode.
  pose proof (get5_tmap5 _ S3 Hb Ha Hy Hx :
    get5 (sigmoid_tail (scale_box (stride m)
      (set_wh (anchor_vec m) (set_xy (meshgrid ny' nx') p5)))) b a y x = _) as C4.
  pose proof (get5_tmap5 _ S2 Hb Ha Hy Hx :
    get5 (scale_box (stride m)
      (set_wh (anchor_vec m) (set_xy (meshgrid ny' nx') p5))) b a y x = _) as C3.
  pose proof (get5_tmap5 _ S1 Hb Ha Hy Hx :
    get5 (set_wh (anchor_vec m) (set_xy (meshgrid ny' nx') p5)) b a y x = _) as C2.
  pose proof (get5_tmap5 _ S0 Hb Ha Hy Hx :
    get5 (set_xy (meshgrid ny' nx') p5) b a y x = _) as C1.
  rewrite C4, C3, C2, C1. clear C4 C3 C2 C1.
  unfold p5. rewrite (get5_view_permute _ _ Hb Ha Hy Hx).
  rewrite (grid_at_meshgrid Hy Hx).
  unfold no, num_classes_output.
  replace (num_classes m + 5)%nat with (S (S (S (S (S (num_classes m)))))) by lia.
  replace (num_classes m + 1)%nat with (S (num_classes m)) by lia.
  simpl. rewrite map_map. reflexivity.
Qed.

Lemma length_view_rows (t5 : tensor5) (bs na ny nx b : nat) :
  shaped5 t5 bs na ny nx -> (b < bs)%nat ->
  length (view_rows t5) = bs /\
  length (nth b (view_rows t5) []) = (na * (ny * nx))%nat.
Proof.
  intros [Hbs Hall] Hb. unfold view_rows. split.
  - rewrite length_map. exact Hbs.
  - rewrite (nth_indep _ [] (concat (map (fun pl : list (list cell) => concat pl) [])))
      by (rewrite length_map; lia).
    rewrite (map_nth (fun img : list (list (list cell)) => concat (map (fun pl => concat pl) img))).
    pose proof (@Forall_nth_in _ _ _ b [] Hall ltac:(lia)) as [Hna Himg].
    assert (Hflat : Forall (fun l : list cell => length l = (ny * nx)%nat)
                      (map (fun pl : list (list cell) => concat pl) (nth b t5 []))).
    { apply Forall_map. revert Himg. apply Forall_impl. intros pl [Hny Hpl].
      rewrite (length_concat_uniform Hpl), Hny. reflexivity. }
    rewrite (length_concat_uniform Hflat), length_map, Hna. reflexivity.
Qed.

Lemma shaped5_decode (m : t) (g : list (list (R * R))) (p5 : tensor5)
    (bs na ny nx : nat) :
  shaped5 p5 bs na ny nx -> shaped5 (decode m g p5) bs na ny nx.
Proof.
  intros S0. unfold decode, sigmoid_tail, scale_box, set_wh, set_xy.
  repeat apply shaped5_tmap5. exact S0.
Qed.

(** A row number of [io.view(bs, -1, no)] as (anchor, row, col). *)
Lemma row_index (na ny nx r : nat) :
  (r < na * (ny * nx))%nat ->
  exists a y x, (a < na)%nat /\ (y < ny)%nat /\ (x < nx)%nat /\
                r = ((a * ny + y) * nx + x)%nat.
Proof.
  intros Hr.
  assert (Hnx : nx <> 0%nat) by (intros ->; lia).
  assert (Hny : ny <> 0%nat) by (intros ->; lia).
  exists ((r / nx) / ny)%nat, ((r / nx) mod ny)%nat, (r mod nx)%nat.
  pose proof (Nat.div_mod r nx Hnx) as D1.
  pose proof (Nat.div_mod (r / nx) ny Hny) as D2.
  pose proof (Nat.mod_upper_bound r nx Hnx) as U1.
  pose proof (Nat.mod_upper_bound (r / nx) ny Hny) as U2.
  split; [|split; [exact U2 | split; [exact U1|]]].
  - apply Nat.Div0.div_lt_upper_bound. apply Nat.Div0.div_lt_upper_bound. nia.
  - rewrite (Nat.mul_comm (r / nx / ny) ny), <- D2, (Nat.mul_comm (r / nx) nx).
    exact D1.
Qed.

(** X5: outside training and export, on a rectangular input of shape
    (bs, na * no, ny, nx), [forward] returns for each image [na * ny * nx]
    rows of [no = num_classes + 5] numbers, together with the permuted raw
    tensor. *)
Theorem forward_inference_shape (m : t) (p : tensor4) (bs ny' nx' : nat) :
  training m = false ->
  rectangular4 p bs (na m * num_classes_output m) ny' nx' ->
  (0 < bs)%nat -> (0 < na m)%nat -> (0 < ny')%nat ->
  grid_ready m ny' nx' ->
  exists io m',
    forward m p =
      Ok (Infer io (view_permute p bs (na m) (num_classes_output m) ny' nx'), m') /\
    length io = bs /\
    forall b, (b < bs)%nat ->
      length (nth b io []) = (na m * (ny' * nx'))%nat /\
      forall r, (r < na m * (ny' * nx'))%nat ->
        length (nth r (nth b io []) []) = num_classes_output m.
Proof.
  intros Ht Hrect Pb Pa Py Hready.
  rewrite (forward_inference_eq Ht Hrect Pb Pa Py Hready).
  eexists; eexists. split; [reflexivity|].
  set (p5 := view_permute p bs (na m) (num_classes_output m) ny' nx').
  pose proof (shaped5_view_permute p bs (na m) (num_classes_output m) ny' nx') as S0.
  fold p5 in S0.
  pose proof (shaped5_decode m (meshgrid ny' nx') S0) as S4.
  split.
  - destruct (length_view_rows S4 Pb) as [L _]. exact L.
  - intros b Hb. destruct (length_view_rows S4 Hb) as [_ L]. split; [exact L|].
    intros r Hr. destruct (row_index _ _ _ Hr) as (a & y & x & Ha & Hy & Hx & ->).
    rewrite (nth_view_rows S4 Hb Ha Hy Hx). unfold p5.
    rewrite (decoded_cell m p Hb Ha Hy Hx).
    rewrite length_app, length_map, length_seq. unfold num_classes_output.
    simpl. lia.
Qed.

Lemma forward_inference_shape_witness :
  training Examples.head2 = false /\
  rectangular4 Examples.zeros_1x7x1x1 1
    (na Examples.head2 * num_classes_output Examples.head2) 1 1 /\
  (0 < 1)%nat /\ (0 < na Examples.head2)%nat /\ (0 < 1)%nat /\
  grid_ready Examples.head2 1 1 /\
  exists io m',
    forward Examples.head2 Examples.zeros_1x7x1x1 =
      Ok (Infer io (view_permute Examples.zeros_1x7x1x1 1 (na Examples.head2)
                      (num_classes_output Examples.head2) 1 1), m') /\
    length io = 1%nat /\
    forall b, (b < 1)%nat ->
      length (nth b io []) = (na Examples.head2 * (1 * 1))%nat /\
      forall r, (r < na Examples.head2 * (1 * 1))%nat ->
        length (nth r (nth b io []) []) = num_classes_output Examples.head2.
Proof.
  assert (H1 : training Examples.head2 = false) by reflexivity.
  assert (H3 : rectangular4 Examples.zeros_1x7x1x1 1
                 (na Examples.head2 * num_classes_output Examples.head2) 1 1).
  { unfold rectangular4. split; [reflexivity|].
    repeat (constructor; [split; [reflexivity|repeat constructor]|]).
    constructor. }
  assert (H4 : grid_ready Examples.head2 1 1).
  { left. simpl. intros H; inversion H. }
  assert (H5 : (0 < 1)%nat) by lia.
  assert (H6 : (0 < na Examples.head2)%nat) by (unfold na, Examples.head2; simpl; lia).
  repeat (split; [assumption|]).
  exact (@forward_inference_shape Examples.head2 Examples.zeros_1x7x1x1
           1 1 1 H1 H3 H5 H6 H5 H4).
Defined.



(** What [forward] returns in training, and the layer it leaves. *)
Lemma forward_training_eq (m : t) (p : tensor4) (bs ny' nx' : nat) :
  training m = true ->
  rectangular4 p bs (na m * num_classes_output m) ny' nx' ->
  (0 < bs)%nat -> (0 < na m)%nat -> (0 < ny')%nat ->
  forward m p =
    Ok (Train (view_permute p bs (na m) (num_classes_output m) ny' nx'),
        Build (anchors m) (stride m) (num_classes m) nx' ny' (grid m) true).
Proof.
  intros Ht Hrect Pb Pa Py.
  assert (Hch : (0 < na m * num_classes_output m)%nat)
    by (unfold num_classes_output; nia).
  unfold forward. rewrite (shape4_rectangular Hrect) by lia.
  assert (E : (if ((nx m =? nx')%nat && (ny m =? ny')%nat)%bool then m
               else create_grids m (nx', ny')) =
              Build (anchors m) (stride m) (num_classes m) nx' ny' (grid m) true).
  { destruct (Nat.eqb_spec (nx m) nx') as [Ex|Nx]; simpl.
    - destruct (Nat.eqb_spec (ny m) ny') as [Ey|Ny]; simpl.
      + destruct m; simpl in *; subst; reflexivity.
      + unfold create_grids; simpl. rewrite Ht. reflexivity.
    - unfold create_grids; simpl. rewrite Ht. reflexivity. }
  rewrite E. unfold na, num_classes_output. cbn [anchors num_classes nx ny grid training stride].
  fold (na m). fold (num_classes_output m).
  rewrite Nat.eqb_refl. reflexivity.
Qed.

(** X7: in training mode [forward] returns the raw input re-indexed as
    (image, anchor, row, col, attribute), entry
    [(b, a, y, x, k) = p[b, a * no + k, y, x]], stores the grid dimensions
    and leaves the grid offsets as they were. *)
Theorem forward_training_raw (m : t) (p : tensor4) (bs ny' nx' : nat) :
  training m = true ->
  rectangular4 p bs (na m * num_classes_output m) ny' nx' ->
  (0 < bs)%nat -> (0 < na m)%nat -> (0 < ny')%nat ->
  exists p5 m',
    forward m p = Ok (Train p5, m') /\
    nx m' = nx' /\ ny m' = ny' /\ grid m' = grid m /\ training m' = true /\
    forall b a y x k,
      (b < bs)%nat -> (a < na m)%nat -> (y < ny')%nat -> (x < nx')%nat ->
      (k < num_classes_output m)%nat ->
      nth k (get5 p5 b a y x) 0 = get4 p b (a * num_classes_output m + k) y x.
Proof.
  intros Ht Hrect Pb Pa Py.
  rewrite (@forward_training_eq m p bs ny' nx' Ht Hrect Pb Pa Py).
  eexists; eexists. split; [reflexivity|].
  repeat (split; [reflexivity|]).
  intros b a y x k Hb Ha Hy Hx Hk.
  rewrite (get5_view_permute _ _ Hb Ha Hy Hx).
  rewrite (nth_map_seq _ _ Hk). reflexivity.
Qed.

Lemma forward_training_raw_witness :
  training MoreExamples.head2_training = true /\
  rectangular4 Examples.zeros_1x7x1x1 1
    (na MoreExamples.head2_training * num_classes_output MoreExamples.head2_training)
    1 1 /\
  (0 < 1)%nat /\ (0 < na MoreExamples.head2_training)%nat /\ (0 < 1)%nat /\
  exists p5 m',
    forward MoreExamples.head2_training Examples.zeros_1x7x1x1 = Ok (Train p5, m') /\
    nx m' = 1%nat /\ ny m' = 1%nat /\
    grid m' = grid MoreExamples.head2_training /\ training m' = true /\
    forall b a y x k,
      (b < 1)%nat -> (a < na MoreExamples.head2_training)%nat ->
      (y < 1)%nat -> (x < 1)%nat ->
      (k < num_classes_output MoreExamples.head2_training)%nat ->
      nth k (get5 p5 b a y x) 0 =
      get4 Examples.zeros_1x7x1x1 b
        (a * num_classes_output MoreExamples.head2_training + k) y x.
Proof.
  assert (H1 : training MoreExamples.head2_training = true) by reflexivity.
  assert (H3 : rectangular4 Examples.zeros_1x7x1x1 1
                 (na MoreExamples.head2_training *
                  num_classes_output MoreExamples.head2_training) 1 1).
  { unfold rectangular4. split; [reflexivity|].
    repeat (constructor; [split; [reflexivity|repeat constructor]|]).
    constructor. }
  assert (H5 : (0 < 1)%nat) by lia.
  assert (H6 : (0 < na MoreExamples.head2_training)%nat)
    by (unfold na, MoreExamples.head2_training; simpl; lia).
  repeat (split; [assumption|]).
  exact (@forward_training_raw MoreExamples.head2_training Examples.zeros_1x7x1x1
           1 1 1 H1 H3 H5 H6 H5).
Defined.

(** X8: a head whose first pass ran in training mode has stored the grid
    dimensions but no offsets.  Switched to evaluation, it raises TypeError
    on an input of the same grid size (the sum with [self.grid = None]) and
    decodes an input of any other grid size, for which it builds the
    offsets. *)
Theorem forward_eval_after_training (m : t) (p q : tensor4)
    (bs ny' nx' bs2 ny2 nx2 : nat) :
  training m = true -> grid m = None ->
  rectangular4 p bs (na m * num_classes_output m) ny' nx' ->
  (0 < bs)%nat -> (0 < na m)%nat -> (0 < ny')%nat ->
  rectangular4 q bs2 (na m * num_classes_output m) ny2 nx2 ->
  (0 < bs2)%nat -> (0 < ny2)%nat -> (nx2, ny2) <> (nx', ny') ->
  exists p5 m',
    forward m p = Ok (Train p5, m') /\
    forward (eval_mode m') p = Raise TypeError /\
    exists io q5 m'', forward (eval_mode m') q = Ok (Infer io q5, m'').
Proof.
  intros Ht Hg Hrect Pb Pa Py Hrect2 Pb2 Py2 Hne.
  rewrite (@forward_training_eq m p bs ny' nx' Ht Hrect Pb Pa Py).
  eexists; eexists. split; [reflexivity|].
  assert (Hch : (0 < na m * num_classes_output m)%nat)
    by (unfold num_classes_output; nia).
  split.
  - unfold forward, eval_mode, train_mode.
    rewrite (shape4_rectangular Hrect) by lia.
    cbn [anchors num_classes nx ny grid training stride].
    rewrite !Nat.eqb_refl. cbn [andb].
    unfold na, num_classes_output.
    cbn [anchors num_classes nx ny grid training stride].
    rewrite Hg. reflexivity.
  - set (m1 := eval_mode (Build (anchors m) (stride m) (num_classes m) nx' ny' (grid m) true)).
    assert (Hna : na m1 = na m) by reflexivity.
    assert (Hno : num_classes_output m1 = num_classes_output m) by reflexivity.
    assert (Hr : rectangular4 q bs2 (na m1 * num_classes_output m1) ny2 nx2)
      by (rewrite Hna, Hno; exact Hrect2).
    rewrite (@forward_inference_eq m1 q bs2 ny2 nx2 eq_refl Hr Pb2).
    + do 3 eexists. reflexivity.
    + rewrite Hna. exact Pa.
    + exact Py2.
    + left. unfold m1, eval_mode, train_mode. cbn [nx ny].
      intros E. apply Hne. injection E as -> ->. reflexivity.
Qed.

Lemma forward_eval_after_training_witness :
  training MoreExamples.head2_training = true /\
  grid MoreExamples.head2_training = None /\
  rectangular4 Examples.zeros_1x7x1x1 1
    (na MoreExamples.head2_training * num_classes_output MoreExamples.head2_training)
    1 1 /\
  (0 < 1)%nat /\ (0 < na MoreExamples.head2_training)%nat /\ (0 < 1)%nat /\
  rectangular4 MoreExamples.zeros_1x7x1x2 1
    (na MoreExamples.head2_training * num_classes_output MoreExamples.head2_training)
    1 2 /\
  (0 < 1)%nat /\ (0 < 1)%nat /\ (2%nat, 1%nat) <> (1%nat, 1%nat) /\
  exists p5 m',
    forward MoreExamples.head2_training Examples.zeros_1x7x1x1 = Ok (Train p5, m') /\
    forward (eval_mode m') Examples.zeros_1x7x1x1 = Raise TypeError /\
    exists io q5 m'',
      forward (eval_mode m') MoreExamples.zeros_1x7x1x2 = Ok (Infer io q5, m'').
Proof.
  assert (H1 : training MoreExamples.head2_training = true) by reflexivity.
  assert (H2 : grid MoreExamples.head2_training = None) by reflexivity.
  assert (H3 : rectangular4 Examples.zeros_1x7x1x1 1
                 (na MoreExamples.head2_training *
                  num_classes_output MoreExamples.head2_training) 1 1).
  { unfold rectangular4. split; [reflexivity|].
    repeat (constructor; [split; [reflexivity|repeat constructor]|]).
    constructor. }
  assert (H4 : rectangular4 MoreExamples.zeros_1x7x1x2 1
                 (na MoreExamples.head2_training *
                  num_classes_output MoreExamples.head2_training) 1 2).
  { unfold rectangular4. split; [reflexivity|].
    repeat (constructor; [split; [reflexivity|repeat constructor]|]).
    constructor. }
  assert (H5 : (0 < 1)%nat) by lia.
  assert (H6 : (0 < na MoreExamples.head2_training)%nat)
    by (unfold na, MoreExamples.head2_training; simpl; lia).
  assert (H7 : (2%nat, 1%nat) <> (1%nat, 1%nat)) by discriminate.
  repeat (split; [assumption|]).
  exact (@forward_eval_after_training MoreExamples.head2_training
           Examples.zeros_1x7x1x1 MoreExamples.zeros_1x7x1x2
           1 1 1 1 1 2 H1 H2 H3 H5 H6 H5 H4 H5 H5 H7).
Defined.

(** X9: outside training the cached grid is transparent: a second call on
    the same input, made on the layer the first call left, returns the same
    output and leaves the layer as it is. *)
Theorem forward_inference_stable (m : t) (p : tensor4) (bs ny' nx' : nat) :
  training m = false ->
  rectangular4 p bs (na m * num_classes_output m) ny' nx' ->
  (0 < bs)%nat -> (0 < na m)%nat -> (0 < ny')%nat ->
  grid_ready m ny' nx' ->
  exists o m', forward m p = Ok (o, m') /\ forward m' p = Ok (o, m').
Proof.
  intros Ht Hrect Pb Pa Py Hready.
  rewrite (forward_inference_eq Ht Hrect Pb Pa Py Hready).
  eexists; eexists. split; [reflexivity|].
  set (m1 := Build (anchors m) (stride m) (num_classes m) nx' ny'
                   (Some (meshgrid ny' nx')) false).
  assert (Hr : rectangular4 p bs (na m1 * num_classes_output m1) ny' nx')
    by exact Hrect.
  rewrite (@forward_inference_eq m1 p bs ny' nx' eq_refl Hr Pb Pa Py).
  - reflexivity.
  - right. reflexivity.
Qed.

Lemma forward_inference_stable_witness :
  training Examples.head2 = false /\
  rectangular4 Examples.zeros_1x7x1x1 1
    (na Examples.head2 * num_classes_output Examples.head2) 1 1 /\
  (0 < 1)%nat /\ (0 < na Examples.head2)%nat /\ (0 < 1)%nat /\
  grid_ready Examples.head2 1 1 /\
  exists o m',
    forward Examples.head2 Examples.zeros_1x7x1x1 = Ok (o, m') /\
    forward m' Examples.zeros_1x7x1x1 = Ok (o, m').
Proof.
  assert (H1 : training Examples.head2 = false) by reflexivity.
  assert (H3 : rectangular4 Examples.zeros_1x7x1x1 1
                 (na Examples.head2 * num_classes_output Examples.head2) 1 1).
  { unfold rectangular4. split; [reflexivity|].
    repeat (constructor; [split; [reflexivity|repeat constructor]|]).
    constructor. }
  assert (H4 : grid_ready Examples.head2 1 1).
  { left. simpl. intros H; inversion H. }
  assert (H5 : (0 < 1)%nat) by lia.
  assert (H6 : (0 < na Examples.head2)%nat) by (unfold na, Examples.head2; simpl; lia).
  repeat (split; [assumption|]).
  exact (@forward_inference_stable Examples.head2 Examples.zeros_1x7x1x1
           1 1 1 H1 H3 H5 H6 H5 H4).
Defined.
End YOLOMoreFacts.

(** ** Target assignment: what the returned lists hold *)

Section TargetMoreFacts.
Import BoxGeometry Targets.
Local Open Scope R_scope.

(** The entries the loop returns are the assignments of the layers, each
    on the shape of its own prediction tensor. *)
Lemma build_loop_outs (p : list shape5) (targets : list target) (thr : R) (nc : Z) :
  forall (layers : list (list (R * R))) (i : nat) (outs : list assignment),
    build_loop p targets thr nc i layers = Ok outs ->
    length outs = length layers /\
    forall k anchors, nth_error layers k = Some anchors ->
      exists sh, nth_error p (i + k) = Some sh /\
                 nth_error outs k = Some (assign_layer anchors sh targets thr).
Proof.
  induction layers as [|anchors rest IH]; intros i outs H.
  - simpl in H. injection H as <-. split; [reflexivity|].
    intros k a Hk. destruct k; discriminate Hk.
  - cbn [build_loop] in H.
    destruct (nth_error p i) as [sh|] eqn:Ep; [|discriminate H].
    apply bind_ok_inv in H. destruct H as (u & _ & H).
    apply bind_ok_inv in H. destruct H as (outs' & Hrest & H).
    injection H as <-.
    destruct (IH _ _ Hrest) as [Hlen Hnth].
    split; [simpl; rewrite Hlen; reflexivity|].
    intros k a Hk. destruct k as [|k].
    + simpl in Hk. injection Hk as <-. exists sh.
      rewrite Nat.add_0_r. split; [exact Ep | reflexivity].
    + simpl in Hk. destruct (Hnth k a Hk) as (sh' & Hp & Ho).
      exists sh'. replace (i + S k)%nat with (S i + k)%nat by lia.
      split; [exact Hp | exact Ho].
Qed.

Lemma build_targets_outs (p : list shape5) (targets : list target) (m : model)
    (tcls : list (list Z)) (tbox : list (list (R * R * R * R)))
    (indices : list (list (Z * nat * Z * Z))) (anch : list (list (R * R))) :
  build_targets p targets m = Ok (tcls, tbox, indices, anch) ->
  exists outs,
    tcls = map a_tcls outs /\ tbox = map a_tbox outs /\
    indices = map a_indices outs /\ anch = map a_anch outs /\
    length outs = length (yolo_anchor_vec m) /\
    forall k anchors, nth_error (yolo_anchor_vec m) k = Some anchors ->
      exists sh, nth_error p k = Some sh /\
                 nth_error outs k = Some (assign_layer anchors sh targets (iou_t m)).
Proof.
  unfold build_targets. intros H.
  apply bind_ok_inv in H. destruct H as (outs & Hloop & H).
  injection H as <- <- <- <-.
  destruct (build_loop_outs _ _ _ _ _ _ Hloop) as [Hlen Hnth].
  exists outs. repeat (split; [reflexivity|]). split; [exact Hlen|].
  intros k a Hk. destruct (Hnth k a Hk) as (sh & Hp & Ho).
  exists sh. split; [exact Hp | exact Ho].
Qed.

Lemma nth_map_nth_error (A B : Type) (f : A -> B) (l : list A) (k : nat)
    (a : A) (d : B) :
  nth_error l k = Some a -> nth k (map f l) d = f a.
Proof.
  revert k. induction l as [|x l IH]; intros k H; destruct k; try discriminate H.
  - injection H as ->. reflexivity.
  - simpl in *. apply IH. exact H.
Qed.

Lemma long_INR (n : nat) : long (INR n) = Z.of_nat n.
Proof. rewrite INR_IZR_INZ. apply long_IZR. Qed.

Lemma clamp_range (x hi : Z) : (0 <= hi)%Z -> (0 <= clamp x 0 hi <= hi)%Z.
Proof. intros H. unfold clamp. lia. Qed.

(** The pairs [match_anchors] selects carry an anchor index of the layer. *)
Lemma match_anchors_index (anchors : list (R * R)) (ts : list target) (thr : R)
    (a : nat) (t : target) :
  In (a, t) (match_anchors anchors ts thr) -> (a < length anchors)%nat /\ In t ts.
Proof.
  unfold match_anchors, imap. intros H.
  apply in_concat in H. destruct H as (l & Hl & Hin).
  apply in_map_iff in Hl. destruct Hl as ([i row] & <- & Hc).
  apply in_combine_l in Hc. apply in_seq in Hc.
  rewrite !length_map in Hc. unfold wh_iou in Hc. rewrite length_map in Hc.
  simpl in Hin. apply in_map_iff in Hin. destruct Hin as ([b t'] & E & Hf).
  injection E as <- <-. apply filter_In in Hf. destruct Hf as [Hf _].
  apply in_combine_r in Hf. split; [lia | exact Hf].
Qed.

Lemma match_nil (anchors : list (R * R)) (sh : shape5) (targets : list target)
    (thr : R) (a : nat) (t : target) :
  In (a, t) (if (length targets =? 0)%nat then []
             else match_anchors anchors (map (scale_target sh) targets) thr) ->
  (a < length anchors)%nat /\ In t (map (scale_target sh) targets).
Proof.
  destruct (length targets =? 0)%nat; [intros []|]. apply match_anchors_index.
Qed.

(** X10: in what [build_targets] returns for a layer with a grid of at
    least one row and one column, every index tuple
    (image, anchor, gridy, gridx) names an anchor of the layer and a cell
    of the grid: [anchor < na], [0 <= gridy < ny], [0 <= gridx < nx],
    wherever the target lies. *)
Theorem build_targets_indices_in_grid (p : list shape5) (targets : list target)
    (m : model) (tcls : list (list Z)) (tbox : list (list (R * R * R * R)))
    (indices : list (list (Z * nat * Z * Z))) (anch : list (list (R * R)))
    (i : nat) (sh : shape5) (anchors : list (R * R)) (b : Z) (a : nat) (gj gi : Z) :
  build_targets p targets m = Ok (tcls, tbox, indices, anch) ->
  nth_error p i = Some sh ->
  nth_error (yolo_anchor_vec m) i = Some anchors ->
  (0 < s_nx sh)%nat -> (0 < s_ny sh)%nat ->
  In (b, a, gj, gi) (nth i indices []) ->
  (a < length anchors)%nat /\
  (0 <= gj < Z.of_nat (s_ny sh))%Z /\ (0 <= gi < Z.of_nat (s_nx sh))%Z.
Proof.
  intros H Hp Ha Hnx Hny Hin.
  destruct (build_targets_outs _ _ _ H) as (outs & _ & _ & -> & _ & _ & Hnth).
  destruct (Hnth i anchors Ha) as (sh' & Hp' & Ho).
  rewrite Hp in Hp'. injection Hp' as <-.
  rewrite (nth_map_nth_error a_indices _ _ [] Ho) in Hin.
  unfold assign_layer in Hin. cbn [a_indices] in Hin.
  apply in_map_iff in Hin. destruct Hin as ([a' t] & E & Hat).
  cbn [fst snd] in E. injection E as _ <- <- <-.
  apply match_nil in Hat. destruct Hat as [Hlt _].
  rewrite !long_INR.
  pose proof (@clamp_range (long (t_x t - 0)) (Z.of_nat (s_nx sh) - 1) ltac:(lia)).
  pose proof (@clamp_range (long (t_y t - 0)) (Z.of_nat (s_ny sh) - 1) ltac:(lia)).
  split; [exact Hlt|]. split; lia.
Qed.

Lemma single_match_half (x y : R) :
  single_match (1, 1) (Shape5 1 1 2 2 6)
    (Target 0 0 x y (1 / 2) (1 / 2)) (1 / 5) = true.
Proof.
  unfold single_match. simpl t_w. simpl t_h. simpl fst. simpl snd.
  replace (1 / 2 * (1 + 1)) with 1 by lra.
  rewrite Rmin_left by lra.
  rewrite tdiv_nonzero by lra. unfold tgt.
  destruct (Rlt_dec (1 / 5) (1 * 1 / (1 * 1 + 1 * 1 - 1 * 1))) as [_|N];
    [reflexivity|].
  exfalso. apply N. replace (1 * 1 / (1 * 1 + 1 * 1 - 1 * 1)) with 1 by (field; lra).
  lra.
Qed.

Lemma long_3 : long (3 / 2 * (1 + 1) - 0) = 3%Z.
Proof. replace (3 / 2 * (1 + 1) - 0) with (IZR 3) by lra. apply long_IZR. Qed.

Lemma long_m1 : long (-1 / 2 * (1 + 1) - 0) = (-1)%Z.
Proof. replace (-1 / 2 * (1 + 1) - 0) with (IZR (-1)) by lra. apply long_IZR. Qed.

Lemma long_0 : long (0 * 1) = 0%Z.
Proof. replace (0 * 1) with (IZR 0) by lra. apply long_IZR. Qed.

Lemma long_2 : long (1 + 1) = 2%Z.
Proof. replace (1 + 1) with (IZR 2) by lra. apply long_IZR. Qed.

(** A target centred outside the image, right of and above it, on a 2x2
    grid: it is assigned to the corner cell (row 0, column 1). *)
Lemma build_targets_outside :
  exists tbox,
    build_targets TargetExamples.p_2x2
      [Target 0 0 (3 / 2) (-1 / 2) (1 / 2) (1 / 2)] TargetExamples.model_unit =
    Ok ([[0%Z]], [tbox], [[(0%Z, 0%nat, 0%Z, 1%Z)]], [[(1, 1)]]).
Proof.
  unfold build_targets, TargetExamples.model_unit, TargetExamples.p_2x2.
  cbn [yolo_anchor_vec iou_t num_classes build_loop nth_error].
  assert (E : match_anchors [(1, 1)]
                (map (scale_target (Shape5 1 1 2 2 6))
                   [Target 0 0 (3 / 2) (-1 / 2) (1 / 2) (1 / 2)]) (1 / 5) =
              [(0%nat, scale_target (Shape5 1 1 2 2 6)
                         (Target 0 0 (3 / 2) (-1 / 2) (1 / 2) (1 / 2)))]).
  { pose proof (single_match_half (3 / 2) (-1 / 2)) as S. unfold single_match in S.
    unfold match_anchors, wh_iou, imap. cbn [map length seq combine].
    cbn [fst snd t_w t_h] in *. rewrite S. reflexivity. }
  unfold assign_layer. cbn [length Nat.eqb]. rewrite E.
  cbn [map fst snd a_tcls a_indices a_tbox a_anch scale_target t_x t_y t_img t_cls
       t_w t_h s_nx s_ny INR nth].
  rewrite long_3, long_m1, !long_0, long_2.
  cbn [assert_classes fold_left bind Z.ltb Z.compare].
  eexists. reflexivity.
Qed.

Lemma build_targets_indices_in_grid_witness :
  exists tcls tbox indices anch,
    build_targets TargetExamples.p_2x2
      [Target 0 0 (3 / 2) (-1 / 2) (1 / 2) (1 / 2)] TargetExamples.model_unit =
      Ok (tcls, tbox, indices, anch) /\
    nth_error TargetExamples.p_2x2 0 = Some (Shape5 1 1 2 2 6) /\
    nth_error (yolo_anchor_vec TargetExamples.model_unit) 0 = Some [(1, 1)] /\
    (0 < s_nx (Shape5 1 1 2 2 6))%nat /\ (0 < s_ny (Shape5 1 1 2 2 6))%nat /\
    In (0%Z, 0%nat, 0%Z, 1%Z) (nth 0 indices []) /\
    (0 < length [(1, 1)])%nat /\
    (0 <= 0 < Z.of_nat (s_ny (Shape5 1 1 2 2 6)))%Z /\
    (0 <= 1 < Z.of_nat (s_nx (Shape5 1 1 2 2 6)))%Z.
Proof.
  destruct build_targets_outside as (tbox & E).
  exists [[0%Z]], [tbox], [[(0%Z, 0%nat, 0%Z, 1%Z)]], [[(1, 1)]].
  assert (H2 : nth_error TargetExamples.p_2x2 0 = Some (Shape5 1 1 2 2 6))
    by reflexivity.
  assert (H3 : nth_error (yolo_anchor_vec TargetExamples.model_unit) 0 =
               Some [(1, 1)]) by reflexivity.
  assert (H4 : (0 < s_nx (Shape5 1 1 2 2 6))%nat) by (simpl; lia).
  assert (H5 : (0 < s_ny (Shape5 1 1 2 2 6))%nat) by (simpl; lia).
  assert (H6 : In (0%Z, 0%nat, 0%Z, 1%Z) (nth 0 [[(0%Z, 0%nat, 0%Z, 1%Z)]] []))
    by (left; reflexivity).
  split; [exact E|]. repeat (split; [assumption|]).
  exact (@build_targets_indices_in_grid _ _ _ _ _ _ _ 0%nat _ _ _ _ _ _
           E H2 H3 H4 H5 H6).
Defined.

(** *** The matched pairs *)

Lemma filter_combine_map (A : Type) (f : A -> bool) (l : list A) :
  map (fun bt : bool * A => snd bt)
      (filter (fun bt : bool * A => fst bt) (combine (map f l) l)) =
  filter f l.
Proof.
  induction l as [|x l IH]; [reflexivity|]. simpl.
  destruct (f x); simpl; rewrite IH; reflexivity.
Qed.

Lemma imap_map (A B C : Type) (g : A -> B) (f : nat -> B -> C) (l : list A) :
  imap f (map g l) = imap (fun i a => f i (g a)) l.
Proof.
  unfold imap. rewrite length_map.
  generalize (seq 0 (length l)). induction l as [|x l IH]; intros s.
  - destruct s; reflexivity.
  - destruct s as [|i s]; [reflexivity|]. simpl. rewrite IH. reflexivity.
Qed.

Lemma imap_ext (A B : Type) (f g : nat -> A -> B) (l : list A) :
  (forall i a, f i a = g i a) -> imap f l = imap g l.
Proof.
  intros H. unfold imap. apply map_ext. intros [i a]. apply H.
Qed.

(** X11: the boolean mask of [build_targets] pairs each anchor, in order,
    with exactly the targets, in order, whose width and height have with
    the anchor an IoU above the threshold ([shape_match]); a target may be
    paired with several anchors, or with none. *)
Theorem match_anchors_pairs (anchors : list (R * R)) (ts : list target) (thr : R) :
  match_anchors anchors ts thr =
  concat (imap (fun a (an : R * R) =>
                  map (fun t => (a, t)) (filter (fun t => shape_match an t thr) ts))
               anchors).
Proof.
  unfold match_anchors, wh_iou. rewrite !map_map, imap_map.
  f_equal. apply imap_ext. intros a an.
  rewrite <- (filter_combine_map (fun t => shape_match an t thr) ts).
  rewrite !map_map. unfold shape_match. reflexivity.
Qed.

(** *** Offsets inside the cell *)

Lemma long_floor (x : R) : 0 <= x -> IZR (long x) <= x < IZR (long x) + 1.
Proof.
  intros Hx. unfold long. destruct (Rle_dec 0 x) as [_|N]; [|contradiction].
  destruct (base_Int_part x) as [B1 B2]. lra.
Qed.

Lemma offset_range (x : R) (n : nat) :
  (0 < n)%nat -> 0 <= x <= INR n ->
  0 <= x - IZR (clamp (long (x - 0)) 0 (long (INR n) - 1)) <= 1.
Proof.
  intros Hn [H0 H1]. rewrite long_INR. replace (x - 0) with x by ring.
  destruct (long_floor H0) as [F1 F2].
  rewrite INR_IZR_INZ in H1.
  assert (Hz : (0 <= long x <= Z.of_nat n)%Z).
  { assert (-1 < long x)%Z by (apply lt_IZR; lra).
    split; [lia|]. apply le_IZR. lra. }
  destruct (Z.eq_dec (long x) (Z.of_nat n)) as [E|N].
  - unfold clamp. rewrite Z.max_l by lia. rewrite Z.min_r by lia.
    rewrite minus_IZR. rewrite E in F1. simpl IZR. lra.
  - unfold clamp. rewrite Z.max_l by lia. rewrite Z.min_l by lia. lra.
Qed.

(** X12: for targets whose normalised centre lies in the image
    ([0 <= x, y <= 1]), each box that [build_targets] returns holds offsets
    of the centre from its (clamped) cell between 0 and 1; the offset 1 is
    reached only on the right or bottom border. *)
Theorem build_targets_offsets (p : list shape5) (targets : list target)
    (m : model) (tcls : list (list Z)) (tbox : list (list (R * R * R * R)))
    (indices : list (list (Z * nat * Z * Z))) (anch : list (list (R * R)))
    (i : nat) (sh : shape5) (ox oy w h : R) :
  build_targets p targets m = Ok (tcls, tbox, indices, anch) ->
  Forall (fun t => 0 <= t_x t <= 1 /\ 0 <= t_y t <= 1) targets ->
  nth_error p i = Some sh ->
  (i < length (yolo_anchor_vec m))%nat ->
  (0 < s_nx sh)%nat -> (0 < s_ny sh)%nat ->
  In (ox, oy, w, h) (nth i tbox []) ->
  0 <= ox <= 1 /\ 0 <= oy <= 1.
Proof.
  intros H Hall Hp Hi Hnx Hny Hin.
  destruct (build_targets_outs _ _ _ H) as (outs & _ & -> & _ & _ & _ & Hnth).
  destruct (nth_error (yolo_anchor_vec m) i) as [anchors|] eqn:Ha;
    [|apply nth_error_None in Ha; lia].
  destruct (Hnth i anchors Ha) as (sh' & Hp' & Ho).
  rewrite Hp in Hp'. injection Hp' as <-.
  rewrite (nth_map_nth_error a_tbox _ _ [] Ho) in Hin.
  unfold assign_layer in Hin. cbn [a_tbox] in Hin.
  apply in_map_iff in Hin. destruct Hin as ([a' t] & E & Hat).
  cbn [fst snd] in E. injection E as <- <- _ _.
  apply match_nil in Hat. destruct Hat as [_ Ht].
  apply in_map_iff in Ht. destruct Ht as (t0 & <- & Ht0).
  rewrite Forall_forall in Hall. destruct (Hall _ Ht0) as [[X0 X1] [Y0 Y1]].
  unfold scale_target. cbn [t_x t_y].
  pose proof (pos_INR (s_nx sh)) as Px. pose proof (pos_INR (s_ny sh)) as Py.
  split.
  - apply offset_range; [exact Hnx|]. split; nra.
  - apply offset_range; [exact Hny|]. split; nra.
Qed.

Lemma build_targets_centre :
  exists tbox,
    build_targets TargetExamples.p_2x2
      [Target 0 0 1 (1 / 2) (1 / 2) (1 / 2)] TargetExamples.model_unit =
    Ok ([[0%Z]], [[tbox]], [[(0%Z, 0%nat, 1%Z, 1%Z)]], [[(1, 1)]]).
Proof.
  unfold build_targets, TargetExamples.model_unit, TargetExamples.p_2x2.
  cbn [yolo_anchor_vec iou_t num_classes build_loop nth_error].
  assert (E : match_anchors [(1, 1)]
                (map (scale_target (Shape5 1 1 2 2 6))
                   [Target 0 0 1 (1 / 2) (1 / 2) (1 / 2)]) (1 / 5) =
              [(0%nat, scale_target (Shape5 1 1 2 2 6)
                         (Target 0 0 1 (1 / 2) (1 / 2) (1 / 2)))]).
  { pose proof (single_match_half 1 (1 / 2)) as S. unfold single_match in S.
    unfold match_anchors, wh_iou, imap. cbn [map length seq combine].
    cbn [fst snd t_w t_h] in *. rewrite S. reflexivity. }
  unfold assign_layer. cbn [length Nat.eqb]. rewrite E.
  cbn [map fst snd a_tcls a_indices a_tbox a_anch scale_target t_x t_y t_img t_cls
       t_w t_h s_nx s_ny INR nth].
  assert (L2 : long (1 * (1 + 1) - 0) = 2%Z)
    by (replace (1 * (1 + 1) - 0) with (IZR 2) by lra; apply long_IZR).
  assert (L1 : long (1 / 2 * (1 + 1) - 0) = 1%Z)
    by (replace (1 / 2 * (1 + 1) - 0) with (IZR 1) by lra; apply long_IZR).
  rewrite L2, L1, !long_0, long_2.
  cbn [assert_classes fold_left bind Z.ltb Z.compare].
  eexists. reflexivity.
Qed.

Lemma build_targets_offsets_witness :
  exists tcls tbox indices anch ox oy w h,
    build_targets TargetExamples.p_2x2
      [Target 0 0 1 (1 / 2) (1 / 2) (1 / 2)] TargetExamples.model_unit =
      Ok (tcls, tbox, indices, anch) /\
    Forall (fun t => 0 <= t_x t <= 1 /\ 0 <= t_y t <= 1)
      [Target 0 0 1 (1 / 2) (1 / 2) (1 / 2)] /\
    nth_error TargetExamples.p_2x2 0 = Some (Shape5 1 1 2 2 6) /\
    (0 < length (yolo_anchor_vec TargetExamples.model_unit))%nat /\
    (0 < s_nx (Shape5 1 1 2 2 6))%nat /\ (0 < s_ny (Shape5 1 1 2 2 6))%nat /\
    In (ox, oy, w, h) (nth 0 tbox []) /\
    0 <= ox <= 1 /\ 0 <= oy <= 1.
Proof.
  destruct build_targets_centre as ([[[ox oy] w] h] & E).
  exists [[0%Z]], [[(ox, oy, w, h)]], [[(0%Z, 0%nat, 1%Z, 1%Z)]], [[(1, 1)]],
         ox, oy, w, h.
  assert (H1 : Forall (fun t => 0 <= t_x t <= 1 /\ 0 <= t_y t <= 1)
                 [Target 0 0 1 (1 / 2) (1 / 2) (1 / 2)])
    by (repeat constructor; simpl; lra).
  assert (H2 : nth_error TargetExamples.p_2x2 0 = Some (Shape5 1 1 2 2 6))
    by reflexivity.
  assert (H3 : (0 < length (yolo_anchor_vec TargetExamples.model_unit))%nat)
    by (simpl; lia).
  assert (H4 : (0 < s_nx (Shape5 1 1 2 2 6))%nat) by (simpl; lia).
  assert (H5 : (0 < s_ny (Shape5 1 1 2 2 6))%nat) by (simpl; lia).
  assert (H6 : In (ox, oy, w, h) (nth 0 [[(ox, oy, w, h)]] []))
    by (left; reflexivity).
  split; [exact E|]. repeat (split; [assumption|]).
  exact (@build_targets_offsets _ _ _ _ _ _ _ 0%nat _ ox oy w h
           E H1 H2 H3 H4 H5 H6).
Defined.

(** *** No targets, too few predictions *)

Lemma build_loop_no_targets (p : list shape5) (thr : R) (nc : Z) :
  forall (layers : list (list (R * R))) (i : nat),
    (i + length layers <= length p)%nat ->
    build_loop p [] thr nc i layers =
      Ok (repeat (Assignment [] [] [] []) (length layers)).
Proof.
  induction layers as [|anchors rest IH]; intros i Hlen; [reflexivity|].
  simpl in Hlen. cbn [build_loop].
  destruct (nth_error p i) as [sh|] eqn:Ep; [|apply nth_error_None in Ep; lia].
  unfold assign_layer. cbn [length Nat.eqb map a_tcls assert_classes bind].
  rewrite IH by lia. reflexivity.
Qed.

Lemma build_loop_short (p : list shape5) (targets : list target) (thr : R) (nc : Z) :
  forall (layers : list (list (R * R))) (i : nat),
    (i <= length p < i + length layers)%nat ->
    build_loop p targets thr nc i layers = Raise IndexError \/
    build_loop p targets thr nc i layers = Raise AssertionError.
Proof.
  induction layers as [|anchors rest IH]; intros i Hlen; [simpl in Hlen; lia|].
  cbn [build_loop].
  destruct (nth_error p i) as [sh|] eqn:Ep; [|left; reflexivity].
  assert (Hi : (i < length p)%nat) by (apply nth_error_Some; rewrite Ep; discriminate).
  destruct (assert_classes (a_tcls (assign_layer anchors sh targets thr)) nc)
    as [u|e] eqn:Ea.
  - cbn [bind]. simpl in Hlen.
    destruct (IH (S i) ltac:(lia)) as [E|E]; rewrite E; [left | right]; reflexivity.
  - unfold assert_classes in Ea.
    destruct (a_tcls (assign_layer anchors sh targets thr)) as [|c0 cs];
      [discriminate Ea|].
    destruct (fold_left Z.max cs c0 <? nc)%Z; [discriminate Ea|].
    injection Ea as <-. right. reflexivity.
Qed.

(** X13: with no target at all, [build_targets] returns, for every yolo
    layer that has a prediction tensor, four empty entries. *)
Theorem build_targets_no_targets (p : list shape5) (m : model) :
  (length (yolo_anchor_vec m) <= length p)%nat ->
  let n := length (yolo_anchor_vec m) in
  build_targets p [] m =
    Ok (repeat [] n, repeat [] n, repeat [] n, repeat [] n).
Proof.
  intros Hlen n. unfold build_targets.
  rewrite build_loop_no_targets by (simpl; lia). cbn [bind].
  rewrite !map_repeat. reflexivity.
Qed.

Lemma build_targets_no_targets_witness :
  (length (yolo_anchor_vec TargetExamples.model_unit) <=
   length TargetExamples.p_2x2)%nat /\
  build_targets TargetExamples.p_2x2 [] TargetExamples.model_unit =
    Ok ([[]], [[]], [[]], [[]]).
Proof.
  assert (H : (length (yolo_anchor_vec TargetExamples.model_unit) <=
               length TargetExamples.p_2x2)%nat) by (simpl; lia).
  split; [exact H|].
  exact (@build_targets_no_targets TargetExamples.p_2x2 TargetExamples.model_unit H).
Defined.

(** X14: with fewer prediction tensors than yolo layers [build_targets]
    never returns: it raises IndexError on the first layer without a
    prediction, unless the class assertion of an earlier layer fails
    first. *)
Theorem build_targets_too_few_predictions (p : list shape5)
    (targets : list target) (m : model) :
  (length p < length (yolo_anchor_vec m))%nat ->
  build_targets p targets m = Raise IndexError \/
  build_targets p targets m = Raise AssertionError.
Proof.
  intros Hlen. unfold build_targets.
  destruct (@build_loop_short p targets (iou_t m) (num_classes m)
              (yolo_anchor_vec m) 0%nat ltac:(simpl; lia)) as [E|E];
    rewrite E; [left | right]; reflexivity.
Qed.

Lemma build_targets_too_few_predictions_witness :
  (length (@nil shape5) < length (yolo_anchor_vec TargetExamples.model_unit))%nat /\
  (build_targets [] [TargetExamples.target_cls5] TargetExamples.model_unit =
     Raise IndexError \/
   build_targets [] [TargetExamples.target_cls5] TargetExamples.model_unit =
     Raise AssertionError).
Proof.
  assert (H : (length (@nil shape5) <
               length (yolo_anchor_vec TargetExamples.model_unit))%nat)
    by (simpl; lia).
  split; [exact H|].
  exact (@build_targets_too_few_predictions [] [TargetExamples.target_cls5]
           TargetExamples.model_unit H).
Defined.
End TargetMoreFacts.

(** ** Weighted residual fusion: what a call leaves in the store *)

Section FusionMoreFacts.
Import WeightedFeatureFusion.
Local Open Scope R_scope.
Variable plane : Type.
Variable padd : plane -> plane -> plane.
Variable pscale : R -> plane -> plane.

Local Notation tensor := (tensor plane).
Local Notation heap := (heap plane).

Lemma deref_inv (h : heap) (l : nat) (v : tensor) :
  deref h l = Ok v -> nth_error h l = Some v /\ (l < length h)%nat.
Proof.
  unfold deref. destruct (nth_error h l) as [u|] eqn:E; intros H; [|discriminate H].
  injection H as <-. split; [reflexivity|].
  apply nth_error_Some. rewrite E. discriminate.
Qed.

(** A returning loop has read a stored tensor for every source, has only
    written to the running tensor and to new objects, and returns a live
    object. *)
Lemma fuse_loop_inv (weighted : bool) (wv : list R) (outputs : list pyobj)
    (nx : nat) :
  forall (ls : list Z) (i : nat) (x : nat) (h : heap) (y : nat) (h' : heap),
    fuse_loop padd pscale weighted wv outputs nx i ls x h = Ok (y, h') ->
    Forall (fun l => exists loc, py_index outputs l = Ok (TensorRef loc)) ls /\
    (length h <= length h')%nat /\
    (forall j, (j < length h)%nat -> j <> x -> nth_error h' j = nth_error h j) /\
    (y = x \/ (length h <= y)%nat).
Proof.
  induction ls as [|l rest IH]; intros i x h y h' H.
  - simpl in H. injection H as <- <-.
    split; [constructor|]. split; [lia|]. split; [reflexivity | left; reflexivity].
  - cbn [fuse_loop] in H.
    apply bind_ok_inv in H. destruct H as (o & Ho & H).
    apply bind_ok_inv in H. destruct H as ([a h1] & Hfeat & H).
    apply bind_ok_inv in H. destruct H as (av & Hav & H).
    apply bind_ok_inv in H. destruct H as (xv & Hxv & H).
    destruct o as [la|]; [|destruct weighted; discriminate Hfeat].
    assert (Hh1 : (length h <= length h1)%nat /\
                  forall j, (j < length h)%nat -> nth_error h1 j = nth_error h j).
    { destruct weighted.
      - apply bind_ok_inv in Hfeat. destruct Hfeat as (av0 & _ & Hfeat).
        apply bind_ok_inv in Hfeat. destruct Hfeat as (wi & _ & Hfeat).
        injection Hfeat as <- <-. split; [rewrite length_app; simpl; lia|].
        intros j Hj. apply nth_error_snoc_old. exact Hj.
      - injection Hfeat as <- <-. split; [lia | reflexivity]. }
    destruct Hh1 as [Hlen1 Hold1].
    destruct (deref_inv _ _ Hxv) as [_ Hxlt].
    set (step := if (nx =? length av)%nat then (length h1, h1 ++ [tadd padd xv av])
                 else if (length av <? nx)%nat then
                   (x, update h1 x (tadd padd (firstn (length av) xv) av ++
                                    skipn (length av) xv))
                 else (length h1, h1 ++ [tadd padd xv (firstn nx av)])) in H.
    assert (Hstep : (length h1 <= length (snd step))%nat /\
                    (forall j, (j < length h1)%nat -> j <> x ->
                               nth_error (snd step) j = nth_error h1 j) /\
                    (fst step = x \/ (length h1 <= fst step)%nat)).
    { unfold step. destruct (nx =? length av)%nat; [|destruct (length av <? nx)%nat];
        cbn [fst snd].
      - split; [rewrite length_app; simpl; lia|].
        split; [intros j Hj _; apply nth_error_snoc_old; exact Hj | right; lia].
      - split; [rewrite length_update by exact Hxlt; lia|].
        split; [intros j Hj Hjx; apply nth_error_update_neq; assumption|].
        left; reflexivity.
      - split; [rewrite length_app; simpl; lia|].
        split; [intros j Hj _; apply nth_error_snoc_old; exact Hj | right; lia]. }
    destruct step as [x' h2]. cbn [fst snd] in Hstep.
    destruct Hstep as (Hlen2 & Hold2 & Hx').
    destruct (IH _ _ _ _ _ H) as (Hall & Hlen3 & Hold3 & Hy).
    split; [constructor; [exists la; exact Ho | exact Hall]|].
    split; [lia|]. split.
    + intros j Hj Hjx.
      rewrite Hold3 by (destruct Hx' as [->|Hge]; lia).
      rewrite Hold2 by (try lia; exact Hjx). apply Hold1. exact Hj.
    + destruct Hy as [->|Hge]; [|right; lia].
      destruct Hx' as [->|Hge]; [left; reflexivity | right; lia].
Qed.

(** X15: [forward] returns only if every source index names a stored
    tensor: an index outside [outputs] (IndexError) or the placeholder
    [[]] of a layer whose output was not kept (AttributeError, or TypeError
    with weighting) makes it raise.  When it returns, every stored tensor
    other than the running tensor [x] is as it was, and with weighting on so
    is [x] itself: the in-place write [x[:, :na] = x[:, :na] + a] reaches
    the caller's tensor only in an unweighted node.  What is returned is
    [x] itself or a new tensor. *)
Theorem forward_frame (m : t) (h : heap) (x : nat) (outputs : list pyobj)
    (y : nat) (h' : heap) :
  forward padd pscale m h x outputs = Ok (y, h') ->
  Forall (fun l => exists loc, py_index outputs l = Ok (TensorRef loc)) (layers m) /\
  (length h <= length h')%nat /\
  (forall j, (j < length h)%nat -> j <> x -> nth_error h' j = nth_error h j) /\
  (weight m = true -> nth_error h' x = nth_error h x) /\
  (y = x \/ (length h <= y)%nat).
Proof.
  unfold forward. intros H.
  apply bind_ok_inv in H. destruct H as (xv & Hxv & H).
  apply bind_ok_inv in H. destruct H as ([x1 h1] & Hw & H).
  destruct (deref_inv _ _ Hxv) as [_ Hxlt].
  destruct (fuse_loop_inv _ _ _ _ _ _ _ _ H) as (Hall & Hlen & Hold & Hy).
  split; [exact Hall|].
  destruct (weight m).
  - apply bind_ok_inv in Hw. destruct Hw as (w0 & _ & Hw). injection Hw as <- <-.
    rewrite length_app in Hlen, Hold. simpl in Hlen, Hold.
    assert (Hkeep : forall j, (j < length h)%nat -> nth_error h' j = nth_error h j).
    { intros j Hj. rewrite Hold by lia. apply nth_error_snoc_old. exact Hj. }
    split; [lia|]. split; [intros j Hj _; apply Hkeep; exact Hj|].
    split; [intros _; apply Hkeep; exact Hxlt|].
    right. destruct Hy as [->|Hge]; [lia|].
    rewrite length_app in Hge. simpl in Hge. lia.
  - injection Hw as <- <-.
    split; [exact Hlen|]. split; [exact Hold|].
    split; [intros E; discriminate E | exact Hy].
Qed.
End FusionMoreFacts.

Section FusionMoreExamples.
Import WeightedFeatureFusion FusionExamples.
Local Open Scope R_scope.

Lemma forward_node01 :
  forward Rplus Rmult node01 heap3 2 out2 =
  Ok (4%nat, MoreExamples.heap3_fused).
Proof. reflexivity. Qed.

Lemma forward_frame_witness :
  forward Rplus Rmult node01 heap3 2 out2 =
    Ok (4%nat, MoreExamples.heap3_fused) /\
  Forall (fun l => exists loc, py_index out2 l = Ok (TensorRef loc)) (layers node01) /\
  (length heap3 <=
   length (MoreExamples.heap3_fused))%nat /\
  (forall j, (j < length heap3)%nat -> j <> 2%nat ->
     nth_error (MoreExamples.heap3_fused) j =
     nth_error heap3 j) /\
  (weight node01 = true ->
     nth_error (MoreExamples.heap3_fused) 2 =
     nth_error heap3 2) /\
  (4%nat = 2%nat \/ (length heap3 <= 4)%nat).
Proof.
  split; [exact forward_node01|].
  exact (@forward_frame R Rplus Rmult node01 heap3 2%nat out2 4%nat _ forward_node01).
Defined.
End FusionMoreExamples.

(** ** Graph construction: invariants of the loop *)

Section BuilderMoreFacts.
Import Layers Builder BuilderMore.
Local Open Scope string_scope.
Local Open Scope list_scope.
Local Open Scope Z_scope.

Lemma is_str_true (v : pyval) (s : string) : is_str v s = true -> v = VStr s.
Proof.
  destruct v as [z|t|l|a]; simpl; intros H; try discriminate H.
  apply String.eqb_eq in H. rewrite H. reflexivity.
Qed.

Ltac binv H x Hx :=
  apply bind_ok_inv in H; destruct H as (x & Hx & H).

Lemma act_only_actm (act : pyval) :
  act_only (if is_str act "leaky" then [MActivation LeakyReLU]
            else if is_str act "swish" then [MActivation Hardswish]
            else if is_str act "mish" then [MActivation Mish] else []).
Proof.
  unfold act_only.
  destruct (is_str act "leaky"); [right; eexists; reflexivity|].
  destruct (is_str act "swish"); [right; eexists; reflexivity|].
  destruct (is_str act "mish"); [right; eexists; reflexivity|].
  left; reflexivity.
Qed.

Lemma Conv2d_new_inv (env : torch_env) (i : nat) (in_ch : Z) (out : pyval) (k : Z)
    (sd : stride_t) (pad : Z) (g : pyval) (with_bias : bool) (conv : Conv2d R) :
  Conv2d_new env i in_ch out k sd pad g with_bias = Ok conv ->
  in_channels conv = in_ch /\ kernel_size conv = k /\
  out = VInt (out_channels conv) /\ g = VInt (groups conv) /\
  0 < groups conv /\ 0 <= out_channels conv /\ 0 <= k /\
  in_ch mod groups conv = 0 /\ out_channels conv mod groups conv = 0 /\
  weight conv = conv_weight_init env i
                  (Z.to_nat (out_channels conv * (in_ch / groups conv) * k * k)) /\
  bias conv = (if with_bias
               then Some (conv_bias_init env i (Z.to_nat (out_channels conv)))
               else None).
Proof.
  unfold Conv2d_new. intros H.
  destruct g as [gz| | |]; try discriminate H.
  destruct out as [oz| | |]; try discriminate H.
  destruct (Z.leb_spec gz 0) as [|Hg]; [discriminate H|].
  destruct (Z.eqb_spec (in_ch mod gz) 0) as [Hi|]; [|discriminate H].
  destruct (Z.eqb_spec (oz mod gz) 0) as [Ho|]; [|discriminate H].
  simpl negb in H. cbv iota in H.
  destruct (Z.ltb_spec oz 0) as [|Hoz]; [discriminate H|].
  destruct (Z.ltb_spec (in_ch / gz) 0) as [|Hiz]; [discriminate H|].
  destruct (Z.ltb_spec k 0) as [|Hk]; [discriminate H|].
  simpl orb in H. cbv iota in H. injection H as <-. simpl.
  repeat split; auto.
Qed.

Lemma BatchNorm2d_new_inv (nf : Z) (b : BatchNorm2d R) :
  BatchNorm2d_new nf = Ok b ->
  num_features b = nf /\ 0 <= nf /\
  bn_weight b = repeat 1%R (Z.to_nat nf) /\ bn_bias b = repeat 0%R (Z.to_nat nf) /\
  running_mean b = repeat 0%R (Z.to_nat nf) /\
  running_var b = repeat 1%R (Z.to_nat nf) /\
  eps b = (/ 10 ^ 4)%R.
Proof.
  unfold BatchNorm2d_new. intros H.
  destruct (Z.ltb_spec nf 0) as [|Hn]; [discriminate H|].
  injection H as <-. simpl. repeat split; auto.
Qed.

(** Every returning pass of the loop is one of the six outcomes. *)
Lemma create_module_built (env : torch_env) (mdl : list dict) (cfg : string)
    (i : nat) (md : dict) (st : bstate) (m : module R) (st1 : bstate) :
  create_module env mdl cfg i md st = Ok (m, st1) -> built env cfg i md st m st1.
Proof.
  unfold create_module. intros H.
  binv H ty Hty.
  destruct (is_str ty "convolutional") eqn:Tconv.
  { apply is_str_true in Tconv. subst ty.
    binv H bnv Hbnv. binv H fv Hfv. binv H k Hk. binv H sd Hsd.
    binv H conv Hconv. binv H bn Hbn. binv H bnm Hbnm. binv H act Hact.
    injection H as <- <-.
    destruct k as [kz| | |]; try discriminate Hconv.
    binv Hconv in_ch Hin. binv Hconv padv Hpadv. binv Hconv pad Hpad.
    binv Hconv g Hg. binv Hconv bn' Hbn'.
    rewrite Hbn in Hbn'. injection Hbn' as <-.
    destruct (Conv2d_new_inv _ _ _ _ _ _ _ _ _ Hconv)
      as (Ein & _ & _ & _ & _ & _ & _ & _ & _ & _ & Ebias).
    rewrite <- Ein in Hin.
    destruct bn.
    - binv Hbnm b Hb. injection Hbnm as <-.
      destruct (BatchNorm2d_new_inv _ Hb) as (Enf & _).
      cbn [app]. apply built_conv_bn with (bnv := bnv); try reflexivity;
        try assumption. apply act_only_actm.
    - injection Hbnm as <-. cbn [app].
      apply built_conv_bias with (bnv := bnv); try reflexivity;
        try assumption. apply act_only_actm. }
  destruct (is_str ty "BatchNorm2d") eqn:Tbn.
  { binv H f0 Hf. binv H b Hb. injection H as <- <-.
    apply is_str_true in Tbn. subst ty.
    apply built_plain with (ty := VStr "BatchNorm2d"); try reflexivity;
      try assumption. left; reflexivity. }
  destruct (is_str ty "maxpool") eqn:Tmp.
  { binv H k Hk. binv H s Hs.
    destruct k as [kz| | |]; try discriminate H. injection H as <- <-.
    apply is_str_true in Tmp. subst ty.
    apply built_plain with (ty := VStr "maxpool"); try reflexivity;
      try assumption; [|left; reflexivity].
    destruct ((kz =? 2) && is_int s 1)%bool; reflexivity. }
  destruct (is_str ty "upsample") eqn:Tup.
  { binv H s Hs. binv H nz Hnz. binv H sf Hsf. injection H as <- <-.
    apply is_str_true in Tup. subst ty.
    apply built_plain with (ty := VStr "upsample"); try reflexivity;
      try assumption. left; reflexivity. }
  destruct (is_str ty "route") eqn:Troute.
  { apply is_str_true in Troute. subst ty.
    binv H lv Hlv. destruct lv as [|?|layers|]; try discriminate H.
    binv H f0 Hf. injection H as <- <-.
    apply built_route; try reflexivity; assumption. }
  destruct (is_str ty "shortcut") eqn:Tsc.
  { apply is_str_true in Tsc. subst ty.
    binv H lv Hlv. binv H f0 Hf. destruct lv as [|?|layers|]; try discriminate H.
    injection H as <- <-.
    apply built_shortcut; try reflexivity; assumption. }
  destruct (is_str ty "reorg3d") eqn:Treorg.
  { injection H as <- <-.
    apply is_str_true in Treorg. subst ty.
    apply built_plain with (ty := VStr "reorg3d"); try reflexivity; try assumption.
    left; reflexivity. }
  destruct (is_str ty "yolo") eqn:Tyolo.
  { apply is_str_true in Tyolo. subst ty.
    binv H layers Hlayers. binv H av Hav. binv H mv Hmv. binv H anchors Hanchors.
    binv H cv Hcv. binv H sd Hsd.
    destruct layers as [|?|ls|]; try discriminate H.
    destruct cv as [nc| | |]; try discriminate H.
    destruct (nc <? 0); [discriminate H|]. injection H as <- <-.
    destruct (smart_bias_try_raises mdl md (VList ls) (yolo_index st + 1)) as (e & Ee).
    apply built_yolo with (stride := sd); try reflexivity; try assumption.
    cbn [log]. rewrite Ee. reflexivity. }
  destruct (is_str ty "dropout") eqn:Tdrop.
  { binv H pv Hpv. binv H perc Hperc.
    destruct (Rlt_dec perc 0); [discriminate H|].
    destruct (Rlt_dec 1 perc); [discriminate H|]. injection H as <- <-.
    apply built_plain with (ty := ty); try reflexivity; try assumption.
    left; reflexivity. }
  destruct ty as [|t| |]; try discriminate H. injection H as <- <-.
  apply built_plain with (ty := VStr t); try reflexivity; try assumption.
  right. exists t. reflexivity.
Qed.

Lemma create_loop_cons (env : torch_env) (mdl : list dict) (cfg : string)
    (i : nat) (md : dict) (rest : list dict) (st : bstate)
    (ml : list (module R)) (st' : bstate) :
  create_loop env mdl cfg i (md :: rest) st = Ok (ml, st') ->
  exists m st1 ml',
    ml = m :: ml' /\ built env cfg i md st m st1 /\
    create_loop env mdl cfg (S i) rest (next_state st1) = Ok (ml', st').
Proof.
  cbn [create_loop]. intros H.
  binv H ms Hms. destruct ms as [m st1].
  binv H r Hr. destruct r as [ml' st2]. injection H as <- <-.
  exists m, st1, ml'. split; [reflexivity|].
  split; [apply (create_module_built _ _ _ _ _ _ Hms) | exact Hr].
Qed.

(** The nodes of the list are the outcomes of the passes, block by block. *)
Lemma create_loop_nth (env : torch_env) (mdl : list dict) (cfg : string) :
  forall (rest : list dict) (i : nat) (st : bstate) (ml : list (module R))
         (st' : bstate),
    create_loop env mdl cfg i rest st = Ok (ml, st') ->
    forall k,
      (forall md, nth_error rest k = Some md ->
         exists m stk stk1, nth_error ml k = Some m /\
                            built env cfg (i + k) md stk m stk1) /\
      (forall m, nth_error ml k = Some m ->
         exists md stk stk1, nth_error rest k = Some md /\
                             built env cfg (i + k) md stk m stk1).
Proof.
  induction rest as [|md rest IH]; intros i st ml st' H k.
  - simpl in H. injection H as <- <-.
    split; intros x Hx; destruct k; discriminate Hx.
  - destruct (create_loop_cons _ _ _ _ _ _ _ H) as (m & st1 & ml' & -> & Hb & Hl).
    destruct k as [|k].
    + rewrite Nat.add_0_r. split; intros x Hx; simpl in Hx; injection Hx as <-.
      * exists m, st, st1. split; [reflexivity | exact Hb].
      * exists md, st, st1. split; [reflexivity | exact Hb].
    + replace (i + S k)%nat with (S i + k)%nat by lia.
      exact (IH _ _ _ _ Hl k).
Qed.

(** *** The routing mask *)

Lemma plain_not_needed (i : nat) (m : module R) :
  plain_module m = true -> node_needed i m = [] /\ is_yolo m = false.
Proof.
  unfold node_needed.
  destruct m as [| | | | | | | | | |ms]; simpl; try discriminate; auto.
  destruct ms as [|[] ms]; simpl; try discriminate; auto.
Qed.

Ltac built_cases Hb :=
  destruct Hb as
    [ conv b actm bnv st2 Hty Hbnv Htruthy Hbias Hnf Hin Hact Hof Hrouts Hyi Hlog Hfil
    | conv actm bnv st2 Hty Hbnv Htruthy Hbias Hin Hact Hof Hrouts Hyi Hlog Hfil
    | layers st2 Hty Hlayers Hof Hrouts Hyi Hlog
    | f0 st2 Hty Hfrom Hweight Hw Hof Hrouts Hyi Hlog Hfil
    | y ls sd st2 Hty Hsd Hstride Htrain Hgrid Hnx Hny Hof Hrouts Hyi Hlog Hfil
    | m2 ty st2 Hty Tconv Troute Tsc Tyolo Hplain Hof Hrouts Hyi Hlog ].

Lemma built_routs (env : torch_env) (cfg : string) (i : nat) (md : dict)
    (st : bstate) (m : module R) (st1 : bstate) :
  built env cfg i md st m st1 -> routs st1 = routs st ++ node_needed i m.
Proof.
  intros Hb. built_cases Hb; unfold node_needed; simpl.
  - rewrite Hbias. simpl. rewrite app_nil_r. assumption.
  - rewrite Hbias. simpl. assumption.
  - rewrite app_nil_r. assumption.
  - rewrite app_nil_r. assumption.
  - rewrite app_nil_r. assumption.
  - destruct (@plain_not_needed i m2 Hplain) as [E _]. unfold node_needed in E.
    rewrite E, app_nil_r. assumption.
Qed.

Lemma create_loop_routs (env : torch_env) (mdl : list dict) (cfg : string) :
  forall (rest : list dict) (i : nat) (st : bstate) (ml : list (module R))
         (st' : bstate),
    create_loop env mdl cfg i rest st = Ok (ml, st') ->
    routs st' = routs st ++ needed_from i ml.
Proof.
  induction rest as [|md rest IH]; intros i st ml st' H.
  - simpl in H. injection H as <- <-. simpl. rewrite app_nil_r. reflexivity.
  - destruct (create_loop_cons _ _ _ _ _ _ _ H) as (m & st1 & ml' & -> & Hb & Hl).
    rewrite (IH _ _ _ _ Hl). cbn [next_state routs needed_from].
    rewrite (built_routs Hb), app_assoc. reflexivity.
Qed.

Lemma in_needed_from (l : Z) :
  forall (ml : list (module R)) (s : nat),
    In l (needed_from s ml) <->
    exists k m, nth_error ml k = Some m /\ needed (s + k) m l.
Proof.
  induction ml as [|m ml IH]; intros s.
  - simpl. split; [intros [] | intros (k & m & Hk & _); destruct k; discriminate Hk].
  - cbn [needed_from]. rewrite in_app_iff, (IH (S s)). split.
    + intros [Hin|(k & m' & Hk & Hn)].
      * exists 0%nat, m. split; [reflexivity|]. rewrite Nat.add_0_r.
        unfold node_needed in Hin. unfold needed.
        apply in_app_iff in Hin. destruct Hin as [Hin|Hin]; [left; exact Hin|].
        right. destruct (biased_conv m); [|contradiction].
        destruct Hin as [<-|[]]. split; reflexivity.
      * exists (S k), m'. split; [exact Hk|].
        replace (s + S k)%nat with (S s + k)%nat by lia. exact Hn.
    + intros (k & m' & Hk & Hn). destruct k as [|k].
      * simpl in Hk. injection Hk as <-. left. rewrite Nat.add_0_r in Hn.
        unfold node_needed. apply in_app_iff.
        destruct Hn as [Hin|[-> Hb]]; [left; exact Hin|].
        right. rewrite Hb. left; reflexivity.
      * right. exists k, m'. split; [exact Hk|].
        replace (S s + k)%nat with (s + S k)%nat by lia. exact Hn.
Qed.

Lemma set_true_spec (rb rb' : list bool) (l : Z) :
  set_true rb l = Ok rb' ->
  exists j, resolves (length rb) l j /\ rb' = update rb j true.
Proof.
  unfold set_true, resolves. intros H.
  destruct ((_ <? 0) || (_ <=? _))%bool eqn:E; [discriminate H|].
  injection H as <-.
  apply Bool.orb_false_iff in E. destruct E as [E1 E2].
  apply Z.ltb_ge in E1. apply Z.leb_gt in E2.
  eexists. split; [|reflexivity]. split; [lia|]. rewrite Z2Nat.id by lia.
  reflexivity.
Qed.

Lemma resolves_py_index (rb : list bool) (l : Z) (j : nat) :
  resolves (length rb) l j ->
  py_index rb l = match nth_error rb j with
                  | Some v => Ok v
                  | None => Raise IndexError
                  end.
Proof.
  intros [Hj E]. unfold py_index.
  set (k' := if l <? 0 then l + Z.of_nat (length rb) else l) in *.
  destruct (Z.ltb_spec k' 0); [lia|].
  destruct (Z.leb_spec (Z.of_nat (length rb)) k'); [lia|]. simpl.
  rewrite <- E, Nat2Z.id. reflexivity.
Qed.

Lemma set_routs_spec (rs : list Z) :
  forall rb rb', set_routs rb rs = Ok rb' ->
    length rb' = length rb /\
    Forall (fun l => exists j, resolves (length rb) l j) rs /\
    forall j, nth_error rb' j = Some true <->
              nth_error rb j = Some true \/
              exists l, In l rs /\ resolves (length rb) l j.
Proof.
  induction rs as [|l rs IH]; intros rb rb' H; simpl in H.
  - injection H as <-. split; [reflexivity|]. split; [constructor|].
    intros j. split; [left; assumption|].
    intros [H|(l & [] & _)]. exact H.
  - binv H rb1 H1.
    destruct (set_true_spec _ _ H1) as (j0 & Hres & ->).
    pose proof Hres as [Hj0 _].
    destruct (IH _ _ H) as (Hlen & Hall & Hiff).
    rewrite length_update in Hlen, Hall, Hiff by exact Hj0.
    split; [exact Hlen|]. split; [constructor; [exists j0; exact Hres | exact Hall]|].
    intros j. rewrite Hiff. split.
    + intros [Hu|(l' & Hin & Hr)].
      * destruct (Nat.eq_dec j j0) as [->|Hne].
        -- right. exists l. split; [left; reflexivity | exact Hres].
        -- left. rewrite nth_error_update_neq in Hu by assumption. exact Hu.
      * right. exists l'. split; [right; exact Hin | exact Hr].
    + intros [Hu|(l' & [<-|Hin] & Hr)].
      * left. destruct (Nat.eq_dec j j0) as [->|Hne].
        -- apply nth_error_update_eq. exact Hj0.
        -- rewrite nth_error_update_neq by assumption. exact Hu.
      * left. assert (j = j0) as ->.
        { destruct Hr as [_ E1]. destruct Hres as [_ E2]. lia. }
        apply nth_error_update_eq. exact Hj0.
      * right. exists l'. split; [exact Hin | exact Hr].
Qed.

Lemma nth_error_repeat_false (n j : nat) : nth_error (repeat false n) j <> Some true.
Proof.
  revert j. induction n as [|n IH]; intros j; destruct j; simpl; try discriminate.
  apply IH.
Qed.

(** X16: the routing mask that [_create_modules] returns marks exactly the
    outputs that are needed later: an output is marked iff some route or
    shortcut node lists it as a source ([i + l] for a negative [l], a
    negative result counting from the end of the mask) or it is the output
    of a convolution block without batch normalisation. *)
Theorem create_modules_routs_mask (env : torch_env) (module_define : list dict)
    (model_config : string) (gray : bool)
    (module_list : list (module R)) (routs_binary : list bool)
    (printed : list string) :
  _create_modules env module_define model_config gray =
    Ok (module_list, routs_binary, printed) ->
  (forall i m l, nth_error module_list i = Some m -> needed i m l ->
     py_index routs_binary l = Ok true) /\
  (forall j, nth_error routs_binary j = Some true ->
     exists i m l, nth_error module_list i = Some m /\ needed i m l /\
                   resolves (length routs_binary) l j).
Proof.
  unfold _create_modules. intros H.
  destruct module_define as [|hd mds]; [discriminate H|].
  binv H r Hloop. destruct r as [ml st]. binv H rb Hrb. injection H as <- <- _.
  pose proof (@create_loop_routs _ _ _ _ _ _ _ _ Hloop) as Er. cbn [routs app] in Er.
  rewrite Er in Hrb.
  destruct (set_routs_spec _ _ Hrb) as (Hlen & Hall & Hiff).
  split.
  - intros i m l Hi Hn.
    assert (Hin : In l (needed_from 0 ml)).
    { apply in_needed_from. exists i, m. split; [exact Hi | exact Hn]. }
    rewrite Forall_forall in Hall. destruct (Hall _ Hin) as (j & Hres).
    assert (Ht : nth_error rb j = Some true).
    { apply Hiff. right. exists l. split; [exact Hin | exact Hres]. }
    rewrite <- Hlen in Hres. rewrite (@resolves_py_index rb l j Hres), Ht. reflexivity.
  - intros j Hj. apply Hiff in Hj. destruct Hj as [Hj|(l & Hin & Hres)].
    + exfalso. exact (nth_error_repeat_false _ _ Hj).
    + apply in_needed_from in Hin. destruct Hin as (k & m & Hk & Hn).
      exists k, m, l. split; [exact Hk|]. split; [exact Hn|].
      rewrite Hlen. exact Hres.
Qed.

Lemma create_modules_routs_mask_witness :
  exists ml rb printed,
    _create_modules BuilderExamples.env0 BuilderExamples.cfg_conv_yolo
      "yolov3.cfg" false = Ok (ml, rb, printed) /\
    (forall i m l, nth_error ml i = Some m -> needed i m l ->
       py_index rb l = Ok true) /\
    (forall j, nth_error rb j = Some true ->
       exists i m l, nth_error ml i = Some m /\ needed i m l /\
                     resolves (length rb) l j).
Proof.
  destruct eval_conv_yolo as (conv & yolo & E & _).
  eexists; eexists; eexists. split; [exact E|].
  exact (@create_modules_routs_mask _ _ _ _ _ _ _ E).
Defined.

(** *** The detection heads *)

Lemma py_index_nonneg_inv (A : Type) (l : list A) (k : Z) (a d : A) :
  0 <= k -> py_index l k = Ok a ->
  (Z.to_nat k < length l)%nat /\ nth (Z.to_nat k) l d = a.
Proof.
  intros Hk. unfold py_index.
  destruct (Z.ltb_spec k 0); [lia|].
  destruct (Z.ltb_spec k 0); [lia|].
  destruct (Z.leb_spec (Z.of_nat (length l)) k); simpl; [intros E; discriminate E|].
  destruct (nth_error l (Z.to_nat k)) as [v|] eqn:E; intros Hv; [|discriminate Hv].
  injection Hv as ->. split; [lia|]. apply nth_error_nth. exact E.
Qed.

Lemma length_yolo_strides (cfg : string) : length (yolo_strides cfg) = 3%nat.
Proof. unfold yolo_strides. destruct (_ || _)%bool; reflexivity. Qed.

Lemma built_yolo_index (env : torch_env) (cfg : string) (i : nat) (md : dict)
    (st : bstate) (m : module R) (st1 : bstate) :
  built env cfg i md st m st1 -> -1 <= yolo_index st ->
  (is_yolo m = false /\ yolo_index st1 = yolo_index st) \/
  (exists y ls,
     m = MYOLOLayer y (yolo_index st + 1) ls /\
     yolo_index st1 = yolo_index st + 1 /\ yolo_index st + 1 <= 2 /\
     YOLOLayer.stride y =
       IZR (nth (Z.to_nat (yolo_index st + 1)) (yolo_strides cfg) 0) /\
     YOLOLayer.training y = true /\ YOLOLayer.grid y = None).
Proof.
  intros Hb Hst. built_cases Hb;
    try (left; split; [reflexivity | assumption]).
  - right. exists y, ls.
    destruct (@py_index_nonneg_inv Z (yolo_strides cfg) (yolo_index st + 1) sd 0
                ltac:(lia) Hsd) as [Hlt Hnth].
    rewrite length_yolo_strides in Hlt.
    split; [reflexivity|]. split; [assumption|]. split; [lia|].
    split; [rewrite Hnth; assumption|]. split; assumption.
  - left. destruct (@plain_not_needed i m2 Hplain) as [_ E].
    split; assumption.
Qed.

Lemma create_loop_yolo (env : torch_env) (mdl : list dict) (cfg : string) :
  forall (rest : list dict) (i : nat) (st : bstate) (ml : list (module R))
         (st' : bstate),
    create_loop env mdl cfg i rest st = Ok (ml, st') ->
    -1 <= yolo_index st <= 2 ->
    yolo_index st' =
      yolo_index st + Z.of_nat (length (indices_from is_yolo i ml)) /\
    yolo_index st' <= 2 /\
    forall k j, nth_error (indices_from is_yolo i ml) k = Some j ->
      (i <= j)%nat /\
      exists y ls,
        nth_error ml (j - i) =
          Some (MYOLOLayer y (yolo_index st + 1 + Z.of_nat k) ls) /\
        YOLOLayer.stride y =
          IZR (nth (Z.to_nat (yolo_index st + 1 + Z.of_nat k)) (yolo_strides cfg) 0) /\
        YOLOLayer.training y = true /\ YOLOLayer.grid y = None.
Proof.
  induction rest as [|md rest IH]; intros i st ml st' H Hst.
  - simpl in H. injection H as <- <-. simpl.
    split; [lia|]. split; [lia|]. intros k j Hk. destruct k; discriminate Hk.
  - destruct (create_loop_cons _ _ _ _ _ _ _ H) as (m & st1 & ml' & -> & Hb & Hl).
    destruct (built_yolo_index Hb ltac:(lia))
      as [[Hny Ey]|(y & ls & -> & Ey & Hle & Hs & Ht & Hg)].
    + destruct (IH _ _ _ _ Hl) as (E1 & E2 & E3);
        [cbn [next_state yolo_index]; lia|].
      cbn [next_state yolo_index] in E1, E3.
      cbn [indices_from]. rewrite Hny.
      split; [lia|]. split; [exact E2|].
      intros k j Hk. destruct (E3 k j Hk) as (Hij & y & ls & Hn & Hs & Ht & Hg).
      split; [lia|]. exists y, ls.
      replace (j - i)%nat with (S (j - S i)) by lia. cbn [nth_error].
      rewrite <- Ey. auto.
    + destruct (IH _ _ _ _ Hl) as (E1 & E2 & E3);
        [cbn [next_state yolo_index]; lia|].
      cbn [next_state yolo_index] in E1, E3.
      cbn [indices_from is_yolo length].
      split; [lia|]. split; [exact E2|].
      intros k j Hk. destruct k as [|k].
      * simpl in Hk. injection Hk as <-. split; [lia|]. exists y, ls.
        rewrite Nat.sub_diag. cbn [nth_error]. rewrite Z.add_0_r. auto.
      * simpl in Hk. destruct (E3 k j Hk) as (Hij & y' & ls' & Hn & Hs' & Ht' & Hg').
        split; [lia|]. exists y', ls'.
        replace (j - i)%nat with (S (j - S i)) by lia. cbn [nth_error].
        replace (yolo_index st + 1 + Z.of_nat (S k))
          with (yolo_index st1 + 1 + Z.of_nat k) by lia. auto.
Qed.

(** X17: a configuration builds with at most three detection heads (the
    stride table has three entries; a fourth [yolo] block raises
    IndexError).  The head that [_get_yolo_layers] lists at position [k]
    carries the index [k] and the [k]-th stride of (32, 16, 8), or of
    (8, 16, 32) when the configuration name contains [panet], [yolov4] or
    [cd53]; it is in training mode and has no grid yet. *)
Theorem create_modules_yolo_layers (env : torch_env) (module_define : list dict)
    (model_config : string) (gray : bool)
    (module_list : list (module R)) (routs_binary : list bool)
    (printed : list string) :
  _create_modules env module_define model_config gray =
    Ok (module_list, routs_binary, printed) ->
  (length (_get_yolo_layers module_list) <= 3)%nat /\
  forall k j, nth_error (_get_yolo_layers module_list) k = Some j ->
    exists y ls,
      nth_error module_list j = Some (MYOLOLayer y (Z.of_nat k) ls) /\
      YOLOLayer.stride y = IZR (nth k (yolo_strides model_config) 0) /\
      YOLOLayer.training y = true /\ YOLOLayer.grid y = None.
Proof.
  unfold _create_modules. intros H.
  destruct module_define as [|hd mds]; [discriminate H|].
  binv H r Hloop. destruct r as [ml st]. binv H rb Hrb. injection H as <- _ _.
  destruct (@create_loop_yolo _ _ _ _ _ _ _ _ Hloop) as (E1 & E2 & E3);
    [cbn [yolo_index]; lia|].
  cbn [yolo_index] in E1, E3. unfold _get_yolo_layers.
  split; [lia|].
  intros k j Hk. destruct (E3 k j Hk) as (_ & y & ls & Hn & Hs & Ht & Hg).
  exists y, ls. rewrite Nat.sub_0_r in Hn.
  replace (-1 + 1 + Z.of_nat k) with (Z.of_nat k) in Hn, Hs by lia.
  rewrite Nat2Z.id in Hs. auto.
Qed.

Lemma create_modules_yolo_layers_witness :
  exists ml rb printed,
    _create_modules BuilderExamples.env0 BuilderExamples.cfg_conv_yolo
      "yolov3.cfg" false = Ok (ml, rb, printed) /\
    (length (_get_yolo_layers ml) <= 3)%nat /\
    forall k j, nth_error (_get_yolo_layers ml) k = Some j ->
      exists y ls,
        nth_error ml j = Some (MYOLOLayer y (Z.of_nat k) ls) /\
        YOLOLayer.stride y = IZR (nth k (yolo_strides "yolov3.cfg") 0) /\
        YOLOLayer.training y = true /\ YOLOLayer.grid y = None.
Proof.
  destruct eval_conv_yolo as (conv & yolo & E & _).
  eexists; eexists; eexists. split; [exact E|].
  exact (@create_modules_yolo_layers _ _ _ _ _ _ _ E).
Defined.

(** *** Convolution blocks *)

(** X18: in a module list that [_create_modules] returns, the node of a
    block is an [nn.Sequential] starting with a convolution exactly when
    the block is [convolutional].  With a truthy [batch_normalize] the
    convolution has no bias and is followed by a batch-norm layer over its
    output channels; otherwise it has a bias and no batch-norm layer; at
    most one activation follows.  Its input channels are the last entry of
    [output_filters] at that pass. *)
Theorem create_modules_conv_blocks (env : torch_env) (module_define : list dict)
    (model_config : string) (gray : bool)
    (module_list : list (module R)) (routs_binary : list bool)
    (printed : list string) (i : nat) (md : dict) (m : module R) :
  _create_modules env module_define model_config gray =
    Ok (module_list, routs_binary, printed) ->
  nth_error (tl module_define) i = Some md ->
  nth_error module_list i = Some m ->
  (geti md "type" = Ok (VStr "convolutional") <->
   exists conv rest, m = MSequential (MConv2d conv :: rest)) /\
  forall conv rest, m = MSequential (MConv2d conv :: rest) ->
    exists bnv, geti md "batch_normalize" = Ok bnv /\
      ((truthy bnv = Ok true /\ bias conv = None /\
        exists b actm, rest = MBatchNorm2d b :: actm /\
                       num_features b = out_channels conv /\ act_only actm) \/
       (truthy bnv = Ok false /\ bias conv <> None /\ act_only rest)).
Proof.
  unfold _create_modules. intros H Hmd Hm.
  destruct module_define as [|hd mds]; [discriminate H|]. cbn [tl] in Hmd.
  binv H r Hloop. destruct r as [ml st]. binv H rb Hrb. injection H as <- _ _.
  destruct (@create_loop_nth _ _ _ _ _ _ _ _ Hloop i) as [Hfwd _].
  destruct (Hfwd md Hmd) as (m' & stk & stk1 & Hm' & Hb).
  rewrite Hm in Hm'. injection Hm' as <-. clear Hfwd.
  built_cases Hb.
  - split.
    + split; [intros _; eauto | intros _; assumption].
    + intros c r E. injection E as <- <-. exists bnv. split; [assumption|].
      left. split; [assumption|]. split; [assumption|]. eauto.
  - split.
    + split; [intros _; eauto | intros _; assumption].
    + intros c r E. injection E as <- <-. exists bnv. split; [assumption|].
      right. split; [assumption|]. split; [|assumption].
      rewrite Hbias. discriminate.
  - split; [split|]; [intros E; rewrite Hty in E; discriminate E
                     | intros (c & r & E); discriminate E
                     | intros c r E; discriminate E].
  - split; [split|]; [intros E; rewrite Hty in E; discriminate E
                     | intros (c & r & E); discriminate E
                     | intros c r E; discriminate E].
  - split; [split|]; [intros E; rewrite Hty in E; discriminate E
                     | intros (c & r & E); discriminate E
                     | intros c r E; discriminate E].
  - assert (Hno : forall c r, m2 <> MSequential (MConv2d c :: r)).
    { intros c r ->. simpl in Hplain. discriminate Hplain. }
    split; [split|].
    + intros E. rewrite Hty in E. injection E as ->. discriminate Tconv.
    + intros (c & r & E). exfalso. exact (Hno _ _ E).
    + intros c r E. exfalso. exact (Hno _ _ E).
Qed.

Lemma create_modules_conv_blocks_witness :
  exists ml rb printed conv,
    _create_modules BuilderExamples.env0 BuilderExamples.cfg_conv_yolo
      "yolov3.cfg" false = Ok (ml, rb, printed) /\
    nth_error (tl BuilderExamples.cfg_conv_yolo) 0 =
      Some [(KStr "type", VStr "convolutional"); (KStr "batch_normalize", VInt 0);
            (KStr "filters", VInt 6); (KStr "size", VInt 1); (KStr "stride", VInt 1);
            (KStr "pad", VInt 1); (KStr "activation", VStr "linear")] /\
    nth_error ml 0 = Some (MSequential [MConv2d conv]) /\
    (geti [(KStr "type", VStr "convolutional"); (KStr "batch_normalize", VInt 0);
           (KStr "filters", VInt 6); (KStr "size", VInt 1); (KStr "stride", VInt 1);
           (KStr "pad", VInt 1); (KStr "activation", VStr "linear")] "type" =
       Ok (VStr "convolutional") <->
     exists conv' rest, MSequential [MConv2d conv] = MSequential (MConv2d conv' :: rest)) /\
    forall conv' rest, MSequential [MConv2d conv] = MSequential (MConv2d conv' :: rest) ->
      exists bnv,
        geti [(KStr "type", VStr "convolutional"); (KStr "batch_normalize", VInt 0);
              (KStr "filters", VInt 6); (KStr "size", VInt 1); (KStr "stride", VInt 1);
              (KStr "pad", VInt 1); (KStr "activation", VStr "linear")]
          "batch_normalize" = Ok bnv /\
        ((truthy bnv = Ok true /\ bias conv' = None /\
          exists b actm, rest = MBatchNorm2d b :: actm /\
                         num_features b = out_channels conv' /\ act_only actm) \/
         (truthy bnv = Ok false /\ bias conv' <> None /\ act_only rest)).
Proof.
  destruct eval_conv_yolo as (conv & yolo & E & _).
  eexists; eexists; eexists; exists conv. split; [exact E|].
  split; [reflexivity|]. split; [reflexivity|].
  exact (@create_modules_conv_blocks _ _ _ _ _ _ _ 0%nat _ _ E eq_refl eq_refl).
Defined.

(** *** The smart bias initialisation *)

Lemma unrecognized_not_warning (t : string) :
  ("Warning: Unrecognized Layer Type: " ++ t)%string <> smart_bias_warning.
Proof. unfold smart_bias_warning. simpl. intros E. discriminate E. Qed.

Lemma count_occ_snoc_neq (l : list string) (x y : string) :
  x <> y -> count_occ string_dec (l ++ [x]) y = count_occ string_dec l y.
Proof.
  intros Hne. rewrite count_occ_app. simpl.
  destruct (string_dec x y); [contradiction | lia].
Qed.

Lemma count_occ_snoc_eq (l : list string) (y : string) :
  count_occ string_dec (l ++ [y]) y = S (count_occ string_dec l y).
Proof.
  rewrite count_occ_app. simpl.
  destruct (string_dec y y) as [_|N]; [lia | contradiction N; reflexivity].
Qed.

Lemma built_log (env : torch_env) (cfg : string) (i : nat) (md : dict)
    (st : bstate) (m : module R) (st1 : bstate) :
  built env cfg i md st m st1 ->
  count_occ string_dec (log st1) smart_bias_warning =
    (count_occ string_dec (log st) smart_bias_warning +
     if is_yolo m then 1 else 0)%nat.
Proof.
  intros Hb. built_cases Hb; cbn [is_yolo]; try (rewrite Hlog; lia).
  - rewrite Hlog, count_occ_snoc_eq. lia.
  - destruct (@plain_not_needed i m2 Hplain) as [_ E]. rewrite E.
    destruct Hlog as [->|(t & ->)]; [lia|].
    rewrite count_occ_snoc_neq by apply unrecognized_not_warning. lia.
Qed.

Lemma create_loop_log (env : torch_env) (mdl : list dict) (cfg : string) :
  forall (rest : list dict) (i : nat) (st : bstate) (ml : list (module R))
         (st' : bstate),
    create_loop env mdl cfg i rest st = Ok (ml, st') ->
    count_occ string_dec (log st') smart_bias_warning =
      (count_occ string_dec (log st) smart_bias_warning +
       length (indices_from is_yolo i ml))%nat.
Proof.
  induction rest as [|md rest IH]; intros i st ml st' H.
  - simpl in H. injection H as <- <-. simpl. lia.
  - destruct (create_loop_cons _ _ _ _ _ _ _ H) as (m & st1 & ml' & -> & Hb & Hl).
    rewrite (IH _ _ _ _ Hl). cbn [next_state log indices_from].
    rewrite (built_log Hb). destruct (is_yolo m); simpl; lia.
Qed.

(** X19: on every configuration that builds, the smart bias initialisation
    changes nothing: each detection head prints the failure warning once
    (the [try] block looks the convolution up in the list of configuration
    blocks, not in the module list), and every convolution bias holds the
    values it was initialised with. *)
Theorem create_modules_never_sets_bias (env : torch_env)
    (module_define : list dict) (model_config : string) (gray : bool)
    (module_list : list (module R)) (routs_binary : list bool)
    (printed : list string) :
  _create_modules env module_define model_config gray =
    Ok (module_list, routs_binary, printed) ->
  count_occ string_dec printed smart_bias_warning =
    length (_get_yolo_layers module_list) /\
  forall i conv rest bv,
    nth_error module_list i = Some (MSequential (MConv2d conv :: rest)) ->
    bias conv = Some bv ->
    bv = conv_bias_init env i (Z.to_nat (out_channels conv)).
Proof.
  unfold _create_modules. intros H.
  destruct module_define as [|hd mds]; [discriminate H|].
  binv H r Hloop. destruct r as [ml st]. binv H rb Hrb. injection H as <- _ <-.
  split.
  - rewrite (@create_loop_log _ _ _ _ _ _ _ _ Hloop). reflexivity.
  - intros i c r bv Hi Hbv.
    destruct (@create_loop_nth _ _ _ _ _ _ _ _ Hloop i) as [_ Hbwd].
    destruct (Hbwd _ Hi) as (md & stk & stk1 & _ & Hb).
    remember (MSequential (MConv2d c :: r)) as m eqn:Em.
    built_cases Hb; try discriminate Em.
    + injection Em as <- <-. rewrite Hbias in Hbv. discriminate Hbv.
    + injection Em as <- <-. rewrite Hbias in Hbv. injection Hbv as <-.
      reflexivity.
    + subst m2. simpl in Hplain. discriminate Hplain.
Qed.

Lemma create_modules_never_sets_bias_witness :
  exists ml rb printed,
    _create_modules BuilderExamples.env0 BuilderExamples.cfg_conv_yolo
      "yolov3.cfg" false = Ok (ml, rb, printed) /\
    count_occ string_dec printed smart_bias_warning =
      length (_get_yolo_layers ml) /\
    forall i conv rest bv,
      nth_error ml i = Some (MSequential (MConv2d conv :: rest)) ->
      bias conv = Some bv ->
      bv = conv_bias_init BuilderExamples.env0 i (Z.to_nat (out_channels conv)).
Proof.
  destruct eval_conv_yolo as (conv & yolo & E & _).
  eexists; eexists; eexists. split; [exact E|].
  exact (@create_modules_never_sets_bias _ _ _ _ _ _ _ E).
Defined.

(** X20: the degenerate lists.  On an empty list [module_define.pop(0)]
    raises IndexError; on a list holding the hyper-parameter block alone the
    module list is empty but the routing mask is [[False]]: its length is
    [i + 1] with [i] still 0. *)
Theorem create_modules_degenerate (env : torch_env) (hd : dict)
    (model_config : string) (gray : bool) :
  _create_modules env [] model_config gray = Raise IndexError /\
  _create_modules env [hd] model_config gray = Ok ([], [false], []).
Proof. split; reflexivity. Qed.
End BuilderMoreFacts.

(** ** Conv + batch-norm fusion over a module list *)

Section FuseMoreFacts.
Import Layers Fuse.
Local Open Scope R_scope.

Ltac binv H x Hx :=
  apply bind_ok_inv in H; destruct H as (x & Hx & H).

(** [Darknet.fuse] maps [fuse_child] over the nodes. *)
Lemma fuse_nth :
  forall (ml ml' : list (module R)),
    fuse ml = Ok ml' ->
    length ml' = length ml /\
    forall i,
      (forall a, nth_error ml i = Some a ->
         exists a', fuse_child a = Ok a' /\ nth_error ml' i = Some a') /\
      (forall a', nth_error ml' i = Some a' ->
         exists a, fuse_child a = Ok a' /\ nth_error ml i = Some a).
Proof.
  induction ml as [|a ml IH]; intros ml' H.
  - simpl in H. injection H as <-. split; [reflexivity|].
    intros i. split; intros x Hx; destruct i; discriminate Hx.
  - cbn [fuse] in H. binv H a1 Ha. binv H rest Hrest. injection H as <-.
    destruct (IH _ Hrest) as [Hlen Hnth].
    split; [simpl; rewrite Hlen; reflexivity|].
    intros i. destruct i as [|i].
    + split; intros x Hx; simpl in Hx; injection Hx as <-.
      * exists a1. split; [exact Ha | reflexivity].
      * exists a. split; [exact Ha | reflexivity].
    + exact (Hnth i).
Qed.

(** The layer [_fuse_conv_and_bn] returns has the geometry of the
    convolution, a bias, and the default [groups]. *)
Lemma fuse_conv_and_bn_shape (c : Conv2d R) (b : BatchNorm2d R) (fused : Conv2d R) :
  _fuse_conv_and_bn c b = Ok fused ->
  in_channels fused = in_channels c /\ out_channels fused = out_channels c /\
  kernel_size fused = kernel_size c /\ stride fused = stride c /\
  padding fused = padding c /\ groups fused = 1%Z /\
  (exists bv, bias fused = Some bv /\
              Z.of_nat (length bv) = out_channels c) /\
  Z.of_nat (length (weight fused)) =
    (out_channels c * in_channels c * kernel_size c * kernel_size c)%Z.
Proof.
  unfold _fuse_conv_and_bn. intros H.
  binv H w_conv Hw. binv H w Hmm. binv H fw Hfw. binv H wb Hwb.
  destruct (Nat.eqb_spec (length (concat wb))
              (length (vmap2 Rminus (bn_bias b)
                 (vmap2 Rdiv (vmap2 Rmult (bn_weight b) (running_mean b))
                    (map (fun v => sqrt (v + eps b)) (running_var b))))))
    as [E1|]; [|discriminate H].
  simpl negb in H. cbv iota in H.
  destruct (Z.eqb_spec
              (Z.of_nat (length (vmap2 Rminus (bn_bias b)
                 (vmap2 Rdiv (vmap2 Rmult (bn_weight b) (running_mean b))
                    (map (fun v => sqrt (v + eps b)) (running_var b))))))
              (out_channels c)) as [E2|]; [|discriminate H].
  simpl negb in H. cbv iota in H. injection H as <-. simpl.
  repeat (split; [reflexivity|]). split.
  - eexists. split; [reflexivity|].
    rewrite length_vmap2, E1, Nat.min_id. exact E2.
  - unfold view_flat in Hfw.
    destruct (Z.eqb_spec (Z.of_nat (length (concat w)))
                (out_channels c * in_channels c * kernel_size c * kernel_size c))
      as [E3|]; [|discriminate Hfw].
    injection Hfw as <-. exact E3.
Qed.

Section BlockEquivalence.
Variable input : Type.
Variable position : Type.
Variable patch : Z -> Z -> stride_t -> Z -> Z -> input -> nat -> position -> list R.

(** X21: [Darknet.fuse] replaces a block [Sequential(conv, bn, tail...)]
    whose convolution is ungrouped by [Sequential(fused, tail...)] at the
    same position; the fused convolution has the geometry of [conv], a
    bias, and computes on every input, output channel and position what
    [conv] followed by [bn] (in evaluation mode) computes. *)
Theorem fuse_conv_bn_block (ml ml' : list (module R)) (i : nat)
    (c : Conv2d R) (b : BatchNorm2d R) (tail : list (module R)) :
  fuse ml = Ok ml' ->
  nth_error ml i = Some (MSequential (MConv2d c :: MBatchNorm2d b :: tail)) ->
  well_shaped c b -> groups c = 1%Z ->
  exists fused,
    nth_error ml' i = Some (MSequential (MConv2d fused :: tail)) /\
    in_channels fused = in_channels c /\ out_channels fused = out_channels c /\
    kernel_size fused = kernel_size c /\ stride fused = stride c /\
    padding fused = padding c /\ bias fused <> None /\
    forall (x : input) (o : nat) (pos : position),
      (o < Z.to_nat (out_channels c))%nat ->
      conv_forward patch fused x o pos =
      bn_forward b o (conv_forward patch c x o pos).
Proof.
  intros H Hi Hshape Hg.
  destruct (fuse_nth _ H) as [_ Hnth].
  destruct (proj1 (Hnth i) _ Hi) as (a' & Hchild & Hi').
  destruct (@fuse_conv_and_bn_equiv input position patch c b Hshape Hg)
    as (fused & Ef & Heq).
  cbn [fuse_child first_bn] in Hchild.
  change (Z.of_nat 1 - 1)%Z with 0%Z in Hchild.
  rewrite py_index_0 in Hchild. cbn [bind] in Hchild.
  rewrite Ef in Hchild. cbn [bind skipn] in Hchild. injection Hchild as <-.
  destruct (fuse_conv_and_bn_shape _ _ Ef)
    as (E1 & E2 & E3 & E4 & E5 & _ & (bv & Eb & _) & _).
  exists fused. split; [exact Hi'|].
  repeat (split; [assumption|]). split; [rewrite Eb; discriminate | exact Heq].
Qed.
End BlockEquivalence.

Lemma well_shaped_conv3 : well_shaped MoreExamples.conv3 MoreExamples.bn3.
Proof.
  unfold well_shaped, MoreExamples.conv3, MoreExamples.bn3. simpl.
  repeat split; try lia. repeat constructor; lra.
Qed.

Lemma fuse_block3 :
  exists ml', fuse [MoreExamples.block3] = Ok ml'.
Proof. eexists. reflexivity. Qed.

Lemma fuse_conv_bn_block_witness :
  exists ml',
    fuse [MoreExamples.block3] = Ok ml' /\
    nth_error [MoreExamples.block3] 0 =
      Some (MSequential [MConv2d MoreExamples.conv3; MBatchNorm2d MoreExamples.bn3;
                         MActivation LeakyReLU]) /\
    well_shaped MoreExamples.conv3 MoreExamples.bn3 /\
    groups MoreExamples.conv3 = 1%Z /\
    exists fused,
      nth_error ml' 0 = Some (MSequential [MConv2d fused; MActivation LeakyReLU]) /\
      in_channels fused = in_channels MoreExamples.conv3 /\
      out_channels fused = out_channels MoreExamples.conv3 /\
      kernel_size fused = kernel_size MoreExamples.conv3 /\
      stride fused = stride MoreExamples.conv3 /\
      padding fused = padding MoreExamples.conv3 /\ bias fused <> None /\
      forall (x : unit) (o : nat) (pos : unit),
        (o < Z.to_nat (out_channels MoreExamples.conv3))%nat ->
        conv_forward (fun _ _ _ _ _ _ _ _ => [1; 1; 1]) fused x o pos =
        bn_forward MoreExamples.bn3 o
          (conv_forward (fun _ _ _ _ _ _ _ _ => [1; 1; 1]) MoreExamples.conv3 x o pos).
Proof.
  destruct fuse_block3 as (ml' & E). exists ml'.
  split; [exact E|]. split; [reflexivity|].
  split; [exact well_shaped_conv3|]. split; [reflexivity|].
  exact (@fuse_conv_bn_block unit unit (fun _ _ _ _ _ _ _ _ => [1; 1; 1])
           [MoreExamples.block3] ml' 0%nat MoreExamples.conv3 MoreExamples.bn3
           [MActivation LeakyReLU] E eq_refl well_shaped_conv3 eq_refl).
Defined.

Lemma first_bn_act_only (ms : list (module R)) (k : nat) :
  BuilderMore.act_only ms -> first_bn k ms = None.
Proof. intros [->|(a & ->)]; reflexivity. Qed.

(** X22: [Darknet.fuse] keeps the number of nodes, and keeps as it is every
    node that is not an [nn.Sequential] holding a batch-norm layer: routes,
    shortcuts, detection heads, pooling and upsampling nodes, standalone
    batch-norm nodes and convolution blocks without batch normalisation. *)
Theorem fuse_keeps_other_nodes (ml ml' : list (module R)) :
  fuse ml = Ok ml' ->
  length ml' = length ml /\
  forall i a, nth_error ml i = Some a ->
    match a with
    | MSequential ms => first_bn 0 ms = None
    | _ => True
    end ->
    nth_error ml' i = Some a.
Proof.
  intros H. destruct (fuse_nth _ H) as [Hlen Hnth].
  split; [exact Hlen|].
  intros i a Hi Hkind.
  destruct (proj1 (Hnth i) _ Hi) as (a' & Hchild & Hi').
  assert (E : fuse_child a = Ok a).
  { destruct a; try reflexivity. cbn [fuse_child]. rewrite Hkind. reflexivity. }
  rewrite E in Hchild. injection Hchild as <-. exact Hi'.
Qed.

Lemma fuse_keeps_other_nodes_witness :
  exists ml',
    fuse [MoreExamples.block3] = Ok ml' /\
    length ml' = length [MoreExamples.block3] /\
    forall i a, nth_error [MoreExamples.block3] i = Some a ->
      match a with
      | MSequential ms => first_bn 0 ms = None
      | _ => True
      end ->
      nth_error ml' i = Some a.
Proof.
  destruct fuse_block3 as (ml' & E). exists ml'.
  split; [exact E|].
  exact (@fuse_keeps_other_nodes [MoreExamples.block3] ml' E).
Defined.
End FuseMoreFacts.

Section FuseBuiltFacts.
Import Layers Builder BuilderMore Fuse.
Local Open Scope string_scope.
Local Open Scope list_scope.
Local Open Scope Z_scope.

Ltac binv H x Hx :=
  apply bind_ok_inv in H; destruct H as (x & Hx & H).

(** X23: fusing a freshly built model leaves no batch-norm layer inside any
    convolution block: in the fused list every [nn.Sequential] that starts
    with a convolution holds a biased convolution followed by at most one
    activation, and every other node is the node that was built. *)
Theorem fuse_built_model (env : torch_env) (module_define : list dict)
    (model_config : string) (gray : bool)
    (module_list fused_list : list (module R)) (routs_binary : list bool)
    (printed : list string) :
  _create_modules env module_define model_config gray =
    Ok (module_list, routs_binary, printed) ->
  fuse module_list = Ok fused_list ->
  length fused_list = length module_list /\
  forall i a, nth_error fused_list i = Some a ->
    (exists c rest, a = MSequential (MConv2d c :: rest) /\
                    bias c <> None /\ act_only rest) \/
    ((forall c rest, a <> MSequential (MConv2d c :: rest)) /\
     nth_error module_list i = Some a).
Proof.
  unfold _create_modules. intros H Hfuse.
  destruct module_define as [|hd mds]; [discriminate H|].
  binv H r Hloop. destruct r as [ml st]. binv H rb Hrb. injection H as <- _ _.
  destruct (fuse_nth _ Hfuse) as [Hlen Hnth].
  split; [exact Hlen|].
  intros i a' Hi'.
  destruct (proj2 (Hnth i) _ Hi') as (a & Hchild & Hi).
  destruct (@create_loop_nth _ _ _ _ _ _ _ _ Hloop i) as [_ Hbwd].
  destruct (Hbwd _ Hi) as (md & stk & stk1 & _ & Hb). clear Hbwd.
  destruct Hb as
    [ conv b actm bnv st2 Hty Hbnv Htruthy Hbias Hnf Hin Hact Hof Hrouts Hyi Hlog Hfil
    | conv actm bnv st2 Hty Hbnv Htruthy Hbias Hin Hact Hof Hrouts Hyi Hlog Hfil
    | layers st2 Hty Hlayers Hof Hrouts Hyi Hlog
    | f0 st2 Hty Hfrom Hweight Hw Hof Hrouts Hyi Hlog Hfil
    | y ls sd st2 Hty Hsd Hstride Htrain Hgrid Hnx Hny Hof Hrouts Hyi Hlog Hfil
    | m2 ty st2 Hty Tconv Troute Tsc Tyolo Hplain Hof Hrouts Hyi Hlog ].
  - left. cbn [fuse_child first_bn] in Hchild.
    change (Z.of_nat 1 - 1) with 0 in Hchild.
    rewrite py_index_0 in Hchild. cbn [bind] in Hchild.
    binv Hchild fused Hf. cbn [skipn] in Hchild. injection Hchild as <-.
    destruct (fuse_conv_and_bn_shape _ _ Hf)
      as (_ & _ & _ & _ & _ & _ & (bv & Eb & _) & _).
    exists fused, actm. split; [reflexivity|].
    split; [rewrite Eb; discriminate | exact Hact].
  - left. cbn [fuse_child first_bn] in Hchild.
    rewrite (first_bn_act_only 1 Hact) in Hchild. injection Hchild as <-.
    exists conv, actm. split; [reflexivity|].
    split; [rewrite Hbias; discriminate | exact Hact].
  - right. simpl in Hchild. injection Hchild as <-.
    split; [intros c r E; discriminate E | exact Hi].
  - right. simpl in Hchild. injection Hchild as <-.
    split; [intros c r E; discriminate E | exact Hi].
  - right. simpl in Hchild. injection Hchild as <-.
    split; [intros c r E; discriminate E | exact Hi].
  - right.
    assert (E : fuse_child m2 = Ok m2 /\
                forall c r, m2 <> MSequential (MConv2d c :: r)).
    { destruct m2 as [| | | | | | | | | |ms]; simpl in Hplain;
        try discriminate Hplain;
        try (split; [reflexivity | intros c r E; discriminate E]).
      destruct ms as [|[] ms]; try discriminate Hplain;
        try (split; [reflexivity | intros c r E; discriminate E]).
      destruct ms as [|[] ms]; try discriminate Hplain.
      destruct ms; try discriminate Hplain.
      split; [reflexivity | intros c r E; discriminate E]. }
    destruct E as [E Hno]. rewrite E in Hchild. injection Hchild as <-.
    split; [exact Hno | exact Hi].
Qed.

Lemma fuse_built_model_witness :
  exists ml rb printed fl,
    _create_modules BuilderExamples.env0 BuilderExamples.cfg_ungrouped
      "yolov3.cfg" false = Ok (ml, rb, printed) /\
    fuse ml = Ok fl /\
    length fl = length ml /\
    forall i a, nth_error fl i = Some a ->
      (exists c rest, a = MSequential (MConv2d c :: rest) /\
                      bias c <> None /\ act_only rest) \/
      ((forall c rest, a <> MSequential (MConv2d c :: rest)) /\
       nth_error ml i = Some a).
Proof.
  destruct fuse_ungrouped_conv as (conv & bn & act & fused & E1 & E2).
  eexists; eexists; eexists; eexists.
  split; [exact E1|]. split; [exact E2|].
  exact (@fuse_built_model _ _ _ _ _ _ _ _ E1 E2).
Defined.
End FuseBuiltFacts.

(** ** Darknet weight files: saving, then loading *)

Section WeightMoreFacts.
Import Layers Weights WeightsMore.
Local Open Scope string_scope.
Local Open Scope list_scope.

Ltac binv H x Hx :=
  apply bind_ok_inv in H; destruct H as (x & Hx & H).

Lemma In_firstn (A : Type) (x : A) :
  forall (n : nat) (l : list A), In x (firstn n l) -> In x l.
Proof.
  induction n as [|n IH]; intros l H; [contradiction|].
  destruct l as [|a l]; [contradiction|].
  destruct H as [->|H]; [left; reflexivity | right; apply IH; exact H].
Qed.

Lemma f32_app (a b : list scalar) : f32 a -> f32 b -> f32 (a ++ b).
Proof. unfold f32. intros Ha Hb. apply Forall_app. split; assumption. Qed.

(** Reading back [count] items that were written one after the other. *)
Lemma fromfile_concat (size : nat) :
  forall (items : list scalar) (rest : list byte),
    Forall (fun s => length s = size) items ->
    fromfile size (length items) (concat items ++ rest) = (items, rest).
Proof.
  induction items as [|s items IH]; intros rest Hall; [reflexivity|].
  inversion Hall as [|? ? Hs Hall']; subst.
  cbn [length fromfile concat]. rewrite <- app_assoc.
  destruct (Nat.ltb_spec (length (s ++ concat items ++ rest)) (length s)) as [Hlt|_].
  - rewrite length_app in Hlt. lia.
  - rewrite skipn_app, Nat.sub_diag, skipn_all, skipn_O. cbn [app].
    rewrite (IH rest Hall').
    rewrite firstn_app, Nat.sub_diag, firstn_all, firstn_O, app_nil_r. reflexivity.
Qed.

Lemma fromfile_exact (size count : nat) (items : list scalar) (rest : list byte) :
  length items = count -> Forall (fun s => length s = size) items ->
  fromfile size count (concat items ++ rest) = (items, rest).
Proof. intros <- H. apply fromfile_concat. exact H. Qed.

(** Reading every item of a file that holds complete items only. *)
Lemma fromfile_all_concat (size : nat) (items : list scalar) :
  (0 < size)%nat -> Forall (fun s => length s = size) items ->
  fromfile_all size (concat items) = items.
Proof.
  intros Hsize Hall. unfold fromfile_all.
  assert (G : forall (its : list scalar) (count : nat),
             Forall (fun s => length s = size) its ->
             (length its <= count)%nat ->
             fromfile size count (concat its) = (its, [])).
  { induction its as [|s its IH]; intros count Hits Hc.
    - destruct count as [|count]; [reflexivity|]. cbn [fromfile concat length].
      destruct (Nat.ltb_spec 0 size); [reflexivity | lia].
    - inversion Hits as [|? ? Hs Hits']; subst.
      destruct count as [|count]; [simpl in Hc; lia|].
      cbn [fromfile concat].
      destruct (Nat.ltb_spec (length (s ++ concat its)) (length s)) as [Hlt|_].
      + rewrite length_app in Hlt. lia.
      + rewrite skipn_app, Nat.sub_diag, skipn_all, skipn_O. cbn [app].
        rewrite (IH count Hits') by (simpl in Hc; lia).
        rewrite firstn_app, Nat.sub_diag, firstn_all, firstn_O, app_nil_r.
        reflexivity. }
  rewrite (G items (length (concat items)) Hall); [reflexivity|].
  rewrite (length_concat_uniform Hall). unfold scalar in *.
  destruct size as [|size]; [lia|]. rewrite Nat.mul_succ_r. lia.
Qed.

Lemma take_middle (pre s post : list scalar) :
  take (pre ++ s ++ post) (length pre) (length s) = Ok s.
Proof.
  unfold take. rewrite skipn_app, Nat.sub_diag, skipn_all, skipn_O. cbn [app].
  rewrite firstn_app, Nat.sub_diag, firstn_all, firstn_O, app_nil_r.
  rewrite Nat.eqb_refl. reflexivity.
Qed.

Lemma take_at (w pre s post : list scalar) (ptr n : nat) :
  w = pre ++ s ++ post -> ptr = length pre -> n = length s -> take w ptr n = Ok s.
Proof. intros -> -> ->. apply take_middle. Qed.

Lemma conv_eta (c : Conv2d scalar) :
  {| in_channels := in_channels c; out_channels := out_channels c;
     kernel_size := kernel_size c; stride := stride c; padding := padding c;
     groups := groups c; weight := weight c; bias := bias c |} = c.
Proof. destruct c; reflexivity. Qed.

Lemma bn_eta (b : BatchNorm2d scalar) :
  {| num_features := num_features b; eps := eps b; momentum := momentum b;
     bn_weight := bn_weight b; bn_bias := bn_bias b;
     running_mean := running_mean b; running_var := running_var b |} = b.
Proof. destruct b; reflexivity. Qed.

(** What one layer writes is a run of float32 items, and reading the run
    back into the layer, wherever it lies in the file, gives the layer. *)
Lemma save_layer_load (md : dict) (m : module scalar) (out : list byte) :
  save_layer md m = Ok out -> layer_f32 m ->
  exists items,
    out = concat items /\ f32 items /\
    forall pre post,
      load_layer (pre ++ items ++ post) (length pre) md m =
        Ok (m, (length pre + length items)%nat).
Proof.
  unfold save_layer, load_layer. intros H Hf.
  binv H ty Hty. rewrite Hty. cbn [bind].
  destruct (is_str ty "convolutional").
  2:{ injection H as <-. exists []. split; [reflexivity|]. split; [constructor|].
      intros pre post. rewrite Nat.add_0_r. reflexivity. }
  binv H m0 Hm0. binv H bnv Hbnv. binv H has_bn Hhas.
  rewrite Hm0. cbn [bind]. rewrite Hbnv. cbn [bind]. rewrite Hhas. cbn [bind].
  binv H hdr Hhead. binv H conv Hconv. injection H as <-.
  destruct m as [| | | | | | | | | |ms]; try discriminate Hm0.
  simpl in Hm0. apply py_index_0_inv in Hm0. destruct Hm0 as (ms0 & ->).
  destruct m0 as [c0| | | | | | | | | |]; try discriminate Hconv.
  injection Hconv as ->.
  destruct has_bn.
  - binv Hhead m1 Hm1. binv Hhead bn Hbn. injection Hhead as <-.
    simpl in Hm1. apply py_index_1_inv in Hm1. destruct Hm1 as (a0 & ms1 & E0).
    injection E0 as <- ->.
    destruct m1 as [|b1| | | | | | | | |]; try discriminate Hbn.
    injection Hbn as ->.
    cbn [layer_f32] in Hf.
    destruct Hf as (Fw & _ & Fb & Fg & Frm & Frv & Lg & Lrm & Lrv).
    exists (bn_bias bn ++ bn_weight bn ++ running_mean bn ++ running_var bn ++
            weight conv).
    split; [unfold tofile; rewrite !concat_app, <- !app_assoc; reflexivity|].
    split; [repeat apply f32_app; assumption|].
    intros pre post. unfold subscript. rewrite py_index_1. cbn [bind as_bn as_conv].
    set (nb := length (bn_bias bn)).
    rewrite (@take_at _ pre (bn_bias bn)
               (bn_weight bn ++ running_mean bn ++ running_var bn ++ weight conv ++ post)
               (length pre) nb)
      by (rewrite <- ?app_assoc; reflexivity).
    cbn [bind]. rewrite Lg, Nat.eqb_refl. simpl negb. cbv iota.
    rewrite (@take_at _ (pre ++ bn_bias bn) (bn_weight bn)
               (running_mean bn ++ running_var bn ++ weight conv ++ post)
               (length pre + nb) nb)
      by (unfold nb; rewrite ?length_app, <- ?app_assoc; auto).
    cbn [bind]. rewrite Lrm, Nat.eqb_refl. simpl negb. cbv iota.
    rewrite (@take_at _ (pre ++ bn_bias bn ++ bn_weight bn) (running_mean bn)
               (running_var bn ++ weight conv ++ post)
               (length pre + nb + nb) nb)
      by (unfold nb; rewrite ?length_app, <- ?app_assoc; auto; lia).
    cbn [bind]. rewrite Lrv, Nat.eqb_refl. simpl negb. cbv iota.
    rewrite (@take_at _ (pre ++ bn_bias bn ++ bn_weight bn ++ running_mean bn)
               (running_var bn) (weight conv ++ post)
               (length pre + nb + nb + nb) nb)
      by (unfold nb; rewrite ?length_app, <- ?app_assoc; auto; lia).
    cbn [bind].
    rewrite (@take_at _
               (pre ++ bn_bias bn ++ bn_weight bn ++ running_mean bn ++ running_var bn)
               (weight conv) post
               (length pre + nb + nb + nb + nb) (length (weight conv)))
      by (unfold nb; rewrite ?length_app, <- ?app_assoc; auto; lia).
    cbn [bind skipn]. rewrite conv_eta, bn_eta.
    do 2 f_equal. unfold nb. rewrite !length_app. unfold scalar in *. lia.
  - binv Hhead cv Hcv. injection Hcv as <-.
    destruct (bias conv) as [old|] eqn:Eold; [|discriminate Hhead].
    injection Hhead as <-.
    cbn [layer_f32] in Hf. rewrite Eold in Hf. destruct Hf as (Fw & Fb & _).
    exists (old ++ weight conv).
    split; [unfold tofile; rewrite concat_app; reflexivity|].
    split; [apply f32_app; assumption|].
    intros pre post. cbn [as_conv bind]. rewrite Eold.
    rewrite (@take_at _ pre old (weight conv ++ post) (length pre) (length old))
      by (rewrite <- ?app_assoc; reflexivity).
    cbn [bind weight].
    rewrite (@take_at _ (pre ++ old) (weight conv) post
               (length pre + length old) (length (weight conv)))
      by (rewrite ?length_app, <- ?app_assoc; reflexivity).
    cbn [bind skipn in_channels out_channels kernel_size stride padding groups bias].
    rewrite <- Eold, conv_eta. do 2 f_equal. rewrite length_app.
    unfold scalar in *. lia.
Qed.

Lemma save_loop_load (mds : list dict) :
  forall (ms : list (module scalar)) (out : list byte),
    save_loop mds ms = Ok out -> Forall layer_f32 ms ->
    exists items,
      out = concat items /\ f32 items /\
      forall pre post,
        load_loop (pre ++ items ++ post) (length pre) mds ms =
          Ok (firstn (length mds) ms, (length pre + length items)%nat).
Proof.
  induction mds as [|md mds IH]; intros ms out H Hf.
  - simpl in H. injection H as <-. exists []. split; [reflexivity|].
    split; [constructor|]. intros pre post. simpl. rewrite Nat.add_0_r.
    reflexivity.
  - destruct ms as [|m ms].
    + simpl in H. injection H as <-. exists []. split; [reflexivity|].
      split; [constructor|]. intros pre post. simpl. rewrite Nat.add_0_r.
      reflexivity.
    + cbn [save_loop] in H. binv H a Ha. binv H b Hb. injection H as <-.
      inversion Hf as [|? ? Hm Hms]; subst.
      destruct (@save_layer_load _ _ _ Ha Hm) as (i1 & -> & F1 & L1).
      destruct (IH _ _ Hb Hms) as (i2 & -> & F2 & L2).
      exists (i1 ++ i2). split; [rewrite concat_app; reflexivity|].
      split; [apply f32_app; assumption|].
      intros pre post. cbn [load_loop].
      rewrite <- app_assoc. rewrite (L1 pre (i2 ++ post)). cbn [bind snd fst].
      specialize (L2 (pre ++ i1) post).
      rewrite length_app, <- app_assoc in L2. rewrite L2. cbn [bind fst snd firstn].
      do 2 f_equal. rewrite length_app. lia.
Qed.

Lemma skeleton_seq_inv (F : Type) (x : module F) (l : list (module unit)) :
  skeleton x = MSequential l ->
  exists ms, x = MSequential ms /\ map skeleton ms = l.
Proof.
  unfold skeleton. destruct x; simpl; intros H; try discriminate H.
  injection H as <-. eexists. split; reflexivity.
Qed.

Lemma skeleton_conv_inv (F : Type) (x : module F) (c : Conv2d unit) :
  skeleton x = MConv2d c ->
  exists cs, x = MConv2d cs /\ conv_map (fun _ => tt) cs = c.
Proof.
  unfold skeleton. destruct x; simpl; intros H; try discriminate H.
  injection H as <-. eexists. split; reflexivity.
Qed.

Lemma skeleton_bn_inv (F : Type) (x : module F) (b : BatchNorm2d unit) :
  skeleton x = MBatchNorm2d b -> exists bs, x = MBatchNorm2d bs.
Proof.
  unfold skeleton. destruct x; simpl; intros H; try discriminate H.
  eexists. reflexivity.
Qed.

Lemma map_tt_eq_length (A B : Type) (l : list A) (l' : list B) :
  map (fun _ : A => tt) l = map (fun _ : B => tt) l' -> length l = length l'.
Proof.
  intros H. apply (f_equal (@length unit)) in H. rewrite !length_map in H.
  exact H.
Qed.

(** Two normalization layers of one shape. *)
Lemma bn_shape_eq (b0 b : BatchNorm2d scalar) :
  bn_map (fun _ => tt) b0 = bn_map (fun _ => tt) b ->
  num_features b0 = num_features b /\ eps b0 = eps b /\
  momentum b0 = momentum b /\
  length (bn_weight b0) = length (bn_weight b) /\
  length (bn_bias b0) = length (bn_bias b) /\
  length (running_mean b0) = length (running_mean b) /\
  length (running_var b0) = length (running_var b).
Proof.
  intros H.
  pose proof (f_equal (@num_features unit) H) as H1.
  pose proof (f_equal (@eps unit) H) as H2.
  pose proof (f_equal (@momentum unit) H) as H3.
  pose proof (f_equal (@bn_weight unit) H) as H4.
  pose proof (f_equal (@bn_bias unit) H) as H5.
  pose proof (f_equal (@running_mean unit) H) as H6.
  pose proof (f_equal (@running_var unit) H) as H7.
  cbn in H1, H2, H3, H4, H5, H6, H7.
  repeat split; try assumption; apply map_tt_eq_length; assumption.
Qed.

(** Two convolutions of one shape. *)
Lemma conv_shape_eq (c0 c : Conv2d scalar) :
  conv_map (fun _ => tt) c0 = conv_map (fun _ => tt) c ->
  in_channels c0 = in_channels c /\ out_channels c0 = out_channels c /\
  kernel_size c0 = kernel_size c /\ stride c0 = stride c /\
  padding c0 = padding c /\ groups c0 = groups c /\
  length (weight c0) = length (weight c) /\
  (forall b, bias c = Some b ->
     exists b0, bias c0 = Some b0 /\ length b0 = length b).
Proof.
  intros H.
  pose proof (f_equal (@in_channels unit) H) as H1.
  pose proof (f_equal (@out_channels unit) H) as H2.
  pose proof (f_equal (@kernel_size unit) H) as H3.
  pose proof (f_equal (@stride unit) H) as H4.
  pose proof (f_equal (@padding unit) H) as H5.
  pose proof (f_equal (@groups unit) H) as H6.
  pose proof (f_equal (@weight unit) H) as H7.
  pose proof (f_equal (@bias unit) H) as H8.
  cbn in H1, H2, H3, H4, H5, H6, H7, H8.
  repeat split; try assumption; [apply map_tt_eq_length; assumption|].
  intros b Eb. rewrite Eb in H8. destruct (bias c0) as [b0|]; [|discriminate H8].
  exists b0. split; [reflexivity|]. cbn in H8. injection H8 as H8.
  apply map_tt_eq_length. exact H8.
Qed.

(** What one layer writes, read into any layer of the same shape, wherever
    the run lies in the file: the layer read holds the tensors of the layer
    that was written. *)
Lemma save_layer_load_into (md : dict) (m m0 : module scalar) (out : list byte) :
  save_layer md m = Ok out -> layer_f32 m -> skeleton m0 = skeleton m ->
  exists items m',
    out = concat items /\ f32 items /\
    stored_tensors md m' = stored_tensors md m /\
    forall pre post,
      load_layer (pre ++ items ++ post) (length pre) md m0 =
        Ok (m', (length pre + length items)%nat).
Proof.
  unfold save_layer, load_layer, stored_tensors. intros H Hf Hsk.
  binv H ty Hty. rewrite Hty. cbn [bind].
  destruct (is_str ty "convolutional").
  2:{ injection H as <-. exists [], m0. split; [reflexivity|].
      split; [constructor|]. split; [reflexivity|].
      intros pre post. rewrite Nat.add_0_r. reflexivity. }
  binv H mc Hmc. binv H bnv Hbnv. binv H has_bn Hhas.
  rewrite Hbnv. cbn [bind]. rewrite Hhas.
  binv H hdr Hhead. binv H conv Hconv. injection H as <-.
  destruct m as [| | | | | | | | | |ms]; try discriminate Hmc.
  simpl in Hmc. apply py_index_0_inv in Hmc. destruct Hmc as (ms0 & ->).
  destruct mc as [cv| | | | | | | | | |]; try discriminate Hconv.
  injection Hconv as ->.
  unfold skeleton in Hsk. cbn [module_map map] in Hsk.
  apply skeleton_seq_inv in Hsk. destruct Hsk as (l0 & -> & Hl0).
  destruct l0 as [|x0 l0]; [discriminate Hl0|].
  cbn [map] in Hl0. injection Hl0 as Hx0 Hl0.
  apply skeleton_conv_inv in Hx0. destruct Hx0 as (c0 & -> & Hc0).
  destruct (conv_shape_eq Hc0) as (G1 & G2 & G3 & G4 & G5 & G6 & Gw & Gb).
  cbn [subscript]. rewrite py_index_0. cbn [bind].
  destruct has_bn.
  - binv Hhead m1 Hm1. binv Hhead bn Hbn. injection Hhead as <-.
    simpl in Hm1. apply py_index_1_inv in Hm1. destruct Hm1 as (a0 & ms1 & E0).
    injection E0 as <- ->.
    destruct m1 as [|b1| | | | | | | | |]; try discriminate Hbn.
    injection Hbn as ->.
    destruct l0 as [|x1 l0]; [discriminate Hl0|].
    cbn [map module_map] in Hl0. injection Hl0 as Hx1 Hl0.
    destruct x1 as [|b0| | | | | | | | |]; try discriminate Hx1.
    assert (Hb0 : bn_map (fun _ => tt) b0 = bn_map (fun _ => tt) bn)
      by (unfold skeleton in Hx1; cbn [module_map] in Hx1; congruence).
    destruct (bn_shape_eq Hb0) as (N1 & N2 & N3 & Ng & Nb & Nrm & Nrv).
    cbn [layer_f32] in Hf.
    destruct Hf as (Fw & _ & Fb & Fg & Frm & Frv & Lg & Lrm & Lrv).
    exists (bn_bias bn ++ bn_weight bn ++ running_mean bn ++ running_var bn ++
            weight conv).
    eexists.
    split; [unfold tofile; rewrite !concat_app, <- !app_assoc; reflexivity|].
    split; [repeat apply f32_app; assumption|].
    split; [|
    intros pre post; rewrite py_index_1; cbn [bind as_bn as_conv];
    rewrite Ng, Nb, Nrm, Nrv;
    set (nb := length (bn_bias bn));
    rewrite (@take_at _ pre (bn_bias bn)
               (bn_weight bn ++ running_mean bn ++ running_var bn ++ weight conv ++ post)
               (length pre) nb)
      by (rewrite <- ?app_assoc; reflexivity);
    cbn [bind]; rewrite Lg, Nat.eqb_refl; simpl negb; cbv iota;
    rewrite (@take_at _ (pre ++ bn_bias bn) (bn_weight bn)
               (running_mean bn ++ running_var bn ++ weight conv ++ post)
               (length pre + nb) nb)
      by (unfold nb; rewrite ?length_app, <- ?app_assoc; auto);
    cbn [bind]; rewrite Lrm, Nat.eqb_refl; simpl negb; cbv iota;
    rewrite (@take_at _ (pre ++ bn_bias bn ++ bn_weight bn) (running_mean bn)
               (running_var bn ++ weight conv ++ post)
               (length pre + nb + nb) nb)
      by (unfold nb; rewrite ?length_app, <- ?app_assoc; auto; lia);
    cbn [bind]; rewrite Lrv, Nat.eqb_refl; simpl negb; cbv iota;
    rewrite (@take_at _ (pre ++ bn_bias bn ++ bn_weight bn ++ running_mean bn)
               (running_var bn) (weight conv ++ post)
               (length pre + nb + nb + nb) nb)
      by (unfold nb; rewrite ?length_app, <- ?app_assoc; auto; lia);
    cbn [bind]; rewrite Gw;
    rewrite (@take_at _
               (pre ++ bn_bias bn ++ bn_weight bn ++ running_mean bn ++ running_var bn)
               (weight conv) post
               (length pre + nb + nb + nb + nb) (length (weight conv)))
      by (unfold nb; rewrite ?length_app, <- ?app_assoc; auto; lia);
    cbn [bind skipn];
    f_equal; f_equal; try reflexivity;
    unfold nb; rewrite !length_app; unfold scalar in *; lia].
    cbn [bind bn_bias bn_weight running_mean running_var weight]. reflexivity.
  - binv Hhead cv Hcv. injection Hcv as <-.
    destruct (bias conv) as [old|] eqn:Eold; [|discriminate Hhead].
    injection Hhead as <-.
    destruct (Gb old eq_refl) as (old0 & Eold0 & Lold0).
    cbn [layer_f32] in Hf. rewrite Eold in Hf. destruct Hf as (Fw & Fb & _).
    exists (old ++ weight conv). eexists.
    split; [unfold tofile; rewrite concat_app; reflexivity|].
    split; [apply f32_app; assumption|].
    split; [|
    intros pre post; cbn [as_conv bind]; rewrite Eold0, Lold0;
    rewrite (@take_at _ pre old (weight conv ++ post) (length pre) (length old))
      by (rewrite <- ?app_assoc; reflexivity);
    cbn [bind weight]; rewrite Gw;
    rewrite (@take_at _ (pre ++ old) (weight conv) post
               (length pre + length old) (length (weight conv)))
      by (rewrite ?length_app, <- ?app_assoc; reflexivity);
    cbn [bind skipn in_channels out_channels kernel_size stride padding groups bias];
    f_equal; f_equal; try reflexivity;
    rewrite length_app; unfold scalar in *; lia].
    cbn [bind bias weight]. reflexivity.
Qed.

Lemma darknet_eta (self : Darknet) :
  {| module_define := module_define self; module_list := module_list self;
     version := version self; seen := seen self |} = self.
Proof. destruct self; reflexivity. Qed.

(** What [save_darknet_weights] writes for a model, loaded again into
    that model, gives the very same model. *)
Lemma save_load_same (self : Darknet) (path weights : string)
    (cutoff : Z) (out : list byte) :
  header_ok self ->
  Forall layer_f32 (module_list self) ->
  load_cutoff weights cutoff = cutoff ->
  save_darknet_weights self path cutoff = Ok out ->
  load_darknet_weights self weights out cutoff = Ok self.
Proof.
  intros (Hv3 & Hv & Hs1 & Hs) Hf Hc H.
  unfold save_darknet_weights in H. binv H payload Hp. injection H as <-.
  assert (Hf' : Forall layer_f32 (py_slice_to (module_list self) cutoff)).
  { destruct (py_slice_to_firstn (module_list self) cutoff) as (n & -> & _).
    apply Forall_forall. intros x Hx. rewrite Forall_forall in Hf.
    apply Hf. exact (In_firstn _ _ _ Hx). }
  destruct (@save_loop_load _ _ _ Hp Hf') as (items & -> & Fi & Hload).
  unfold load_darknet_weights. rewrite Hc. unfold tofile.
  rewrite (@fromfile_exact 4 3 (version self) _ Hv3 Hv).
  rewrite (@fromfile_exact 8 1 (seen self) _ Hs1 Hs).
  rewrite (@fromfile_all_concat 4 items ltac:(lia) Fi).
  specialize (Hload [] []). cbn [app length Nat.add] in Hload.
  rewrite app_nil_r in Hload. rewrite Hload. cbn [bind fst].
  assert (E : firstn (length (py_slice_to (module_define self) cutoff))
                (py_slice_to (module_list self) cutoff) ++
              skipn (length (firstn (length (py_slice_to (module_define self) cutoff))
                               (py_slice_to (module_list self) cutoff)))
                (module_list self) = module_list self).
  { destruct (py_slice_to_firstn (module_list self) cutoff) as (n & -> & _).
    rewrite firstn_firstn.
    set (k := Nat.min (length (py_slice_to (module_define self) cutoff)) n).
    rewrite length_firstn.
    destruct (Nat.le_gt_cases k (length (module_list self))) as [Hle|Hgt].
    - rewrite Nat.min_l by exact Hle. apply firstn_skipn.
    - rewrite Nat.min_r by lia. rewrite firstn_all2 by lia.
      rewrite skipn_all. apply app_nil_r. }
  rewrite E, darknet_eta. reflexivity.
Qed.

Lemma nodes_tensors_app (mds : list dict) :
  forall l1 l2 : list (module scalar),
    (length mds <= length l1)%nat ->
    nodes_tensors mds (l1 ++ l2) = nodes_tensors mds l1.
Proof.
  induction mds as [|md mds IH]; intros l1 l2 H; [reflexivity|].
  destruct l1 as [|m l1]; [simpl in H; lia|].
  cbn [app nodes_tensors]. rewrite IH by (simpl in H; lia). reflexivity.
Qed.

(** What the loop of [save_darknet_weights] writes, read by the loop of
    [load_darknet_weights] into nodes of the same shapes. *)
Lemma save_loop_load_into (mds : list dict) :
  forall (ms ms0 : list (module scalar)) (out : list byte),
    save_loop mds ms = Ok out -> Forall layer_f32 ms ->
    map skeleton ms0 = map skeleton ms ->
    exists items loaded,
      out = concat items /\ f32 items /\
      nodes_tensors mds loaded = nodes_tensors mds ms /\
      forall pre post,
        load_loop (pre ++ items ++ post) (length pre) mds ms0 =
          Ok (loaded, (length pre + length items)%nat).
Proof.
  induction mds as [|md mds IH]; intros ms ms0 out H Hf Hsk.
  - simpl in H. injection H as <-. exists [], []. split; [reflexivity|].
    split; [constructor|]. split; [reflexivity|].
    intros pre post. simpl. rewrite Nat.add_0_r. reflexivity.
  - destruct ms as [|m ms].
    + destruct ms0 as [|m0 ms0]; [|discriminate Hsk].
      simpl in H. injection H as <-. exists [], []. split; [reflexivity|].
      split; [constructor|]. split; [reflexivity|].
      intros pre post. simpl. rewrite Nat.add_0_r. reflexivity.
    + destruct ms0 as [|m0 ms0]; [discriminate Hsk|].
      cbn [map] in Hsk. injection Hsk as Hs1 Hs2.
      cbn [save_loop] in H. binv H a Ha. binv H b Hb. injection H as <-.
      inversion Hf as [|? ? Hm Hms]; subst.
      destruct (@save_layer_load_into _ _ _ _ Ha Hm Hs1)
        as (i1 & m' & -> & F1 & T1 & L1).
      destruct (IH _ _ _ Hb Hms Hs2) as (i2 & loaded & -> & F2 & T2 & L2).
      exists (i1 ++ i2), (m' :: loaded).
      split; [rewrite concat_app; reflexivity|].
      split; [apply f32_app; assumption|].
      split; [cbn [nodes_tensors]; rewrite T1, T2; reflexivity|].
      intros pre post. cbn [load_loop].
      rewrite <- app_assoc. rewrite (L1 pre (i2 ++ post)). cbn [bind snd fst].
      specialize (L2 (pre ++ i1) post).
      rewrite length_app, <- app_assoc in L2. rewrite L2. cbn [bind fst snd].
      do 2 f_equal. rewrite length_app. lia.
Qed.

(** The nodes before the cutoff of a model whose first nodes were
    replaced by the loaded ones. *)
Lemma reslice (A : Type) (k n : nat) (loaded ml : list A) :
  length loaded = Nat.min k (length (firstn n ml)) ->
  firstn n (loaded ++ skipn (length loaded) ml) = loaded \/
  exists l2, firstn n (loaded ++ skipn (length loaded) ml) = loaded ++ l2 /\
             (k <= length loaded)%nat.
Proof.
  intros Hlen. rewrite firstn_app.
  rewrite (firstn_all2 loaded) by (rewrite Hlen, length_firstn; lia).
  destruct (Nat.le_gt_cases k (length loaded)) as [Hle|Hgt].
  - right. eexists. split; [reflexivity | exact Hle].
  - left. rewrite length_firstn in Hlen.
    assert (Hcase : length loaded = n \/ length loaded = length ml) by lia.
    destruct Hcase as [E|E].
    + rewrite E, Nat.sub_diag, firstn_O, app_nil_r. reflexivity.
    + rewrite E, skipn_all, firstn_nil, app_nil_r. reflexivity.
Qed.

(** X24: the converse round trip.  A model whose header holds three int32
    and one int64 and whose parameters are float32 tensors is saved; the
    file is loaded into any model of the same configuration blocks and the
    same node shapes, whatever its parameters, with the cutoff of the save
    (under a file name that forces no other cutoff).  Loading raises
    nothing; the model it gives has the saved version and count of images,
    holds in every node before the cutoff the very tensors of the saved
    model that a weight file stores, and saved in its turn writes the same
    file byte for byte.  Loaded into the model that was saved, the file
    gives that model back. *)
Theorem save_load_roundtrip (self other : Darknet) (path weights : string)
    (cutoff : Z) (out : list byte) :
  header_ok self ->
  Forall layer_f32 (module_list self) ->
  module_define other = module_define self ->
  map skeleton (module_list other) = map skeleton (module_list self) ->
  load_cutoff weights cutoff = cutoff ->
  save_darknet_weights self path cutoff = Ok out ->
  exists other',
    load_darknet_weights other weights out cutoff = Ok other' /\
    version other' = version self /\ seen other' = seen self /\
    nodes_tensors (py_slice_to (module_define self) cutoff)
                  (py_slice_to (module_list other') cutoff) =
      nodes_tensors (py_slice_to (module_define self) cutoff)
                    (py_slice_to (module_list self) cutoff) /\
    save_darknet_weights other' path cutoff = Ok out /\
    (other = self -> other' = self).
Proof.
  intros Hh Hf Hmd Hsk Hc H.
  pose proof (@save_load_same self path weights cutoff out Hh Hf Hc H) as Hsame.
  destruct Hh as (Hv3 & Hv & Hs1 & Hs).
  unfold save_darknet_weights in H. binv H payload Hp. injection H as <-.
  assert (Hlen0 : length (module_list other) = length (module_list self)).
  { apply (f_equal (@length _)) in Hsk. rewrite !length_map in Hsk. exact Hsk. }
  destruct (py_slice_to_firstn (module_list self) cutoff) as (n & En & Eother).
  assert (En0 : py_slice_to (module_list other) cutoff =
                firstn n (module_list other)) by (apply Eother; exact Hlen0).
  assert (Hf' : Forall layer_f32 (py_slice_to (module_list self) cutoff)).
  { rewrite En. apply Forall_forall. intros x Hx. rewrite Forall_forall in Hf.
    apply Hf. exact (In_firstn _ _ _ Hx). }
  assert (Hsk' : map skeleton (py_slice_to (module_list other) cutoff) =
                 map skeleton (py_slice_to (module_list self) cutoff)).
  { rewrite En, En0, <- !firstn_map, Hsk. reflexivity. }
  destruct (@save_loop_load_into _ _ _ _ Hp Hf' Hsk')
    as (items & loaded & -> & Fi & Ht & Hload).
  specialize (Hload [] []). cbn [app length Nat.add] in Hload.
  rewrite app_nil_r in Hload.
  destruct (@load_loop_save _ _ _ _ _ _ Hload (Nat.le_0_l _))
    as (_ & _ & Hlen & Hsave).
  rewrite Nat.sub_0_r, skipn_O, firstn_all in Hsave.
  unfold load_darknet_weights. rewrite Hc, Hmd. unfold tofile.
  rewrite (@fromfile_exact 4 3 (version self) _ Hv3 Hv).
  rewrite (@fromfile_exact 8 1 (seen self) _ Hs1 Hs).
  rewrite (@fromfile_all_concat 4 items ltac:(lia) Fi).
  rewrite Hload. cbn [bind fst].
  eexists. split; [reflexivity|].
  cbn [version seen module_list module_define].
  split; [reflexivity|]. split; [reflexivity|].
  set (mds := py_slice_to (module_define self) cutoff) in *.
  rewrite En0 in Hlen.
  assert (Eslice : py_slice_to (loaded ++ skipn (length loaded) (module_list other))
                     cutoff =
                   firstn n (loaded ++ skipn (length loaded) (module_list other))).
  { apply Eother. rewrite length_app, length_skipn.
    rewrite length_firstn in Hlen. lia. }
  pose proof (reslice (length mds) n loaded (module_list other) Hlen) as Ecase.
  split; [|split].
  - rewrite Eslice. destruct Ecase as [->|(l2 & -> & Hle)]; [exact Ht|].
    rewrite nodes_tensors_app by exact Hle. exact Ht.
  - unfold save_darknet_weights. cbn [version seen module_list module_define].
    fold mds. rewrite Eslice.
    assert (Eload : save_loop mds
              (firstn n (loaded ++ skipn (length loaded) (module_list other))) =
            save_loop mds loaded).
    { destruct Ecase as [->|(l2 & -> & Hle)]; [reflexivity|].
      apply save_loop_app. exact Hle. }
    rewrite Eload, Hsave. reflexivity.
  - intros ->. unfold load_darknet_weights in Hsame. rewrite Hc in Hsame.
    unfold tofile in Hsame.
    rewrite (@fromfile_exact 4 3 (version self) _ Hv3 Hv) in Hsame.
    rewrite (@fromfile_exact 8 1 (seen self) _ Hs1 Hs) in Hsame.
    rewrite (@fromfile_all_concat 4 items ltac:(lia) Fi) in Hsame.
    fold mds in Hsame. rewrite Hload in Hsame. cbn [bind fst] in Hsame.
    injection Hsame as E. exact E.
Qed.

Lemma header_ok_net2 : header_ok WeightExamples.net2.
Proof.
  unfold header_ok, WeightExamples.net2. simpl.
  repeat split; repeat constructor.
Qed.

Lemma layer_f32_net2 : Forall layer_f32 (module_list WeightExamples.net2).
Proof.
  unfold WeightExamples.net2, WeightExamples.conv1, layer_f32, f32. simpl.
  repeat constructor.
Qed.

Lemma save_net2 :
  exists out, save_darknet_weights WeightExamples.net2 "copy.weights" 2 = Ok out.
Proof. eexists. vm_compute. reflexivity. Qed.

Lemma save_load_roundtrip_witness :
  exists out other',
    header_ok WeightExamples.net2 /\
    Forall layer_f32 (module_list WeightExamples.net2) /\
    load_cutoff "copy.weights" 2 = 2%Z /\
    save_darknet_weights WeightExamples.net2 "copy.weights" 2 = Ok out /\
    load_darknet_weights RestoreExamples.net2_other "copy.weights" out 2 =
      Ok other' /\
    version other' = version WeightExamples.net2 /\
    seen other' = seen WeightExamples.net2 /\
    nodes_tensors (py_slice_to (module_define WeightExamples.net2) 2)
                  (py_slice_to (module_list other') 2) =
      nodes_tensors (py_slice_to (module_define WeightExamples.net2) 2)
                    (py_slice_to (module_list WeightExamples.net2) 2) /\
    save_darknet_weights other' "copy.weights" 2 = Ok out /\
    (RestoreExamples.net2_other = WeightExamples.net2 ->
     other' = WeightExamples.net2).
Proof.
  destruct save_net2 as (out & E). exists out.
  assert (Hc : load_cutoff "copy.weights" 2 = 2%Z) by (vm_compute; reflexivity).
  destruct (@save_load_roundtrip WeightExamples.net2 RestoreExamples.net2_other
              "copy.weights" "copy.weights" 2%Z out header_ok_net2
              layer_f32_net2 eq_refl eq_refl Hc E) as (other' & H).
  exists other'.
  split; [exact header_ok_net2|]. split; [exact layer_f32_net2|].
  split; [exact Hc|]. split; [exact E|]. exact H.
Defined.

(** The file of [net2] loaded into a model of other parameters: the
    parameters, the version and the count of images are those of [net2];
    the model is [net2]. *)
Example load_into_other :
  forall out,
    save_darknet_weights WeightExamples.net2 "copy.weights" 2 = Ok out ->
    RestoreExamples.net2_other <> WeightExamples.net2 /\
    load_darknet_weights RestoreExamples.net2_other "copy.weights" out 2 =
      Ok WeightExamples.net2.
Proof.
  intros out H. vm_compute in H. injection H as <-.
  split; [intros E; discriminate E|]. vm_compute. reflexivity.
Qed.

(** *** What loading leaves as it was *)

Lemma map_tt_length (A B : Type) (l : list A) (l' : list B) :
  length l = length l' ->
  map (fun _ : A => tt) l = map (fun _ : B => tt) l'.
Proof.
  revert l'. induction l as [|a l IH]; intros [|b l'] H; try discriminate H.
  - reflexivity.
  - simpl. f_equal. apply IH. simpl in H. lia.
Qed.

Lemma load_layer_frame (w : list scalar) (ptr ptr' : nat) (md : dict)
    (m m' : module scalar) :
  load_layer w ptr md m = Ok (m', ptr') ->
  skeleton m' = skeleton m /\
  (forall ty, getitem md (KStr "type") = Ok ty ->
              is_str ty "convolutional" = false -> m' = m).
Proof.
  intros H. unfold load_layer in H.
  binv H ty Hty.
  destruct (is_str ty "convolutional") eqn:Tconv.
  2:{ injection H as <- <-. split; [reflexivity|]. intros; reflexivity. }
  split.
  2:{ intros ty' Hty' T'. rewrite Hty in Hty'. injection Hty' as <-.
      rewrite Tconv in T'. discriminate T'. }
  binv H m0 Hm0. binv H bnv Hbnv. binv H has_bn Hhas.
  binv H r Hr. destruct r as [[conv bn'] p1]. binv H wt Hwt.
  destruct m as [| | | | | | | | | |ms]; try discriminate H.
  injection H as <- <-.
  destruct (take_inv _ _ _ Hwt) as (_ & Lwt & _).
  simpl in Hm0. apply py_index_0_inv in Hm0. destruct Hm0 as (ms0 & ->).
  destruct has_bn.
  - binv Hr m1 Hm1. binv Hr bn Hbn. binv Hr b Hb.
    destruct (Nat.eqb_spec (length (bn_weight bn)) (length (bn_bias bn))) as [E1|];
      [|discriminate Hr]. simpl negb in Hr. cbv iota in Hr.
    binv Hr g Hg.
    destruct (Nat.eqb_spec (length (running_mean bn)) (length (bn_bias bn))) as [E2|];
      [|discriminate Hr]. simpl negb in Hr. cbv iota in Hr.
    binv Hr rm Hrm.
    destruct (Nat.eqb_spec (length (running_var bn)) (length (bn_bias bn))) as [E3|];
      [|discriminate Hr]. simpl negb in Hr. cbv iota in Hr.
    binv Hr rv Hrv. binv Hr cv Hcv.
    injection Hr as <- <- <-.
    simpl in Hm1. apply py_index_1_inv in Hm1. destruct Hm1 as (a0 & ms1 & E0).
    injection E0 as <- ->.
    destruct m0 as [c0| | | | | | | | | |]; try discriminate Hcv.
    injection Hcv as ->.
    destruct m1 as [|b1| | | | | | | | |]; try discriminate Hbn.
    injection Hbn as ->.
    destruct (take_inv _ _ _ Hb) as (_ & Lb & _).
    destruct (take_inv _ _ _ Hg) as (_ & Lg & _).
    destruct (take_inv _ _ _ Hrm) as (_ & Lrm & _).
    destruct (take_inv _ _ _ Hrv) as (_ & Lrv & _).
    unfold skeleton. cbn [module_map map skipn]. do 2 f_equal.
    + f_equal. unfold conv_map. cbn [in_channels out_channels kernel_size stride
        padding groups weight bias].
      rewrite (@map_tt_length _ _ wt (weight cv) Lwt). reflexivity.
    + f_equal. f_equal. unfold bn_map. cbn [num_features eps momentum bn_weight
        bn_bias running_mean running_var].
      rewrite (@map_tt_length _ _ g (bn_weight bn)) by lia.
      rewrite (@map_tt_length _ _ b (bn_bias bn)) by lia.
      rewrite (@map_tt_length _ _ rm (running_mean bn)) by lia.
      rewrite (@map_tt_length _ _ rv (running_var bn)) by lia.
      reflexivity.
  - binv Hr cv Hcv.
    destruct m0 as [c0| | | | | | | | | |]; try discriminate Hcv.
    injection Hcv as ->.
    destruct (bias cv) as [old|] eqn:Eold; [|discriminate Hr].
    binv Hr b Hb. injection Hr as <- <- <-.
    destruct (take_inv _ _ _ Hb) as (_ & Lb & _).
    cbn [weight] in Lwt.
    unfold skeleton. cbn [module_map map skipn]. do 3 f_equal.
    unfold conv_map. cbn [in_channels out_channels kernel_size stride
      padding groups weight bias]. rewrite Eold. cbn [option_map].
    rewrite (@map_tt_length _ _ wt (weight cv) Lwt).
    rewrite (@map_tt_length _ _ b old Lb). reflexivity.
Qed.

Lemma load_loop_frame (w : list scalar) :
  forall (mds : list dict) (ms : list (module scalar)) (ptr : nat)
         (loaded : list (module scalar)) (ptr' : nat),
    load_loop w ptr mds ms = Ok (loaded, ptr') ->
    map skeleton loaded = map skeleton (firstn (length mds) ms) /\
    forall i md ty,
      nth_error mds i = Some md -> (i < length ms)%nat ->
      getitem md (KStr "type") = Ok ty -> is_str ty "convolutional" = false ->
      nth_error loaded i = nth_error ms i.
Proof.
  induction mds as [|md mds IH]; intros ms ptr loaded ptr' H.
  - simpl in H. injection H as <- <-. split; [reflexivity|].
    intros i md ty Hi. destruct i; discriminate Hi.
  - destruct ms as [|m ms].
    + simpl in H. injection H as <- <-. split; [reflexivity|].
      intros i md' ty _ Hlt. simpl in Hlt. lia.
    + cbn [load_loop] in H. binv H r Hr. destruct r as [m1 p1].
      binv H r' Hr'. destruct r' as [rest p2]. injection H as <- <-.
      cbn [fst snd] in *.
      destruct (load_layer_frame _ _ _ _ Hr) as [S1 N1].
      destruct (IH _ _ _ _ Hr') as [S2 N2].
      split; [cbn [length firstn map]; rewrite S1, S2; reflexivity|].
      intros i md' ty Hi Hlt Hty T. destruct i as [|i].
      * simpl in Hi. injection Hi as <-. simpl. f_equal. exact (N1 ty Hty T).
      * simpl in Hi, Hlt |- *. apply (N2 i md' ty Hi ltac:(lia) Hty T).
Qed.

Lemma firstn_min_length (A : Type) (l : list A) (m : nat) :
  firstn (Nat.min m (length l)) l = firstn m l.
Proof.
  destruct (Nat.le_gt_cases m (length l)) as [Hle|Hgt].
  - rewrite Nat.min_l by exact Hle. reflexivity.
  - rewrite Nat.min_r by lia. rewrite firstn_all, firstn_all2 by lia. reflexivity.
Qed.

Lemma nth_error_firstn_lt (A : Type) (l : list A) (n i : nat) :
  (i < n)%nat -> nth_error (firstn n l) i = nth_error l i.
Proof.
  intros H. rewrite nth_error_firstn.
  destruct (Nat.ltb_spec i n); [reflexivity | lia].
Qed.

(** X25: [load_darknet_weights] never touches the configuration blocks and
    only replaces parameter values: every node keeps its kind, geometry and
    tensor sizes.  Nodes at or beyond the cutoff it goes on with (with the
    default cutoff -1: the last node) and nodes of blocks that are not
    [convolutional] are left exactly as they were. *)
Theorem load_frame (self self' : Darknet) (weights : string) (f : list byte)
    (cutoff : Z) :
  load_darknet_weights self weights f cutoff = Ok self' ->
  module_define self' = module_define self /\
  map skeleton (module_list self') = map skeleton (module_list self) /\
  forall i,
    (length (py_slice_to (module_list self) (load_cutoff weights cutoff)) <= i)%nat \/
    (exists md ty, nth_error (module_define self) i = Some md /\
                   getitem md (KStr "type") = Ok ty /\
                   is_str ty "convolutional" = false) ->
    nth_error (module_list self') i = nth_error (module_list self) i.
Proof.
  intros H. unfold load_darknet_weights in H.
  destruct (fromfile 4 3 f) as [ver f1].
  destruct (fromfile 8 1 f1) as [sn f2].
  set (c := load_cutoff weights cutoff) in *.
  binv H r Hr. destruct r as [loaded ptr']. injection H as <-.
  cbn [module_define module_list fst].
  split; [reflexivity|].
  destruct (py_slice_to_firstn (module_list self) c) as (n & En & _).
  destruct (py_slice_to_firstn (module_define self) c) as (n' & En' & _).
  rewrite En, En' in Hr. rewrite En.
  destruct (load_loop_frame _ _ _ _ Hr) as [Hs Hn].
  destruct (@load_loop_save _ _ _ _ _ _ Hr (Nat.le_0_l _)) as (_ & _ & Hlen & _).
  set (ml := module_list self) in *. set (mds := module_define self) in *.
  rewrite firstn_firstn in Hs.
  assert (Hk : length loaded =
               Nat.min (Nat.min (length (firstn n' mds)) n) (length ml)).
  { rewrite Hlen, (length_firstn n ml). apply Nat.min_assoc. }
  rewrite <- (firstn_min_length ml (Nat.min (length (firstn n' mds)) n)) in Hs.
  rewrite <- Hk in Hs.
  assert (Hkn : (length loaded <= length (firstn n ml))%nat) by lia.
  assert (Hkd : (length loaded <= length (firstn n' mds))%nat) by lia.
  assert (Hrest : forall i, (length loaded <= i)%nat ->
            nth_error (loaded ++ skipn (length loaded) ml) i = nth_error ml i).
  { intros i Hi. rewrite nth_error_app2 by exact Hi.
    rewrite nth_error_skipn. f_equal. lia. }
  split.
  - rewrite map_app, Hs, <- map_app, firstn_skipn. reflexivity.
  - intros i [Hi | (md & ty & Hmd & Hty & T)].
    + apply Hrest. lia.
    + destruct (Nat.lt_ge_cases i (length loaded)) as [Hlt|Hge];
        [|apply Hrest; exact Hge].
      rewrite nth_error_app1 by exact Hlt.
      assert (Hin : (i < n)%nat) by (rewrite length_firstn in Hkn; lia).
      assert (Hin' : (i < n')%nat) by (rewrite length_firstn in Hkd; lia).
      rewrite <- (@nth_error_firstn_lt _ ml n i Hin).
      apply (Hn i md ty); [|lia|exact Hty|exact T].
      rewrite (@nth_error_firstn_lt _ mds n' i Hin'). exact Hmd.
Qed.

Lemma load_frame_witness :
  exists self',
    load_darknet_weights WeightExamples.net2 "yolov3.weights"
      WeightExamples.file36 2 = Ok self' /\
    module_define self' = module_define WeightExamples.net2 /\
    map skeleton (module_list self') =
      map skeleton (module_list WeightExamples.net2) /\
    forall i,
      (length (py_slice_to (module_list WeightExamples.net2)
                 (load_cutoff "yolov3.weights" 2)) <= i)%nat \/
      (exists md ty, nth_error (module_define WeightExamples.net2) i = Some md /\
                     getitem md (KStr "type") = Ok ty /\
                     is_str ty "convolutional" = false) ->
      nth_error (module_list self') i = nth_error (module_list WeightExamples.net2) i.
Proof.
  destruct load_file36 as (self' & H). exists self'.
  split; [exact H|].
  exact (@load_frame WeightExamples.net2 self' "yolov3.weights"
           WeightExamples.file36 2%Z H).
Defined.
End WeightMoreFacts.

(** ** The configuration parser: what it returns and when *)

Section ParserFacts.
Import Layers Builder ConfigParser.
Local Open Scope string_scope.
Local Open Scope list_scope.
Local Open Scope Z_scope.
Local Ltac binv H x Hx := apply bind_ok_inv in H; destruct H as (x & Hx & H).

Lemma parse_conv_yolo_cfg :
  parse_model_config ParserExamples.float_of_int ParserExamples.conv_yolo_cfg =
  Ok BuilderExamples.cfg_conv_yolo.
Proof. vm_compute. reflexivity. Qed.


(** *** Dicts and the last block *)

Lemma key_eqb_eq (a b : pykey) : key_eqb a b = true -> a = b.
Proof.
  destruct a as [s|x], b as [t|y]; simpl; intros H; try discriminate H.
  - apply String.eqb_eq in H. congruence.
  - apply Z.eqb_eq in H. congruence.
Qed.

Lemma key_eqb_refl (a : pykey) : key_eqb a a = true.
Proof. destruct a; simpl; [apply String.eqb_refl | apply Z.eqb_refl]. Qed.

Lemma existsb_key_in (k : pykey) (f : list pykey) :
  existsb (key_eqb k) f = true <-> In k f.
Proof.
  rewrite existsb_exists. split.
  - intros (x & Hx & E). apply key_eqb_eq in E. subst x. exact Hx.
  - intros H. exists k. split; [exact H | apply key_eqb_refl].
Qed.

Lemma contains_in (d : dict) (k : pykey) :
  contains d k = true <-> In k (map fst d).
Proof.
  unfold contains. rewrite existsb_exists, in_map_iff. split.
  - intros (kv & Hin & E). apply key_eqb_eq in E. exists kv. split; assumption.
  - intros (kv & E & Hin). exists kv. split; [exact Hin|].
    rewrite E. apply key_eqb_refl.
Qed.

Lemma setitem_entries (P : pykey * pyval -> Prop) (d : dict) (k : pykey)
    (v : pyval) :
  Forall P d -> P (k, v) -> Forall P (setitem d k v).
Proof.
  intros Hd Hk. induction Hd as [|[k' v'] r Hkv Hr IH]; simpl.
  - constructor; [exact Hk | constructor].
  - destruct (key_eqb k' k) eqn:E.
    + apply key_eqb_eq in E. subst k'. constructor; assumption.
    + constructor; assumption.
Qed.

Lemma setitem_keys (d : dict) (k : pykey) (v : pyval) :
  map fst (setitem d k v) =
  if contains d k then map fst d else map fst d ++ [k].
Proof.
  induction d as [|[k' v'] r IH]; [reflexivity|].
  unfold contains in *. cbn [setitem existsb fst map].
  destruct (key_eqb k' k) eqn:E; cbn [orb map fst]; [reflexivity|].
  rewrite IH. destruct (existsb _ r); reflexivity.
Qed.

Lemma NoDup_snoc (A : Type) (l : list A) (a : A) :
  NoDup l -> ~ In a l -> NoDup (l ++ [a]).
Proof.
  induction 1 as [|x l Hx Hl IH]; intros Ha; simpl.
  - constructor; [intros [] | constructor].
  - constructor.
    + rewrite in_app_iff. intros [H|[H|[]]]; [exact (Hx H)|].
      apply Ha. left. symmetry. exact H.
    + apply IH. intros H. apply Ha. right. exact H.
Qed.

Lemma setitem_NoDup (d : dict) (k : pykey) (v : pyval) :
  NoDup (map fst d) -> NoDup (map fst (setitem d k v)).
Proof.
  intros H. rewrite setitem_keys. destruct (contains d k) eqn:E; [exact H|].
  apply NoDup_snoc; [exact H|]. intros Hin. apply contains_in in Hin. congruence.
Qed.

Lemma setitem_head (d : dict) (k : pykey) (v : pyval) :
  (exists v0 rest, d = (KStr "type", v0) :: rest) ->
  exists v0 rest, setitem d k v = (KStr "type", v0) :: rest.
Proof.
  intros (v0 & rest & ->). cbn [setitem].
  destruct (key_eqb (KStr "type") k); eexists; eexists; reflexivity.
Qed.

Lemma py_index_last (A : Type) (l : list A) (a : A) :
  py_index (l ++ [a]) (-1) = Ok a.
Proof.
  unfold py_index. rewrite length_app. cbn [length].
  replace (-1 <? 0) with true by reflexivity.
  replace (-1 + Z.of_nat (length l + 1)) with (Z.of_nat (length l)) by lia.
  destruct (Z.ltb_spec (Z.of_nat (length l)) 0); [lia|].
  destruct (Z.leb_spec (Z.of_nat (length l + 1)) (Z.of_nat (length l))); [lia|].
  cbn [orb]. rewrite Nat2Z.id, nth_error_app2 by lia.
  rewrite Nat.sub_diag. reflexivity.
Qed.

Lemma set_last_ok (md md' : list dict) (k : string) (v : pyval) :
  set_last md k v = Ok md' ->
  exists pre d, md = pre ++ [d] /\ md' = pre ++ [setitem d (KStr k) v].
Proof.
  unfold set_last. intros H.
  destruct md as [|d0 r] using rev_ind; [discriminate H|].
  clear IHr. rewrite py_index_last in H. cbn [bind] in H.
  rewrite removelast_last in H. injection H as <-. eauto.
Qed.

(** *** Reading numbers *)

Lemma numeric_not_space (c : ascii) :
  isnumeric_char c = true ->
  int_space c = false /\ Ascii.eqb c "+" = false /\ Ascii.eqb c "-" = false.
Proof.
  destruct c as [[] [] [] [] [] [] [] []]; intros H;
    try discriminate H; repeat split; reflexivity.
Qed.

Lemma decimal_value (c : ascii) : isdecimal c = true -> 0 <= digit_value c <= 9.
Proof.
  unfold isdecimal, between, digit_value. intros H.
  apply andb_true_iff in H. destruct H as [H1 H2].
  apply Nat.leb_le in H1, H2. lia.
Qed.

Lemma digits_nonneg (n : nat) :
  forall (s : string) (acc z : Z),
    (String.length s <= n)%nat -> 0 <= acc -> digits acc s = Ok z -> 0 <= z.
Proof.
  induction n as [|n IH]; intros s acc z Hlen Hacc H.
  - destruct s; [|simpl in Hlen; lia]. simpl in H. injection H as <-. exact Hacc.
  - destruct s as [|c r]; [simpl in H; injection H as <-; exact Hacc|].
    cbn [digits] in H. simpl in Hlen.
    destruct (isdecimal c) eqn:Ec.
    + apply (IH r _ z ltac:(lia)) in H; [exact H|].
      pose proof (decimal_value c Ec). lia.
    + destruct (Ascii.eqb c "_"); [|discriminate H].
      destruct r as [|d r']; [discriminate H|].
      destruct (isdecimal d) eqn:Ed; [|discriminate H]. simpl in Hlen.
      apply (IH r' _ z ltac:(lia)) in H; [exact H|].
      pose proof (decimal_value d Ed). lia.
Qed.

Lemma unsigned_nonneg (s : string) (z : Z) : unsigned s = Ok z -> 0 <= z.
Proof.
  destruct s as [|c r]; [discriminate|]. simpl.
  destruct (isdecimal c) eqn:Ec; [|discriminate].
  intros H. apply (@digits_nonneg (String.length r) r _ z (le_n _)) in H; [exact H|].
  pose proof (decimal_value c Ec). lia.
Qed.

Lemma rstrip_with_id (sp : ascii -> bool) (s : string) :
  all_chars (fun c => negb (sp c)) s = true -> rstrip_with sp s = s.
Proof.
  induction s as [|c r IH]; [reflexivity|]. cbn [all_chars rstrip_with].
  intros H. apply andb_true_iff in H. destruct H as [Hc Hr].
  rewrite (IH Hr). destruct r; [|reflexivity].
  apply negb_true_iff in Hc. rewrite Hc. reflexivity.
Qed.

Lemma all_chars_impl (p q : ascii -> bool) (s : string) :
  (forall c, p c = true -> q c = true) ->
  all_chars p s = true -> all_chars q s = true.
Proof.
  intros Hpq. induction s as [|c r IH]; [reflexivity|]. cbn [all_chars].
  intros H. apply andb_true_iff in H. destruct H as [Hc Hr].
  rewrite (Hpq c Hc), (IH Hr). reflexivity.
Qed.

(** A string [isnumeric] accepts holds no sign: what [int] reads from it
    is not negative. *)
Lemma py_int_numeric (s : string) (z : Z) :
  isnumeric s = true -> py_int s = Ok z -> 0 <= z.
Proof.
  intros Hn H. destruct s as [|c r]; [discriminate Hn|].
  cbn [isnumeric] in Hn.
  assert (Hid : rstrip_with int_space (String c r) = String c r).
  { apply rstrip_with_id. revert Hn. apply all_chars_impl.
    intros d Hd. destruct (numeric_not_space d Hd) as (-> & _). reflexivity. }
  cbn [all_chars] in Hn. apply andb_true_iff in Hn. destruct Hn as [Hc _].
  destruct (numeric_not_space c Hc) as (Hs & Hplus & Hminus).
  unfold py_int in H. rewrite Hid in H. cbn [lstrip_with] in H.
  rewrite Hs, Hplus, Hminus in H. exact (unsigned_nonneg _ H).
Qed.

(** *** One line *)

Section Lines.
Variable py_float : string -> outcome R.

Lemma parse_value_entry (key val : string) (v : pyval) :
  parse_value py_float key val = Ok v -> parsed_entry (KStr key, v).
Proof.
  unfold parse_value. intros H.
  destruct (String.eqb key "anchors") eqn:Ea.
  { binv H fs Hfs. binv H a Ha. injection H as <-.
    apply String.eqb_eq in Ea. exact Ea. }
  apply String.eqb_neq in Ea.
  destruct (existsb (String.eqb key) ["from"; "layers"; "mask"]) eqn:El.
  { cbn [orb] in H. binv H zs Hzs. injection H as <-.
    cbn [existsb] in El. repeat rewrite orb_true_iff in El.
    rewrite !String.eqb_eq in El. simpl. intuition discriminate. }
  cbn [existsb] in El. repeat rewrite orb_false_iff in El.
  destruct El as (E1 & E2 & E3 & _).
  apply String.eqb_neq in E1, E2, E3.
  cbn [orb] in H.
  destruct (String.eqb key "size" && has_char "," val) eqn:Es.
  { binv H zs Hzs. injection H as <-.
    apply andb_true_iff in Es. destruct Es as [Es _].
    apply String.eqb_eq in Es. simpl. tauto. }
  destruct (isnumeric (strip val)) eqn:En.
  - binv H z Hz. injection H as <-.
    simpl. split; [exact (py_int_numeric _ En Hz) | tauto].
  - injection H as <-. simpl. tauto.
Qed.

Lemma parse_line_ok (md md' : list dict) (line : string) :
  parse_line py_float md line = Ok md' ->
  (startswith line "[" = true /\ md' = md ++ [new_block line]) \/
  (startswith line "[" = false /\
   exists key val v pre d,
     split "=" line = [key; val] /\
     parse_value py_float (rstrip key) val = Ok v /\
     md = pre ++ [d] /\ md' = pre ++ [setitem d (KStr (rstrip key)) v]).
Proof.
  unfold parse_line. intros H.
  destruct (startswith line "[") eqn:Eh.
  - injection H as <-. left. split; reflexivity.
  - right. split; [reflexivity|].
    destruct (split "=" line) as [|key [|val [|x l]]]; try discriminate H.
    binv H v Hv. destruct (set_last_ok _ _ _ H) as (pre & d & -> & ->).
    exists key, val, v, pre, d. repeat split; assumption.
Qed.

Lemma new_block_inv (line : string) : block_inv (new_block line).
Proof.
  unfold new_block, block_inv. cbn [setitem].
  destruct (String.eqb (rstrip (inner line)) "convolutional"); cbn [setitem key_eqb].
  - replace (String.eqb "type" "batch_normalize") with false by reflexivity.
    cbn [setitem]. split; [eexists; eexists; reflexivity|]. split.
    + repeat constructor; simpl; try discriminate; lia.
    + simpl. repeat constructor; simpl; intuition discriminate.
  - split; [eexists; eexists; reflexivity|]. split.
    + repeat constructor; simpl; discriminate.
    + simpl. repeat constructor; simpl; intuition.
Qed.

Lemma setitem_inv (d : dict) (k : string) (v : pyval) :
  block_inv d -> parsed_entry (KStr k, v) -> block_inv (setitem d (KStr k) v).
Proof.
  intros (Hh & He & Hn) Hk. split; [apply setitem_head; exact Hh|].
  split; [apply setitem_entries; assumption | apply setitem_NoDup; exact Hn].
Qed.

Lemma parse_line_inv (md md' : list dict) (line : string) :
  Forall block_inv md -> parse_line py_float md line = Ok md' ->
  Forall block_inv md'.
Proof.
  intros Hmd H. apply parse_line_ok in H.
  destruct H as [[_ ->] | (_ & key & val & v & pre & d & _ & Hv & -> & ->)].
  - apply Forall_app. split; [exact Hmd|].
    constructor; [apply new_block_inv | constructor].
  - apply Forall_app in Hmd. destruct Hmd as [Hpre Hd].
    apply Forall_app. split; [exact Hpre|].
    constructor; [|constructor].
    apply setitem_inv; [exact (Forall_inv Hd)|].
    exact (parse_value_entry _ _ Hv).
Qed.

Lemma parse_lines_inv (lines : list string) :
  forall md md' : list dict,
    Forall block_inv md -> parse_lines py_float md lines = Ok md' ->
    Forall block_inv md'.
Proof.
  induction lines as [|line rest IH]; intros md md' Hmd H.
  - simpl in H. injection H as <-. exact Hmd.
  - cbn [parse_lines] in H. binv H md1 H1.
    exact (IH _ _ (parse_line_inv _ Hmd H1) H).
Qed.

Lemma parse_lines_lines (lines : list string) :
  forall md md' : list dict,
    parse_lines py_float md lines = Ok md' ->
    Forall line_ok lines /\
    length md' =
      (length md + length (filter (fun l => startswith l "[") lines))%nat /\
    (md = [] -> forall line rest, lines = line :: rest ->
                startswith line "[" = true).
Proof.
  induction lines as [|line rest IH]; intros md md' H.
  - simpl in H. injection H as <-. split; [constructor|].
    split; [simpl; lia | intros _ line rest E; discriminate E].
  - cbn [parse_lines] in H. binv H md1 H1.
    destruct (IH _ _ H) as (Hall & Hlen & _).
    apply parse_line_ok in H1.
    destruct H1 as [[Eh ->] | (Eh & key & val & v & pre & d & Es & _ & -> & ->)].
    + split; [constructor; [left; exact Eh | exact Hall]|].
      cbn [filter]. rewrite Eh. rewrite length_app in Hlen. simpl in Hlen |- *.
      split; [lia|]. intros _ l r E. injection E as <- _. exact Eh.
    + split; [constructor; [right; eauto | exact Hall]|].
      cbn [filter]. rewrite Eh. rewrite length_app in Hlen |- *.
      simpl in Hlen |- *. split; [lia|].
      intros E. destruct pre; discriminate E.
Qed.

End Lines.

(** *** The check of the fields *)

Lemma add_fields_in (x : dict) :
  forall (f : list pykey) (k : pykey),
    In k (add_fields f x) <-> In k f \/ In k (map fst x).
Proof.
  unfold add_fields. induction x as [|kv x IH]; intros f k; cbn [fold_left map].
  - simpl. tauto.
  - rewrite IH. destruct (existsb (key_eqb (fst kv)) f) eqn:E.
    + apply existsb_key_in in E. simpl. split; [tauto|].
      intros [H|[H|H]]; [tauto | subst k; tauto | tauto].
    + rewrite in_app_iff. simpl. tauto.
Qed.

Lemma fields_in (ds : list dict) :
  forall (f : list pykey) (k : pykey),
    In k (fold_left add_fields ds f) <->
    In k f \/ exists d, In d ds /\ In k (map fst d).
Proof.
  induction ds as [|d ds IH]; intros f k; cbn [fold_left].
  - split; [tauto|]. intros [H|(d & [] & _)]. exact H.
  - rewrite IH, add_fields_in. split.
    + intros [[H|H]|(d' & Hd' & H)]; [tauto | right | right].
      * exists d. split; [left; reflexivity | exact H].
      * exists d'. split; [right; exact Hd' | exact H].
    + intros [H|(d' & [<-|Hd'] & H)]; [tauto | tauto | right].
      exists d'. split; assumption.
Qed.

Lemma key_passes_iff (k : pykey) :
  key_passes k <-> is_supported k = true \/ key_truthy k = false.
Proof.
  destruct k as [s|z]; unfold key_passes, is_supported, key_truthy.
  - rewrite negb_false_iff, String.eqb_eq, existsb_exists. split.
    + intros [H|H]; [right; exact H | left].
      exists s. split; [exact H | apply String.eqb_refl].
    + intros [(x & Hx & E)|H]; [right | left; exact H].
      apply String.eqb_eq in E. subst x. exact Hx.
  - rewrite negb_false_iff, Z.eqb_eq. split; [tauto|].
    intros [H|H]; [discriminate H | exact H].
Qed.

Lemma check_supported_iff (md : list dict) :
  check_supported md = Ok tt <->
  forall d k v, In d (tl md) -> In (k, v) d -> key_passes k.
Proof.
  unfold check_supported, unsupported, fields.
  destruct (existsb key_truthy _) eqn:E.
  - split; [intros H; discriminate H|]. intros H. exfalso.
    apply existsb_exists in E. destruct E as (k & Hk & Ht).
    apply filter_In in Hk. destruct Hk as [Hk Hs].
    apply fields_in in Hk. destruct Hk as [[]|(d & Hd & Hk)].
    apply in_map_iff in Hk. destruct Hk as ([k' v] & Ek & Hin).
    simpl in Ek. subst k'.
    apply (H d k v Hd) in Hin. apply key_passes_iff in Hin.
    apply negb_true_iff in Hs. destruct Hin; congruence.
  - split; [|reflexivity]. intros _ d k v Hd Hin.
    apply key_passes_iff.
    destruct (is_supported k) eqn:Hs; [left; reflexivity | right].
    destruct (key_truthy k) eqn:Ht; [|reflexivity].
    assert (Hex : existsb key_truthy
              (filter (fun x => negb (is_supported x))
                 (fold_left add_fields (tl md) [])) = true).
    { apply existsb_exists. exists k. split; [|exact Ht].
      apply filter_In. split; [|rewrite Hs; reflexivity].
      apply fields_in. right. exists d. split; [exact Hd|].
      apply in_map_iff. exists (k, v). split; [reflexivity | exact Hin]. }
    congruence.
Qed.

(** *** The parser *)

Lemma parse_model_config_ok (py_float : string -> outcome R) (text : string)
    (md : list dict) :
  parse_model_config py_float text = Ok md ->
  parse_lines py_float [] (kept_lines text) = Ok md /\
  check_supported md = Ok tt.
Proof.
  unfold parse_model_config. intros H. binv H md0 H0. binv H u Hu.
  injection H as <-. destruct u. split; assumption.
Qed.

(** X26: what [parse_model_config] returns.  Every block starts with its
    [type] key and holds no key twice; the array is under [anchors] only,
    lists of ints under [from], [layers], [mask] (and a [size] with a comma)
    only, ints are not negative (a value with a sign or a decimal point is
    kept as a string).  In the blocks after the first every key is a
    supported field or the empty string, which the check lets through
    ([any] takes it for false): without an empty key these blocks are what
    [_create_modules] expects. *)
Theorem parse_model_config_blocks (py_float : string -> outcome R)
    (text : string) (md : list dict) :
  parse_model_config py_float text = Ok md ->
  Forall block_inv md /\
  Forall (Forall (fun kv => exists k, fst kv = KStr k /\
                                      (k = "" \/ In k supported))) (tl md) /\
  (Forall (fun d => contains d (KStr "") = false) (tl md) ->
   Forall parsed_block (tl md)).
Proof.
  intros H. destruct (parse_model_config_ok _ _ H) as [Hl Hc].
  assert (Hinv : Forall block_inv md).
  { exact (parse_lines_inv _ _ (Forall_nil _) Hl). }
  assert (Hkeys : Forall (Forall (fun kv => exists k, fst kv = KStr k /\
                            (k = "" \/ In k supported))) (tl md)).
  { rewrite Forall_forall. intros d Hd. rewrite Forall_forall. intros [k v] Hin.
    pose proof (proj1 (check_supported_iff md) Hc d k v Hd Hin) as Hp.
    assert (Hdm : In d md) by (destruct md; [destruct Hd | right; exact Hd]).
    rewrite Forall_forall in Hinv. destruct (Hinv d Hdm) as (_ & He & _).
    rewrite Forall_forall in He. specialize (He _ Hin).
    destruct k as [s|z]; [|destruct He]. exists s. split; [reflexivity | exact Hp]. }
  split; [exact Hinv|]. split; [exact Hkeys|].
  intros Hne. rewrite Forall_forall in Hkeys, Hne, Hinv |- *. intros d Hd.
  unfold parsed_block. rewrite Forall_forall. intros kv Hin.
  assert (Hdm : In d md) by (destruct md; [destruct Hd | right; exact Hd]).
  destruct (Hinv d Hdm) as (_ & He & _). rewrite Forall_forall in He.
  split; [exact (He _ Hin)|].
  specialize (Hkeys d Hd). rewrite Forall_forall in Hkeys.
  destruct (Hkeys kv Hin) as (k & Ek & [->|Hs]); [|exists k; split; assumption].
  exfalso. specialize (Hne d Hd).
  assert (Hc' : contains d (KStr "") = true).
  { apply contains_in. apply in_map_iff. exists kv. split; assumption. }
  congruence.
Qed.

Lemma parse_model_config_blocks_witness :
  parse_model_config ParserExamples.float_of_int ParserExamples.conv_yolo_cfg =
    Ok BuilderExamples.cfg_conv_yolo /\
  Forall block_inv BuilderExamples.cfg_conv_yolo /\
  Forall (Forall (fun kv => exists k, fst kv = KStr k /\
                                      (k = "" \/ In k supported)))
    (tl BuilderExamples.cfg_conv_yolo) /\
  (Forall (fun d => contains d (KStr "") = false)
     (tl BuilderExamples.cfg_conv_yolo) ->
   Forall parsed_block (tl BuilderExamples.cfg_conv_yolo)).
Proof.
  split; [exact parse_conv_yolo_cfg|].
  exact (@parse_model_config_blocks ParserExamples.float_of_int
           ParserExamples.conv_yolo_cfg BuilderExamples.cfg_conv_yolo
           parse_conv_yolo_cfg).
Defined.

(** X27: [parse_model_config] returns only if every line it keeps is a
    block header or holds exactly one equals sign, the first of them being
    a header; it returns one block per header.  So a line of white space
    only, or an indented comment without an equals sign, makes it raise:
    such lines pass the filter, which runs before the stripping. *)
Theorem parse_model_config_lines (py_float : string -> outcome R)
    (text : string) (md : list dict) :
  parse_model_config py_float text = Ok md ->
  Forall line_ok (kept_lines text) /\
  length md = length (filter (fun l => startswith l "[") (kept_lines text)) /\
  (forall line rest, kept_lines text = line :: rest ->
                     startswith line "[" = true) /\
  (forall x, In x (split (ascii_of_nat 10) text) -> x <> "" ->
             startswith x "#" = false ->
             strip x <> "" /\ line_ok (strip x)).
Proof.
  intros H. destruct (parse_model_config_ok _ _ H) as [Hl _].
  destruct (parse_lines_lines _ _ _ Hl) as (Hall & Hlen & Hfirst).
  split; [exact Hall|]. split; [exact Hlen|]. split; [exact (Hfirst eq_refl)|].
  intros x Hx Hne Hc.
  assert (Hin : In (strip x) (kept_lines text)).
  { unfold kept_lines. apply in_map_iff. exists x. split; [reflexivity|].
    apply filter_In. split; [exact Hx|]. rewrite Hc.
    apply String.eqb_neq in Hne. rewrite Hne. reflexivity. }
  rewrite Forall_forall in Hall. specialize (Hall _ Hin).
  split; [|exact Hall]. intros E. rewrite E in Hall.
  destruct Hall as [Hh|(k & v & Hs)]; [discriminate Hh | discriminate Hs].
Qed.

Lemma parse_model_config_lines_witness :
  parse_model_config ParserExamples.float_of_int ParserExamples.conv_yolo_cfg =
    Ok BuilderExamples.cfg_conv_yolo /\
  Forall line_ok (kept_lines ParserExamples.conv_yolo_cfg) /\
  length BuilderExamples.cfg_conv_yolo =
    length (filter (fun l => startswith l "[")
              (kept_lines ParserExamples.conv_yolo_cfg)) /\
  (forall line rest, kept_lines ParserExamples.conv_yolo_cfg = line :: rest ->
                     startswith line "[" = true) /\
  (forall x, In x (split (ascii_of_nat 10) ParserExamples.conv_yolo_cfg) ->
             x <> "" -> startswith x "#" = false ->
             strip x <> "" /\ line_ok (strip x)).
Proof.
  split; [exact parse_conv_yolo_cfg|].
  exact (@parse_model_config_lines ParserExamples.float_of_int
           ParserExamples.conv_yolo_cfg BuilderExamples.cfg_conv_yolo
           parse_conv_yolo_cfg).
Defined.

(** X28: the check of the fields passes exactly when, in every block but
    the first, each key is a supported field or the empty string; it fails
    with AssertionError otherwise.  The keys of the first block are never
    looked at, and it is the truth value of the unsupported names that
    [any] tests, not whether there are any. *)
Theorem check_supported_exact (md : list dict) :
  (check_supported md = Ok tt <->
   forall d k v, In d (tl md) -> In (k, v) d -> key_passes k) /\
  (check_supported md = Ok tt \/ check_supported md = Raise AssertionError).
Proof.
  split; [apply check_supported_iff|].
  unfold check_supported. destruct (existsb _ _); [right | left]; reflexivity.
Qed.

End ParserFacts.

(** ** Saving a model that was just built *)

Section SaveBuiltFacts.
Import Layers Builder BuilderMore Weights WeightsMore.
Local Open Scope string_scope.
Local Open Scope list_scope.
Local Ltac binv H x Hx := apply bind_ok_inv in H; destruct H as (x & Hx & H).

(** A node with the shape of a node the builder made for a block is one
    [save_darknet_weights] can write. *)
Lemma save_layer_built (env : torch_env) (cfg : string) (i : nat) (md : dict)
    (st st1 : bstate) (m : module R) (ms : module scalar) :
  built env cfg i md st m st1 -> skeleton ms = skeleton m ->
  exists out, save_layer md ms = Ok out.
Proof.
  intros Hb Hs. unfold save_layer.
  inversion Hb; subst; unfold geti in *;
    match goal with
    | Ht : getitem md (KStr "type") = Ok _ |- _ => rewrite Ht; cbn [bind]
    end.
  - (* convolution with batch normalisation *)
    unfold skeleton in Hs. cbn [module_map map] in Hs.
    apply skeleton_seq_inv in Hs. destruct Hs as (l & -> & Hl).
    destruct l as [|x0 [|x1 l]]; try discriminate Hl.
    cbn [map] in Hl. injection Hl as Hx0 Hx1 _.
    apply skeleton_conv_inv in Hx0. destruct Hx0 as (cs & -> & _).
    apply skeleton_bn_inv in Hx1. destruct Hx1 as (bs & ->).
    replace (is_str (VStr "convolutional") "convolutional") with true by reflexivity.
    cbn [subscript]. rewrite py_index_0. cbn [bind].
    match goal with Hk : getitem md (KStr "batch_normalize") = Ok _ |- _ =>
      rewrite Hk end. cbn [bind].
    match goal with Hk : truthy _ = Ok true |- _ => rewrite Hk end. cbn [bind].
    rewrite py_index_1. cbn [bind as_bn as_conv]. eexists. reflexivity.
  - (* convolution with a bias *)
    unfold skeleton in Hs. cbn [module_map map] in Hs.
    apply skeleton_seq_inv in Hs. destruct Hs as (l & -> & Hl).
    destruct l as [|x0 l]; try discriminate Hl.
    cbn [map] in Hl. injection Hl as Hx0 _.
    apply skeleton_conv_inv in Hx0. destruct Hx0 as (cs & -> & Hc).
    replace (is_str (VStr "convolutional") "convolutional") with true by reflexivity.
    cbn [subscript]. rewrite py_index_0. cbn [bind].
    match goal with Hk : getitem md (KStr "batch_normalize") = Ok _ |- _ =>
      rewrite Hk end. cbn [bind].
    match goal with Hk : truthy _ = Ok false |- _ => rewrite Hk end.
    cbn [bind as_conv].
    assert (Hbias : option_map (map (fun _ : scalar => tt)) (bias cs) =
                    option_map (map (fun _ : R => tt)) (bias conv)).
    { apply (f_equal (@bias unit)) in Hc. exact Hc. }
    match goal with Hk : bias conv = Some _ |- _ => rewrite Hk in Hbias end.
    destruct (bias cs) as [b|]; [|discriminate Hbias].
    cbn [bind]. eexists. reflexivity.
  - replace (is_str (VStr "route") "convolutional") with false by reflexivity.
    eexists. reflexivity.
  - replace (is_str (VStr "shortcut") "convolutional") with false by reflexivity.
    eexists. reflexivity.
  - replace (is_str (VStr "yolo") "convolutional") with false by reflexivity.
    eexists. reflexivity.
  - match goal with Hk : is_str _ "convolutional" = false |- _ => rewrite Hk end.
    eexists. reflexivity.
Qed.

Lemma save_loop_total :
  forall (mds : list dict) (ms : list (module scalar)),
    (forall k md m, nth_error mds k = Some md -> nth_error ms k = Some m ->
                    exists out, save_layer md m = Ok out) ->
    exists out, save_loop mds ms = Ok out.
Proof.
  induction mds as [|md mds IH]; intros ms H.
  - exists []. reflexivity.
  - destruct ms as [|m ms]; [exists []; reflexivity|].
    cbn [save_loop].
    destruct (H 0%nat md m eq_refl eq_refl) as (o & ->).
    destruct (IH ms) as (o' & ->).
    { intros k md' m' Hmd Hm. exact (H (S k) md' m' Hmd Hm). }
    cbn [bind]. eexists. reflexivity.
Qed.

Lemma nth_error_firstn_some (A : Type) (l : list A) (n k : nat) (a : A) :
  nth_error (firstn n l) k = Some a -> nth_error l k = Some a.
Proof.
  rewrite nth_error_firstn. destruct (k <? n)%nat; [tauto | discriminate].
Qed.

(** X29: a model that [_create_modules] has just built can be saved:
    whatever the cutoff, [save_darknet_weights] returns.  Every
    [convolutional] block has the convolution, and with a truthy
    [batch_normalize] the batch-norm layer, that the loop reads; a model
    whose nodes have the shape of the built ones is all it takes. *)
Theorem save_built_model (env : torch_env) (module_define0 : list dict)
    (model_config : string) (gray : bool) (ml : list (module R))
    (routs_binary : list bool) (printed : list string)
    (self : Darknet) (model_weights_path : string) (cutoff : Z) :
  _create_modules env module_define0 model_config gray =
    Ok (ml, routs_binary, printed) ->
  module_define self = tl module_define0 ->
  map skeleton (module_list self) = map skeleton ml ->
  exists out, save_darknet_weights self model_weights_path cutoff = Ok out.
Proof.
  intros H Hdef Hsk. unfold _create_modules in H.
  destruct module_define0 as [|hd mds]; [discriminate H|]. cbn [tl] in Hdef.
  binv H r Hloop. destruct r as [ml0 st]. binv H rb Hrb. injection H as <- _ _.
  unfold save_darknet_weights.
  destruct (py_slice_to_firstn (Weights.module_define self) cutoff) as (n & -> & _).
  destruct (py_slice_to_firstn (module_list self) cutoff) as (n' & -> & _).
  destruct (save_loop_total (firstn n (Weights.module_define self))
              (firstn n' (module_list self))) as (payload & ->).
  2:{ cbn [bind]. eexists. reflexivity. }
  intros k md m Hmd Hm.
  apply nth_error_firstn_some in Hmd, Hm. rewrite Hdef in Hmd.
  assert (Hk : nth_error (map skeleton (module_list self)) k = Some (skeleton m)).
  { apply map_nth_error. exact Hm. }
  rewrite Hsk, nth_error_map in Hk.
  destruct (nth_error ml0 k) as [mr|] eqn:Hmr; [|discriminate Hk].
  cbn [option_map] in Hk. injection Hk as Es.
  destruct (@create_loop_nth _ _ _ _ _ _ _ _ Hloop k) as [_ Hbwd].
  destruct (Hbwd mr Hmr) as (md' & stk & stk1 & Hmd' & Hb).
  rewrite Hmd in Hmd'. injection Hmd' as <-.
  exact (@save_layer_built _ _ _ _ _ _ _ m Hb (eq_sym Es)).
Qed.

Lemma save_built_model_witness :
  exists ml routs_binary printed,
    _create_modules BuilderExamples.env0 BuilderExamples.cfg_conv_yolo
      "yolov3.cfg" false = Ok (ml, routs_binary, printed) /\
    module_define BuiltExamples.net_conv_yolo = tl BuilderExamples.cfg_conv_yolo /\
    map skeleton (module_list BuiltExamples.net_conv_yolo) = map skeleton ml /\
    exists out,
      save_darknet_weights BuiltExamples.net_conv_yolo "copy.weights" (-1) = Ok out.
Proof.
  eexists. eexists. eexists.
  assert (H1 : _create_modules BuilderExamples.env0 BuilderExamples.cfg_conv_yolo
                 "yolov3.cfg" false =
               Ok (BuiltExamples.built_conv_yolo, [true; false],
                   ["WARNING: smart bias initialization failure."]))
    by reflexivity.
  assert (H2 : module_define BuiltExamples.net_conv_yolo =
               tl BuilderExamples.cfg_conv_yolo) by reflexivity.
  assert (H3 : map skeleton (module_list BuiltExamples.net_conv_yolo) =
               map skeleton BuiltExamples.built_conv_yolo) by reflexivity.
  split; [exact H1|]. split; [exact H2|]. split; [exact H3|].
  exact (@save_built_model _ _ _ _ _ _ _ BuiltExamples.net_conv_yolo
           "copy.weights" (-1)%Z H1 H2 H3).
Defined.

End SaveBuiltFacts.

(** ** Test-time augmentation: the shape of a scaled image *)

Section ScaleFacts.
Import YOLOLayer Targets ScaleImage.
Local Open Scope R_scope.
Local Ltac binv H x Hx := apply bind_ok_inv in H; destruct H as (x & Hx & H).

Lemma ceil_bounds (x : R) : x <= IZR (ceil x) < x + 1.
Proof.
  unfold ceil. rewrite opp_IZR. destruct (base_Int_part (- x)) as [B1 B2]. lra.
Qed.

Lemma long_pos (x : R) : (0 < long x)%Z -> 0 <= x.
Proof.
  intros H. destruct (Rle_dec 0 x) as [Hx|Hx]; [exact Hx|]. exfalso.
  unfold long in H. destruct (Rle_dec 0 x) as [Hx'|_]; [contradiction|].
  destruct (base_Int_part (- x)) as [B1 B2].
  assert (-1 < Int_part (- x))%Z by (apply lt_IZR; lra). lia.
Qed.

(** A scaled extent rounded up to the grid: not below the truncated
    extent, and at most one grid step above it. *)
Lemma grid_size_bounds (n : nat) (ratio : R) :
  (0 < long (INR n * ratio))%Z ->
  (0 <= ceil (INR n * ratio / 64) * 64 - long (INR n * ratio) <= 64)%Z.
Proof.
  intros H. pose proof (long_pos _ H) as Hx.
  destruct (long_floor Hx) as [L1 L2].
  destruct (ceil_bounds (INR n * ratio / 64)) as [C1 C2].
  set (c := ceil (INR n * ratio / 64)) in *.
  set (s := long (INR n * ratio)) in *.
  assert (E : IZR (c * 64) = IZR c * 64) by (rewrite mult_IZR; reflexivity).
  split.
  - apply Zle_minus_le_0. apply le_IZR. rewrite E. lra.
  - assert (c * 64 < s + 65)%Z; [|lia].
    apply lt_IZR. rewrite E, plus_IZR. lra.
Qed.

(** *** Padding *)

Lemma pad_end_length (A : Type) (fill : A) (n : Z) (l : list A) :
  (0 <= Z.of_nat (length l) + n)%Z ->
  length (pad_end fill n l) = Z.to_nat (Z.of_nat (length l) + n).
Proof.
  intros H. unfold pad_end. destruct (Z.ltb_spec n 0).
  - rewrite length_firstn. lia.
  - rewrite length_app, repeat_length. lia.
Qed.

Lemma pad_end_nth (A : Type) (fill d : A) (n : Z) (l : list A) (i : nat) :
  (Z.of_nat i < Z.of_nat (length l) + n)%Z ->
  nth i (pad_end fill n l) d = if (i <? length l)%nat then nth i l d else fill.
Proof.
  intros H. unfold pad_end. destruct (Z.ltb_spec n 0).
  - rewrite nth_firstn.
    destruct (Nat.ltb_spec i (length l - Z.to_nat (- n))); [|lia].
    destruct (Nat.ltb_spec i (length l)); [reflexivity | lia].
  - destruct (Nat.ltb_spec i (length l)).
    + apply app_nth1. assumption.
    + rewrite app_nth2 by lia.
      rewrite (nth_indep _ d fill) by (rewrite repeat_length; lia).
      apply nth_repeat.
Qed.

Lemma pad_end_Forall (A : Type) (P : A -> Prop) (fill : A) (n : Z) (l : list A) :
  Forall P l -> P fill -> Forall P (pad_end fill n l).
Proof.
  intros Hl Hf. unfold pad_end. destruct (n <? 0)%Z.
  - rewrite Forall_forall in *. intros a Ha. apply Hl.
    exact (In_firstn _ _ _ Ha).
  - apply Forall_app. split; [exact Hl|].
    rewrite Forall_forall. intros a Ha. apply repeat_spec in Ha. subst a. exact Hf.
Qed.

Lemma pad_spec (img out : tensor4) (bs ch ny nx : nat) (right bottom : Z) (v : R) :
  rectangular4 img bs ch ny nx -> (0 < bs)%nat -> (0 < ch)%nat -> (0 < ny)%nat ->
  pad img right bottom v = Ok out ->
  (0 <= Z.of_nat nx + right)%Z /\ (0 <= Z.of_nat ny + bottom)%Z /\
  rectangular4 out bs ch (Z.to_nat (Z.of_nat ny + bottom))
    (Z.to_nat (Z.of_nat nx + right)) /\
  forall b c y x, (b < bs)%nat -> (c < ch)%nat ->
    (y < Z.to_nat (Z.of_nat ny + bottom))%nat ->
    (x < Z.to_nat (Z.of_nat nx + right))%nat ->
    get4 out b c y x =
    if ((y <? ny) && (x <? nx))%nat then get4 img b c y x else v.
Proof.
  intros Hrect Pb Pc Py H. unfold pad in H.
  rewrite (shape4_rectangular Hrect Pb Pc Py) in H.
  destruct (Z.ltb_spec (Z.of_nat nx + right) 0) as [|Hw]; [discriminate H|].
  destruct (Z.ltb_spec (Z.of_nat ny + bottom) 0) as [|Hh]; [discriminate H|].
  cbn [orb] in H. injection H as <-.
  destruct Hrect as [Hbs Hall].
  split; [exact Hw|]. split; [exact Hh|]. split.
  - split; [rewrite length_map; exact Hbs|].
    rewrite Forall_map. revert Hall. apply Forall_impl. intros im [Hch Him].
    split; [rewrite length_map; exact Hch|].
    rewrite Forall_map. revert Him. apply Forall_impl. intros pl [Hny Hpl].
    split.
    + rewrite pad_end_length; rewrite length_map, Hny; [reflexivity | exact Hh].
    + apply pad_end_Forall; [|apply repeat_length].
      rewrite Forall_map. revert Hpl. apply Forall_impl. intros row Hrow.
      rewrite pad_end_length; rewrite Hrow; [reflexivity | exact Hw].
  - intros b c y x Hb Hc Hy Hx. unfold get4.
    rewrite (@nth_map_lt _ _ _ img b [] []) by lia.
    pose proof (@Forall_nth_in _ _ img b [] Hall ltac:(lia)) as [Hch Him].
    rewrite (@nth_map_lt _ _ _ (nth b img []) c [] []) by lia.
    pose proof (@Forall_nth_in _ _ (nth b img []) c [] Him ltac:(lia)) as [Hny Hpl].
    set (pl := nth c (nth b img []) []) in *.
    rewrite pad_end_nth by (rewrite length_map, Hny; lia).
    rewrite length_map, Hny.
    destruct (Nat.ltb_spec y ny) as [Hyn|Hyn]; cbn [andb].
    + rewrite (@nth_map_lt _ _ _ pl y [] []) by lia.
      pose proof (@Forall_nth_in _ _ pl y [] Hpl ltac:(lia)) as Hrow.
      rewrite pad_end_nth by (rewrite Hrow; lia).
      rewrite Hrow. reflexivity.
    + rewrite (nth_indep _ 0 v) by (rewrite repeat_length; exact Hx).
      apply nth_repeat.
Qed.

(** *** The scaled image *)

Section Scaled.
Variable interpolate : tensor4 -> Z * Z -> outcome tensor4.
Hypothesis Hsized : interpolate_sized interpolate.

(** X30: the size of what [_scale_image] returns.  With [same_shape] the
    result has the height and width of the input whatever the ratio: it is
    padded when the image shrank and cropped when it grew.  Without, height
    and width are multiples of 64, nothing is cropped and at most 64 rows
    and columns are added.  The resized image sits in the top left corner
    and every other pixel holds 0.447 (not zero). *)
Theorem scale_image_shape (image : tensor4) (bs ch h w : nat) (ratio : R)
    (same_shape : bool) (out : tensor4) :
  rectangular4 image bs ch h w ->
  (0 < bs)%nat -> (0 < ch)%nat -> (0 < h)%nat ->
  _scale_image interpolate image ratio same_shape = Ok out ->
  let '(sh, sw) := new_size h w ratio in
  let '(oh, ow) := target_size h w ratio same_shape in
  exists resized,
    interpolate image (sh, sw) = Ok resized /\
    (0 <= oh)%Z /\ (0 <= ow)%Z /\
    rectangular4 out bs ch (Z.to_nat oh) (Z.to_nat ow) /\
    (same_shape = true -> oh = Z.of_nat h /\ ow = Z.of_nat w) /\
    (same_shape = false ->
       (oh mod 64 = 0)%Z /\ (ow mod 64 = 0)%Z /\
       (0 <= oh - sh <= 64)%Z /\ (0 <= ow - sw <= 64)%Z) /\
    forall b c y x, (b < bs)%nat -> (c < ch)%nat ->
      (y < Z.to_nat oh)%nat -> (x < Z.to_nat ow)%nat ->
      get4 out b c y x =
      if ((y <? Z.to_nat sh) && (x <? Z.to_nat sw))%nat
      then get4 resized b c y x else 447 / 1000.
Proof.
  intros Hrect Pb Pc Ph H. unfold _scale_image in H.
  rewrite (shape4_rectangular Hrect Pb Pc Ph) in H.
  unfold new_size in *. cbn [fst snd] in H.
  set (sh := long (INR h * ratio)) in *. set (sw := long (INR w * ratio)) in *.
  binv H resized Hr.
  destruct (Hsized Hrect Hr) as (Psh & Psw & Hrect1).
  destruct (target_size h w ratio same_shape) as [oh ow] eqn:Et.
  exists resized. split; [exact Hr|].
  assert (Py1 : (0 < Z.to_nat sh)%nat) by lia.
  destruct (@pad_spec resized out bs ch _ _ _ _ _ Hrect1 Pb Pc Py1 H)
    as (Hw & Hh & Hrect2 & Hget).
  assert (Eh : (Z.of_nat (Z.to_nat sh) + (oh - sh))%Z = oh) by lia.
  assert (Ew : (Z.of_nat (Z.to_nat sw) + (ow - sw))%Z = ow) by lia.
  rewrite Eh, Ew in *.
  split; [exact Hh|]. split; [exact Hw|]. split; [exact Hrect2|].
  split; [|split; [|exact Hget]].
  - intros ->. unfold target_size in Et. injection Et as <- <-.
    split; reflexivity.
  - intros ->. unfold target_size in Et. injection Et as <- <-.
    split; [apply Z_mod_mult|]. split; [apply Z_mod_mult|].
    split; apply grid_size_bounds; assumption.
Qed.
End Scaled.

Lemma interpolate_black_sized : interpolate_sized ScaleExamples.interpolate_black.
Proof.
  intros img bs ch ny nx sh sw img' [Hbs Hall] H.
  unfold ScaleExamples.interpolate_black in H. cbn [fst snd] in H.
  destruct (Z.ltb_spec 0 sh) as [Ph|]; [|discriminate H].
  destruct (Z.ltb_spec 0 sw) as [Pw|]; [|discriminate H].
  cbn [andb] in H. injection H as <-.
  split; [exact Ph|]. split; [exact Pw|].
  split; [rewrite length_map; exact Hbs|].
  rewrite Forall_map. revert Hall. apply Forall_impl. intros im [Hch _].
  split; [rewrite length_map; exact Hch|].
  rewrite Forall_map. rewrite Forall_forall. intros pl _.
  split; [apply repeat_length|].
  rewrite Forall_forall. intros row Hrow. apply repeat_spec in Hrow. subst row.
  apply repeat_length.
Qed.

Lemma ceil_unit (x : R) : 0 < x <= 1 -> ceil x = 1%Z.
Proof.
  intros Hx. destruct (ceil_bounds x) as [C1 C2].
  assert (0 < ceil x)%Z by (apply lt_IZR; lra).
  assert (ceil x < 2)%Z by (apply lt_IZR; lra). lia.
Qed.

Lemma scale_ones :
  exists out,
    _scale_image ScaleExamples.interpolate_black ScaleExamples.ones_1x1x2x2 1 false =
    Ok out.
Proof.
  unfold _scale_image, new_size, target_size.
  cbn [shape4 ScaleExamples.ones_1x1x2x2 length hd fst snd].
  replace (INR 2 * 1) with (IZR 2) by (simpl; lra).
  rewrite long_IZR.
  rewrite (@ceil_unit (IZR 2 / 64)) by lra.
  eexists. reflexivity.
Qed.

Lemma scale_image_shape_witness :
  exists out,
    interpolate_sized ScaleExamples.interpolate_black /\
    rectangular4 ScaleExamples.ones_1x1x2x2 1 1 2 2 /\
    (0 < 1)%nat /\ (0 < 2)%nat /\
    _scale_image ScaleExamples.interpolate_black ScaleExamples.ones_1x1x2x2 1 false =
      Ok out /\
    let '(sh, sw) := new_size 2 2 1 in
    let '(oh, ow) := target_size 2 2 1 false in
    exists resized,
      ScaleExamples.interpolate_black ScaleExamples.ones_1x1x2x2 (sh, sw) =
        Ok resized /\
      (0 <= oh)%Z /\ (0 <= ow)%Z /\
      rectangular4 out 1 1 (Z.to_nat oh) (Z.to_nat ow) /\
      (false = true -> oh = Z.of_nat 2 /\ ow = Z.of_nat 2) /\
      (false = false ->
         (oh mod 64 = 0)%Z /\ (ow mod 64 = 0)%Z /\
         (0 <= oh - sh <= 64)%Z /\ (0 <= ow - sw <= 64)%Z) /\
      forall b c y x, (b < 1)%nat -> (c < 1)%nat ->
        (y < Z.to_nat oh)%nat -> (x < Z.to_nat ow)%nat ->
        get4 out b c y x =
        if ((y <? Z.to_nat sh) && (x <? Z.to_nat sw))%nat
        then get4 resized b c y x else 447 / 1000.
Proof.
  destruct scale_ones as (out & E). exists out.
  assert (Hr : rectangular4 ScaleExamples.ones_1x1x2x2 1 1 2 2).
  { split; [reflexivity|]. repeat constructor. }
  assert (P1 : (0 < 1)%nat) by lia. assert (P2 : (0 < 2)%nat) by lia.
  split; [exact interpolate_black_sized|]. split; [exact Hr|].
  split; [exact P1|]. split; [exact P2|]. split; [exact E|].
  exact (@scale_image_shape ScaleExamples.interpolate_black
           interpolate_black_sized ScaleExamples.ones_1x1x2x2 1 1 2 2 1 false out
           Hr P1 P1 P2 E).
Defined.

End ScaleFacts.
